(* ===== verification/_CoqProject ===== *)
-Q . S2P
Prelude.v
GoStrings.v
Config.v
Naming.v
Mcp.v
Json.v
Registries.v
Cache.v
RateLimit.v
CircuitBreaker.v
OpenApi.v
Transform.v
Synthetic.v
Loader.v
Validator.v
Search.v
Embedding.v
ToolRegistry.v
HttpUpstream.v
Content.v
Url.v
TypeGen.v
CrdTools.v
Outbound.v
HttpRequest.v
HttpExecutor.v
OAuth.v
Backends.v
Telemetry.v
Command.v
Script.v
Ui.v
Inbound.v
ScriptCredentials.v
JsAuth.v
LuaAuth.v
Refresher.v
ConfigLoader.v
Transport.v
Server.v
Manager.v
ManagerSync.v
ManagerCalls.v
ManagerSample.v
ManagerRefresh.v
Proxy.v
Assembly.v
ProxyRuns.v
Crd.v
DeepCopy.v
ConfigGen.v
Kube.v
KubeCluster.v
Annotations.v
Operator.v
UpstreamController.v
OperatorFrame.v
OperatorGoals.v
OperatorStable.v
OperatorTheorems.v
OperatorSample.v
