(* ===== verification/Prelude.v ===== *)
(** * mcp-auto: a verification library for the MCP proxy and its operator

    mcp-auto (src/, a Go program) turns REST APIs described by OpenAPI documents,
    command lines and JavaScript files into tools of the Model Context Protocol.
    A configuration names upstreams; each is compiled into registry entries, the
    entries form the live registry of the manager, and the manager serves them on
    one MCP server per group endpoint, behind inbound authentication, rate limits,
    a response cache and circuit breakers.  A Kubernetes operator generates such
    configurations from custom resources and keeps the proxy's objects.  This
    library models the program as executable definitions, one file per component,
    and proves what makes it correct.  All paths below are under src/pkg/ unless
    they say otherwise.

    ** Conventions

    - A Go function that returns [(T, error)] is a function into [result]: one
      error constructor per [fmt.Errorf] call, without the wrapped texts.
    - State is passed explicitly.  The outside world (network, executors, stores,
      validators) is a type [W] that is threaded through the calls.
    - A Go map that is ranged over is visited in an order given as a parameter
      ([order], [gorder], [range_order]) that is any permutation of the map, so
      what is proved holds for every iteration order.
    - [int] and [int64] are [Z] with the wrap-around written out where it can
      matter ([wrap64], [wrap32] for the failure counter); [float64] is
      [SpecFloat]'s; strings are byte strings, decoded as UTF-8 where Go ranges
      over runes.  Pointers whose identity matters are [positive] numbers; where
      aliasing is the subject ([DeepCopy], [Synthetic]) memory is a finite map.
    - Code that is not under src/ is a parameter, usually a class: the MCP
      server library ([McpServer]), gojq ([Gojq]), JSONPath, text/template
      ([Templates]), the JavaScript engine ([ScriptEngine], [AuthEngine],
      [UiEngine]) and the Lua interpreter ([LuaEngine]), gobreaker, the rate
      limiter, the OAuth client library ([OAuthEnv]), OpenAPI, YAML and overlay
      parsing ([SpecLibs]), JSON and URL parsing ([JsonText], [UrlEnv]), AES-GCM,
      SHA-256, HMAC, the semaphore ([Semaphore]), Redis, Postgres and Ristretto
      ([RedisService], [PostgresService], [Ristretto]), goga ([Goga]), certificates
      and files ([CertEnv], [FileSystem]), OpenTelemetry ([OtelSdk]), the tokenizer
      ([Tokenizer]), hugot ([HugotLib]), the Kubernetes client ([KubeApi]) and the
      types of Kubernetes ([KubeTypes], [ForeignTypes]).  Where a theorem relies on
      their behaviour the hypothesis is a named law with an instance.

    ** The files

    - [Prelude]: results, list lemmas, [wrap64], reachability.  [GoStrings]: the
      string functions of the standard library.  [Mcp]: JSON-like values, tools,
      results.  [Json]: json.Marshal, with lemmas on its output.  [Url]: escaping
      and query strings with their round trips, canonical header names.
    - [Config] (config/config.go): every configuration struct.  [ConfigLoader]
      (config/loader.go, telemetry/reload.go): defaults, loading, and the watcher
      as a step relation.  [TypeGen] (src/internal/crdutil/typegen.go): the
      generator of resource types from configuration types.  [CrdTools]
      (src/cmd/crdgen, src/cmd/crdlint, analysis/crdlint/): the programs that
      generate and check everything that is derived from these types.
    - [Naming] (openapi/naming.go), [OpenApi] (openapi/generator.go,
      inputschema.go), [Synthetic] (openapi/synthetic.go), [Validator]
      (openapi/request_jq.go, validator.go), [Loader] (openapi/loader.go,
      overlay.go), [Transform] (transform/): from an OpenAPI document to named,
      validated tools.
    - [HttpUpstream] (upstream/http/builder.go, client.go), [Command]
      (upstream/command/), [Script] (upstream/script/, runtime/pool.go), [Ui]
      (ui/, upstream/http/withui/): from tools to registry entries and pages;
      [Registries] (registry/, middleware/, runtime/registry.go,
      upstream/upstream.go): the tables the parts register themselves in.
    - [HttpRequest], [HttpExecutor] (upstream/http/executor.go, client.go),
      [Content] (content/), [Outbound] (auth/outbound/), [CircuitBreaker]
      (upstream/circuitbreaker/, upstream/readiness.go), [Transport] (transport/):
      one call of an HTTP tool, from arguments to result.
    - [OAuth] (oauth/callbackmux/, auth/outbound/oauth2usersession/, session/):
      per-user tokens, signed states, encryption at rest.  [Backends]
      (session/redis, session/postgres, cache/, ratelimit/): the stores.
      [ScriptCredentials], [JsAuth] (runtime/js/), [LuaAuth] (runtime/lua/):
      tokens validated and credentials supplied by scripts.
    - [ToolRegistry] (upstream/registry.go), [Cache] (cache/cache.go),
      [RateLimit] (ratelimit/ratelimit.go), [Search] (search/search.go),
      [Embedding] (embedding/), [Telemetry] (telemetry/, tokencounter/): what the
      manager is made of.
    - [Manager] (mcp/manager.go): the manager and all its operations.
      [ManagerSync], [ManagerCalls]: its theorems; [ManagerSample]: a sample
      manager and the witnesses.
    - [Refresher] (upstream/http/refresh.go): the background refresh against the
      interface [RegistryManager]; [ManagerRefresh]: the manager as an instance of
      that interface.
    - [Inbound] (auth/inbound/), [Proxy] and [Assembly] (mcpanything/proxy.go),
      [Server] (server/, caddy/): who reaches the handlers, how the configuration
      decides it, and how the parts are put together.  [ProxyRuns]: the assembled
      proxy over whatever happens to it.
    - [Crd] (crd/v1alpha1/, operator/webhook/), [DeepCopy]
      (crd/v1alpha1/zz_generated.deepcopy.go), [ConfigGen] (operator/configgen/),
      [Annotations], [Operator], [UpstreamController] (operator/controller/): the
      operator, over the Kubernetes client of [Kube], with [KubeCluster] as a
      cluster to run it on.  [OperatorFrame] (what a pass may write),
      [OperatorGoals] (what each step achieves), [OperatorStable] (when it changes
      nothing, when it succeeds), [OperatorTheorems], [OperatorSample].

    ** Interfaces

    [RegistryManager] with [RegistryManagerLaws] is what the refresher promises
    itself of a manager; [ManagerRefresh.manager_laws] discharges it.
    [CacheStore] has the laws [CacheStoreLaws] with the Redis store and a map as
    instances, [TokenStore] the laws [TokenStoreLaws] with the memory, Redis and
    Postgres stores; [VectorStore], [McpServer], [Semaphore], [FileSystem] have
    laws with sample instances.  [TokenProvider] is what the outbound middleware
    needs of a strategy: bearer, API key, client credentials and scripts are
    instances.  [KubeApi] with [KubeLaws], [ServerDefaults] and [ConditionLaws] is
    what the operator relies on of Kubernetes, and [Cluster] is an instance in
    which any call can be made to fail.

    ** What is proved

    - Names and schemas: prefixed names are injective where they are not cut, fit
      [max_length], and are made of normal identifiers ([Naming]); the schema a
      tool shows has exactly the arguments its request needs
      ([InputSchema_arguments]); generation of synthetic values ends on cyclic
      schemas ([Generate_terminates]).
    - The registry: when [New] succeeds, that rebuilding from entries gives the
      same registry in any order, group membership and isolation ([ToolRegistry]).
    - The manager: the servers stay in step with the live registry over every
      sequence of operations ([servers_in_sync], by induction on reachability);
      failing rebuilds change nothing; rate limits and cache are observed.
    - The refresher: the failure counter over any run, no loss on errors, and over
      the manager, that a healthy upstream is registered.
    - Configuration and composition: the live configuration has been accepted
      whatever the interleaving of reloads ([current_accepted]), a reload is all or
      nothing ([reload_atomic]), what [New] mounts ([New_mounts]), and over every
      run of the assembled proxy manager, servers and handlers follow the live
      configuration ([running_proxy]).
    - Calls: a call fails closed, the URL and the headers carry what was meant,
      the breaker is transparent, output is bounded ([HttpExecutor],
      [HttpRequest], [Command]).
    - Security: who passes inbound authentication ([dispatch_admits]), that a
      challenge is one line, that a shell argument stays an argument, that OAuth
      states cannot be moved between upstreams and tokens not between users, that
      script credentials are not left out ([js_request_credentials]), what a TLS
      configuration promises ([BuildTLSConfig_promises]).
    - Stores, pools, telemetry: the Redis and Postgres stores satisfy the laws the
      OAuth session is proved against; never more runtimes than slots, over every
      interleaving ([pool_bounded]); what is recorded and shut down.
    - The operator: a pass that succeeds reaches the generated state from any
      stored state ([Reconcile_converges]), a second one changes nothing
      ([Reconcile_idempotent]), without failing calls it succeeds
      ([Reconcile_succeeds]), it writes objects of the proxy's name only
      ([Reconcile_footprint]), the pod reads what was generated
      ([pod_reads_generated]), and events reach the proxies they concern
      ([watches_cover_selection]).  Copies share no memory ([DeepCopy_separates]).
    - Generated types: the generated file declares what it uses and loses no name
      ([generated_types_declared], [snakeToCamel_roundtrip]); what crdgen has
      generated crdlint accepts ([generated_passes]), what acceptance means
      ([lint_exact]), and the linter agrees with the command ([linters_agree]).
    - Flaws: theorems that state where the code does not do what it means to, for
      instance [UpdateUpstream_poisons], [renamed_group_keeps_tools],
      [path_item_params_missing], [unchanged_never_recovers],
      [refreshed_entries_unlimited], [double_quoted_injection],
      [overrides_need_global], [batch_skips_override], [reload_keeps_first_auth],
      [stale_reload_wins], [redis_forgets_refresh_token],
      [callback_without_sessions_panics], [client_authorities_unchecked],
      [lua_empty_answer_goes_bare], [foreign_objects_taken_over],
      [command_upstream_inadmissible], [generated_credentials_missing].

    ** Fuel

    The one recursion that is not structural follows schema references in
    [Synthetic].  [genFuel] is one more than the number of schemas in the heap;
    the visited set grows along every path, so it is enough for every schema, and
    [Generate_terminates] says that more fuel changes nothing.

    ** Not modelled

    Log output; the texts of wrapped errors; upper and lower case beyond ASCII;
    the []byte form of extension values; random data other than through a
    parameter; the console of scripts; the length of the reload's debounce; chi's
    choice among routes, sockets and handshakes.  The operator's reads are up to date, and nobody else writes during a pass: stale
    caches, resource-version conflicts and garbage collection are left out, calls
    that fail are not.  Of the program's parts: the registration of the resource
    types in a scheme and the program entry points, which parse flags and wire
    libraries.
*)
From stdpp Require Export base gmap strings list fin_maps sorting relations.
From Stdlib Require Export ZArith Lia.

(** ** Fallible operations

    A Go function that returns [(T, error)] returns a [result]: [Ok] for a nil
    error and [Err] for a non-nil one.  Each component has its own error type,
    with a constructor per [fmt.Errorf] call. *)
Inductive result (E A : Type) : Type :=
  | Ok (a : A)
  | Err (e : E).
Arguments Ok {E A} a.
Arguments Err {E A} e.

Section Result.
Context {E : Type}.

#[global] Instance result_ret : MRet (result E) := fun A a => Ok a.

#[global] Instance result_bind : MBind (result E) := fun A B f m =>
  match m with
  | Ok a => f a
  | Err e => Err e
  end.

#[global] Instance result_fmap : FMap (result E) := fun A B f m =>
  match m with
  | Ok a => Ok (f a)
  | Err e => Err e
  end.

Definition is_ok {A} (m : result E A) : bool :=
  match m with Ok _ => true | Err _ => false end.

(** [if cond { return ..., err }] *)
Definition guard_err (ok : bool) (e : E) : result E unit :=
  if ok then Ok tt else Err e.

Lemma bind_Ok {A B} (m : result E A) (f : A -> result E B) b :
  m ≫= f = Ok b <-> exists a, m = Ok a /\ f a = Ok b.
Proof.
  destruct m; cbn; split; [eauto| |discriminate|]; intros (?&?&?); congruence.
Qed.

Lemma fmap_Ok {A B} (m : result E A) (f : A -> B) b :
  f <$> m = Ok b <-> exists a, m = Ok a /\ f a = b.
Proof.
  destruct m; cbn; split; [|intros (?&?&?); congruence|discriminate|intros (?&?&?); congruence].
  intros [= <-]. eauto.
Qed.

Lemma guard_err_Ok ok (e : E) : guard_err ok e = Ok tt <-> ok = true.
Proof. destruct ok; cbn; split; congruence. Qed.

Lemma is_ok_true {A} (m : result E A) : is_ok m = true <-> exists a, m = Ok a.
Proof. destruct m; cbn; split; [eauto|done|done|intros [? ?]; congruence]. Qed.
End Result.

#[global] Instance result_eq_dec `{EqDecision E, EqDecision A} :
  EqDecision (result E A).
Proof. solve_decision. Defined.

Create HintDb go.
#[export] Hint Resolve <- bind_Ok fmap_Ok : go.

(** Splits a successful run of a monadic handler into the run of its steps. *)
Ltac run_ok :=
  repeat match goal with
  | H : Ok _ = Ok _ |- _ => injection H as H; subst
  | H : Err _ = Ok _ |- _ => discriminate H
  | H : Ok _ = Err _ |- _ => discriminate H
  | H : mbind _ _ = Ok _ |- _ => apply bind_Ok in H as (? & ? & H)
  | H : fmap _ _ = Ok _ |- _ => apply fmap_Ok in H as (? & ? & H)
  | H : guard_err _ _ = Ok ?u |- _ => destruct u; apply guard_err_Ok in H
  end.

(** Case analysis on the tests and matches of the code, in the goal. *)
Ltac step_code :=
  repeat (case_match || case_decide); simplify_eq/=.

(** ** Lists *)
Section Lists.
Context {A : Type}.
Implicit Types (l : list A).

Lemma elem_of_filter_bool (p : A -> bool) x l :
  x ∈ filter p l <-> p x = true /\ x ∈ l.
Proof. rewrite list_elem_of_filter, Is_true_true. done. Qed.

Lemma NoDup_filter_bool (p : A -> bool) l : NoDup l -> NoDup (filter p l).
Proof. apply NoDup_filter. Qed.

(** Two maps over the same list agree when they agree on its elements. *)
Lemma NoDup_fmap_inj_on {B} (f : A -> B) l :
  NoDup (f <$> l) -> forall x y, x ∈ l -> y ∈ l -> f x = f y -> x = y.
Proof.
  induction l as [|z l IH]; cbn; intros Hnd x y Hx Hy Hf; [set_solver|].
  apply NoDup_cons in Hnd as [Hz Hnd].
  apply elem_of_cons in Hx as [->|Hx]; apply elem_of_cons in Hy as [->|Hy].
  - done.
  - destruct Hz. rewrite Hf. by apply list_elem_of_fmap_2.
  - destruct Hz. rewrite <-Hf. by apply list_elem_of_fmap_2.
  - by apply IH.
Qed.

Lemma filter_congr (P Q : A -> Prop) `{!forall x, Decision (P x), !forall x, Decision (Q x)} l :
  (forall x, x ∈ l -> P x <-> Q x) -> filter P l = filter Q l.
Proof.
  induction l as [|x l IH]; intros Hpq; [done|]. rewrite !filter_cons.
  rewrite IH by (intros; apply Hpq; by right).
  rewrite (decide_ext (P x) (Q x)); [done|]. apply Hpq. by left.
Qed.

(** Selecting by membership in a sublist gives the sublist. *)
Lemma filter_sublist `{EqDecision B} (f : A -> B) l s :
  NoDup (f <$> l) -> sublist s (f <$> l) -> f <$> filter (fun x => f x ∈ s) l = s.
Proof.
  revert s. induction l as [|x l IH]; intros s Hnd Hsub; [by apply sublist_nil_r in Hsub|].
  cbn in Hnd, Hsub. apply NoDup_cons in Hnd as [Hx Hnd].
  assert (Hfresh : forall k, sublist k (f <$> l) -> f x ∉ k).
  { intros k Hk%sublist_submseteq Hin. apply Hx. by eapply elem_of_submseteq. }
  inversion Hsub as [|? k ? Hk|? k ? Hk]; subst.
  - rewrite filter_cons, decide_True by set_solver. cbn. f_equal.
    rewrite (filter_congr _ (fun y => f y ∈ k)); [by apply IH|].
    intros y Hy. rewrite elem_of_cons. split; [|by right]. intros [He|]; [|done].
    destruct Hx. rewrite <-He. by apply list_elem_of_fmap_2.
  - rewrite filter_cons, decide_False by by apply Hfresh. by apply IH.
Qed.

Lemma sublist_full (s l : list A) : sublist s l -> length s = length l -> s = l.
Proof.
  induction 1 as [|x s l _ IH|x s l Hsub]; cbn; intros Hlen; [done|f_equal; auto|].
  apply sublist_length in Hsub. lia.
Qed.

Lemma elem_of_fmap_iff {B} (f : A -> B) l y :
  y ∈ (f <$> l) <-> exists x, y = f x /\ x ∈ l.
Proof. apply list_elem_of_fmap. Qed.

Lemma bind_Permutation {B} (f : A -> list B) l1 l2 :
  l1 ≡ₚ l2 -> (l1 ≫= f) ≡ₚ (l2 ≫= f).
Proof. by intros ->. Qed.
End Lists.

(** ** Sets of strings kept as [map[string]bool]

    The code only ever stores [true] in them, so a [gset] is the same data. *)
Definition set_of_names (l : list string) : gset string := list_to_set l.

Lemma elem_of_set_of_names x l : x ∈ set_of_names l <-> x ∈ l.
Proof. apply elem_of_list_to_set. Qed.
#[export] Hint Resolve <- elem_of_set_of_names : go.

(** ** Machine integers: two's complement wrap-around of [int64] arithmetic *)
Definition wrap64 (z : Z) : Z := ((z + 2 ^ 63) mod 2 ^ 64 - 2 ^ 63)%Z.

Lemma wrap64_id z : (- 2 ^ 63 <= z < 2 ^ 63)%Z -> wrap64 z = z.
Proof. intros H. unfold wrap64. rewrite Z.mod_small by lia. lia. Qed.

(** ** Reachability of a step relation *)
Abbreviation reachable := rtc.

Lemma reachable_invariant {S} (step : S -> S -> Prop) (I : S -> Prop) :
  (forall s s', I s -> step s s' -> I s') ->
  forall s s', reachable step s s' -> I s -> I s'.
Proof. intros Hstep s s' Hr. induction Hr; eauto. Qed.
