(* ===== verification/GoStrings.v ===== *)
(** * Go strings

    A Go string is a sequence of bytes, a Rocq [string].  This file models the
    functions of the Go packages [strings], [unicode/utf8] and [strconv] that
    the program calls.  [decode] is the loop of [for _, r := range s] and of
    [[]rune(s)]: an ill-formed byte is the rune U+FFFD of width one.  Case
    mapping is the ASCII one: the program maps the case of HTTP methods, media
    types and names that have already been reduced to ASCII. *)
From Stdlib Require Export Ascii.
From S2P Require Export Prelude.
Open Scope N_scope.

Abbreviation explode := String.list_ascii_of_string.
Abbreviation implode := String.string_of_list_ascii.
Abbreviation byte_of := ascii_of_N.
Abbreviation of_byte := N_of_ascii.

Lemma implode_explode s : implode (explode s) = s.
Proof. apply String.string_of_list_ascii_of_string. Qed.
Lemma explode_implode l : explode (implode l) = l.
Proof. apply String.list_ascii_of_string_of_list_ascii. Qed.

Lemma string_app_cons c s t : String c s +:+ t = String c (s +:+ t).
Proof. done. Qed.
Lemma explode_app s t : explode (s +:+ t) = explode s ++ explode t.
Proof. induction s as [|c s IH]; [done|]. rewrite string_app_cons. cbn. by rewrite IH. Qed.
Lemma implode_app l k : implode (l ++ k) = implode l +:+ implode k.
Proof. induction l as [|c l IH]; [done|]. cbn. by rewrite IH. Qed.
Lemma explode_inj s t : explode s = explode t -> s = t.
Proof. intros H. by rewrite <-(implode_explode s), H, implode_explode. Qed.
Lemma string_app_assoc (s t u : string) : (s +:+ t) +:+ u = s +:+ (t +:+ u).
Proof. apply explode_inj. by rewrite !explode_app, app_assoc. Qed.
Lemma string_app_nil_r (s : string) : s +:+ "" = s.
Proof. apply explode_inj. by rewrite explode_app, app_nil_r. Qed.
Lemma string_app_inj_l (s t u : string) : s +:+ u = t +:+ u -> s = t.
Proof.
  intros H. apply explode_inj. apply (f_equal explode) in H.
  rewrite !explode_app in H. by apply app_inv_tail in H.
Qed.
Lemma string_app_inj_r (s t u : string) : u +:+ s = u +:+ t -> s = t.
Proof. apply (inj (String.app u)). Qed.

(** ** Bytes *)
Definition in_range (lo hi : N) (c : ascii) : bool :=
  (lo <=? of_byte c) && (of_byte c <=? hi).

Definition is_upper : ascii -> bool := in_range 65 90.
Definition is_lower : ascii -> bool := in_range 97 122.
Definition is_digit : ascii -> bool := in_range 48 57.
Definition is_alpha (c : ascii) : bool := is_upper c || is_lower c.
Definition is_alnum (c : ascii) : bool := is_alpha c || is_digit c.
Definition underscore : ascii := "_"%char.
Definition is_underscore (c : ascii) : bool := bool_decide (c = underscore).

Definition lower_char (c : ascii) : ascii :=
  if is_upper c then byte_of (of_byte c + 32) else c.
Definition upper_char (c : ascii) : ascii :=
  if is_lower c then byte_of (of_byte c - 32) else c.

Lemma of_byte_lt c : of_byte c < 256.
Proof. apply N_ascii_bounded. Qed.
Lemma of_byte_of n : n < 256 -> of_byte (byte_of n) = n.
Proof. apply N_ascii_embedding. Qed.
#[export] Hint Resolve of_byte_lt : go.

Lemma in_range_spec lo hi c :
  in_range lo hi c = true <-> lo <= of_byte c <= hi.
Proof. unfold in_range. rewrite andb_true_iff, !N.leb_le. done. Qed.

(** Decides a byte-class goal by cases on the 256 bytes. *)
Ltac all_bytes c := destruct c as [[] [] [] [] [] [] [] []]; vm_compute; auto.

Lemma lower_char_not_upper c : is_upper (lower_char c) = false.
Proof. all_bytes c. Qed.
Lemma lower_char_id c : is_upper c = false -> lower_char c = c.
Proof. unfold lower_char. by intros ->. Qed.
Lemma lower_char_alnum c : is_alnum (lower_char c) = is_alnum c.
Proof. all_bytes c. Qed.
Lemma lower_char_underscore c : is_underscore (lower_char c) = is_underscore c.
Proof. all_bytes c. Qed.

(** Evaluates the comparisons of the goal that linear arithmetic decides. *)
Ltac decide_N_tests :=
  repeat match goal with
  | |- context [?a <? ?b] =>
      first [rewrite (proj2 (N.ltb_lt a b)) by lia
            |rewrite (proj2 (N.ltb_ge a b)) by lia]
  | |- context [?a <=? ?b] =>
      first [rewrite (proj2 (N.leb_le a b)) by lia
            |rewrite (proj2 (N.leb_gt a b)) by lia]
  | |- context [?a =? ?b] =>
      first [rewrite (proj2 (N.eqb_eq a b)) by lia
            |rewrite (proj2 (N.eqb_neq a b)) by lia]
  end; cbn [andb orb negb].

(** Turns the comparisons assumed true or false into propositions. *)
Ltac N_tests_to_prop :=
  repeat match goal with
  | H : andb _ _ = true |- _ => apply andb_true_iff in H as [? H]
  | H : in_range _ _ _ = true |- _ => apply in_range_spec in H
  | H : (_ <? _) = true |- _ => apply N.ltb_lt in H
  | H : (_ <? _) = false |- _ => apply N.ltb_ge in H
  | H : (_ <=? _) = true |- _ => apply N.leb_le in H
  | H : (_ <=? _) = false |- _ => apply N.leb_gt in H
  | H : (_ =? _) = true |- _ => apply N.eqb_eq in H
  | H : (_ =? _) = false |- _ => apply N.eqb_neq in H
  end.

(** ** UTF-8 *)
Definition RuneError : N := 65533.

Definition is_cont : ascii -> bool := in_range 128 191.

(** The bounds the first byte of a three- or four-byte sequence sets on the
    second one ([acceptRanges] of [unicode/utf8]). *)
Definition second_ok (b0 b1 : ascii) : bool :=
  let n := of_byte b0 in
  if n =? 224 then in_range 160 191 b1
  else if n =? 237 then in_range 128 159 b1
  else if n =? 240 then in_range 144 191 b1
  else if n =? 244 then in_range 128 143 b1
  else is_cont b1.

Definition low6 (c : ascii) : N := of_byte c - 128.
Definition rune2 b0 b1 : N := (of_byte b0 - 192) * 64 + low6 b1.
Definition rune3 b0 b1 b2 : N :=
  (of_byte b0 - 224) * 4096 + low6 b1 * 64 + low6 b2.
Definition rune4 b0 b1 b2 b3 : N :=
  (of_byte b0 - 240) * 262144 + low6 b1 * 4096 + low6 b2 * 64 + low6 b3.

(** The length a first byte announces; 0 for a byte that starts nothing. *)
Definition lead (b0 : ascii) : nat :=
  let n := of_byte b0 in
  if n <? 128 then 1
  else if n <? 194 then 0
  else if n <? 224 then 2
  else if n <? 240 then 3
  else if n <? 245 then 4
  else 0.

(** The runes of a byte sequence, each with the bytes it was read from. *)
Fixpoint decode (s : list ascii) : list (N * list ascii) :=
  match s with
  | [] => []
  | b0 :: s1 =>
    let bad (_ : unit) := (RuneError, [b0]) :: decode s1 in
    match lead b0 with
    | 1%nat => (of_byte b0, [b0]) :: decode s1
    | 2%nat =>
      match s1 with
      | b1 :: s2 =>
        if is_cont b1 then (rune2 b0 b1, [b0; b1]) :: decode s2 else bad tt
      | _ => bad tt
      end
    | 3%nat =>
      match s1 with
      | b1 :: b2 :: s3 =>
        if second_ok b0 b1 && is_cont b2
        then (rune3 b0 b1 b2, [b0; b1; b2]) :: decode s3 else bad tt
      | _ => bad tt
      end
    | 4%nat =>
      match s1 with
      | b1 :: b2 :: b3 :: s4 =>
        if second_ok b0 b1 && is_cont b2 && is_cont b3
        then (rune4 b0 b1 b2 b3, [b0; b1; b2; b3]) :: decode s4 else bad tt
      | _ => bad tt
      end
    | _ => bad tt
    end
  end.

(** [[]rune(s)] *)
Definition runes (s : string) : list N := (decode (explode s)).*1.

Definition valid_rune (r : N) : bool :=
  (r <? 55296) || ((57344 <=? r) && (r <=? 1114111)).

(** [utf8.AppendRune] *)
Definition encode_rune (r : N) : list ascii :=
  if r <? 128 then [byte_of r]
  else if r <? 2048 then [byte_of (192 + r / 64); byte_of (128 + r mod 64)]
  else if negb (valid_rune r) then [byte_of 239; byte_of 191; byte_of 189]
  else if r <? 65536 then
    [byte_of (224 + r / 64 / 64); byte_of (128 + r / 64 mod 64);
     byte_of (128 + r mod 64)]
  else
    [byte_of (240 + r / 64 / 64 / 64); byte_of (128 + r / 64 / 64 mod 64);
     byte_of (128 + r / 64 mod 64); byte_of (128 + r mod 64)].

(** [string(rs)] for a rune slice [rs] *)
Definition of_runes (rs : list N) : string := implode (rs ≫= encode_rune).

Section Utf8.
Implicit Types (s : list ascii) (r : N).

Lemma decode_cons b0 s1 :
  exists r bs rest, decode (b0 :: s1) = (r, bs) :: decode rest /\
    b0 :: s1 = bs ++ rest /\ (0 < length bs)%nat.
Proof.
  cbn. repeat case_match; eexists _, _, _; split_and!; try reflexivity; cbn; lia.
Qed.

(** Induction along the steps of [decode]. *)
Lemma decode_ind (P : list ascii -> Prop) :
  P [] ->
  (forall s r bs rest, decode s = (r, bs) :: decode rest -> s = bs ++ rest ->
    (0 < length bs)%nat -> P rest -> P s) ->
  forall s, P s.
Proof.
  intros Hnil Hstep s. remember (length s) as n eqn:Hn. revert s Hn.
  induction (lt_wf n) as [n _ IH]; intros [|b0 s1] Hn; [done|].
  destruct (decode_cons b0 s1) as (r & bs & rest & Hd & Hs & Hbs).
  apply (Hstep _ r bs rest); [done..|]. apply (IH (length rest)); [|done].
  rewrite Hn, Hs, length_app. lia.
Qed.

(** No byte is lost: the pieces of [decode s] are [s]. *)
Lemma decode_pieces s : concat (decode s).*2 = s.
Proof.
  induction s as [|s r bs rest Hd -> Hbs IH] using decode_ind; [done|].
  rewrite Hd. cbn. by rewrite IH.
Qed.

Lemma decode_lead1 b0 s :
  lead b0 = 1%nat -> decode (b0 :: s) = (of_byte b0, [b0]) :: decode s.
Proof. intros H. cbn [decode]. by rewrite H. Qed.

Lemma decode_lead2 b0 b1 s :
  lead b0 = 2%nat -> is_cont b1 = true ->
  decode (b0 :: b1 :: s) = (rune2 b0 b1, [b0; b1]) :: decode s.
Proof. intros H H1. cbn [decode]. by rewrite H, H1. Qed.

Lemma decode_lead3 b0 b1 b2 s :
  lead b0 = 3%nat -> second_ok b0 b1 = true -> is_cont b2 = true ->
  decode (b0 :: b1 :: b2 :: s) = (rune3 b0 b1 b2, [b0; b1; b2]) :: decode s.
Proof. intros H H1 H2. cbn [decode]. by rewrite H, H1, H2. Qed.

Lemma decode_lead4 b0 b1 b2 b3 s :
  lead b0 = 4%nat -> second_ok b0 b1 = true -> is_cont b2 = true ->
  is_cont b3 = true ->
  decode (b0 :: b1 :: b2 :: b3 :: s) =
    (rune4 b0 b1 b2 b3, [b0; b1; b2; b3]) :: decode s.
Proof. intros H H1 H2 H3. cbn [decode]. by rewrite H, H1, H2, H3. Qed.

Lemma div_mod_64 n : exists q d, n / 64 = q /\ n mod 64 = d /\ n = q * 64 + d /\ d < 64.
Proof.
  exists (n / 64), (n mod 64). split_and!; [done..| |].
  - rewrite N.mul_comm. by apply N.div_mod.
  - by apply N.mod_lt.
Qed.

(** [decode] reads back the encoding of a valid rune. *)
Lemma decode_encode_rune r s :
  valid_rune r = true ->
  decode (encode_rune r ++ s) = (r, encode_rune r) :: decode s.
Proof.
  unfold encode_rune. intros Hv. rewrite Hv. cbn [negb].
  unfold valid_rune in Hv.
  rewrite orb_true_iff, andb_true_iff, !N.leb_le, N.ltb_lt in Hv.
  destruct (div_mod_64 r) as (q1 & d1 & -> & -> & Hr & ?).
  destruct (div_mod_64 q1) as (q2 & d2 & -> & -> & Hq1 & ?).
  destruct (div_mod_64 q2) as (q3 & d3 & -> & -> & Hq2 & ?).
  repeat case_match; N_tests_to_prop; cbn [app];
    [rewrite decode_lead1|rewrite decode_lead2|rewrite decode_lead3|rewrite decode_lead4];
    unfold lead, second_ok, is_cont, in_range, rune2, rune3, rune4, low6;
    rewrite ?of_byte_of by lia; decide_N_tests; try reflexivity.
  - do 2 f_equal. lia.
  - do 2 f_equal. lia.
  - destruct (N.eq_dec q2 0), (N.eq_dec q2 13); by decide_N_tests.
  - do 2 f_equal. lia.
  - destruct (N.eq_dec q3 0), (N.eq_dec q3 4); by decide_N_tests.
Qed.

Lemma decode_encode rs s :
  Forall (fun r => valid_rune r = true) rs ->
  (decode ((rs ≫= encode_rune) ++ s)).*1 = rs ++ (decode s).*1.
Proof.
  induction 1 as [|r rs Hr _ IH]; [done|].
  rewrite bind_cons, <-app_assoc, decode_encode_rune by done. cbn. by rewrite IH.
Qed.

(** Every rune of a decoded string is a valid one. *)
Lemma decode_valid s : Forall (fun r => valid_rune r = true) (decode s).*1.
Proof.
  induction s as [|s r bs rest Hd Hs Hbs IH] using decode_ind; [constructor|].
  rewrite Hd. cbn. constructor; [|done]. clear IH.
  destruct s as [|b0 s1]; [done|]. cbn in Hd. unfold lead in Hd.
  pose proof (of_byte_lt b0).
  repeat case_match; simplify_eq; try done;
    unfold second_ok, is_cont in *; repeat case_match; N_tests_to_prop;
    unfold valid_rune, rune2, rune3, rune4, low6;
    rewrite orb_true_iff, andb_true_iff, !N.leb_le, N.ltb_lt; lia.
Qed.

Lemma second_ok_cont b0 b1 : second_ok b0 b1 = true -> is_cont b1 = true.
Proof.
  unfold second_ok, is_cont. repeat case_match; intros; N_tests_to_prop;
    apply in_range_spec; lia.
Qed.

(** A piece is one ASCII byte with that rune, or holds no ASCII byte. *)
Lemma decode_piece s r bs :
  (r, bs) ∈ decode s ->
  (exists b, bs = [b] /\ of_byte b < 128 /\ r = of_byte b) \/
  Forall (fun b => 128 <= of_byte b) bs.
Proof.
  induction s as [|s r' bs' rest Hd Hs Hbs IH] using decode_ind; [by intros ?%not_elem_of_nil|].
  rewrite Hd, elem_of_cons. intros [[= -> ->]|Hin]; [clear IH|by apply IH].
  destruct s as [|b0 s1]; [done|]. cbn in Hd.
  assert (Hlead : lead b0 <> 1%nat -> 128 <= of_byte b0).
  { unfold lead. intros Hl. destruct (N.ltb_spec (of_byte b0) 128); [done|lia]. }
  assert (Hone : lead b0 = 1%nat -> of_byte b0 < 128).
  { unfold lead. repeat case_match; intros; N_tests_to_prop; done. }
  assert (Hcont : forall c, is_cont c = true -> 128 <= of_byte c)
    by (intros c Hc; apply in_range_spec in Hc; lia).
  assert (Hsnd : forall b c, second_ok b c = true -> 128 <= of_byte c)
    by (intros b c Hc; eapply Hcont, second_ok_cont, Hc).
  repeat case_match; simplify_eq;
    repeat match goal with H : andb _ _ = true |- _ => apply andb_true_iff in H as [? ?] end;
    first [left; eexists; split_and!; [done|by apply Hone|done]
          |right; repeat constructor; eauto; by apply Hlead].
Qed.

Lemma decode_cont c s : is_cont c = true -> decode (c :: s) = (RuneError, [c]) :: decode s.
Proof.
  unfold is_cont. rewrite in_range_spec. intros Hc. cbn [decode]. unfold lead.
  by decide_N_tests.
Qed.

Definition rune_count (s : list ascii) : nat := length (decode s).

Lemma rune_count_cont c s : is_cont c = true -> rune_count (c :: s) = S (rune_count s).
Proof. intros Hc. unfold rune_count. by rewrite decode_cont. Qed.

Lemma rune_count_cons b0 s1 :
  rune_count (b0 :: s1) = S
    match lead b0, s1 with
    | 2%nat, b1 :: s2 => if is_cont b1 then rune_count s2 else rune_count s1
    | 3%nat, b1 :: b2 :: s3 =>
        if second_ok b0 b1 && is_cont b2 then rune_count s3 else rune_count s1
    | 4%nat, b1 :: b2 :: b3 :: s4 =>
        if second_ok b0 b1 && is_cont b2 && is_cont b3
        then rune_count s4 else rune_count s1
    | _, _ => rune_count s1
    end.
Proof. unfold rune_count. cbn [decode]. by repeat case_match. Qed.

Lemma rune_count_nil : rune_count [] = 0%nat.
Proof. done. Qed.

(** Joining two byte sequences can only merge runes at the seam. *)
Lemma rune_count_app a b : (rune_count (a ++ b) <= rune_count a + rune_count b)%nat.
Proof.
  remember (length a) as n eqn:Hn. revert a Hn.
  induction (lt_wf n) as [n _ IH]; intros [|b0 a1] Hn; [done|].
  assert (IH' : forall a', (length a' <= length a1)%nat ->
    (rune_count (a' ++ b) <= rune_count a' + rune_count b)%nat).
  { intros a' Ha. apply (IH (length a')); [subst; cbn; lia|done]. }
  clear IH Hn. pose proof (IH' a1 (le_n _)) as IH1.
  pose proof (IH' (drop 1 a1) ltac:(rewrite length_drop; lia)) as IH2.
  pose proof (IH' (drop 2 a1) ltac:(rewrite length_drop; lia)) as IH3.
  pose proof (IH' (drop 3 a1) ltac:(rewrite length_drop; lia)) as IH4.
  clear IH'. cbn [app]. rewrite (rune_count_cons b0 (a1 ++ b)), (rune_count_cons b0 a1).
  destruct (lead b0) as [|[|[|[|[|]]]]]; try lia.
  all: destruct a1 as [|c [|d [|e a4]]]; cbn [app drop length] in *.
  all: destruct b as [|x [|y [|z b]]]; cbn [app] in *.
  all: rewrite ?app_nil_r in *; try lia.
  all: repeat case_match; try lia.
  all: repeat match goal with
    | H : andb _ _ = true |- _ => apply andb_true_iff in H as [? H]
    | H : second_ok _ _ = true |- _ => apply second_ok_cont in H
    end.
  all: repeat match goal with
    | H : is_cont ?c = true |- context [rune_count (?c :: ?s)] =>
        rewrite (rune_count_cont c s H)
    end; rewrite ?rune_count_nil, ?drop_0 in *; lia.
Qed.
End Utf8.

(** The three facts the clients use. *)
Lemma runes_of_runes rs :
  Forall (fun r => valid_rune r = true) rs -> runes (of_runes rs) = rs.
Proof.
  intros Hrs. unfold runes, of_runes. rewrite explode_implode.
  rewrite <-(app_nil_r (rs ≫= encode_rune)), decode_encode by done. apply app_nil_r.
Qed.

Lemma runes_valid s : Forall (fun r => valid_rune r = true) (runes s).
Proof. apply decode_valid. Qed.

Lemma length_runes_app s t :
  (length (runes (s +:+ t)) <= length (runes s) + length (runes t))%nat.
Proof.
  unfold runes. rewrite !length_fmap, explode_app. apply rune_count_app.
Qed.

Lemma length_runes_take n s :
  length (runes (of_runes (take n (runes s)))) = min n (length (runes s)).
Proof.
  rewrite runes_of_runes by (apply Forall_take, runes_valid). apply length_take.
Qed.
#[export] Hint Resolve runes_valid length_runes_app : go.

(** ** The package [strings] *)
Section DropWhile.
Context {A : Type} (p : A -> bool).

Fixpoint drop_while (l : list A) : list A :=
  match l with
  | x :: l' => if p x then drop_while l' else l
  | [] => []
  end.

Definition trim_right_by (l : list A) : list A := reverse (drop_while (reverse l)).
Definition trim_by (l : list A) : list A := trim_right_by (drop_while l).

Lemma drop_while_suffix l : exists k, l = k ++ drop_while l.
Proof.
  induction l as [|x l [k IH]]; [by exists []|]. cbn. case_match.
  - exists (x :: k). cbn. by rewrite <-IH.
  - by exists [].
Qed.

Lemma trim_right_by_prefix l : exists k, l = trim_right_by l ++ k.
Proof.
  unfold trim_right_by. destruct (drop_while_suffix (reverse l)) as [k Hk].
  exists (reverse k). by rewrite <-reverse_app, <-Hk, reverse_involutive.
Qed.

Lemma drop_while_head l x : head (drop_while l) = Some x -> p x = false.
Proof. induction l as [|y l IH]; [done|]. cbn. case_match; [done|]. by intros [= <-]. Qed.

Lemma drop_while_id l :
  (forall x, head l = Some x -> p x = false) -> drop_while l = l.
Proof. destruct l as [|x l]; [done|]. cbn. intros H. by rewrite (H x). Qed.

Lemma trim_right_by_last l x : last (trim_right_by l) = Some x -> p x = false.
Proof.
  unfold trim_right_by. rewrite last_reverse. apply drop_while_head.
Qed.

Lemma trim_right_by_id l :
  (forall x, last l = Some x -> p x = false) -> trim_right_by l = l.
Proof.
  intros H. unfold trim_right_by. rewrite drop_while_id; [apply reverse_involutive|].
  intros x. rewrite head_reverse. apply H.
Qed.

Lemma trim_by_elem l x : x ∈ trim_by l -> x ∈ l.
Proof.
  unfold trim_by. intros Hx.
  destruct (drop_while_suffix l) as [k1 H1], (trim_right_by_prefix (drop_while l)) as [k2 H2].
  rewrite H1, H2. set_solver.
Qed.

Lemma trim_by_head l x : head (trim_by l) = Some x -> p x = false.
Proof.
  unfold trim_by. destruct (trim_right_by_prefix (drop_while l)) as [k Hk].
  intros Hx. apply (drop_while_head l). rewrite Hk.
  destruct (trim_right_by (drop_while l)); [done|]. done.
Qed.

Lemma trim_by_last l x : last (trim_by l) = Some x -> p x = false.
Proof. apply trim_right_by_last. Qed.

Lemma trim_by_id l :
  (forall x, head l = Some x -> p x = false) ->
  (forall x, last l = Some x -> p x = false) -> trim_by l = l.
Proof.
  intros Hh Hl. unfold trim_by. by rewrite (drop_while_id l), trim_right_by_id.
Qed.
End DropWhile.

(** [strings.HasPrefix], [strings.HasSuffix], [strings.Contains] *)
Definition HasPrefix (s prefix : string) : bool := String.prefix prefix s.

Definition HasSuffix (s suffix : string) : bool :=
  let l := explode s in let k := explode suffix in
  bool_decide (length k <= length l)%nat
  && bool_decide (drop (length l - length k) l = k).

Fixpoint Contains (s sub : string) : bool :=
  HasPrefix s sub ||
  match s with
  | String _ s' => Contains s' sub
  | EmptyString => false
  end.

(** [strings.CutPrefix(s, prefix)] *)
Definition CutPrefix (s prefix : string) : option string :=
  if HasPrefix s prefix
  then Some (implode (drop (String.length prefix) (explode s))) else None.

(** [strings.Cut(s, c)], which also gives [strings.SplitN(s, c, 2)] and
    [strings.Index(s, c)] for a one-byte [c]. *)
Fixpoint cut_byte (c : ascii) (s : string) : option (string * string) :=
  match s with
  | EmptyString => None
  | String d s' =>
    if bool_decide (d = c) then Some ("", s')
    else prod_map (String d) id <$> cut_byte c s'
  end.

(** [strings.SplitN(s, c, 2)[0]] *)
Definition before_byte (c : ascii) (s : string) : string :=
  match cut_byte c s with Some (p, _) => p | None => s end.

(** [s[:strings.LastIndex(s, c)]], when [c] occurs in [s] *)
Fixpoint before_last_byte (c : ascii) (s : string) : option string :=
  match s with
  | EmptyString => None
  | String d s' =>
    match before_last_byte c s' with
    | Some p => Some (String d p)
    | None => if bool_decide (d = c) then Some "" else None
    end
  end.

(** [strings.Split(s, c)] for a one-byte separator: never an empty list *)
Fixpoint split_byte (c : ascii) (s : string) : list string :=
  match s with
  | EmptyString => [""]
  | String d s' =>
    if bool_decide (d = c) then "" :: split_byte c s'
    else match split_byte c s' with
         | p :: ps => String d p :: ps
         | [] => [String d ""]
         end
  end.

(** [strings.Join] *)
Definition Join (parts : list string) (sep : string) : string := String.concat sep parts.

(** [strings.ReplaceAll(s, old, new)], [old] not empty.  [skip] counts the
    bytes of the last occurrence that are still to be passed over. *)
Fixpoint replace_go (old new : string) (skip : nat) (s : string) : string :=
  match s with
  | EmptyString => ""
  | String c s' =>
    match skip with
    | S k => replace_go old new k s'
    | O =>
      if HasPrefix s old
      then new +:+ replace_go old new (String.length old - 1) s'
      else String c (replace_go old new 0 s')
    end
  end.
Definition ReplaceAll (s old new : string) : string := replace_go old new 0 s.

(** [strings.TrimRight(s, cutset)] and [strings.Trim(s, cutset)] for a one-byte
    ASCII cutset *)
Definition TrimRight (s : string) (c : ascii) : string :=
  implode (trim_right_by (fun d => bool_decide (d = c)) (explode s)).
Definition Trim (s : string) (c : ascii) : string :=
  implode (trim_by (fun d => bool_decide (d = c)) (explode s)).

(** [unicode.IsSpace] *)
Definition is_space_rune (r : N) : bool :=
  ((9 <=? r) && (r <=? 13)) || (r =? 32) || (r =? 133) || (r =? 160)
  || (r =? 5760) || ((8192 <=? r) && (r <=? 8202)) || (r =? 8232)
  || (r =? 8233) || (r =? 8239) || (r =? 8287) || (r =? 12288).

(** [strings.TrimSpace] *)
Definition TrimSpace (s : string) : string :=
  implode (concat (trim_by (fun p => is_space_rune p.1) (decode (explode s))).*2).

(** [strings.Fields]: the maximal runs of non-space runes *)
Fixpoint fields_go (cur : list ascii) (ps : list (N * list ascii)) : list string :=
  let flush := if decide (cur = []) then [] else [implode cur] in
  match ps with
  | [] => flush
  | (r, bs) :: ps' =>
    if is_space_rune r then flush ++ fields_go [] ps' else fields_go (cur ++ bs) ps'
  end.
Definition Fields (s : string) : list string := fields_go [] (decode (explode s)).

Definition newline : string := String (ascii_of_N 10) "".

(** [strings.ToLower] and [strings.ToUpper] on ASCII *)
Definition ToLower (s : string) : string := implode (lower_char <$> explode s).
Definition ToUpper (s : string) : string := implode (upper_char <$> explode s).

Example ReplaceAll_ex : ReplaceAll "a'b''" "'" "'\''" = "a'\''b'\'''\''".
Proof. reflexivity. Qed.
Example Fields_ex : Fields "  kubectl get	pods " = ["kubectl"; "get"; "pods"].
Proof. reflexivity. Qed.
Example TrimSpace_ex : TrimSpace "  a b  " = "a b".
Proof. reflexivity. Qed.
Example cut_ex : cut_byte ";" "text/html; charset=utf-8" = Some ("text/html", " charset=utf-8").
Proof. reflexivity. Qed.

Lemma HasPrefix_spec s p : HasPrefix s p = true <-> exists t, s = p +:+ t.
Proof.
  unfold HasPrefix. revert s. induction p as [|c p IH]; intros s.
  - split; [intros _; by exists s|]. intros _. destruct s; done.
  - destruct s as [|d s]; cbn [String.prefix].
    + split; [done|]. intros [t Ht]. rewrite string_app_cons in Ht. discriminate.
    + destruct (ascii_dec c d) as [->|Hcd].
      * rewrite IH. split; intros [t Ht]; exists t.
        -- by rewrite Ht.
        -- rewrite string_app_cons in Ht. by injection Ht.
      * split; [done|]. intros [t Ht]. rewrite string_app_cons in Ht. congruence.
Qed.

Lemma HasSuffix_spec s t : HasSuffix s t = true <-> exists p, s = p +:+ t.
Proof.
  unfold HasSuffix. rewrite andb_true_iff, !bool_decide_eq_true. split.
  - intros [_ Hd]. exists (implode (take (length (explode s) - length (explode t)) (explode s))).
    apply explode_inj. rewrite explode_app, explode_implode.
    rewrite <-Hd at 2. by rewrite take_drop.
  - intros [p ->]. rewrite explode_app, length_app. split; [lia|].
    rewrite drop_app_length'; [done|lia].
Qed.

Lemma Contains_spec s sub : Contains s sub = true <-> exists a b, s = a +:+ sub +:+ b.
Proof.
  induction s as [|c s IH]; cbn [Contains]; rewrite orb_true_iff, HasPrefix_spec.
  - split.
    + intros [[t Ht]|]; [|done]. exists "", t. done.
    + intros (a & b & Hab). left. destruct a; [by exists b|].
      rewrite string_app_cons in Hab. discriminate.
  - rewrite IH. split.
    + intros [[t Ht]|(a & b & Hab)]; [by exists "", t|].
      exists (String c a), b. by rewrite string_app_cons, Hab.
    + intros ([|d a] & b & Hab); [left; by exists b|right].
      rewrite string_app_cons in Hab. exists a, b. by injection Hab.
Qed.

Lemma cut_byte_Some c s p q : cut_byte c s = Some (p, q) -> s = p +:+ String c q.
Proof.
  revert p. induction s as [|d s IH]; intros p; [done|]. cbn.
  case_bool_decide as Hd; [intros [= <- <-]; by rewrite Hd|].
  destruct (cut_byte c s) as [[p' q']|]; [|done]. cbn. intros [= <- <-].
  by rewrite string_app_cons, <-(IH p').
Qed.

Lemma cut_byte_app c p q :
  c ∉ explode p -> cut_byte c (p +:+ String c q) = Some (p, q).
Proof.
  induction p as [|d p IH]; intros Hc.
  - change ("" +:+ String c q) with (String c q). cbn [cut_byte].
    by rewrite bool_decide_true.
  - rewrite string_app_cons. cbn [cut_byte String.list_ascii_of_string] in *.
    rewrite bool_decide_false by set_solver. rewrite IH by set_solver. done.
Qed.

(** ** Replacing *)
Section Replacing.
Context (c : ascii) (o new : string).
Local Abbreviation old := (String c o).

Lemma replace_go_skip p s : replace_go old new (String.length p) (p +:+ s) = replace_go old new 0 s.
Proof. by induction p as [|d p IH]. Qed.

(** Text without the first byte of [old] is passed over. *)
Lemma replace_go_lit p s :
  c ∉ explode p -> replace_go old new 0 (p +:+ s) = p +:+ replace_go old new 0 s.
Proof.
  induction p as [|d p IH]; [done|]. rewrite string_app_cons.
  cbn [replace_go String.list_ascii_of_string]. intros Hc.
  replace (HasPrefix (String d (p +:+ s)) old) with false.
  - rewrite IH by set_solver. done.
  - symmetry. unfold HasPrefix. cbn. destruct (ascii_dec c d); [set_solver|done].
Qed.

Lemma replace_go_hit s : replace_go old new 0 (old +:+ s) = new +:+ replace_go old new 0 s.
Proof.
  rewrite string_app_cons. cbn [replace_go].
  rewrite (proj2 (HasPrefix_spec (String c (o +:+ s)) old)) by (exists s; done).
  cbn [String.length]. rewrite Nat.sub_succ, Nat.sub_0_r. by rewrite replace_go_skip.
Qed.

Lemma replace_go_miss d s :
  HasPrefix (String d s) old = false ->
  replace_go old new 0 (String d s) = String d (replace_go old new 0 s).
Proof. intros H. cbn [replace_go]. by rewrite H. Qed.
End Replacing.
