(* ===== verification/Config.v ===== *)
(** * Configuration types (pkg/config/config.go)

    One [Record] per Go struct, with the struct's fields in the source's order
    under a prefix per struct.  [int], [int64], [uint32] and [time.Duration]
    (nanoseconds) are [Z], [float64] is an IEEE 754 binary64 [spec_float], a
    pointer is an [option], a [time.Time] is the seconds since the epoch or
    [None] for the zero time, and a value injected at run time (a pool, a token
    store, a callback registrar) is a [handle]: its identity.  [zero_T] is Go's
    zero value of [T]. *)
From Stdlib Require Export SpecFloat.
From S2P Require Export Prelude.
Open Scope Z_scope.

Abbreviation float64 := spec_float.
Abbreviation handle := positive.

Record ServerTLSConfig := {
  stls_CertPath : string;
  stls_KeyPath : string;
  stls_MinVersion : string;
  stls_ClientAuth : string;
  stls_ClientCAPath : string
}.

Definition zero_ServerTLSConfig : ServerTLSConfig := {|
  stls_CertPath := "";
  stls_KeyPath := "";
  stls_MinVersion := "";
  stls_ClientAuth := "";
  stls_ClientCAPath := "" |}.

Record ServerConfig := {
  srv_Port : Z;
  srv_ReadTimeout : Z;
  srv_WriteTimeout : Z;
  srv_ShutdownTimeout : Z;
  srv_MaxRequestBody : string;
  srv_StartupValidationTimeout : Z;
  srv_TLS : ServerTLSConfig
}.

Definition zero_ServerConfig : ServerConfig := {|
  srv_Port := 0;
  srv_ReadTimeout := 0;
  srv_WriteTimeout := 0;
  srv_ShutdownTimeout := 0;
  srv_MaxRequestBody := "";
  srv_StartupValidationTimeout := 0;
  srv_TLS := zero_ServerTLSConfig |}.

Record TelemetryConfig := {
  tel_ServiceName : string;
  tel_ServiceVersion : string;
  tel_OTLPEndpoint : string;
  tel_Insecure : bool
}.

Definition zero_TelemetryConfig : TelemetryConfig := {|
  tel_ServiceName := "";
  tel_ServiceVersion := "";
  tel_OTLPEndpoint := "";
  tel_Insecure := false |}.

Record SlugRulesConfig := {
  sr_ReplaceSlashes : bool;
  sr_ReplaceBraces : bool;
  sr_ExpandCamelCase : bool;
  sr_Lowercase : bool;
  sr_CollapseSeparators : bool
}.

Definition zero_SlugRulesConfig : SlugRulesConfig := {|
  sr_ReplaceSlashes := false;
  sr_ReplaceBraces := false;
  sr_ExpandCamelCase := false;
  sr_Lowercase := false;
  sr_CollapseSeparators := false |}.

Record NamingConfig := {
  nc_Separator : string;
  nc_MaxLength : Z;
  nc_ConflictResolution : string;
  nc_DescriptionMaxLength : Z;
  nc_DescriptionTruncationSuffix : string;
  nc_DefaultSlugRules : SlugRulesConfig
}.

Definition zero_NamingConfig : NamingConfig := {|
  nc_Separator := "";
  nc_MaxLength := 0;
  nc_ConflictResolution := "";
  nc_DescriptionMaxLength := 0;
  nc_DescriptionTruncationSuffix := "";
  nc_DefaultSlugRules := zero_SlugRulesConfig |}.

Record TLSConfig := {
  tls_InsecureSkipVerify : bool;
  tls_MinVersion : string;
  tls_MaxVersion : string;
  tls_RootCAPath : string;
  tls_ClientCertPath : string;
  tls_ClientKeyPath : string;
  tls_ServerName : string;
  tls_SessionCacheSize : Z
}.

Definition zero_TLSConfig : TLSConfig := {|
  tls_InsecureSkipVerify := false;
  tls_MinVersion := "";
  tls_MaxVersion := "";
  tls_RootCAPath := "";
  tls_ClientCertPath := "";
  tls_ClientKeyPath := "";
  tls_ServerName := "";
  tls_SessionCacheSize := 0 |}.

Record TransportConfig := {
  trc_MaxIdleConns : Z;
  trc_MaxIdleConnsPerHost : Z;
  trc_IdleConnTimeout : Z;
  trc_DialTimeout : Z;
  trc_DialKeepalive : Z;
  trc_ResponseHeaderTimeout : Z;
  trc_ForceHTTP2 : bool;
  trc_ProxyURL : string;
  trc_TLS : TLSConfig
}.

Definition zero_TransportConfig : TransportConfig := {|
  trc_MaxIdleConns := 0;
  trc_MaxIdleConnsPerHost := 0;
  trc_IdleConnTimeout := 0;
  trc_DialTimeout := 0;
  trc_DialKeepalive := 0;
  trc_ResponseHeaderTimeout := 0;
  trc_ForceHTTP2 := false;
  trc_ProxyURL := "";
  trc_TLS := zero_TLSConfig |}.

Record OpenAPISourceConfig := {
  oas_Source : string;
  oas_AuthHeader : string;
  oas_RefreshInterval : Z;
  oas_MaxRefreshFailures : Z;
  oas_AllowExternalRefs : bool;
  oas_Version : string
}.

Definition zero_OpenAPISourceConfig : OpenAPISourceConfig := {|
  oas_Source := "";
  oas_AuthHeader := "";
  oas_RefreshInterval := 0;
  oas_MaxRefreshFailures := 0;
  oas_AllowExternalRefs := false;
  oas_Version := "" |}.

Record OverlayConfig := {
  ovl_Source : string;
  ovl_AuthHeader : string;
  ovl_RefreshInterval : Z;
  ovl_Inline : string
}.

Definition zero_OverlayConfig : OverlayConfig := {|
  ovl_Source := "";
  ovl_AuthHeader := "";
  ovl_RefreshInterval := 0;
  ovl_Inline := "" |}.

Record ValidationConfig := {
  vc_ValidateRequest : bool;
  vc_ValidateResponse : bool;
  vc_ResponseValidationFailure : string;
  vc_SuccessStatus : list Z;
  vc_ErrorStatus : list Z
}.

Definition zero_ValidationConfig : ValidationConfig := {|
  vc_ValidateRequest := false;
  vc_ValidateResponse := false;
  vc_ResponseValidationFailure := "";
  vc_SuccessStatus := [];
  vc_ErrorStatus := [] |}.

Record JWTAuthConfig := {
  jwt_Issuer : string;
  jwt_Audience : string;
  jwt_JWKSURL : string
}.

Definition zero_JWTAuthConfig : JWTAuthConfig := {|
  jwt_Issuer := "";
  jwt_Audience := "";
  jwt_JWKSURL := "" |}.

Record IntrospectionConfig := {
  isp_Issuer : string;
  isp_ClientID : string;
  isp_ClientSecret : string;
  isp_Audience : string
}.

Definition zero_IntrospectionConfig : IntrospectionConfig := {|
  isp_Issuer := "";
  isp_ClientID := "";
  isp_ClientSecret := "";
  isp_Audience := "" |}.

Record APIKeyAuthConfig := {
  aka_Header : string;
  aka_KeysEnv : string
}.

Definition zero_APIKeyAuthConfig : APIKeyAuthConfig := {|
  aka_Header := "";
  aka_KeysEnv := "" |}.

Record LuaAuthConfig := {
  lac_ScriptPath : string;
  lac_Timeout : Z
}.

Definition zero_LuaAuthConfig : LuaAuthConfig := {|
  lac_ScriptPath := "";
  lac_Timeout := 0 |}.

Record JSAuthConfig := {
  jac_ScriptPath : string;
  jac_Timeout : Z;
  jac_Env : gmap string string
}.

Definition zero_JSAuthConfig : JSAuthConfig := {|
  jac_ScriptPath := "";
  jac_Timeout := 0;
  jac_Env := ∅ |}.

Record InboundAuthConfig := {
  iac_Strategy : string;
  iac_JWT : JWTAuthConfig;
  iac_Introspection : IntrospectionConfig;
  iac_APIKey : APIKeyAuthConfig;
  iac_Lua : LuaAuthConfig;
  iac_JS : JSAuthConfig;
  iac_JSAuthPool : option handle;
  iac_LuaAuthPool : option handle
}.

Definition zero_InboundAuthConfig : InboundAuthConfig := {|
  iac_Strategy := "";
  iac_JWT := zero_JWTAuthConfig;
  iac_Introspection := zero_IntrospectionConfig;
  iac_APIKey := zero_APIKeyAuthConfig;
  iac_Lua := zero_LuaAuthConfig;
  iac_JS := zero_JSAuthConfig;
  iac_JSAuthPool := None;
  iac_LuaAuthPool := None |}.

Record BearerOutboundConfig := {
  boc_TokenEnv : string
}.

Definition zero_BearerOutboundConfig : BearerOutboundConfig := {|
  boc_TokenEnv := "" |}.

Record APIKeyOutboundConfig := {
  akc_Header : string;
  akc_ValueEnv : string;
  akc_Prefix : string
}.

Definition zero_APIKeyOutboundConfig : APIKeyOutboundConfig := {|
  akc_Header := "";
  akc_ValueEnv := "";
  akc_Prefix := "" |}.

Record OAuth2CCConfig := {
  o2c_TokenURL : string;
  o2c_ClientID : string;
  o2c_ClientSecret : string;
  o2c_Scopes : list string
}.

Definition zero_OAuth2CCConfig : OAuth2CCConfig := {|
  o2c_TokenURL := "";
  o2c_ClientID := "";
  o2c_ClientSecret := "";
  o2c_Scopes := [] |}.

Record OAuth2UserSessionConfig := {
  o2u_Provider : string;
  o2u_IssuerURL : string;
  o2u_AuthURL : string;
  o2u_TokenURL : string;
  o2u_ClientID : string;
  o2u_ClientSecret : string;
  o2u_Scopes : list string;
  o2u_CallbackURL : string
}.

Definition zero_OAuth2UserSessionConfig : OAuth2UserSessionConfig := {|
  o2u_Provider := "";
  o2u_IssuerURL := "";
  o2u_AuthURL := "";
  o2u_TokenURL := "";
  o2u_ClientID := "";
  o2u_ClientSecret := "";
  o2u_Scopes := [];
  o2u_CallbackURL := "" |}.

Record LuaOutboundConfig := {
  loc_ScriptPath : string;
  loc_Timeout : Z
}.

Definition zero_LuaOutboundConfig : LuaOutboundConfig := {|
  loc_ScriptPath := "";
  loc_Timeout := 0 |}.

Record JSOutboundConfig := {
  joc_ScriptPath : string;
  joc_Timeout : Z;
  joc_Env : gmap string string
}.

Definition zero_JSOutboundConfig : JSOutboundConfig := {|
  joc_ScriptPath := "";
  joc_Timeout := 0;
  joc_Env := ∅ |}.

Record OutboundAuthConfig := {
  ouc_Strategy : string;
  ouc_Bearer : BearerOutboundConfig;
  ouc_APIKey : APIKeyOutboundConfig;
  ouc_OAuth2ClientCredentials : OAuth2CCConfig;
  ouc_OAuth2UserSession : OAuth2UserSessionConfig;
  ouc_Lua : LuaOutboundConfig;
  ouc_JS : JSOutboundConfig;
  ouc_Upstream : string;
  ouc_JSAuthPool : option handle;
  ouc_LuaAuthPool : option handle;
  ouc_OAuthTokenStore : option handle;
  ouc_OAuthCallbackReg : option handle
}.

Definition zero_OutboundAuthConfig : OutboundAuthConfig := {|
  ouc_Strategy := "";
  ouc_Bearer := zero_BearerOutboundConfig;
  ouc_APIKey := zero_APIKeyOutboundConfig;
  ouc_OAuth2ClientCredentials := zero_OAuth2CCConfig;
  ouc_OAuth2UserSession := zero_OAuth2UserSessionConfig;
  ouc_Lua := zero_LuaOutboundConfig;
  ouc_JS := zero_JSOutboundConfig;
  ouc_Upstream := "";
  ouc_JSAuthPool := None;
  ouc_LuaAuthPool := None;
  ouc_OAuthTokenStore := None;
  ouc_OAuthCallbackReg := None |}.

Record CommandSchemaProperty := {
  csp_Type : string;
  csp_Description : string
}.

Definition zero_CommandSchemaProperty : CommandSchemaProperty := {|
  csp_Type := "";
  csp_Description := "" |}.

Record CommandInputSchema := {
  cis_Type : string;
  cis_Properties : gmap string CommandSchemaProperty;
  cis_Required : list string
}.

Definition zero_CommandInputSchema : CommandInputSchema := {|
  cis_Type := "";
  cis_Properties := ∅;
  cis_Required := [] |}.

Record CommandConfig := {
  cmd_ToolName : string;
  cmd_Description : string;
  cmd_Command : string;
  cmd_InputSchema : CommandInputSchema;
  cmd_Timeout : Z;
  cmd_Env : gmap string string;
  cmd_WorkingDir : string;
  cmd_Shell : bool;
  cmd_MaxOutput : Z
}.

Definition zero_CommandConfig : CommandConfig := {|
  cmd_ToolName := "";
  cmd_Description := "";
  cmd_Command := "";
  cmd_InputSchema := zero_CommandInputSchema;
  cmd_Timeout := 0;
  cmd_Env := ∅;
  cmd_WorkingDir := "";
  cmd_Shell := false;
  cmd_MaxOutput := 0 |}.

Record ScriptConfig := {
  scr_ToolName : string;
  scr_Description : string;
  scr_ScriptPath : string;
  scr_InputSchema : CommandInputSchema;
  scr_Timeout : Z;
  scr_Env : gmap string string
}.

Definition zero_ScriptConfig : ScriptConfig := {|
  scr_ToolName := "";
  scr_Description := "";
  scr_ScriptPath := "";
  scr_InputSchema := zero_CommandInputSchema;
  scr_Timeout := 0;
  scr_Env := ∅ |}.

Record AppUIConfig := {
  aui_Static : string;
  aui_Script : string
}.

Definition zero_AppUIConfig : AppUIConfig := {|
  aui_Static := "";
  aui_Script := "" |}.

Record UpstreamConfig := {
  uc_Name : string;
  uc_Enabled : bool;
  uc_ToolPrefix : string;
  uc_Type : string;
  uc_BaseURL : string;
  uc_Cache : string;
  uc_Timeout : Z;
  uc_TLSSkipVerify : bool;
  uc_Headers : gmap string string;
  uc_Transport : TransportConfig;
  uc_OpenAPI : OpenAPISourceConfig;
  uc_Overlay : option OverlayConfig;
  uc_StartupValidationTimeout : Z;
  uc_Validation : ValidationConfig;
  uc_InboundAuthOverride : option InboundAuthConfig;
  uc_OutboundAuth : OutboundAuthConfig;
  uc_Commands : list CommandConfig;
  uc_Scripts : list ScriptConfig;
  uc_RateLimit : string;
  uc_CircuitBreaker : string;
  uc_AppUI : option AppUIConfig;
  uc_JSScriptPool : option handle
}.

Definition zero_UpstreamConfig : UpstreamConfig := {|
  uc_Name := "";
  uc_Enabled := false;
  uc_ToolPrefix := "";
  uc_Type := "";
  uc_BaseURL := "";
  uc_Cache := "";
  uc_Timeout := 0;
  uc_TLSSkipVerify := false;
  uc_Headers := ∅;
  uc_Transport := zero_TransportConfig;
  uc_OpenAPI := zero_OpenAPISourceConfig;
  uc_Overlay := None;
  uc_StartupValidationTimeout := 0;
  uc_Validation := zero_ValidationConfig;
  uc_InboundAuthOverride := None;
  uc_OutboundAuth := zero_OutboundAuthConfig;
  uc_Commands := [];
  uc_Scripts := [];
  uc_RateLimit := "";
  uc_CircuitBreaker := "";
  uc_AppUI := None;
  uc_JSScriptPool := None |}.

Record GroupConfig := {
  gc_Name : string;
  gc_Endpoint : string;
  gc_Upstreams : list string;
  gc_Filter : string
}.

Definition zero_GroupConfig : GroupConfig := {|
  gc_Name := "";
  gc_Endpoint := "";
  gc_Upstreams := [];
  gc_Filter := "" |}.

Record JSRuntimeConfig := {
  jrc_MaxAuthVMs : Z;
  jrc_MaxScriptVMs : Z
}.

Definition zero_JSRuntimeConfig : JSRuntimeConfig := {|
  jrc_MaxAuthVMs := 0;
  jrc_MaxScriptVMs := 0 |}.

Record LuaRuntimeConfig := {
  lrc_MaxAuthVMs : Z
}.

Definition zero_LuaRuntimeConfig : LuaRuntimeConfig := {|
  lrc_MaxAuthVMs := 0 |}.

Record RuntimeConfig := {
  rtc_JS : JSRuntimeConfig;
  rtc_Lua : LuaRuntimeConfig
}.

Definition zero_RuntimeConfig : RuntimeConfig := {|
  rtc_JS := zero_JSRuntimeConfig;
  rtc_Lua := zero_LuaRuntimeConfig |}.

Record TokenCountingConfig := {
  tcc_Enabled : bool;
  tcc_Encoding : string
}.

Definition zero_TokenCountingConfig : TokenCountingConfig := {|
  tcc_Enabled := false;
  tcc_Encoding := "" |}.

Record RateLimitConfig := {
  rlc_Average : Z;
  rlc_Period : Z;
  rlc_Burst : Z;
  rlc_Source : string
}.

Definition zero_RateLimitConfig : RateLimitConfig := {|
  rlc_Average := 0;
  rlc_Period := 0;
  rlc_Burst := 0;
  rlc_Source := "" |}.

Record RedisStoreConfig := {
  rsc_Addr : string;
  rsc_Password : string
}.

Definition zero_RedisStoreConfig : RedisStoreConfig := {|
  rsc_Addr := "";
  rsc_Password := "" |}.

Record RateLimitStoreConfig := {
  rls_Redis : option RedisStoreConfig
}.

Definition zero_RateLimitStoreConfig : RateLimitStoreConfig := {|
  rls_Redis := None |}.

Record OpenAIEmbedConfig := {
  oai_APIKey : string;
  oai_Model : string
}.

Definition zero_OpenAIEmbedConfig : OpenAIEmbedConfig := {|
  oai_APIKey := "";
  oai_Model := "" |}.

Record OpenAICompatEmbedConfig := {
  oac_BaseURL : string;
  oac_APIKey : string;
  oac_Model : string
}.

Definition zero_OpenAICompatEmbedConfig : OpenAICompatEmbedConfig := {|
  oac_BaseURL := "";
  oac_APIKey := "";
  oac_Model := "" |}.

Record OllamaEmbedConfig := {
  oll_BaseURL : string;
  oll_Model : string
}.

Definition zero_OllamaEmbedConfig : OllamaEmbedConfig := {|
  oll_BaseURL := "";
  oll_Model := "" |}.

Record CohereEmbedConfig := {
  coh_APIKey : string;
  coh_Model : string
}.

Definition zero_CohereEmbedConfig : CohereEmbedConfig := {|
  coh_APIKey := "";
  coh_Model := "" |}.

Record MistralEmbedConfig := {
  mis_APIKey : string
}.

Definition zero_MistralEmbedConfig : MistralEmbedConfig := {|
  mis_APIKey := "" |}.

Record JinaEmbedConfig := {
  jin_APIKey : string;
  jin_Model : string
}.

Definition zero_JinaEmbedConfig : JinaEmbedConfig := {|
  jin_APIKey := "";
  jin_Model := "" |}.

Record MixedbreadEmbedConfig := {
  mix_APIKey : string;
  mix_Model : string
}.

Definition zero_MixedbreadEmbedConfig : MixedbreadEmbedConfig := {|
  mix_APIKey := "";
  mix_Model := "" |}.

Record VertexEmbedConfig := {
  vtx_APIKey : string;
  vtx_Project : string;
  vtx_Model : string
}.

Definition zero_VertexEmbedConfig : VertexEmbedConfig := {|
  vtx_APIKey := "";
  vtx_Project := "";
  vtx_Model := "" |}.

Record AzureOpenAIEmbedConfig := {
  azr_APIKey : string;
  azr_DeploymentURL : string;
  azr_APIVersion : string;
  azr_Model : string
}.

Definition zero_AzureOpenAIEmbedConfig : AzureOpenAIEmbedConfig := {|
  azr_APIKey := "";
  azr_DeploymentURL := "";
  azr_APIVersion := "";
  azr_Model := "" |}.

Record HugotEmbedConfig := {
  hug_ModelPath : string;
  hug_OnnxFilename : string
}.

Definition zero_HugotEmbedConfig : HugotEmbedConfig := {|
  hug_ModelPath := "";
  hug_OnnxFilename := "" |}.

Record EmbeddingConfig := {
  emb_Provider : string;
  emb_OpenAI : option OpenAIEmbedConfig;
  emb_OpenAICompat : option OpenAICompatEmbedConfig;
  emb_Ollama : option OllamaEmbedConfig;
  emb_Cohere : option CohereEmbedConfig;
  emb_Mistral : option MistralEmbedConfig;
  emb_Jina : option JinaEmbedConfig;
  emb_Mixedbread : option MixedbreadEmbedConfig;
  emb_Vertex : option VertexEmbedConfig;
  emb_AzureOpenAI : option AzureOpenAIEmbedConfig;
  emb_Hugot : option HugotEmbedConfig
}.

Definition zero_EmbeddingConfig : EmbeddingConfig := {|
  emb_Provider := "";
  emb_OpenAI := None;
  emb_OpenAICompat := None;
  emb_Ollama := None;
  emb_Cohere := None;
  emb_Mistral := None;
  emb_Jina := None;
  emb_Mixedbread := None;
  emb_Vertex := None;
  emb_AzureOpenAI := None;
  emb_Hugot := None |}.

Record ToolSearchConfig := {
  tsc_Enabled : bool;
  tsc_Limit : Z;
  tsc_Embedding : EmbeddingConfig
}.

Definition zero_ToolSearchConfig : ToolSearchConfig := {|
  tsc_Enabled := false;
  tsc_Limit := 0;
  tsc_Embedding := zero_EmbeddingConfig |}.

Record PostgresSessionConfig := {
  pgs_DSN : string;
  pgs_EncryptionKey : string
}.

Definition zero_PostgresSessionConfig : PostgresSessionConfig := {|
  pgs_DSN := "";
  pgs_EncryptionKey := "" |}.

Record RedisSessionConfig := {
  rds_Addr : string;
  rds_Password : string;
  rds_EncryptionKey : string
}.

Definition zero_RedisSessionConfig : RedisSessionConfig := {|
  rds_Addr := "";
  rds_Password := "";
  rds_EncryptionKey := "" |}.

Record SessionStoreConfig := {
  ssc_Provider : string;
  ssc_HMACKey : string;
  ssc_Postgres : PostgresSessionConfig;
  ssc_Redis : RedisSessionConfig
}.

Definition zero_SessionStoreConfig : SessionStoreConfig := {|
  ssc_Provider := "";
  ssc_HMACKey := "";
  ssc_Postgres := zero_PostgresSessionConfig;
  ssc_Redis := zero_RedisSessionConfig |}.

Record CacheConfig := {
  cc_TTL : Z;
  cc_PerUser : bool
}.

Definition zero_CacheConfig : CacheConfig := {|
  cc_TTL := 0;
  cc_PerUser := false |}.

Record RedisCacheConfig := {
  rcc_Addr : string;
  rcc_Password : string
}.

Definition zero_RedisCacheConfig : RedisCacheConfig := {|
  rcc_Addr := "";
  rcc_Password := "" |}.

Record CacheStoreConfig := {
  csc_Provider : string;
  csc_Redis : option RedisCacheConfig
}.

Definition zero_CacheStoreConfig : CacheStoreConfig := {|
  csc_Provider := "";
  csc_Redis := None |}.

Record CircuitBreakerConfig := {
  cbc_Threshold : float64;
  cbc_MinRequests : Z;
  cbc_FallbackDuration : Z;
  cbc_RecoveryDuration : Z
}.

Definition zero_CircuitBreakerConfig : CircuitBreakerConfig := {|
  cbc_Threshold := S754_zero false;
  cbc_MinRequests := 0;
  cbc_FallbackDuration := 0;
  cbc_RecoveryDuration := 0 |}.

Record ProxyConfig := {
  pc_Server : ServerConfig;
  pc_Telemetry : TelemetryConfig;
  pc_Naming : NamingConfig;
  pc_Upstreams : list UpstreamConfig;
  pc_InboundAuth : InboundAuthConfig;
  pc_Groups : list GroupConfig;
  pc_Runtime : RuntimeConfig;
  pc_TokenCounting : TokenCountingConfig;
  pc_RateLimits : gmap string RateLimitConfig;
  pc_RateLimitStore : RateLimitStoreConfig;
  pc_ToolSearch : option ToolSearchConfig;
  pc_SessionStore : SessionStoreConfig;
  pc_Caches : gmap string CacheConfig;
  pc_CacheStore : CacheStoreConfig;
  pc_CircuitBreakers : gmap string CircuitBreakerConfig
}.

Definition zero_ProxyConfig : ProxyConfig := {|
  pc_Server := zero_ServerConfig;
  pc_Telemetry := zero_TelemetryConfig;
  pc_Naming := zero_NamingConfig;
  pc_Upstreams := [];
  pc_InboundAuth := zero_InboundAuthConfig;
  pc_Groups := [];
  pc_Runtime := zero_RuntimeConfig;
  pc_TokenCounting := zero_TokenCountingConfig;
  pc_RateLimits := ∅;
  pc_RateLimitStore := zero_RateLimitStoreConfig;
  pc_ToolSearch := None;
  pc_SessionStore := zero_SessionStoreConfig;
  pc_Caches := ∅;
  pc_CacheStore := zero_CacheStoreConfig;
  pc_CircuitBreakers := ∅ |}.

Record ToolUIConfig := {
  tui_Static : string;
  tui_Script : string
}.

Definition zero_ToolUIConfig : ToolUIConfig := {|
  tui_Static := "";
  tui_Script := "" |}.

Record OAuthToken := {
  tok_AccessToken : string;
  tok_RefreshToken : string;
  tok_Expiry : option Z;
  tok_TokenType : string
}.

Definition zero_OAuthToken : OAuthToken := {|
  tok_AccessToken := "";
  tok_RefreshToken := "";
  tok_Expiry := None;
  tok_TokenType := "" |}.
