(* ===== verification/Naming.v ===== *)
(** * Tool naming (pkg/openapi/naming.go)

    How an OpenAPI operation gets its tool name: [Slugify] and
    [sanitizeIdentifier] derive a base name, [PrefixedName] adds the upstream's
    prefix under a length limit, [TruncateDescription] bounds descriptions and
    [DetectConflicts] resolves name clashes.  The regular expressions of the
    source are written as the byte automata they denote. *)
From S2P Require Import Prelude Config GoStrings.
Open Scope Z_scope.

(** ** The regular expressions *)

(** The class [[a-zA-Z0-9_]]; the bytes of a non-ASCII rune are outside it. *)
Definition is_word (c : ascii) : bool := is_alnum c || is_underscore c.

(** [nonAlnumUnderscore.ReplaceAllString(s, "_")]: each maximal run of bytes
    outside the class becomes one underscore.  [in_run] says that the byte
    before was part of such a run. *)
Fixpoint nonAlnumUnderscore (in_run : bool) (l : list ascii) : list ascii :=
  match l with
  | [] => []
  | c :: l' =>
    if is_word c then c :: nonAlnumUnderscore false l'
    else if in_run then nonAlnumUnderscore true l'
    else underscore :: nonAlnumUnderscore true l'
  end.

(** [runOfUnderscores.ReplaceAllString(s, "_")] *)
Fixpoint runOfUnderscores (in_run : bool) (l : list ascii) : list ascii :=
  match l with
  | [] => []
  | c :: l' =>
    if is_underscore c then
      if in_run then runOfUnderscores true l' else c :: runOfUnderscores true l'
    else c :: runOfUnderscores false l'
  end.

(** [camelUpperLower.ReplaceAllString(s, "${1}_${2}")] for
    [([A-Z]+)([A-Z][a-z])]: in a run of at least two upper-case letters that a
    lower-case letter follows, the underscore goes before the last of the run.
    [in_run] says that the byte before is an upper-case letter of the current
    match attempt. *)
Fixpoint camelUpperLower (in_run : bool) (l : list ascii) : list ascii :=
  match l with
  | [] => []
  | c :: l' =>
    if is_upper c then
      match l' with
      | d :: l'' =>
        if in_run && is_lower d then underscore :: c :: d :: camelUpperLower false l''
        else c :: camelUpperLower true l'
      | [] => [c]
      end
    else c :: camelUpperLower false l'
  end.

(** [camelLowerUpper.ReplaceAllString(s, "${1}_${2}")] for [([a-z0-9])([A-Z])] *)
Fixpoint camelLowerUpper (l : list ascii) : list ascii :=
  match l with
  | [] => []
  | c :: l' =>
    match l' with
    | d :: l'' =>
      if (is_lower c || is_digit c) && is_upper d
      then c :: underscore :: d :: camelLowerUpper l''
      else c :: camelLowerUpper l'
    | [] => [c]
    end
  end.

(** ** Names *)

(** The clean-up shared by [Slugify] and [sanitizeIdentifier], step by step. *)
Definition removeBraces (rules : SlugRulesConfig) (s : string) : string :=
  if sr_ReplaceBraces rules
  then ReplaceAll (ReplaceAll s "{" "") "}" "" else s.
Definition replaceSlashes (rules : SlugRulesConfig) (s : string) : string :=
  if sr_ReplaceSlashes rules then ReplaceAll s "/" "_" else s.
Definition replaceOthers (s : string) : string :=
  implode (nonAlnumUnderscore false (explode s)).
Definition lowercase (rules : SlugRulesConfig) (s : string) : string :=
  if sr_Lowercase rules then ToLower s else s.
Definition collapse (rules : SlugRulesConfig) (s : string) : string :=
  if sr_CollapseSeparators rules
  then implode (runOfUnderscores false (explode s)) else s.

Definition slugVerb (method : string) (hasPathParams : bool) : string :=
  let m := ToUpper method in
  if bool_decide (m = "GET") then if hasPathParams then "get" else "list"
  else if bool_decide (m = "POST") then "create"
  else if bool_decide (m = "PUT") then "update"
  else if bool_decide (m = "DELETE") then "delete"
  else if bool_decide (m = "PATCH") then "patch"
  else ToLower method.

Definition TrimPrefix (s prefix : string) : string :=
  match CutPrefix s prefix with Some t => t | None => s end.

Definition Slugify (method path : string) (hasPathParams : bool)
    (rules : SlugRulesConfig) : string :=
  let verb := slugVerb method hasPathParams in
  let s := TrimPrefix path "/" in
  let s := removeBraces rules s in
  let s := replaceSlashes rules s in
  let s := replaceOthers s in
  let s := lowercase rules s in
  let s := collapse rules s in
  let s := Trim s underscore in
  verb +:+ "_" +:+ s.

Definition expandCamelCase (rules : SlugRulesConfig) (s : string) : string :=
  if sr_ExpandCamelCase rules
  then implode (camelLowerUpper (camelUpperLower false (explode s))) else s.

Definition sanitizeIdentifier (id : string) (rules : SlugRulesConfig) : string :=
  let s := expandCamelCase rules id in
  let s := removeBraces rules s in
  let s := replaceSlashes rules s in
  let s := replaceOthers s in
  let s := lowercase rules s in
  let s := collapse rules s in
  Trim s underscore.

Example sanitize_jwt : sanitizeIdentifier "JWTAuth{x}/getV2Item"
  {| sr_ReplaceSlashes := true; sr_ReplaceBraces := true;
     sr_ExpandCamelCase := true; sr_Lowercase := true;
     sr_CollapseSeparators := true |} = "jwt_authx_get_v2_item".
Proof. vm_compute. reflexivity. Qed.

(** [PrefixedName] *)
Definition PrefixedName (baseName prefix separator : string) (maxLength : Z) : string :=
  if 0 <? maxLength then
    let prefixRunes := runes (prefix +:+ separator) in
    if maxLength <=? Z.of_nat (length prefixRunes) then
      of_runes (take (Z.to_nat maxLength) prefixRunes)
    else
      let allowedBase := maxLength - Z.of_nat (length prefixRunes) in
      let rs := runes baseName in
      let baseName' :=
        if allowedBase <? Z.of_nat (length rs)
        then of_runes (take (Z.to_nat allowedBase) rs) else baseName in
      (prefix +:+ separator) +:+ baseName'
  else (prefix +:+ separator) +:+ baseName.

(** [TruncateDescription] *)
Definition TruncateDescription (desc : string) (maxLength : Z) (suffix : string) : string :=
  let descRunes := runes desc in
  if (maxLength <=? 0) || (Z.of_nat (length descRunes) <=? maxLength) then desc
  else
    let suffixRunes := runes suffix in
    if maxLength <=? Z.of_nat (length suffixRunes) then
      of_runes (take (Z.to_nat maxLength) suffixRunes)
    else
      let cutAt := maxLength - Z.of_nat (length suffixRunes) in
      of_runes (take (Z.to_nat cutAt) descRunes) +:+ suffix.

(** ** Conflicts *)
Record PrefixedTool := {
  pt_PrefixedName : string;
  pt_OriginalPath : string;
  pt_OriginalMethod : string
}.
#[export] Instance PrefixedTool_eq_dec : EqDecision PrefixedTool.
Proof. solve_decision. Defined.

Inductive ConflictError :=
  | ToolNameConflicts (names : gset string)
  | UnknownConflictResolution (resolution : string).

(** [counts[name]] after the counting loop *)
Definition countName (tools : list PrefixedTool) (name : string) : nat :=
  length (filter (fun t => pt_PrefixedName t = name) tools).

Arguments countName : simpl never.

(** [conflicts]: the names the loop counted more than once *)
Definition conflictNames (tools : list PrefixedTool) : gset string :=
  set_of_names
    (filter (fun n => (1 < countName tools n)%nat) (pt_PrefixedName <$> tools)).

(** The loop of [first_wins]; [seen] holds the conflicting names met so far. *)
Fixpoint firstWins (conflicts seen : gset string) (tools : list PrefixedTool)
    : list PrefixedTool :=
  match tools with
  | [] => []
  | t :: tools' =>
    if decide (pt_PrefixedName t ∈ conflicts) then
      if decide (pt_PrefixedName t ∈ seen) then firstWins conflicts seen tools'
      else t :: firstWins conflicts ({[pt_PrefixedName t]} ∪ seen) tools'
    else t :: firstWins conflicts seen tools'
  end.

Definition skipConflicts (conflicts : gset string) (tools : list PrefixedTool)
    : list PrefixedTool :=
  filter (fun t => pt_PrefixedName t ∉ conflicts) tools.

Definition DetectConflicts (tools : list PrefixedTool) (resolution : string)
    : result ConflictError (list PrefixedTool) :=
  let conflicts := conflictNames tools in
  if decide (conflicts = ∅) then Ok tools
  else if bool_decide (resolution = "error") then Err (ToolNameConflicts conflicts)
  else if bool_decide (resolution = "first_wins") then Ok (firstWins conflicts ∅ tools)
  else if bool_decide (resolution = "skip") then Ok (skipConflicts conflicts tools)
  else Err (UnknownConflictResolution resolution).

(** ** Length bounds *)

(** The name is not truncated. *)
Definition name_fits (base prefix sep : string) (maxLength : Z) : Prop :=
  maxLength <= 0 \/
  Z.of_nat (length (runes (prefix +:+ sep))) < maxLength /\
  Z.of_nat (length (runes (prefix +:+ sep))) + Z.of_nat (length (runes base)) <= maxLength.

Lemma PrefixedName_fits base prefix sep maxLength :
  name_fits base prefix sep maxLength ->
  PrefixedName base prefix sep maxLength = (prefix +:+ sep) +:+ base.
Proof.
  unfold name_fits, PrefixedName.
  repeat case_match; rewrite ?Z.leb_le, ?Z.leb_gt, ?Z.ltb_lt, ?Z.ltb_ge in *; lia || done.
Qed.

(** C38: C1: [PrefixedName] respects [naming.max_length]: with a positive limit no
    tool name has more runes than the limit, whatever bytes the prefix, the
    separator and the base name are made of. *)
Theorem PrefixedName_length baseName prefix separator maxLength :
  0 < maxLength ->
  Z.of_nat (length (runes (PrefixedName baseName prefix separator maxLength))) <= maxLength.
Proof.
  intros Hmax. unfold PrefixedName. rewrite (proj2 (Z.ltb_lt _ _) Hmax).
  repeat case_match; rewrite ?Z.leb_le, ?Z.leb_gt, ?Z.ltb_lt, ?Z.ltb_ge in *.
  - rewrite length_runes_take. lia.
  - pose proof (length_runes_app (prefix +:+ separator)
      (of_runes (take (Z.to_nat (maxLength - Z.of_nat (length (runes (prefix +:+ separator)))))
        (runes baseName)))) as Happ.
    rewrite length_runes_take in Happ. lia.
  - pose proof (length_runes_app (prefix +:+ separator) baseName). lia.
Qed.

Lemma PrefixedName_length_witness :
  0 < 12 /\ PrefixedName "list_pets_é_long" "kraken" "__" 12 = "kraken__list"
  /\ Z.of_nat (length (runes (PrefixedName "list_pets_é_long" "kraken" "__" 12))) <= 12.
Proof.
  split; [lia|]. split; [vm_compute; reflexivity|].
  apply (PrefixedName_length "list_pets_é_long" "kraken" "__" 12). lia.
Defined.

(** C2: [TruncateDescription] returns a description that fits unchanged and one
    that does not cut to at most the limit; a non-positive limit disables it. *)
Theorem TruncateDescription_spec desc maxLength suffix :
  let out := TruncateDescription desc maxLength suffix in
  (maxLength <= 0 \/ Z.of_nat (length (runes desc)) <= maxLength -> out = desc)
  /\ (0 < maxLength -> Z.of_nat (length (runes out)) <= maxLength).
Proof.
  cbn zeta. unfold TruncateDescription.
  destruct ((maxLength <=? 0) || (Z.of_nat (length (runes desc)) <=? maxLength)) eqn:Hfit.
  - rewrite orb_true_iff, !Z.leb_le in Hfit. split; [done|]. intros ?. lia.
  - rewrite orb_false_iff, !Z.leb_gt in Hfit. split; [lia|]. intros _.
    case_match; rewrite ?Z.leb_le, ?Z.leb_gt in *; [rewrite length_runes_take; lia|].
    pose proof (length_runes_app
      (of_runes (take (Z.to_nat (maxLength - Z.of_nat (length (runes suffix)))) (runes desc)))
      suffix) as Happ.
    rewrite length_runes_take in Happ. lia.
Qed.

(** ** Sanitised names *)

(** A byte list with no leading or trailing underscore and no two in a row. *)
Fixpoint single_underscores (l : list ascii) : Prop :=
  match l with
  | c :: ((d :: _) as l') => ~ (c = underscore /\ d = underscore) /\ single_underscores l'
  | _ => True
  end.

Definition tidy (l : list ascii) : Prop :=
  single_underscores l /\ head l <> Some underscore /\ last l <> Some underscore.

Definition slug_char (c : ascii) : Prop := is_word c = true /\ is_upper c = false.

Section Slugs.
Implicit Types (l : list ascii) (c d : ascii).

Lemma is_underscore_spec c : is_underscore c = true <-> c = underscore.
Proof. apply bool_decide_eq_true. Qed.

Lemma nonAlnumUnderscore_word b l : Forall (fun c => is_word c = true) (nonAlnumUnderscore b l).
Proof.
  revert b. induction l as [|c l IH]; intros b; cbn; [constructor|].
  repeat case_match; [|apply IH|]; by constructor.
Qed.

Lemma nonAlnumUnderscore_id b l :
  Forall (fun c => is_word c = true) l -> nonAlnumUnderscore b l = l.
Proof.
  intros H. revert b. induction H as [|c l Hc _ IH]; intros b; cbn; [done|].
  by rewrite Hc, IH.
Qed.

Lemma runOfUnderscores_elem b l c : c ∈ runOfUnderscores b l -> c ∈ l.
Proof.
  revert b. induction l as [|d l IH]; intros b; cbn; [done|].
  repeat case_match; rewrite ?elem_of_cons; naive_solver.
Qed.

(** After a run has been opened the next kept byte is not an underscore. *)
Lemma runOfUnderscores_single b l :
  single_underscores (runOfUnderscores b l) /\
  (b = true -> head (runOfUnderscores b l) <> Some underscore).
Proof.
  revert b. induction l as [|c l IH]; intros b; cbn; [done|].
  destruct (IH true) as [IH1 IH2], (IH false) as [IH3 _].
  repeat case_match; subst; try done.
  - apply is_underscore_spec in H as ->. split; [|done].
    destruct (runOfUnderscores true l) as [|d k]; [done|].
    split; [|done]. intros [_ ->]. by apply IH2.
  - assert (c <> underscore) by (intros ->; done).
    split; [|intros _ [= ->]; done].
    destruct (runOfUnderscores false l) as [|d k]; [done|]. split; [naive_solver|done].
Qed.

Lemma single_underscores_app l k : single_underscores (l ++ k) ->
  single_underscores l /\ single_underscores k.
Proof.
  induction l as [|c l IH]; cbn; [done|]. destruct l as [|d l]; cbn in *.
  - destruct k; naive_solver.
  - naive_solver.
Qed.

Lemma runOfUnderscores_id b l :
  single_underscores l -> (b = true -> head l <> Some underscore) ->
  runOfUnderscores b l = l.
Proof.
  revert b. induction l as [|c l IH]; intros b Hl Hb; cbn; [done|].
  assert (Hl' : single_underscores l) by (destruct l; [done|apply Hl]).
  destruct (is_underscore c) eqn:Hc.
  - apply is_underscore_spec in Hc as ->. destruct b; [by destruct Hb|].
    f_equal. apply IH; [done|]. intros _ Hh. destruct l; [done|].
    cbn in *. naive_solver.
  - f_equal. by apply IH.
Qed.

Lemma trim_underscores_tidy l :
  single_underscores l -> tidy (trim_by (fun d => bool_decide (d = underscore)) l).
Proof.
  intros Hl. split_and!.
  - unfold trim_by.
    destruct (drop_while_suffix (fun d => bool_decide (d = underscore)) l) as [k1 H1].
    destruct (trim_right_by_prefix (fun d => bool_decide (d = underscore))
      (drop_while (fun d => bool_decide (d = underscore)) l)) as [k2 H2].
    rewrite H1 in Hl. apply single_underscores_app in Hl as [_ Hl].
    rewrite H2 in Hl. by apply single_underscores_app in Hl as [Hl _].
  - intros H%trim_by_head. by rewrite bool_decide_eq_false in H.
  - intros H%trim_by_last. by rewrite bool_decide_eq_false in H.
Qed.

Lemma trim_underscores_id l :
  tidy l -> trim_by (fun d => bool_decide (d = underscore)) l = l.
Proof.
  intros (_ & Hh & Hl). apply trim_by_id; intros x Hx; apply bool_decide_eq_false;
    intros ->; done.
Qed.

(** The camel-case passes only ever look at upper-case letters. *)
Lemma camelUpperLower_id b l : Forall (fun c => is_upper c = false) l ->
  camelUpperLower b l = l.
Proof.
  intros H. revert b. induction H as [|c l Hc _ IH]; intros b; cbn; [done|].
  by rewrite Hc, IH.
Qed.
Lemma camelLowerUpper_id l : Forall (fun c => is_upper c = false) l ->
  camelLowerUpper l = l.
Proof.
  induction 1 as [|c l Hc Hl IH]; cbn; [done|]. destruct Hl as [|d l Hd Hl]; [done|].
  rewrite Hd, andb_false_r. by rewrite IH.
Qed.
End Slugs.

Section Sanitize.
Context (rules : SlugRulesConfig).
Context (Hlower : sr_Lowercase rules = true).
Context (Hcollapse : sr_CollapseSeparators rules = true).

(** The tail of both pipelines, from [replaceOthers] on. *)
Definition clean (s : string) : string :=
  Trim (collapse rules (lowercase rules (replaceOthers s))) underscore.

Lemma clean_explode s :
  explode (clean s) =
    trim_by (fun d => bool_decide (d = underscore))
      (runOfUnderscores false (lower_char <$> nonAlnumUnderscore false (explode s))).
Proof.
  unfold clean, Trim, collapse, lowercase, replaceOthers, ToLower.
  by rewrite Hlower, Hcollapse, !explode_implode.
Qed.

Lemma clean_tidy s : tidy (explode (clean s)).
Proof. rewrite clean_explode. apply trim_underscores_tidy, runOfUnderscores_single. Qed.

Lemma clean_chars s : Forall slug_char (explode (clean s)).
Proof.
  rewrite clean_explode. apply Forall_forall. intros c Hc%trim_by_elem%runOfUnderscores_elem.
  apply list_elem_of_fmap in Hc as (d & -> & Hd).
  pose proof (nonAlnumUnderscore_word false (explode s)) as Hw.
  rewrite Forall_forall in Hw. apply Hw in Hd. split; [|apply lower_char_not_upper].
  unfold is_word in *. by rewrite lower_char_alnum, lower_char_underscore.
Qed.

Lemma clean_id s : tidy (explode s) -> Forall slug_char (explode s) -> clean s = s.
Proof.
  intros Ht Hs. apply explode_inj. rewrite clean_explode.
  assert (Hw : Forall (fun c => is_word c = true) (explode s))
    by (eapply Forall_impl; [done|by intros ? []]).
  rewrite nonAlnumUnderscore_id by done.
  assert (Hl : lower_char <$> explode s = explode s).
  { clear Ht Hw. induction Hs as [|c l [_ Hc] _ IH]; [done|]. cbn. f_equal; [|done].
    by apply lower_char_id. }
  rewrite Hl, runOfUnderscores_id by (by destruct Ht). by apply trim_underscores_id.
Qed.
End Sanitize.

Lemma replace_go_id old new s c :
  head (explode old) = Some c -> c ∉ explode s -> replace_go old new 0 s = s.
Proof.
  intros Ho. induction s as [|d s IH]; cbn [explode replace_go]; [done|]. intros Hc.
  replace (HasPrefix (String d s) old) with false; [rewrite IH by set_solver; done|].
  symmetry. apply not_true_iff_false. rewrite HasPrefix_spec. intros [t Ht].
  apply Hc. destruct old as [|o old]; [done|]. rewrite string_app_cons in Ht.
  cbn in Ho. cbn. set_solver.
Qed.

Lemma removeBraces_slug rules s : Forall slug_char (explode s) -> removeBraces rules s = s.
Proof.
  intros Hs. unfold removeBraces, ReplaceAll. case_match; [|done].
  rewrite Forall_forall in Hs.
  rewrite (replace_go_id _ _ s "{"%char), (replace_go_id _ _ s "}"%char);
    try reflexivity; intros []%Hs; done.
Qed.
Lemma replaceSlashes_slug rules s : Forall slug_char (explode s) -> replaceSlashes rules s = s.
Proof.
  intros Hs. unfold replaceSlashes, ReplaceAll. case_match; [|done].
  rewrite Forall_forall in Hs.
  rewrite (replace_go_id _ _ s "/"%char); try reflexivity; intros []%Hs; done.
Qed.
Lemma expandCamelCase_slug rules s : Forall slug_char (explode s) -> expandCamelCase rules s = s.
Proof.
  intros Hs. unfold expandCamelCase. case_match; [|done].
  assert (Forall (fun c => is_upper c = false) (explode s))
    by (eapply Forall_impl; [done|by intros ? []]).
  by rewrite camelUpperLower_id, camelLowerUpper_id, implode_explode.
Qed.

Lemma sanitizeIdentifier_clean id rules :
  sanitizeIdentifier id rules =
    clean rules (replaceSlashes rules (removeBraces rules (expandCamelCase rules id))).
Proof. done. Qed.

(** With the default [lowercase] and [collapse_separators] rules a sanitised
    identifier consists of [a-z], [0-9] and single inner underscores, and
    sanitising it again changes nothing. *)
Theorem sanitizeIdentifier_normal id rules :
  sr_Lowercase rules = true -> sr_CollapseSeparators rules = true ->
  let s := sanitizeIdentifier id rules in
  Forall slug_char (explode s) /\ tidy (explode s) /\ sanitizeIdentifier s rules = s.
Proof.
  intros Hl Hc. cbn zeta. rewrite sanitizeIdentifier_clean.
  set (s := clean _ _).
  assert (Hs : Forall slug_char (explode s)) by by apply clean_chars.
  assert (Ht : tidy (explode s)) by by apply clean_tidy.
  split_and!; [done..|]. rewrite sanitizeIdentifier_clean.
  rewrite expandCamelCase_slug, removeBraces_slug, replaceSlashes_slug by done.
  by apply clean_id.
Qed.

Definition default_slug_rules : SlugRulesConfig :=
  {| sr_ReplaceSlashes := true; sr_ReplaceBraces := true; sr_ExpandCamelCase := true;
     sr_Lowercase := true; sr_CollapseSeparators := true |}.

Lemma sanitizeIdentifier_normal_witness :
  sanitizeIdentifier "Get--HTTPServer_V2" default_slug_rules = "get_http_server_v2" /\
  sanitizeIdentifier "get_http_server_v2" default_slug_rules = "get_http_server_v2".
Proof.
  assert (Hs : sanitizeIdentifier "Get--HTTPServer_V2" default_slug_rules
    = "get_http_server_v2") by (vm_compute; reflexivity).
  split; [done|].
  pose proof (sanitizeIdentifier_normal "Get--HTTPServer_V2" default_slug_rules
    eq_refl eq_refl) as (_ & _ & H). by rewrite Hs in H.
Defined.

(** ** Unambiguous prefixes *)

Lemma tidy_suffix_of_prefixed p1 p2 x b :
  tidy (x ++ b) ->
  p1 ++ [underscore; underscore] = (p2 ++ [underscore; underscore]) ++ x -> x = [].
Proof.
  intros (Hs & Hh & _) Heq. destruct x as [|c x _] using rev_ind; [done|exfalso].
  change (p1 ++ [underscore] ++ [underscore] =
    (p2 ++ [underscore; underscore]) ++ x ++ [c]) in Heq.
  rewrite !app_assoc in Heq. apply app_inj_tail in Heq as [Heq <-].
  destruct x as [|d x _] using rev_ind; [done|].
  rewrite app_assoc in Heq. apply app_inj_tail in Heq as [_ <-].
  rewrite <-!app_assoc in Hs. apply single_underscores_app in Hs as [_ Hs].
  cbn in Hs. naive_solver.
Qed.

(** The last separator of [p ++ "__" ++ b] can be found again when [b] is tidy. *)
Lemma separator_split_unique p1 p2 b1 b2 :
  tidy b1 -> tidy b2 ->
  p1 ++ [underscore; underscore] ++ b1 = p2 ++ [underscore; underscore] ++ b2 ->
  p1 = p2 /\ b1 = b2.
Proof.
  intros Ht1 Ht2. rewrite !app_assoc. intros Heq.
  apply app_eq_app in Heq as [x [[Hp ->]|[Hp ->]]].
  all: assert (x = []) as -> by (eapply tidy_suffix_of_prefixed; done).
  all: rewrite app_nil_r in Hp; by apply app_inv_tail in Hp as ->.
Qed.



(** ** Conflict resolution *)

Section Conflicts.
Implicit Types (tools : list PrefixedTool) (t : PrefixedTool).

Lemma countName_cons t tools n :
  countName (t :: tools) n =
    ((if decide (pt_PrefixedName t = n) then 1 else 0) + countName tools n)%nat.
Proof. unfold countName. rewrite filter_cons. by repeat case_decide. Qed.

Lemma countName_pos tools n : (0 < countName tools n)%nat <-> n ∈ (pt_PrefixedName <$> tools).
Proof.
  induction tools as [|t tools IH].
  - split; [unfold countName; cbn; lia|]. cbn. set_solver.
  - rewrite countName_cons, fmap_cons, elem_of_cons, <-IH.
    case_decide as Hd; split.
    + by left.
    + lia.
    + intros. right. lia.
    + intros [->|]; [done|lia].
Qed.

Lemma elem_of_conflictNames tools n : n ∈ conflictNames tools <-> (1 < countName tools n)%nat.
Proof.
  unfold conflictNames. rewrite elem_of_set_of_names, list_elem_of_filter, <-countName_pos.
  split; [by intros []|]. lia.
Qed.

Lemma NoDup_countName tools :
  NoDup (pt_PrefixedName <$> tools) <-> forall n, (countName tools n <= 1)%nat.
Proof.
  induction tools as [|t tools IH]; cbn.
  - split; [|constructor]. intros _ n. unfold countName. cbn. lia.
  - rewrite NoDup_cons, IH, <-countName_pos. split.
    + intros [Hn Hc] n. rewrite countName_cons. specialize (Hc n).
      case_decide; subst; lia.
    + intros Hc. split.
      * specialize (Hc (pt_PrefixedName t)). rewrite countName_cons, decide_True in Hc by done.
        lia.
      * intros n. specialize (Hc n). rewrite countName_cons in Hc. lia.
Qed.

Lemma conflictNames_empty tools :
  conflictNames tools = ∅ <-> NoDup (pt_PrefixedName <$> tools).
Proof.
  rewrite NoDup_countName. split.
  - intros He n. destruct (decide (1 < countName tools n)%nat) as [Hn|]; [|lia].
    apply elem_of_conflictNames in Hn. set_solver.
  - intros Hc. apply set_eq. intros n. rewrite elem_of_conflictNames.
    specialize (Hc n). set_solver by lia.
Qed.

(** The reference: keep a tool when its name has not been seen. *)
Fixpoint keepFirst (seen : gset string) tools : list PrefixedTool :=
  match tools with
  | [] => []
  | t :: tools' =>
    if decide (pt_PrefixedName t ∈ seen) then keepFirst seen tools'
    else t :: keepFirst ({[pt_PrefixedName t]} ∪ seen) tools'
  end.

Lemma firstWins_keepFirst conflicts seen seen' tools :
  (forall n, n ∈ conflicts -> (n ∈ seen <-> n ∈ seen')) ->
  (forall n, n ∉ conflicts -> (countName tools n <= 1)%nat) ->
  (forall n, n ∉ conflicts -> n ∈ seen' -> countName tools n = 0%nat) ->
  firstWins conflicts seen tools = keepFirst seen' tools.
Proof.
  revert seen seen'. induction tools as [|t tools IH]; intros seen seen' Hs Hc Hz; [done|].
  cbn. set (n := pt_PrefixedName t).
  assert (Hc' : forall m, m ∉ conflicts -> (countName tools m <= 1)%nat).
  { intros m Hm. specialize (Hc m Hm). rewrite countName_cons in Hc. lia. }
  assert (Hz' : forall m, m ∉ conflicts -> m ∈ seen' -> countName tools m = 0%nat).
  { intros m Hm Hin. specialize (Hz m Hm Hin). rewrite countName_cons in Hz. lia. }
  destruct (decide (n ∈ conflicts)) as [Hn|Hn].
  - destruct (decide (n ∈ seen)) as [Hin|Hin].
    + rewrite decide_True by (by apply Hs). by apply IH.
    + rewrite decide_False by (by rewrite <-Hs). f_equal. apply IH; [|done|].
      * intros m Hm. specialize (Hs m Hm). set_solver.
      * intros m Hm. rewrite elem_of_union, elem_of_singleton. intros [->|]; [done|auto].
  - assert (Hout : n ∉ seen').
    { intros Hin. specialize (Hz n Hn Hin). rewrite countName_cons, decide_True in Hz by done.
      lia. }
    rewrite decide_False by done. f_equal. apply IH; [|done|].
    + intros m Hm. specialize (Hs m Hm). set_solver.
    + intros m Hm. rewrite elem_of_union, elem_of_singleton. intros [->|]; [|auto].
      specialize (Hc n Hn). rewrite countName_cons, decide_True in Hc by done. lia.
Qed.

Lemma keepFirst_sublist seen tools : sublist (keepFirst seen tools) tools.
Proof.
  revert seen. induction tools as [|t tools IH]; intros seen; cbn; [constructor|].
  case_decide; by constructor.
Qed.

Lemma keepFirst_first seen tools t : t ∈ keepFirst seen tools ->
  pt_PrefixedName t ∉ seen /\
  exists pre post, tools = pre ++ t :: post /\ pt_PrefixedName t ∉ (pt_PrefixedName <$> pre).
Proof.
  revert seen. induction tools as [|u tools IH]; intros seen; cbn; [set_solver|].
  case_decide as Hu.
  - intros (Hs & pre & post & -> & Hpre)%IH. split; [done|].
    exists (u :: pre), post. split; [done|]. cbn. rewrite not_elem_of_cons.
    split; [congruence|done].
  - rewrite elem_of_cons. intros [->|(Hs & pre & post & -> & Hpre)%IH].
    + split; [done|]. exists [], tools. split; [done|]. cbn. set_solver.
    + rewrite not_elem_of_union, not_elem_of_singleton in Hs. destruct Hs as [Hs Hs'].
      split; [done|]. exists (u :: pre), post. split; [done|]. cbn.
      by rewrite not_elem_of_cons.
Qed.

Lemma keepFirst_names seen tools n :
  n ∈ (pt_PrefixedName <$> keepFirst seen tools) <->
  n ∈ (pt_PrefixedName <$> tools) /\ n ∉ seen.
Proof.
  revert seen. induction tools as [|t tools IH]; intros seen; cbn; [set_solver|].
  case_decide as Ht; cbn; rewrite ?elem_of_cons, IH, ?not_elem_of_union, ?not_elem_of_singleton.
  - split; [naive_solver|]. intros [[->|] ?]; naive_solver.
  - destruct (decide (n = pt_PrefixedName t)) as [->|]; naive_solver.
Qed.

Lemma keepFirst_NoDup seen tools : NoDup (pt_PrefixedName <$> keepFirst seen tools).
Proof.
  revert seen. induction tools as [|t tools IH]; intros seen; cbn; [constructor|].
  case_decide; [apply IH|]. cbn. constructor; [|apply IH].
  rewrite keepFirst_names. set_solver.
Qed.

Lemma keepFirst_id seen tools : NoDup (pt_PrefixedName <$> tools) ->
  (forall n, n ∈ (pt_PrefixedName <$> tools) -> n ∉ seen) -> keepFirst seen tools = tools.
Proof.
  revert seen. induction tools as [|t tools IH]; intros seen; cbn; [done|].
  rewrite NoDup_cons. intros [Ht Hnd] Hs.
  rewrite decide_False by (apply Hs; set_solver). f_equal. apply IH; [done|set_solver].
Qed.

Lemma DetectConflicts_keepFirst tools :
  DetectConflicts tools "first_wins" = Ok (keepFirst ∅ tools).
Proof.
  unfold DetectConflicts. case_decide as He.
  - apply conflictNames_empty in He. by rewrite keepFirst_id.
  - cbn. f_equal. apply firstWins_keepFirst; [set_solver| |set_solver].
    intros n. rewrite elem_of_conflictNames. lia.
Qed.

Lemma countName_sublist l1 l2 n : sublist l1 l2 -> (countName l1 n <= countName l2 n)%nat.
Proof.
  unfold countName. induction 1 as [|t l1 l2 _ IH|t l1 l2 _ IH]; [done| |];
    rewrite ?(filter_cons _ t); case_decide; cbn; lia.
Qed.

(** Every strategy leaves distinct names and keeps the order. *)
Lemma DetectConflicts_Ok tools resolution out :
  DetectConflicts tools resolution = Ok out ->
  sublist out tools /\ NoDup (pt_PrefixedName <$> out).
Proof.
  destruct (decide (resolution = "first_wins")) as [->|Hfw].
  { rewrite DetectConflicts_keepFirst. intros [= <-].
    split; [apply keepFirst_sublist|apply keepFirst_NoDup]. }
  unfold DetectConflicts. case_decide as He; [|rewrite (bool_decide_false _ Hfw)].
  - intros [= <-]. split; [done|]. by apply conflictNames_empty.
  - case_bool_decide; [done|]. case_bool_decide; [|done]. intros [= <-]. unfold skipConflicts.
    split; [apply sublist_filter|]. apply conflictNames_empty, set_eq. intros n.
    rewrite elem_of_conflictNames. split; [|by intros ?%not_elem_of_empty].
    intros Hc. exfalso.
    assert (Hpos : (0 < countName
      (filter (fun t => pt_PrefixedName t ∉ conflictNames tools) tools) n)%nat) by lia.
    apply countName_pos, list_elem_of_fmap in Hpos as (t & -> & [Ht _]%list_elem_of_filter).
    apply Ht, elem_of_conflictNames. eapply Nat.lt_le_trans; [exact Hc|].
    apply countName_sublist, sublist_filter.
Qed.
End Conflicts.

(** C5: [conflict_resolution: first_wins] always succeeds; the surviving tools
    are a subsequence of the input with distinct names, every input name
    survives, and each survivor is the first tool of its name. *)
Theorem DetectConflicts_first_wins (tools : list PrefixedTool) :
  exists out, DetectConflicts tools "first_wins" = Ok out /\
    sublist out tools /\
    NoDup (pt_PrefixedName <$> out) /\
    (forall n, n ∈ (pt_PrefixedName <$> out) <-> n ∈ (pt_PrefixedName <$> tools)) /\
    (forall t, t ∈ out -> exists pre post,
      tools = pre ++ t :: post /\ pt_PrefixedName t ∉ (pt_PrefixedName <$> pre)).
Proof.
  exists (keepFirst ∅ tools). split_and!.
  - apply DetectConflicts_keepFirst.
  - apply keepFirst_sublist.
  - apply keepFirst_NoDup.
  - intros n. rewrite keepFirst_names. set_solver.
  - by intros t [_ ?]%keepFirst_first.
Qed.

(** The other strategies. Tools with distinct names pass every strategy,
    known or not, unchanged. On a clash, [error] reports exactly the names that
    occur twice, [skip] keeps exactly the tools whose name is unique, and an
    unknown strategy is an error. *)
Theorem DetectConflicts_strategies (tools : list PrefixedTool) (resolution : string) :
  (NoDup (pt_PrefixedName <$> tools) -> DetectConflicts tools resolution = Ok tools) /\
  (~ NoDup (pt_PrefixedName <$> tools) ->
    (exists names, DetectConflicts tools "error" = Err (ToolNameConflicts names) /\
      forall n, n ∈ names <-> (1 < countName tools n)%nat) /\
    (exists out, DetectConflicts tools "skip" = Ok out /\ sublist out tools /\
      forall t, t ∈ out <-> t ∈ tools /\ countName tools (pt_PrefixedName t) = 1%nat) /\
    (resolution ∉ ["error"; "first_wins"; "skip"] ->
      DetectConflicts tools resolution = Err (UnknownConflictResolution resolution))).
Proof.
  unfold DetectConflicts. rewrite <-conflictNames_empty. split.
  - intros He. by rewrite decide_True.
  - intros Hne. rewrite !decide_False by done. split_and!.
    + exists (conflictNames tools). split; [done|]. apply elem_of_conflictNames.
    + exists (skipConflicts (conflictNames tools) tools). split_and!; [done| |].
      * apply sublist_filter.
      * intros t. unfold skipConflicts.
        rewrite list_elem_of_filter, elem_of_conflictNames.
        split; [intros [Hc Ht]|intros [Ht Hc]]; split; try done; [|lia].
        assert (0 < countName tools (pt_PrefixedName t))%nat
          by (by apply countName_pos, list_elem_of_fmap_2).
        lia.
    + rewrite !not_elem_of_cons. intros (? & ? & ? & _). by rewrite !bool_decide_false.
Qed.

Lemma DetectConflicts_strategies_witness :
  let a := {| pt_PrefixedName := "p__a"; pt_OriginalPath := "/a"; pt_OriginalMethod := "GET" |} in
  let b := {| pt_PrefixedName := "p__a"; pt_OriginalPath := "/a_"; pt_OriginalMethod := "GET" |} in
  DetectConflicts [a; b] "last_wins" = Err (UnknownConflictResolution "last_wins") /\
  DetectConflicts [a] "last_wins" = Ok [a].
Proof.
  intros a b. split.
  - apply (DetectConflicts_strategies [a; b] "last_wins").
    + change (~ NoDup ["p__a"; "p__a"]). rewrite NoDup_cons. set_solver.
    + set_solver.
  - apply (DetectConflicts_strategies [a] "last_wins").
    apply NoDup_singleton.
Defined.
