(* ===== verification/Mcp.v ===== *)
(** * MCP values

    The data the components exchange: Go's [any] restricted to what
    [encoding/json] produces, and the MCP SDK's tool, content and result
    structs as the program fills and reads them. *)
From S2P Require Export Prelude Config GoStrings.
Open Scope Z_scope.

(** A decoded JSON value.  An object is the list of its entries in the order a
    [range] over the Go map visits them, so a theorem about every such list
    holds for every iteration order. *)
Inductive value :=
  | VNull
  | VBool (b : bool)
  | VInt (n : Z)
  | VFloat (f : float64)
  | VString (s : string)
  | VArray (vs : list value)
  | VObject (kvs : list (string * value)).

(** Induction through the nested lists. *)
Section ValueInd.
Context (P : value -> Prop).
Context (Hnull : P VNull) (Hbool : forall b, P (VBool b)) (Hint : forall n, P (VInt n))
  (Hfloat : forall f, P (VFloat f)) (Hstring : forall s, P (VString s))
  (Harray : forall vs, Forall P vs -> P (VArray vs))
  (Hobject : forall kvs, Forall (fun kv => P kv.2) kvs -> P (VObject kvs)).

Fixpoint value_ind_nested (v : value) : P v :=
  match v with
  | VNull => Hnull
  | VBool b => Hbool b
  | VInt n => Hint n
  | VFloat f => Hfloat f
  | VString s => Hstring s
  | VArray vs =>
    Harray vs ((fix go vs : Forall P vs :=
      match vs with
      | [] => List.Forall_nil _
      | v :: vs => List.Forall_cons _ _ _ (value_ind_nested v) (go vs)
      end) vs)
  | VObject kvs =>
    Hobject kvs ((fix go kvs : Forall (fun kv => P kv.2) kvs :=
      match kvs with
      | [] => List.Forall_nil _
      | (k, v) :: kvs => List.Forall_cons _ (k, v) _ (value_ind_nested v) (go kvs)
      end) kvs)
  end.
End ValueInd.

(** [m[k]] *)
Fixpoint assoc {A} (k : string) (kvs : list (string * A)) : option A :=
  match kvs with
  | [] => None
  | (k', v) :: kvs' => if decide (k = k') then Some v else assoc k kvs'
  end.

Lemma assoc_elem {A} k (v : A) kvs : NoDup kvs.*1 -> (k, v) ∈ kvs -> assoc k kvs = Some v.
Proof.
  induction kvs as [|[k' v'] kvs IH]; cbn; intros Hnd Hin; [by apply not_elem_of_nil in Hin|].
  apply NoDup_cons in Hnd as [Hnot Hnd].
  apply elem_of_cons in Hin as [[= <- <-]|Hin]; [by rewrite decide_True|].
  rewrite decide_False; [by apply IH|]. intros ->. apply Hnot.
  by apply (list_elem_of_fmap_2 fst _ (k', v)).
Qed.

Lemma assoc_None {A} k (kvs : list (string * A)) : assoc k kvs = None <-> k ∉ kvs.*1.
Proof.
  induction kvs as [|[k' v'] kvs IH]; cbn; [split; [intros _; apply not_elem_of_nil|done]|].
  case_decide as Hk; rewrite not_elem_of_cons; [naive_solver|]. rewrite IH. naive_solver.
Qed.

Lemma assoc_perm {A} k (kvs1 kvs2 : list (string * A)) :
  NoDup kvs1.*1 -> kvs1 ≡ₚ kvs2 -> assoc k kvs1 = assoc k kvs2.
Proof.
  intros Hnd Hp. destruct (assoc k kvs2) as [v|] eqn:E.
  - assert (Hin : (k, v) ∈ kvs2).
    { clear -E. induction kvs2 as [|[k' v'] kvs IH]; cbn in *; [done|].
      case_decide; simplify_eq; [by left|]. right. by apply IH. }
    apply assoc_elem; [done|]. by rewrite Hp.
  - apply assoc_None in E. apply assoc_None. by rewrite Hp.
Qed.

Record Tool := {
  tool_Name : string;
  tool_Description : string;
  tool_InputSchema : option handle;
  (** [Meta["ui"]["resourceUri"]], the only metadata the program sets *)
  tool_ResourceUri : option string
}.
#[export] Instance Tool_eq_dec : EqDecision Tool.
Proof. solve_decision. Defined.

Inductive Content :=
  | TextContent (text : string)
  | ImageContent (data : string) (mimeType : string)
  | AudioContent (data : string) (mimeType : string)
  | EmbeddedResource (mimeType : string) (blob : string).

Record CallToolResult := {
  res_IsError : bool;
  res_Content : list Content
}.
#[export] Instance Content_eq_dec : EqDecision Content.
Proof. solve_decision. Defined.
#[export] Instance CallToolResult_eq_dec : EqDecision CallToolResult.
Proof. solve_decision. Defined.

(** An [IsError] result with one text item. *)
Definition errorResult (msg : string) : CallToolResult :=
  {| res_IsError := true; res_Content := [TextContent msg] |}.
Definition textResult (text : string) : CallToolResult :=
  {| res_IsError := false; res_Content := [TextContent text] |}.

(** Tool-call arguments: a [map[string]any]. *)
Abbreviation args := (list (string * value)).

(** The outcome of a Go call returning [( *CallToolResult, error)]. *)
Record Reply := {
  rep_Result : option CallToolResult;
  rep_Error : option string
}.
Definition reply_ok (r : CallToolResult) : Reply := {| rep_Result := Some r; rep_Error := None |}.
Definition reply_err (e : string) : Reply := {| rep_Result := None; rep_Error := Some e |}.
