(* ===== verification/Json.v ===== *)
(** * JSON text (encoding/json)

    What the program uses of Go's [json.Marshal] and [json.Encoder]: string
    quoting, and objects written with their keys sorted.  The formatting of
    floating-point numbers is a parameter.  The lemmas say that the text does
    not depend on the iteration order of maps and that quotes and brackets
    balance, which is what makes JSON usable as the tail of a cache key. *)
From stdpp Require Export pretty.
From S2P Require Export Mcp.
Open Scope Z_scope.

Definition dquote : ascii := "034"%char.
Definition backslash : ascii := "\"%char.

(** ** Sorted keys ([sort.Strings]) *)
Definition sort_strings : list string -> list string := merge_sort String.le.

Lemma sort_strings_perm l : sort_strings l ≡ₚ l.
Proof. apply merge_sort_Permutation. Qed.

Lemma sort_strings_sorted l : Sorted String.le (sort_strings l).
Proof. apply Sorted_merge_sort, _. Qed.

(** Sorting forgets the order. *)
#[export] Instance sort_strings_proper : Proper ((≡ₚ) ==> (=)) sort_strings.
Proof.
  intros l1 l2 Hp. apply (Sorted_unique String.le); [apply sort_strings_sorted..|].
  by rewrite !sort_strings_perm.
Qed.

(** ** Strings *)
Definition hex_digit (n : N) : ascii :=
  if (n <? 10)%N then byte_of (48 + n) else byte_of (87 + n).

(** The escape of one ASCII byte; [html] is the encoder's [escapeHTML]. *)
Definition quote_byte (html : bool) (b : ascii) : list ascii :=
  let n := of_byte b in
  if bool_decide (b = dquote) || bool_decide (b = backslash) then [backslash; b]
  else if (n =? 8)%N then [backslash; "b"%char]
  else if (n =? 12)%N then [backslash; "f"%char]
  else if (n =? 10)%N then [backslash; "n"%char]
  else if (n =? 13)%N then [backslash; "r"%char]
  else if (n =? 9)%N then [backslash; "t"%char]
  else if (n <? 32)%N || (html && ((n =? 38)%N || (n =? 60)%N || (n =? 62)%N))
  then backslash :: explode "u00" ++ [hex_digit (n / 16); hex_digit (n mod 16)]
  else [b].

Definition quote_piece (html : bool) (p : N * list ascii) : list ascii :=
  match p.2 with
  | [b] => if (of_byte b <? 128)%N then quote_byte html b else backslash :: explode "ufffd"
  | bs => if (p.1 =? 8232)%N || (p.1 =? 8233)%N
          then backslash :: explode "u202" ++ [hex_digit (p.1 mod 16)] else bs
  end.

Definition quote (html : bool) (s : string) : string :=
  String dquote (implode (decode (explode s) ≫= quote_piece html) +:+ String dquote "").

(** ** Values *)
Section Marshal.
(** The text of a finite number; [None] for NaN and the infinities. *)
Context (FormatFloat : float64 -> option string).

Fixpoint Marshal (html : bool) (v : value) : option string :=
  match v with
  | VNull => Some "null"
  | VBool b => Some (if b then "true" else "false")
  | VInt n => Some (pretty n)
  | VFloat f => FormatFloat f
  | VString s => Some (quote html s)
  | VArray vs =>
    parts ← mapM (Marshal html) vs;
    Some ("[" +:+ Join parts "," +:+ "]")
  | VObject kvs =>
    texts ← mapM (fun kv => t ← Marshal html kv.2; Some (kv.1, t)) kvs;
    Some ("{" +:+ Join ((fun k => quote html k +:+ ":" +:+ default "" (assoc k texts))
                          <$> sort_strings kvs.*1) "," +:+ "}")
  end.
End Marshal.

(** ** Values that differ in iteration order only *)
Inductive same_value : value -> value -> Prop :=
  | same_refl v : same_value v v
  | same_trans v1 v2 v3 : same_value v1 v2 -> same_value v2 v3 -> same_value v1 v3
  | same_perm kvs1 kvs2 :
      NoDup kvs1.*1 -> kvs1 ≡ₚ kvs2 -> same_value (VObject kvs1) (VObject kvs2)
  | same_in_array l v1 v2 r :
      same_value v1 v2 -> same_value (VArray (l ++ v1 :: r)) (VArray (l ++ v2 :: r))
  | same_in_object l k v1 v2 r :
      same_value v1 v2 ->
      same_value (VObject (l ++ (k, v1) :: r)) (VObject (l ++ (k, v2) :: r)).

Lemma mapM_option_ext {A B} (f : A -> option B) l1 l2 :
  Forall2 (fun a b => f a = f b) l1 l2 -> mapM f l1 = mapM f l2.
Proof. induction 1 as [|a b l1 l2 H _ IH]; cbn; [done|]. by rewrite H, IH. Qed.

Lemma mapM_option_ext_fun {A B} (f g : A -> option B) l :
  Forall (fun a => f a = g a) l -> mapM f l = mapM g l.
Proof. induction 1 as [|a l H _ IH]; cbn; [done|]. by rewrite H, IH. Qed.

Lemma mapM_option_perm {A B} (f : A -> option B) l1 l2 :
  l1 ≡ₚ l2 ->
  match mapM f l1, mapM f l2 with
  | Some k1, Some k2 => k1 ≡ₚ k2
  | None, None => True
  | _, _ => False
  end.
Proof.
  induction 1 as [|x l1 l2 _ IH|x y l|l1 l2 l3 _ IH1 _ IH2]; cbn; [done| | |].
  - destruct (f x); cbn; [|done]. destruct (mapM f l1), (mapM f l2); cbn; try done.
    by constructor.
  - destruct (f x), (f y); cbn; try done. all: destruct (mapM f l); cbn; try done.
    by constructor.
  - destruct (mapM f l1), (mapM f l2), (mapM f l3); try done. by etransitivity.
Qed.

Section MarshalFacts.
Context (FormatFloat : float64 -> option string).

Lemma texts_keys html (kvs : list (string * value)) (texts : list (string * string)) :
  mapM (fun kv => t ← Marshal FormatFloat html kv.2; Some (kv.1, t)) kvs = Some texts ->
  texts.*1 = kvs.*1.
Proof.
  revert texts. induction kvs as [|[k v] kvs IH]; cbn; intros texts H; [by injection H as <-|].
  destruct (Marshal _ _ v); cbn in H; [|done].
  destruct (mapM _ kvs) as [ts|]; cbn in H; [|done]. injection H as <-. cbn. f_equal.
  by apply IH.
Qed.

(** The text of a value is the same for every iteration order. *)
Lemma Marshal_same html v1 v2 :
  same_value v1 v2 -> Marshal FormatFloat html v1 = Marshal FormatFloat html v2.
Proof.
  induction 1 as [v|v1 v2 v3 _ IH1 _ IH2|kvs1 kvs2 Hnd Hp|l v1 v2 r _ IH|l k v1 v2 r _ IH].
  - done.
  - by rewrite IH1.
  - cbn. set (f := fun kv : string * value => _).
    pose proof (mapM_option_perm f kvs1 kvs2 Hp) as Hm.
    destruct (mapM f kvs1) as [t1|] eqn:E1, (mapM f kvs2) as [t2|] eqn:E2;
      [|done..]; cbn.
    assert (Hk : sort_strings kvs1.*1 = sort_strings kvs2.*1) by by rewrite Hp.
    rewrite Hk. do 4 f_equal. apply list_fmap_ext. intros i k Hi.
    rewrite (assoc_perm k t1 t2); [done| |done]. by rewrite (texts_keys _ _ _ E1).
  - cbn. erewrite mapM_option_ext; [done|]. apply Forall2_app.
    + by apply Forall_Forall2_diag, Forall_forall.
    + constructor; [done|]. by apply Forall_Forall2_diag, Forall_forall.
  - cbn. erewrite mapM_option_ext.
    + by rewrite !fmap_app.
    + apply Forall2_app; [by apply Forall_Forall2_diag, Forall_forall|].
      constructor; [cbn; by rewrite IH|]. by apply Forall_Forall2_diag, Forall_forall.
Qed.
End MarshalFacts.

(** ** Balance

    A scanner of quotes and brackets that takes a backslash to escape the next
    byte everywhere, so that its quote parity does not depend on where in a
    text it starts. *)
Record scan := Scan { sc_quoted : bool; sc_escaped : bool; sc_depth : Z }.

Definition is_open (c : ascii) : bool := bool_decide (c = "{"%char) || bool_decide (c = "["%char).
Definition is_close (c : ascii) : bool := bool_decide (c = "}"%char) || bool_decide (c = "]"%char).

Definition scan_step (st : scan) (c : ascii) : scan :=
  if sc_escaped st then Scan (sc_quoted st) false (sc_depth st)
  else if bool_decide (c = backslash) then Scan (sc_quoted st) true (sc_depth st)
  else if bool_decide (c = dquote) then Scan (negb (sc_quoted st)) false (sc_depth st)
  else if sc_quoted st then st
  else if is_open c then Scan false false (sc_depth st + 1)
  else if is_close c then Scan false false (sc_depth st - 1)
  else st.

Definition scan_run (st : scan) (l : list ascii) : scan := foldl scan_step st l.

(** From [st], [l] leads to [st'] and never below depth [d]. *)
Definition walks (d : Z) (st : scan) (l : list ascii) (st' : scan) : Prop :=
  scan_run st l = st' /\ forall k r, l = k ++ r -> d <= sc_depth (scan_run st k).

Lemma walks_nil d st : d <= sc_depth st -> walks d st [] st.
Proof. intros H. split; [done|]. by intros [|] r. Qed.

Lemma walks_app d st1 st2 st3 l1 l2 :
  walks d st1 l1 st2 -> walks d st2 l2 st3 -> walks d st1 (l1 ++ l2) st3.
Proof.
  intros [H1 D1] [H2 D2]. split; [unfold scan_run in *; by rewrite foldl_app, H1|].
  intros k r Heq. apply app_eq_inv in Heq as [(m & -> & Hr)|(m & -> & Hr)].
  - by apply (D1 k m).
  - unfold scan_run in *. rewrite foldl_app, H1. by apply (D2 m r).
Qed.

Lemma walks_step d st c :
  d <= sc_depth st -> d <= sc_depth (scan_step st c) -> walks d st [c] (scan_step st c).
Proof. intros H1 H2. split; [done|]. by intros [|? [|]] r [=]; subst. Qed.

Lemma walks_weaken d d' st l st' : walks d st l st' -> d' <= d -> walks d' st l st'.
Proof. intros [H D] Hd. split; [done|]. intros k r Heq. specialize (D k r Heq). lia. Qed.

Lemma walks_cons d st c l st' :
  d <= sc_depth st -> walks d (scan_step st c) l st' -> walks d st (c :: l) st'.
Proof.
  intros H1 H. assert (d <= sc_depth (scan_step st c)) by apply (proj2 H [] l eq_refl).
  change (c :: l) with ([c] ++ l). eapply walks_app; [|exact H]. by apply walks_step.
Qed.

Abbreviation outside d := (Scan false false d).
Abbreviation inside d := (Scan true false d).

(** Bytes that neither quote nor nest. *)
Definition plain (c : ascii) : bool :=
  negb (bool_decide (c = backslash) || bool_decide (c = dquote) || is_open c || is_close c).

Lemma walks_plain d l :
  forallb plain l = true -> walks d (outside d) l (outside d).
Proof.
  induction l as [|c l IH]; cbn; [intros _; by apply walks_nil|].
  intros [Hc Hl]%andb_true_iff. apply walks_cons; [done|].
  replace (scan_step (outside d) c) with (outside d); [by apply IH|].
  unfold plain in Hc. apply negb_true_iff in Hc. unfold scan_step. cbn.
  by repeat case_match; simplify_eq/=.
Qed.

(** A run of bytes inside a string stays at its depth. *)
Lemma walks_inside d l :
  (forall k r, l = k ++ r -> exists e, scan_run (inside d) k = Scan true e d) ->
  scan_run (inside d) l = inside d -> walks d (inside d) l (inside d).
Proof.
  intros H1 H2. split; [done|]. intros k r Heq. destruct (H1 k r Heq) as [e ->]. done.
Qed.

Lemma walks_unquoted d l :
  Forall (fun c => c <> dquote /\ c <> backslash) l -> walks d (inside d) l (inside d).
Proof.
  induction 1 as [|c l [Hq Hb] _ IH]; [by apply walks_nil|].
  apply walks_cons; [done|]. unfold scan_step. cbn.
  by rewrite !bool_decide_false.
Qed.

Lemma walks_quote_byte d html b : walks d (inside d) (quote_byte html b) (inside d).
Proof.
  destruct html; destruct b as [[] [] [] [] [] [] [] []];
    repeat (apply walks_cons; [reflexivity|]); by apply walks_nil.
Qed.

(** Only one-byte pieces hold ASCII. *)
Lemma decode_high s r bs :
  (r, bs) ∈ decode s -> length bs <> 1%nat ->
  Forall (fun c => c <> dquote /\ c <> backslash) bs.
Proof.
  intros [(b & -> & _)|Hhigh]%decode_piece Hl; [done|].
  eapply Forall_impl; [exact Hhigh|]. intros c Hc. cbn in Hc.
  split; intros ->; by vm_compute in Hc.
Qed.

Lemma walks_quote_piece d html s r bs :
  (r, bs) ∈ decode s -> walks d (inside d) (quote_piece html (r, bs)) (inside d).
Proof.
  intros Hin. unfold quote_piece. cbn [fst snd].
  assert (Hhex : forall n, (n < 16)%N -> hex_digit n <> dquote /\ hex_digit n <> backslash).
  { intros n Hn. unfold hex_digit.
    destruct n as [|p]; [by split|]. do 5 (destruct p as [p|p|]; try by split). all: lia. }
  assert (Hesc : walks d (inside d) (backslash :: explode "u202" ++ [hex_digit (r mod 16)])
    (inside d)).
  { change (backslash :: explode "u202" ++ [hex_digit (r mod 16)])
      with (backslash :: "u"%char :: ["2"%char; "0"%char; "2"%char; hex_digit (r mod 16)]).
    do 2 (apply walks_cons; [reflexivity|]). cbn.
    apply walks_unquoted. repeat (apply Forall_cons; split; [by split|]).
    constructor; [|constructor]. apply Hhex, N.mod_lt. done. }
  destruct bs as [|b [|b' bs]].
  - case_match; [exact Hesc|by apply walks_nil].
  - case_match; [apply walks_quote_byte|].
    repeat (apply walks_cons; [reflexivity|]); by apply walks_nil.
  - case_match; [exact Hesc|]. apply walks_unquoted. by eapply decode_high.
Qed.

Lemma walks_quote d html s : walks d (outside d) (explode (quote html s)) (outside d).
Proof.
  unfold quote. cbn. rewrite explode_app, explode_implode. cbn.
  apply walks_cons; [done|]. change (scan_step (outside d) dquote) with (inside d).
  eapply walks_app; [|by apply (walks_step d (inside d) dquote)].
  assert (Hin : forall p, p ∈ decode (explode s) -> p ∈ decode (explode s)) by done.
  revert Hin. generalize (decode (explode s)) at 1 3 as ps.
  intros ps. induction ps as [|[r bs] ps IH]; intros Hin; cbn; [by apply walks_nil|].
  eapply walks_app.
  - eapply walks_quote_piece, Hin. by left.
  - apply IH. intros p Hp. apply Hin. by right.
Qed.

Lemma walks_join d (texts : list string) :
  Forall (fun t => walks d (outside d) (explode t) (outside d)) texts ->
  walks d (outside d) (explode (Join texts ",")) (outside d).
Proof.
  unfold Join. induction 1 as [|t texts Ht Hts IH]; [by apply walks_nil|].
  destruct texts as [|t' texts]; [exact Ht|].
  change (String.concat "," (t :: t' :: texts))
    with (t +:+ ("," +:+ String.concat "," (t' :: texts))).
  rewrite !explode_app. eapply walks_app; [exact Ht|].
  eapply walks_app; [by apply walks_plain|exact IH].
Qed.

Lemma pretty_N_plain (n : N) : forallb plain (explode (pretty n)) = true.
Proof.
  assert (Hchar : forall x, plain (pretty_N_char x) = true).
  { intros x. unfold pretty_N_char. by repeat case_match. }
  unfold pretty, pretty_N. case_decide; [reflexivity|].
  assert (Hs : forallb plain (explode "") = true) by done. revert Hs.
  generalize "" as s. clear H. induction (N.lt_wf_0 n) as [n _ IH]; intros s Hs.
  destruct (decide (n = 0%N)) as [->|Hn]; [by rewrite pretty_N_go_0|].
  rewrite pretty_N_go_step by lia. apply IH.
  - by apply N.div_lt; [lia|].
  - cbn. by rewrite Hchar.
Qed.

Lemma pretty_Z_plain (z : Z) : forallb plain (explode (pretty z)) = true.
Proof.
  destruct z as [|p|p]; [reflexivity|apply pretty_N_plain|].
  change (pretty (Z.neg p)) with ("-" +:+ pretty (Npos p)). rewrite explode_app.
  cbn. apply pretty_N_plain.
Qed.

Section Balance.
Context (FormatFloat : float64 -> option string).
(** The text of a number is made of digits, signs, a point and an exponent. *)
Context (FormatFloat_plain : forall f t, FormatFloat f = Some t ->
  forallb plain (explode t) = true).

Lemma mapM_Forall {A B} (f : A -> option B) (P : B -> Prop) l k :
  Forall (fun a => forall b, f a = Some b -> P b) l -> mapM f l = Some k -> Forall P k.
Proof.
  intros Hl. revert k. induction Hl as [|a l Ha _ IH]; cbn; intros k H.
  - injection H as <-. constructor.
  - destruct (f a) as [b|]; cbn in H; [|done]. destruct (mapM f l) as [k'|]; [|done].
    cbn in H. injection H as <-. constructor; auto.
Qed.

Definition balanced (v : value) : Prop :=
  forall html t d, Marshal FormatFloat html v = Some t ->
  walks d (outside d) (explode t) (outside d).

Lemma walks_bracket d o c body :
  is_open o = true -> is_close c = true ->
  walks (d + 1) (outside (d + 1)) (explode body) (outside (d + 1)) ->
  walks d (outside d) (explode (String o "" +:+ body +:+ String c "")) (outside d).
Proof.
  intros Ho Hc Hb.
  assert (H1 : scan_step (outside d) o = outside (d + 1)).
  { unfold scan_step. cbn. rewrite Ho. unfold is_open in Ho.
    apply orb_true_iff in Ho as [->%bool_decide_eq_true | ->%bool_decide_eq_true]; done. }
  assert (H2 : scan_step (outside (d + 1)) c = outside d).
  { unfold scan_step. cbn. rewrite Hc. unfold is_close in Hc.
    replace (d + 1 - 1) with d by lia.
    apply orb_true_iff in Hc as [->%bool_decide_eq_true | ->%bool_decide_eq_true]; done. }
  rewrite !explode_app. cbn. apply walks_cons; [done|]. rewrite H1.
  eapply walks_app; [eapply walks_weaken; [exact Hb|lia]|].
  apply walks_cons; [cbn; lia|]. rewrite H2. by apply walks_nil.
Qed.

(** The members of an object, between its braces. *)
Definition members (html : bool) (keys : list string) (texts : list (string * string)) :=
  Join ((fun k => quote html k +:+ ":" +:+ default "" (assoc k texts)) <$> keys) ",".

Lemma walks_members d html keys texts :
  Forall (fun kt => walks d (outside d) (explode kt.2) (outside d)) texts ->
  walks d (outside d) (explode (members html keys texts)) (outside d).
Proof.
  intros Ht. apply walks_join, Forall_fmap, Forall_forall. intros k _. cbn.
  rewrite !explode_app. eapply walks_app; [apply walks_quote|].
  eapply walks_app; [by apply walks_plain|].
  induction Ht as [|[k' t] texts H _ IH]; cbn; [by apply walks_nil|].
  by case_decide.
Qed.

Lemma object_texts d html (kvs : list (string * value)) (texts : list (string * string)) :
  Forall (fun kv => balanced kv.2) kvs ->
  mapM (fun kv => t ← Marshal FormatFloat html kv.2; Some (kv.1, t)) kvs = Some texts ->
  Forall (fun kt => walks d (outside d) (explode kt.2) (outside d)) texts.
Proof.
  intros Hk Hm. eapply mapM_Forall; [|exact Hm]. eapply Forall_impl; [exact Hk|]. intros [k v] Hv [k' t].
  cbn. destruct (Marshal _ _ v) eqn:E; cbn; [|done]. intros [= <- <-]. by eapply Hv.
Qed.

Lemma Marshal_balanced v : balanced v.
Proof.
  induction v as [|b|n|f|s|vs IH|kvs IH] using value_ind_nested; intros html t d H; cbn in H.
  - injection H as <-. by apply walks_plain.
  - injection H as <-. destruct b; by apply walks_plain.
  - injection H as <-. apply walks_plain, pretty_Z_plain.
  - eapply walks_plain, FormatFloat_plain, H.
  - injection H as <-. apply walks_quote.
  - destruct (mapM _ vs) as [parts|] eqn:E; cbn in H; [|done]. injection H as <-.
    apply walks_bracket; [done..|]. apply walks_join. eapply mapM_Forall; [|exact E].
    eapply Forall_impl; [exact IH|]. intros v Hv t Ht. by eapply Hv.
  - destruct (mapM _ kvs) as [texts|] eqn:E; cbn in H; [|done]. injection H as <-.
    apply walks_bracket; [done..|]. apply walks_members. by eapply object_texts.
Qed.

(** The text of an object, with what lies between its braces. *)
Lemma object_text html kvs t :
  Marshal FormatFloat html (VObject kvs) = Some t ->
  exists body, explode t = "{"%char :: body ++ ["}"%char] /\
    walks 1 (outside 1) body (outside 1).
Proof.
  cbn. intros H. destruct (mapM _ kvs) as [texts|] eqn:E; cbn in H; [|done].
  injection H as <-. eexists. split.
  - rewrite !explode_app. reflexivity.
  - apply walks_members. eapply object_texts; [|exact E].
    apply Forall_forall. intros kv _. apply Marshal_balanced.
Qed.

(** Quote parity does not depend on where the scan starts. *)
Lemma scan_parity l q e d d' :
  sc_quoted (scan_run (Scan q e d) l) =
  xorb q (sc_quoted (scan_run (Scan false e d') l)).
Proof.
  assert (H : forall l st st', sc_escaped st = sc_escaped st' ->
    xorb (sc_quoted (scan_run st l)) (sc_quoted (scan_run st' l)) =
    xorb (sc_quoted st) (sc_quoted st')).
  { clear. induction l as [|c l IH]; intros st st' He; [done|]. cbn.
    unfold scan_run in *. rewrite IH; unfold scan_step; rewrite <-He;
      destruct (sc_escaped st) eqn:E; repeat case_match; cbn; try done;
      rewrite ?E, <-?He; try done.
    all: destruct (sc_quoted st), (sc_quoted st'); done. }
  specialize (H l (Scan q e d) (Scan false e d') eq_refl). cbn in H.
  destruct q, (sc_quoted (scan_run (Scan _ _ d) l)), (sc_quoted (scan_run (Scan false _ _) l));
    done.
Qed.

Lemma scan_colon st : sc_escaped (scan_step st ":"%char) = false.
Proof. unfold scan_step. destruct (sc_escaped st) eqn:E; [done|]. cbn. by repeat case_match. Qed.

(** No text of an object is the end of another one's, after a colon: outside
    the strings the brackets are open there, inside them the quotes are. *)
Lemma Marshal_object_suffix html1 html2 kvs1 kvs2 t1 t2 p :
  Marshal FormatFloat html1 (VObject kvs1) = Some t1 ->
  Marshal FormatFloat html2 (VObject kvs2) = Some t2 ->
  t1 <> p +:+ ":" +:+ t2.
Proof.
  intros H1 H2 ->. pose proof (fun d => Marshal_balanced _ _ _ d H2) as W2.
  destruct (object_text _ _ _ H1) as (b1 & T1 & B1).
  destruct (object_text _ _ _ H2) as (b2 & T2 & _).
  rewrite !explode_app in T1. destruct (explode p) as [|c p']; [done|].
  cbn in T1. injection T1 as -> T1.
  assert (Hb : b1 = (p' ++ [":"%char]) ++ "{"%char :: b2).
  { rewrite T2 in T1. change (":"%char :: ?l) with ([":"%char] ++ l) in T1.
    rewrite app_comm_cons, !app_assoc in T1. by apply app_inj_tail in T1 as [<- _]. }
  pose proof (proj2 B1 _ _ Hb) as Hd.
  assert (He : sc_escaped (scan_run (outside 1) (p' ++ [":"%char])) = false).
  { unfold scan_run. rewrite foldl_app. apply scan_colon. }
  assert (Hend : scan_run (scan_run (outside 1) (p' ++ [":"%char])) (explode t2) = outside 0).
  { rewrite T2. unfold scan_run. rewrite <-foldl_app, app_comm_cons, app_assoc, <-Hb, foldl_app.
    rewrite (proj1 B1 : foldl scan_step (outside 1) b1 = _). reflexivity. }
  destruct (scan_run (outside 1) (p' ++ [":"%char])) as [q e D]. cbn in He, Hd. subst e.
  destruct q.
  - pose proof (scan_parity (explode t2) true false D D) as Hp.
    rewrite Hend, (proj1 (W2 D)) in Hp. done.
  - rewrite (proj1 (W2 D)) in Hend. injection Hend as ->. lia.
Qed.
End Balance.
