(* ===== verification/Registries.v ===== *)
(** * Plug-in registries (pkg/registry, pkg/middleware, pkg/runtime/registry.go,
    pkg/upstream/upstream.go)

    The string-keyed registry every pluggable part of the program registers
    itself in, the factories looked up through it, and middleware chains. *)
From S2P Require Export Mcp.
Open Scope Z_scope.

(** ** pkg/registry

    [reg_items] is [None] until the first registration makes the map.  The
    mutex makes each method one step. *)
Module Generic.
Section Generic.
Context {T : Type}.

Record Registry := { items : option (gmap string T) }.

Definition zero : Registry := {| items := None |}.

Definition contents (r : Registry) : gmap string T := default ∅ (items r).

Definition Register (r : Registry) (key : string) (v : T) : Registry :=
  {| items := Some (<[key := v]> (contents r)) |}.

Definition RegisterIfAbsent (r : Registry) (key : string) (v : T) : Registry * bool :=
  match contents r !! key with
  | Some _ => ({| items := Some (contents r) |}, false)
  | None => ({| items := Some (<[key := v]> (contents r)) |}, true)
  end.

Definition Get (r : Registry) (key : string) : option T := contents r !! key.

Definition Snapshot (r : Registry) : gmap string T := contents r.
End Generic.
Arguments Registry : clear implicits.
End Generic.

(** ** pkg/middleware

    A handler is any type: what matters is the order of composition. *)
Section Chain.
Context {Handler : Type}.

(** [for i := len(ms) - 1; i >= 0; i-- { next = ms[i](next) }] *)
Fixpoint chainLoop (ms : list (Handler -> Handler)) (i : nat) (next : Handler) : Handler :=
  match i with
  | O => next
  | S i' =>
    match ms !! i' with
    | Some m => chainLoop ms i' (m next)
    | None => next
    end
  end.

Definition Chain (ms : list (Handler -> Handler)) : Handler -> Handler :=
  fun next => chainLoop ms (length ms) next.

Lemma chainLoop_app ms1 ms2 i next :
  (i <= length ms1)%nat -> chainLoop (ms1 ++ ms2) i next = chainLoop ms1 i next.
Proof.
  revert next. induction i as [|i IH]; intros next Hi; [done|]. cbn.
  rewrite lookup_app_l by lia. case_match; [|done]. apply IH. lia.
Qed.

Lemma Chain_foldr ms next : Chain ms next = foldr (fun m h => m h) next ms.
Proof.
  unfold Chain. revert next. induction ms as [|m ms IH] using rev_ind; intros next; [done|].
  rewrite length_app, Nat.add_comm, foldr_app. cbn.
  rewrite lookup_app_r, Nat.sub_diag by lia. cbn.
  rewrite chainLoop_app by lia. apply IH.
Qed.
End Chain.

(** ** Factories looked up by name *)
Inductive LookupError :=
  | UnknownMiddleware (name : string)
  | UnknownUpstreamType (type : string)
  | UnknownCacheProvider (provider : string)
  | UnknownRateLimitStore (store : string)
  | RuntimePoolFailed (name : string) (err : string)
  | FactoryFailed (err : string).

Section Factories.
(** What a factory builds from its configuration. *)
Context {Cfg Product : Type}.
Abbreviation Factory := (Cfg -> result string Product).

Definition callFactory (f : Factory) (cfg : Cfg) : result LookupError Product :=
  match f cfg with Ok p => Ok p | Err e => Err (FactoryFailed e) end.

(** [middleware.New] *)
Definition newMiddleware (reg : Generic.Registry Factory) (name : string) (cfg : Cfg) :=
  match Generic.Get reg name with
  | None => Err (UnknownMiddleware name)
  | Some f => callFactory f cfg
  end.

(** [upstream.Build]; [type] is [cfg.Type] *)
Definition Build (builders : Generic.Registry Factory) (type : string) (cfg : Cfg) :=
  match Generic.Get builders type with
  | None => Err (UnknownUpstreamType type)
  | Some b => callFactory b cfg
  end.

(** [cache.New]; [provider] is [cfg.Provider] *)
Definition newCacheStore (reg : Generic.Registry Factory) (provider : string) (cfg : Cfg) :=
  let provider := if bool_decide (provider = "") then "memory" else provider in
  match Generic.Get reg provider with
  | None => Err (UnknownCacheProvider provider)
  | Some f => callFactory f cfg
  end.

(** ** pkg/runtime/registry.go *)
Definition RegisterRuntime (factories : Generic.Registry Factory) (name : string)
    (f : Factory) : Generic.Registry Factory :=
  if bool_decide (name = "") then factories
  else (Generic.RegisterIfAbsent factories name f).1.

(** The loop of [runtime.NewRegistry] over the snapshot, in iteration order. *)
Fixpoint buildPools (snap : list (string * Factory)) (cfg : Cfg) (pools : gmap string Product)
    : result LookupError (gmap string Product) :=
  match snap with
  | [] => Ok pools
  | (name, f) :: snap' =>
    match f cfg with
    | Err e => Err (RuntimePoolFailed name e)
    | Ok rt => buildPools snap' cfg (<[name := rt]> pools)
    end
  end.

(** [order] enumerates the snapshot of [factories]. *)
Definition NewRuntimeRegistry (order : list (string * Factory)) (cfg : Cfg) :=
  buildPools order cfg ∅.

Definition GetRuntime (r : option (gmap string Product)) (name : string) : option Product :=
  match r with None => None | Some pools => pools !! name end.

Lemma buildPools_spec snap cfg pools pools' :
  buildPools snap cfg pools = Ok pools' -> NoDup snap.*1 ->
  (forall n f, (n, f) ∈ snap -> exists p, f cfg = Ok p /\ pools' !! n = Some p) /\
  (forall n, n ∉ snap.*1 -> pools' !! n = pools !! n).
Proof.
  revert pools. induction snap as [|[name f] snap IH]; cbn; intros pools H Hnd.
  - injection H as <-. split; [|done]. intros n f Hin. by apply not_elem_of_nil in Hin.
  - apply NoDup_cons in Hnd as [Hnot Hnd].
    destruct (f cfg) as [rt|e] eqn:E; [|done].
    destruct (IH _ H Hnd) as [H1 H2]. split.
    + intros n g [[= -> ->]|Hin]%elem_of_cons; [|by apply H1].
      exists rt. split; [done|]. rewrite H2 by done. apply lookup_insert_eq.
    + intros n [Hne Hn]%not_elem_of_cons. rewrite H2 by done. by apply lookup_insert_ne.
Qed.

Lemma buildPools_ok snap cfg pools :
  Forall (fun nf : string * Factory => is_ok (nf.2 cfg) = true) snap ->
  is_ok (buildPools snap cfg pools) = true.
Proof.
  intros H. revert pools. induction H as [|[n f] snap Hf _ IH]; intros pools; [done|].
  cbn in *. destruct (f cfg); [apply IH|done].
Qed.

Definition poolsOf (factories : Generic.Registry Factory) (cfg : Cfg)
    (pools : gmap string Product) : Prop :=
  forall n, match Generic.Get factories n with
            | Some f => exists p, f cfg = Ok p /\ GetRuntime (Some pools) n = Some p
            | None => GetRuntime (Some pools) n = None
            end.

Lemma poolsOf_unique factories cfg p1 p2 :
  poolsOf factories cfg p1 -> poolsOf factories cfg p2 -> p1 = p2.
Proof.
  intros H1 H2. apply map_eq. intros n. specialize (H1 n). specialize (H2 n). cbn in *.
  case_match; [|congruence]. destruct H1 as (?&?&?), H2 as (?&?&?). congruence.
Qed.

Lemma NewRuntimeRegistry_builds factories cfg order :
  order ≡ₚ map_to_list (Generic.Snapshot factories) ->
  (forall n f, Generic.Get factories n = Some f -> is_ok (f cfg) = true) ->
  exists pools, NewRuntimeRegistry order cfg = Ok pools /\ poolsOf factories cfg pools.
Proof.
  intros Hp Hok.
  assert (Hin : forall n f, (n, f) ∈ order <-> Generic.Get factories n = Some f)
    by (intros n f; rewrite Hp; apply elem_of_map_to_list).
  assert (Hnd : NoDup order.*1) by (rewrite Hp; apply NoDup_fst_map_to_list).
  assert (Hall : Forall (fun nf : string * Factory => is_ok (nf.2 cfg) = true) order)
    by (apply Forall_forall; intros [n f] H%Hin; by eapply Hok).
  apply (buildPools_ok order cfg ∅), is_ok_true in Hall as (pools & Hr).
  destruct (buildPools_spec _ _ _ _ Hr Hnd) as [S1 S2].
  exists pools. split; [done|]. intros n. cbn.
  destruct (Generic.Get factories n) as [f|] eqn:E; [by apply S1, Hin|].
  rewrite S2; [done|]. intros ([n' f] & -> & H%Hin)%list_elem_of_fmap. cbn [fst] in E. congruence.
Qed.

(** The runtime registry is built whenever every registered factory
    succeeds, holds one pool for each of them, and is the same for every
    order in which the factories are visited. *)
Theorem NewRuntimeRegistry_order (factories : Generic.Registry Factory) cfg order1 order2
    (H1 : order1 ≡ₚ map_to_list (Generic.Snapshot factories))
    (H2 : order2 ≡ₚ map_to_list (Generic.Snapshot factories))
    (Hok : forall n f, Generic.Get factories n = Some f -> is_ok (f cfg) = true) :
  exists pools, NewRuntimeRegistry order1 cfg = Ok pools /\
    NewRuntimeRegistry order2 cfg = Ok pools /\ poolsOf factories cfg pools.
Proof.
  destruct (NewRuntimeRegistry_builds _ _ _ H1 Hok) as (p1 & R1 & P1).
  destruct (NewRuntimeRegistry_builds _ _ _ H2 Hok) as (p2 & R2 & P2).
  exists p1. by rewrite R2, (poolsOf_unique _ _ _ _ P2 P1).
Qed.
End Factories.

(** ** The order of registration *)
Definition registerAll {T} (reg : Generic.Registry T) (l : list (string * T)) :=
  foldl (fun r kv => Generic.Register r kv.1 kv.2) reg l.
Definition registerRuntimes {Cfg Product} (reg : Generic.Registry (Cfg -> result string Product))
    (l : list (string * (Cfg -> result string Product))) :=
  foldl (fun r kv => RegisterRuntime r kv.1 kv.2) reg l.

Lemma registerAll_lookup {T} (reg : Generic.Registry T) l k :
  Generic.Get (registerAll reg l) k =
  match assoc k (reverse l) with Some v => Some v | None => Generic.Get reg k end.
Proof.
  unfold registerAll. induction l as [|[k' v] l IH] using rev_ind; [done|].
  rewrite foldl_app, reverse_app. cbn. unfold Generic.Get, Generic.Register in *. cbn.
  case_decide as Hk; [subst; apply lookup_insert_eq|].
  rewrite lookup_insert_ne by done. apply IH.
Qed.

(** After any sequence of registrations a plain registry answers with the
    last value registered under the key, while the runtime registry keeps the
    first one and never holds an unnamed runtime. *)
Theorem registration_order {Cfg Product} (l : list (string * (Cfg -> result string Product))) k :
  Generic.Get (registerAll Generic.zero l) k = assoc k (reverse l) /\
  Generic.Get (registerRuntimes Generic.zero l) k =
    if bool_decide (k = "") then None else assoc k l.
Proof.
  split; [rewrite registerAll_lookup; by case_match|].
  assert (H : forall reg, Generic.Get (registerRuntimes reg l) k =
    match Generic.Get reg k with
    | Some v => Some v
    | None => if bool_decide (k = "") then None else assoc k l end).
  { unfold registerRuntimes. induction l as [|[k' v] l IH]; intros reg; cbn.
    - case_match; [done|]. by case_bool_decide.
    - rewrite IH. unfold RegisterRuntime, Generic.RegisterIfAbsent, Generic.Get. cbn.
      destruct (decide (k' = "")) as [->|Hk'];
        [rewrite (bool_decide_true ("" = "")) by done|rewrite (bool_decide_false (k' = "")) by done];
        cbn.
      + destruct (Generic.contents reg !! k); [done|]. case_bool_decide; [done|].
        by rewrite decide_False.
      + destruct (Generic.contents reg !! k') as [w|] eqn:E; cbn.
        * destruct (Generic.contents reg !! k) eqn:Ek; [done|].
          case_bool_decide; [done|]. rewrite decide_False; [done|]. intros ->. by rewrite E in Ek.
        * unfold Generic.contents in *. cbn [Generic.items default from_option id].
          destruct (decide (k = k')) as [->|Hk]; [|by rewrite lookup_insert_ne].
          by rewrite lookup_insert_eq, E, bool_decide_false. }
  rewrite H. done.
Qed.

(** The first middleware of a chain is the outermost one: a chain runs its
    middlewares in list order around the handler, and chains compose. *)
Theorem Chain_order {Handler} (ms1 ms2 : list (Handler -> Handler)) m next :
  Chain (m :: ms1) next = m (Chain ms1 next) /\
  Chain (ms1 ++ ms2) next = Chain ms1 (Chain ms2 next) /\
  Chain [] next = next.
Proof. rewrite !Chain_foldr. split_and!; [done| |done]. apply foldr_app. Qed.

Lemma NewRuntimeRegistry_order_witness :
  exists pools,
    NewRuntimeRegistry (Cfg := unit) [("lua", fun _ => Ok 2); ("js", fun _ => Ok 1)] tt
      = Ok pools /\
    NewRuntimeRegistry (Cfg := unit) [("js", fun _ => Ok 1); ("lua", fun _ => Ok 2)] tt
      = Ok pools /\
    poolsOf (registerRuntimes Generic.zero [("js", fun _ => Ok 1); ("lua", fun _ => Ok 2)])
      tt pools.
Proof.
  apply NewRuntimeRegistry_order.
  - vm_compute. first [reflexivity|apply Permutation_swap].
  - vm_compute. first [reflexivity|apply Permutation_swap].
  - intros n f H.
    change (Generic.Get _ n) with (<["lua" := fun _ : unit => @Ok string Z 2]>
      ({["js" := fun _ : unit => @Ok string Z 1]} : gmap string (unit -> result string Z))
      !! n) in H.
    apply lookup_insert_Some in H as [[_ <-]|[_ H]]; [done|].
    by apply lookup_singleton_Some in H as [_ <-].
Defined.
