(* ===== verification/Cache.v ===== *)
(** * Tool-result cache keys and the store interface (pkg/cache/cache.go)

    The key of a cached tool result, and what the rest of the program relies on
    of a cache store.  SHA-256, number formatting and [json.Unmarshal] are
    parameters. *)
From S2P Require Export Json.
Open Scope Z_scope.

(** ** The store interface

    A store answers with what was last stored under the key, or misses: it may
    forget at any time, but it never invents or mixes up results. *)
Class CacheStore (S : Type) := {
  cache_Get : S -> string -> option CallToolResult * S;
  cache_Set : S -> string -> CallToolResult -> Z -> S;
  (** the result a [Get] of the key would give, if it does not miss *)
  cache_holds : S -> string -> option CallToolResult;
}.

Class CacheStoreLaws (S : Type) `{CacheStore S} := {
  cache_Get_holds s k r s' : cache_Get s k = (Some r, s') -> cache_holds s k = Some r;
  cache_Get_keeps s k r s' k' v :
    cache_Get s k = (r, s') -> cache_holds s' k' = Some v -> cache_holds s k' = Some v;
  cache_Set_holds s k v ttl k' r :
    cache_holds (cache_Set s k v ttl) k' = Some r ->
    (k' = k /\ r = v) \/ cache_holds s k' = Some r
}.

(** The simplest store: it forgets nothing. *)
#[export] Instance map_store : CacheStore (gmap string CallToolResult) := {
  cache_Get m k := (m !! k, m);
  cache_Set m k v _ := <[k := v]> m;
  cache_holds m k := m !! k
}.
#[export] Instance map_store_laws : CacheStoreLaws (gmap string CallToolResult).
Proof.
  split; cbn.
  - by intros s k r s' [= -> ->].
  - by intros s k r s' k' v [= <- <-].
  - intros s k v ttl k' r [[-> ->]|[_ ?]]%lookup_insert_Some; tauto.
Qed.

(** A store that holds nothing, as a backend that is down. *)
#[export] Instance null_store : CacheStore unit := {
  cache_Get m _ := (None, m);
  cache_Set m _ _ _ := m;
  cache_holds _ _ := None
}.
#[export] Instance null_store_laws : CacheStoreLaws unit.
Proof. by split. Qed.

(** ** encoding/hex *)
Definition EncodeToString (s : string) : string :=
  implode (explode s ≫= fun b => [hex_digit (of_byte b / 16); hex_digit (of_byte b mod 16)]).

Lemma hex_digit_inj m n : (m < 16)%N -> (n < 16)%N -> hex_digit m = hex_digit n -> m = n.
Proof.
  intros Hm Hn. unfold hex_digit. intros H.
  destruct (m <? 10)%N eqn:E1, (n <? 10)%N eqn:E2; N_tests_to_prop;
    apply (f_equal of_byte) in H; rewrite !of_byte_of in H; lia.
Qed.

Lemma EncodeToString_inj s t : EncodeToString s = EncodeToString t -> s = t.
Proof.
  unfold EncodeToString. intros H. apply (f_equal explode) in H. rewrite !explode_implode in H.
  apply explode_inj. revert H. generalize (explode s) (explode t). clear s t.
  induction l as [|b l IH]; intros [|c k]; cbn; intros H; try done.
  injection H as H1 H2 H. f_equal; [|by apply IH].
  pose proof (of_byte_lt b). pose proof (of_byte_lt c).
  apply hex_digit_inj in H1, H2; try (apply N.mod_lt; done);
    try (apply N.Div0.div_lt_upper_bound; lia).
  rewrite <-(ascii_N_embedding b), <-(ascii_N_embedding c). f_equal.
  rewrite (N.div_mod (of_byte b) 16), (N.div_mod (of_byte c) 16) by done. congruence.
Qed.

(** ** Keys *)
Inductive KeyError := CanonicalJSON.

Section Keys.
Context (FormatFloat : float64 -> option string).
Context (Unmarshal : string -> option value).
Context (Sum256 : string -> string).

Fixpoint marshalSorted (v : value) : option string :=
  match v with
  | VObject kvs =>
    texts ← mapM (fun kv => vb ← marshalSorted kv.2; Some (kv.1, vb)) kvs;
    let keys := sort_strings kvs.*1 in
    Some ("{" +:+ Join ((fun k => quote true k +:+ ":" +:+ default "" (assoc k texts))
                          <$> keys) "," +:+ "}")
  | VArray vs =>
    parts ← mapM marshalSorted vs;
    Some ("[" +:+ Join parts "," +:+ "]")
  | v => Marshal FormatFloat true v
  end.

Definition canonicalJSONBytes (v : value) : option string :=
  b ← Marshal FormatFloat true v;
  parsed ← Unmarshal b;
  marshalSorted parsed.

(** The text that is hashed; [a] is [None] for a nil map. *)
Definition keyText (toolName : string) (a : option args) (perUser : bool) (subject : string)
    : option string :=
  canonical ← canonicalJSONBytes (match a with Some kvs => VObject kvs | None => VNull end);
  Some (Join ([toolName]
              ++ (if perUser && negb (bool_decide (subject = "")) then [subject] else [])
              ++ [canonical]) ":").

Definition ComputeKey (toolName : string) (a : option args) (perUser : bool)
    (subject : string) : result KeyError string :=
  match keyText toolName a perUser subject with
  | None => Err CanonicalJSON
  | Some text => Ok (EncodeToString (Sum256 text))
  end.

(** [encoding/json] sorts the keys of maps by itself: the recursion of
    [marshalSorted] produces what [json.Marshal] does. *)
Lemma marshalSorted_Marshal v : marshalSorted v = Marshal FormatFloat true v.
Proof.
  induction v as [|b|n|f|s|vs IH|kvs IH] using value_ind_nested; try done; cbn.
  - by rewrite (mapM_option_ext_fun _ _ _ IH).
  - erewrite (mapM_option_ext_fun _ _ kvs); [done|].
    eapply Forall_impl; [exact IH|]. intros kv H. cbn. by rewrite H.
Qed.
End Keys.

(** ** What a key identifies *)
Section Separation.
Context (FormatFloat : float64 -> option string) (Unmarshal : string -> option value)
  (Sum256 : string -> string).
Context (FormatFloat_plain : forall f t, FormatFloat f = Some t ->
  forallb plain (explode t) = true).
(** Decoding the text of an object gives an object, and ["null"] gives nil. *)
Context (Unmarshal_object : forall kvs t v, Marshal FormatFloat true (VObject kvs) = Some t ->
  Unmarshal t = Some v -> exists kvs', v = VObject kvs').
Context (Unmarshal_null : Unmarshal "null" = Some VNull).

Abbreviation keyText := (keyText FormatFloat Unmarshal).
Abbreviation ComputeKey := (ComputeKey FormatFloat Unmarshal Sum256).

(** The tail of a key's text: the arguments. *)
Definition is_tail (t : string) : Prop :=
  t = "null" \/ exists kvs, Marshal FormatFloat true (VObject kvs) = Some t.

Lemma canonical_tail a t :
  canonicalJSONBytes FormatFloat Unmarshal
    (match a with Some kvs => VObject kvs | None => VNull end) = Some t -> is_tail t.
Proof.
  unfold canonicalJSONBytes. destruct a as [kvs|].
  - destruct (Marshal _ _ (VObject kvs)) as [b|] eqn:E; cbn; [|done].
    destruct (Unmarshal b) as [v|] eqn:U; cbn; [|done].
    destruct (Unmarshal_object _ _ _ E U) as [kvs' ->].
    rewrite marshalSorted_Marshal. intros H. right. eauto.
  - cbn. rewrite Unmarshal_null. cbn. intros [= <-]. by left.
Qed.

Lemma tail_suffix t1 t2 p : is_tail t1 -> is_tail t2 -> t1 <> p +:+ ":" +:+ t2.
Proof.
  intros [->|[kvs1 H1]] [->|[kvs2 H2]].
  - intros H. apply (f_equal (fun s => length (explode s))) in H.
    rewrite !explode_app, !length_app in H. cbn in H. lia.
  - intros H. apply (f_equal explode) in H. rewrite !explode_app in H. cbn in H.
    assert (Hin : ":"%char ∈ ["n"; "u"; "l"; "l"]%char) by (rewrite H; set_solver).
    by repeat (apply elem_of_cons in Hin as [[=]|Hin]); apply not_elem_of_nil in Hin.
  - intros H. destruct (object_text _ FormatFloat_plain _ _ _ H1) as (b & T & _).
    rewrite H, !explode_app in T. cbn in T.
    apply (f_equal last) in T. rewrite app_comm_cons, last_snoc in T.
    replace (explode p ++ [":"%char; "n"%char; "u"%char; "l"%char; "l"%char])
      with ((explode p ++ [":"%char; "n"%char; "u"%char; "l"%char]) ++ ["l"%char]) in T
      by by rewrite <-app_assoc.
    by rewrite last_snoc in T.
  - by eapply Marshal_object_suffix.
Qed.

Lemma colon_split (s1 s2 t1 t2 : string) :
  is_tail t1 -> is_tail t2 -> s1 +:+ ":" +:+ t1 = s2 +:+ ":" +:+ t2 -> s1 = s2 /\ t1 = t2.
Proof.
  intros H1 H2 H. apply (f_equal explode) in H. rewrite !explode_app in H. cbn in H.
  apply app_eq_inv in H as [(k & E & H)|(k & E & H)]; destruct k as [|c k]; cbn in H.
  - rewrite app_nil_r in E. injection H as H.
    split; apply explode_inj; done.
  - injection H as <- H. exfalso. apply (tail_suffix t2 t1 (implode k)); [done..|].
    apply explode_inj. by rewrite !explode_app, explode_implode.
  - rewrite app_nil_r in E. injection H as H.
    split; apply explode_inj; done.
  - injection H as <- H. exfalso. apply (tail_suffix t1 t2 (implode k)); [done..|].
    apply explode_inj. by rewrite !explode_app, explode_implode.
Qed.

(** The subject that goes into a key. *)
Definition keySubject (perUser : bool) (subject : string) : string :=
  if perUser then subject else "".

Lemma keyText_shape tool a perUser subject text :
  keyText tool a perUser subject = Some text ->
  exists t, is_tail t /\
    canonicalJSONBytes FormatFloat Unmarshal
      (match a with Some kvs => VObject kvs | None => VNull end) = Some t /\
    text = tool +:+ ":" +:+
      (if bool_decide (keySubject perUser subject = "") then t
       else keySubject perUser subject +:+ ":" +:+ t).
Proof.
  unfold keyText, Cache.keyText.
  destruct (canonicalJSONBytes _ _ _) as [t|] eqn:E; cbn; [|done]. intros [= <-].
  exists t. split; [by eapply canonical_tail|]. split; [done|].
  unfold keySubject, Join. destruct perUser; cbn; by case_bool_decide.
Qed.

Lemma tool_split tool1 tool2 r1 r2 :
  ":"%char ∉ explode tool1 -> ":"%char ∉ explode tool2 ->
  tool1 +:+ ":" +:+ r1 = tool2 +:+ ":" +:+ r2 -> tool1 = tool2 /\ r1 = r2.
Proof.
  intros H1 H2 H. apply (f_equal explode) in H. rewrite !explode_app in H. cbn in H.
  apply app_eq_inv in H as [(k & E & H)|(k & E & H)]; destruct k as [|c k]; cbn in H.
  - rewrite app_nil_r in E. injection H as H. split; apply explode_inj; done.
  - injection H as <- H. exfalso. apply H1. rewrite E. set_solver.
  - rewrite app_nil_r in E. injection H as H. split; apply explode_inj; done.
  - injection H as <- H. exfalso. apply H2. rewrite E. set_solver.
Qed.

(** C32: two tool calls get the same cache key only when they agree on the
    tool, on the subject the key is scoped to and on the canonical arguments,
    unless the hash collides: no subject, whatever bytes it has, can make a
    user's call hit another one's entry. *)
Theorem ComputeKey_separates tool1 a1 perUser1 subj1 tool2 a2 perUser2 subj2 key
    (Htool1 : ":"%char ∉ explode tool1) (Htool2 : ":"%char ∉ explode tool2)
    (H1 : ComputeKey tool1 a1 perUser1 subj1 = Ok key)
    (H2 : ComputeKey tool2 a2 perUser2 subj2 = Ok key) :
  (tool1 = tool2 /\ keySubject perUser1 subj1 = keySubject perUser2 subj2 /\
   canonicalJSONBytes FormatFloat Unmarshal
     (match a1 with Some kvs => VObject kvs | None => VNull end) =
   canonicalJSONBytes FormatFloat Unmarshal
     (match a2 with Some kvs => VObject kvs | None => VNull end)) \/
  (exists x y, x <> y /\ Sum256 x = Sum256 y).
Proof.
  unfold ComputeKey, Cache.ComputeKey in H1, H2.
  destruct (Cache.keyText _ _ tool1 _ _ _) as [x1|] eqn:K1; [|done].
  destruct (Cache.keyText _ _ tool2 _ _ _) as [x2|] eqn:K2; [|done].
  destruct (decide (x1 = x2)) as [<-|Hne].
  2:{ right. exists x1, x2. split; [done|]. apply EncodeToString_inj. congruence. }
  left. apply keyText_shape in K1 as (t1 & T1 & C1 & ->).
  apply keyText_shape in K2 as (t2 & T2 & C2 & Heq).
  apply tool_split in Heq as [-> Heq]; [|done..]. split; [done|]. rewrite C1, C2.
  set (s1 := keySubject perUser1 subj1) in *. set (s2 := keySubject perUser2 subj2) in *.
  destruct (bool_decide_reflect (s1 = "")) as [E1|E1],
    (bool_decide_reflect (s2 = "")) as [E2|E2].
  - split; congruence.
  - destruct (tail_suffix t1 t2 s2 T1 T2 Heq).
  - destruct (tail_suffix t2 t1 s1 T2 T1 (eq_sym Heq)).
  - apply colon_split in Heq as [-> ->]; done.
Qed.
End Separation.

(** The key does not depend on the order in which Go visits the maps of
    the arguments, and with [per_user] off not on the subject. *)
Theorem ComputeKey_order_independent FormatFloat Unmarshal Sum256 tool kvs1 kvs2 perUser
    subj1 subj2
    (Hsame : same_value (VObject kvs1) (VObject kvs2))
    (Hsubj : perUser = true -> subj1 = subj2) :
  ComputeKey FormatFloat Unmarshal Sum256 tool (Some kvs1) perUser subj1 =
  ComputeKey FormatFloat Unmarshal Sum256 tool (Some kvs2) perUser subj2.
Proof.
  unfold ComputeKey, keyText, canonicalJSONBytes.
  rewrite (Marshal_same FormatFloat true _ _ Hsame).
  destruct perUser; [|done]. by rewrite Hsubj.
Qed.

(** ** The theorems at sample parameters

    A codec of one text each way: it knows ["null"] and maps every other text to
    the empty object.  The hash is the identity, which has no collisions. *)
Module Sample.
Definition FormatFloat (_ : float64) : option string := Some "0".
Definition Unmarshal (s : string) : option value :=
  if bool_decide (s = "null") then Some VNull else Some (VObject []).
Definition Sum256 (s : string) : string := s.

Lemma FormatFloat_plain f t : FormatFloat f = Some t -> forallb plain (explode t) = true.
Proof. by intros [= <-]. Qed.

Lemma Unmarshal_object kvs t v :
  Marshal FormatFloat true (VObject kvs) = Some t -> Unmarshal t = Some v ->
  exists kvs', v = VObject kvs'.
Proof.
  intros H. destruct (object_text FormatFloat FormatFloat_plain _ _ _ H) as (b & T & _).
  unfold Unmarshal. rewrite bool_decide_false; [intros [= <-]; by eexists|].
  intros ->. discriminate T.
Qed.
End Sample.

Lemma ComputeKey_separates_witness :
  (("t" = "t") /\ keySubject true "ann" = keySubject true "ann" /\
   canonicalJSONBytes Sample.FormatFloat Sample.Unmarshal (VObject [("a", VNull)]) =
   canonicalJSONBytes Sample.FormatFloat Sample.Unmarshal (VObject [("a", VNull)])) \/
  (exists x y, x <> y /\ Sample.Sum256 x = Sample.Sum256 y).
Proof.
  eapply (ComputeKey_separates Sample.FormatFloat Sample.Unmarshal Sample.Sum256
    Sample.FormatFloat_plain Sample.Unmarshal_object eq_refl "t" (Some [("a", VNull)]) true "ann"
    "t" (Some [("a", VNull)]) true "ann").
  - cbn. by rewrite list_elem_of_singleton.
  - cbn. by rewrite list_elem_of_singleton.
  - vm_compute. reflexivity.
  - vm_compute. reflexivity.
Defined.

Lemma ComputeKey_order_independent_witness :
  ComputeKey Sample.FormatFloat Sample.Unmarshal Sample.Sum256 "t"
    (Some [("a", VNull); ("b", VBool true)]) false "ann" =
  ComputeKey Sample.FormatFloat Sample.Unmarshal Sample.Sum256 "t"
    (Some [("b", VBool true); ("a", VNull)]) false "bob".
Proof.
  apply ComputeKey_order_independent; [|done]. apply same_perm.
  - by apply (bool_decide_unpack _).
  - apply Permutation_swap.
Defined.
