(* ===== verification/RateLimit.v ===== *)
(** * Rate limiting (pkg/ratelimit/ratelimit.go)

    The client address a request is counted under, and the enforcer of the named
    limits.  The limiter library (its [New] and its [Get], which counts a hit in
    the store) and the store factories are parameters. *)
From S2P Require Export Registries.
Open Scope Z_scope.

(** What the middleware reads of an [http.Request]: [req_Header] is
    [r.Header.Get], which is "" for an absent header. *)
Record Request := {
  req_Header : string -> string;
  req_RemoteAddr : string
}.

Definition comma : ascii := ","%char.
Definition colon : ascii := ":"%char.

Definition extractClientIP (r : Request) : string :=
  let xff := req_Header r "X-Forwarded-For" in
  if negb (bool_decide (xff = "")) then
    match cut_byte comma xff with
    | Some (first, _) => TrimSpace first
    | None => TrimSpace xff
    end
  else
    let xri := req_Header r "X-Real-IP" in
    if negb (bool_decide (xri = "")) then TrimSpace xri
    else
      let addr := req_RemoteAddr r in
      match before_last_byte colon addr with
      | Some host => host
      | None => addr
      end.

(** The context key of the client address: absent or set. *)
Record Context := { ctx_clientIP : option string }.

Definition WithClientIP (ctx : Context) (ip : string) : Context := {| ctx_clientIP := Some ip |}.
Definition ClientIPFromContext (ctx : Context) : string := default "" (ctx_clientIP ctx).

(** [next.ServeHTTP(w, r.WithContext(ctx))] *)
Definition ClientIPMiddleware {Response} (next : Request -> Context -> Response)
    (r : Request) (ctx : Context) : Response :=
  next r (WithClientIP ctx (extractClientIP r)).

Record Rate := { rate_Limit : Z; rate_Period : Z }.

(** [limiter.Context] *)
Record LimiterContext := { lc_Remaining : Z; lc_Reset : Z; lc_Reached : bool }.

(** What [Allow] returns: the zero time is [None]. *)
Record Allowance := { al_remaining : Z; al_reset : option Z; al_reached : bool }.

Inductive RateLimitError :=
  | UnknownStore (storeName : string)
  | StoreFailed (storeName err : string)
  | UnknownRateLimit (name : string)
  | CheckFailed (err : string).

Section Enforcer.
Context {Store Limiter W : Type}.
Context (limiter_New : Store -> Rate -> Limiter).
Context (limiter_Get : Limiter -> string -> W -> result string LimiterContext * W).

Record Enforcer := {
  limiters : gmap string Limiter;
  configs : gmap string RateLimitConfig
}.

Definition rateOf (rl : RateLimitConfig) : Rate :=
  {| rate_Limit := wrap64 (rlc_Average rl + rlc_Burst rl); rate_Period := rlc_Period rl |}.

(** The loop over [cfg.RateLimits], in iteration order. *)
Definition addLimit (store : Store) (e : Enforcer) (nc : string * RateLimitConfig) : Enforcer :=
  {| limiters := <[nc.1 := limiter_New store (rateOf nc.2)]> (limiters e);
     configs := <[nc.1 := nc.2]> (configs e) |}.

Definition noLimits : Enforcer := {| limiters := ∅; configs := ∅ |}.

(** [order] enumerates [cfg.RateLimits]; a nil enforcer is [None]. *)
Definition New (factories : Generic.Registry (ProxyConfig -> result string Store))
    (order : list (string * RateLimitConfig)) (cfg : ProxyConfig)
    : result RateLimitError (option Enforcer) :=
  if bool_decide (pc_RateLimits cfg = ∅) then Ok None
  else
    let storeName := match rls_Redis (pc_RateLimitStore cfg) with
                     | Some _ => "redis" | None => "memory" end in
    match Generic.Get factories storeName with
    | None => Err (UnknownStore storeName)
    | Some factory =>
      match factory cfg with
      | Err e => Err (StoreFailed storeName e)
      | Ok store => Ok (Some (foldl (addLimit store) noLimits order))
      end
    end.

Definition Source (e : option Enforcer) (limitName : string) : string :=
  match e with
  | None => ""
  | Some e =>
    match configs e !! limitName with
    | None => ""
    | Some cfg => rlc_Source cfg
    end
  end.

Definition Allow (e : option Enforcer) (limitName key : string) (w : W)
    : result RateLimitError Allowance * W :=
  match e with
  | None => (Ok {| al_remaining := 0; al_reset := None; al_reached := false |}, w)
  | Some e =>
    match limiters e !! limitName with
    | None => (Err (UnknownRateLimit limitName), w)
    | Some lim =>
      match limiter_Get lim key w with
      | (Err err, w') => (Err (CheckFailed err), w')
      | (Ok lctx, w') =>
        (Ok {| al_remaining := lc_Remaining lctx; al_reset := Some (lc_Reset lctx);
               al_reached := lc_Reached lctx |}, w')
      end
    end
  end.

Lemma addLimits_lookup store order e name :
  NoDup order.*1 ->
  configs (foldl (addLimit store) e order) !! name =
    match assoc name order with Some rl => Some rl | None => configs e !! name end /\
  limiters (foldl (addLimit store) e order) !! name =
    match assoc name order with
    | Some rl => Some (limiter_New store (rateOf rl))
    | None => limiters e !! name
    end.
Proof.
  revert e. induction order as [|[n rl] order IH]; cbn; intros e Hnd; [done|].
  apply NoDup_cons in Hnd as [Hnot Hnd].
  destruct (IH (addLimit store e (n, rl)) Hnd) as [-> ->]. cbn.
  case_decide as Hn; subst.
  - assert (assoc n order = None) as -> by by apply assoc_None.
    by rewrite !lookup_insert_eq.
  - by rewrite !lookup_insert_ne.
Qed.

(** An enforcer built from a configuration that names limits enforces
    each of them at its average plus its burst per period, with its own
    source, whatever order the limits are visited in; a limit that is not
    configured has no source and is an error that counts nothing. *)
Theorem Enforcer_enforces factories order cfg e
    (Horder : order ≡ₚ map_to_list (pc_RateLimits cfg))
    (Hnew : New factories order cfg = Ok (Some e)) :
  exists store, forall name key w,
    match pc_RateLimits cfg !! name with
    | Some rl =>
      Source (Some e) name = rlc_Source rl /\
      Allow (Some e) name key w =
        match limiter_Get (limiter_New store (rateOf rl)) key w with
        | (Err err, w') => (Err (CheckFailed err), w')
        | (Ok lctx, w') =>
          (Ok {| al_remaining := lc_Remaining lctx; al_reset := Some (lc_Reset lctx);
                 al_reached := lc_Reached lctx |}, w')
        end
    | None => Source (Some e) name = "" /\
              Allow (Some e) name key w = (Err (UnknownRateLimit name), w)
    end.
Proof.
  unfold New in Hnew. case_bool_decide; [done|].
  destruct (Generic.Get factories _) as [f|]; [|done].
  destruct (f cfg) as [store|]; [|done]. injection Hnew as <-. exists store.
  intros name key w.
  assert (Hnd : NoDup order.*1) by (rewrite Horder; apply NoDup_fst_map_to_list).
  destruct (addLimits_lookup store order noLimits name Hnd) as [Hc Hl]. cbn in Hc, Hl.
  rewrite (assoc_perm name _ _ Hnd Horder) in Hc, Hl.
  unfold Source, Allow. rewrite Hc, Hl.
  destruct (pc_RateLimits cfg !! name) as [rl|] eqn:E.
  - rewrite (assoc_elem name rl); [done|apply NoDup_fst_map_to_list|].
    by apply elem_of_map_to_list.
  - assert (assoc name (map_to_list (pc_RateLimits cfg)) = None) as ->; [|done].
    apply assoc_None. intros ([n rl] & -> & Hin%elem_of_map_to_list)%list_elem_of_fmap.
    cbn in E. congruence.
Qed.
End Enforcer.
Arguments Enforcer : clear implicits.

(** ** The client address *)
Lemma before_last_byte_None c s : c ∉ explode s -> before_last_byte c s = None.
Proof.
  induction s as [|d s IH]; cbn; intros H; [done|].
  apply not_elem_of_cons in H as [Hd H]. rewrite IH by done. by rewrite bool_decide_false.
Qed.

Lemma before_last_byte_app c p s :
  c ∉ explode s -> before_last_byte c (p +:+ String c s) = Some p.
Proof.
  intros H. induction p as [|d p IH].
  - change ("" +:+ String c s) with (String c s). cbn.
    rewrite before_last_byte_None by done. by case_bool_decide.
  - rewrite string_app_cons. cbn. by rewrite IH.
Qed.

Lemma before_byte_no c s : c ∉ explode (before_byte c s).
Proof.
  unfold before_byte. induction s as [|d s IH]; cbn; [apply not_elem_of_nil|].
  case_bool_decide; cbn; [apply not_elem_of_nil|].
  destruct (cut_byte c s) as [[p q]|]; cbn in *;
    (apply not_elem_of_cons; split; [congruence|done]).
Qed.

Lemma TrimSpace_elem c s : c ∈ explode (TrimSpace s) -> c ∈ explode s.
Proof.
  unfold TrimSpace. rewrite explode_implode, list_elem_of_In, in_concat.
  intros (bs & Hbs%list_elem_of_In & Hc%list_elem_of_In).
  apply list_elem_of_fmap in Hbs as (p & -> & Hp%trim_by_elem).
  rewrite <-(decode_pieces (explode s)), list_elem_of_In, in_concat.
  exists p.2. rewrite <-!list_elem_of_In. split; [by apply list_elem_of_fmap_2|done].
Qed.

(** The first address of [X-Forwarded-For] wins over [X-Real-IP], which
    wins over the peer address without its port; what is taken from
    [X-Forwarded-For] never contains a comma, so no request is counted under a
    list of addresses. *)
Theorem extractClientIP_precedence r :
  let xff := req_Header r "X-Forwarded-For" in
  let xri := req_Header r "X-Real-IP" in
  (xff <> "" -> extractClientIP r = TrimSpace (before_byte comma xff) /\
                comma ∉ explode (extractClientIP r)) /\
  (xff = "" -> xri <> "" -> extractClientIP r = TrimSpace xri) /\
  (xff = "" -> xri = "" -> forall host port, req_RemoteAddr r = host +:+ String colon port ->
     colon ∉ explode port -> extractClientIP r = host) /\
  (xff = "" -> xri = "" -> colon ∉ explode (req_RemoteAddr r) ->
     extractClientIP r = req_RemoteAddr r).
Proof.
  cbn. unfold extractClientIP. split_and!.
  - intros Hx. rewrite bool_decide_false by done. cbn.
    assert (H : match cut_byte comma (req_Header r "X-Forwarded-For") with
      | Some (first, _) => TrimSpace first
      | None => TrimSpace (req_Header r "X-Forwarded-For") end =
      TrimSpace (before_byte comma (req_Header r "X-Forwarded-For")))
      by (unfold before_byte; by destruct (cut_byte _ _) as [[? ?]|]).
    rewrite H. split; [done|]. intros Hc%TrimSpace_elem. by apply before_byte_no in Hc.
  - intros Hx Hr. by rewrite bool_decide_true, bool_decide_false.
  - intros Hx Hr host port -> Hp. rewrite !bool_decide_true by done. cbn.
    by rewrite before_last_byte_app.
  - intros Hx Hr Hp. rewrite !bool_decide_true by done. cbn.
    by rewrite before_last_byte_None.
Qed.

Lemma extractClientIP_precedence_witness :
  extractClientIP {| req_Header := fun h => if bool_decide (h = "X-Forwarded-For")
                                            then "203.0.113.1, 10.0.0.2" else "";
                     req_RemoteAddr := "10.0.0.1:1234" |} = "203.0.113.1".
Proof.
  refine (eq_trans (proj1 (proj1 (extractClientIP_precedence _) _)) _).
  - discriminate.
  - vm_compute. reflexivity.
Defined.

(** A proxy with one limit, kept by a limiter that records the keys it counts. *)
Module Sample.
Definition api : RateLimitConfig :=
  {| rlc_Average := 10; rlc_Period := 60; rlc_Burst := 5; rlc_Source := "user" |}.
Definition cfg : ProxyConfig := {|
  pc_Server := zero_ServerConfig; pc_Telemetry := zero_TelemetryConfig;
  pc_Naming := zero_NamingConfig; pc_Upstreams := [];
  pc_InboundAuth := zero_InboundAuthConfig; pc_Groups := [];
  pc_Runtime := zero_RuntimeConfig; pc_TokenCounting := zero_TokenCountingConfig;
  pc_RateLimits := {["api" := api]}; pc_RateLimitStore := zero_RateLimitStoreConfig;
  pc_ToolSearch := None; pc_SessionStore := zero_SessionStoreConfig; pc_Caches := ∅;
  pc_CacheStore := zero_CacheStoreConfig; pc_CircuitBreakers := ∅ |}.
Definition get (rate : Rate) (key : string) (w : list (string * Rate))
    : result string LimiterContext * list (string * Rate) :=
  (Ok {| lc_Remaining := 0; lc_Reset := 0; lc_Reached := false |}, (key, rate) :: w).
Definition factories : Generic.Registry (ProxyConfig -> result string unit) :=
  Generic.Register Generic.zero "memory" (fun _ => Ok tt).
Definition enforcer : Enforcer Rate :=
  {| limiters := {["api" := {| rate_Limit := 15; rate_Period := 60 |}]};
     configs := {["api" := api]} |}.
End Sample.

Lemma Enforcer_enforces_witness :
  (Allow Sample.get (Some Sample.enforcer) "api" "ann" []).2 =
    [("ann", {| rate_Limit := 15; rate_Period := 60 |})] /\
  Allow Sample.get (Some Sample.enforcer) "other" "ann" [] =
    (Err (UnknownRateLimit "other"), []).
Proof.
  destruct (Enforcer_enforces (fun (_ : unit) rate => rate) Sample.get Sample.factories
    [("api", Sample.api)] Sample.cfg Sample.enforcer) as [[] H].
  - reflexivity.
  - vm_compute. reflexivity.
  - split.
    + rewrite (proj2 (H "api" "ann" [])). reflexivity.
    + exact (proj2 (H "other" "ann" [])).
Defined.
