(* ===== verification/CircuitBreaker.v ===== *)
(** * Circuit breakers and readiness (pkg/upstream/circuitbreaker,
    pkg/upstream/readiness.go)

    The program's side of the circuit breaker: when it asks [gobreaker] to trip,
    what it remembers of the transitions, and how open breakers and unhealthy
    refreshers make the proxy not ready.  [gobreaker] itself is a parameter. *)
From S2P Require Export Json.
Open Scope Z_scope.

(** ** binary64 arithmetic on counters *)
Definition float64_of_uint32 (n : Z) : float64 := binary_normalize 53 1024 n 0 false.
Definition float64_div : float64 -> float64 -> float64 := SFdiv 53 1024.
(** [x >= y]: false when either is NaN *)
Definition float64_ge (x y : float64) : bool := SFleb y x.

Record Counts := { ct_Requests : Z; ct_TotalFailures : Z }.

Inductive CBState := StateClosed | StateHalfOpen | StateOpen.
#[export] Instance CBState_eq_dec : EqDecision CBState.
Proof. solve_decision. Defined.

(** [gobreaker.Settings] as [New] fills it in *)
Record Settings := {
  st_Name : string;
  st_Timeout : Z;
  st_MaxRequests : Z;
  st_ReadyToTrip : Counts -> bool
}.

Definition ReadyToTrip (cfg : CircuitBreakerConfig) (counts : Counts) : bool :=
  if ct_Requests counts <? cbc_MinRequests cfg then false
  else
    let ratio := float64_div (float64_of_uint32 (ct_TotalFailures counts))
                             (float64_of_uint32 (ct_Requests counts)) in
    float64_ge ratio (cbc_Threshold cfg).

Section Breaker.
(** A [gobreaker.CircuitBreaker]: made from settings; [cb_State] may move it
    (an expired open state becomes half-open), and so may [cb_Execute], which
    decides whether the request runs.  Both report the transitions they made,
    in order, to [OnStateChange]. *)
Context {CB W : Type}.
Context (NewCircuitBreaker : Settings -> CB).
Context (cb_Execute : CB -> (W -> Reply * W) -> W -> Reply * W * CB * list CBState).
Context (cb_State : CB -> CBState * CB * list CBState).

Record Breaker := {
  br_cb : CB;
  br_upstreamName : string;
  br_fallbackDuration : Z;
  (** [time.Time] in nanoseconds; [None] before the first transition to open *)
  br_openedAt : option Z
}.

Definition New (upstreamName : string) (cfg : CircuitBreakerConfig) : Breaker := {|
  br_cb := NewCircuitBreaker {|
    st_Name := upstreamName;
    st_Timeout := cbc_FallbackDuration cfg;
    st_MaxRequests := 1;
    st_ReadyToTrip := ReadyToTrip cfg |};
  br_upstreamName := upstreamName;
  br_fallbackDuration := cbc_FallbackDuration cfg;
  br_openedAt := None |}.

(** [OnStateChange], called at time [now] *)
Definition OnStateChange (now : Z) (b : Breaker) (to : CBState) : Breaker :=
  if decide (to = StateOpen) then
    {| br_cb := br_cb b; br_upstreamName := br_upstreamName b;
       br_fallbackDuration := br_fallbackDuration b; br_openedAt := Some now |}
  else b.

Definition with_cb (b : Breaker) (cb : CB) : Breaker :=
  {| br_cb := cb; br_upstreamName := br_upstreamName b;
     br_fallbackDuration := br_fallbackDuration b; br_openedAt := br_openedAt b |}.

Definition Execute (now : Z) (b : Breaker) (req : W -> Reply * W) (w : W)
    : Reply * W * Breaker :=
  let '(r, w', cb, ts) := cb_Execute (br_cb b) req w in
  (r, w', foldl (OnStateChange now) (with_cb b cb) ts).

Definition IsOpen (now : Z) (b : Breaker) : bool * Breaker :=
  let '(s, cb, ts) := cb_State (br_cb b) in
  (bool_decide (s = StateOpen), foldl (OnStateChange now) (with_cb b cb) ts).

Definition UpstreamName (b : Breaker) : string := br_upstreamName b.

Definition EstimatedRecovery (b : Breaker) : option Z :=
  match br_openedAt b with
  | None => None
  | Some t => Some (t + br_fallbackDuration b)
  end.

(** ** Runs of a breaker

    A run is a list of timed calls; [opened] is when the circuit last opened
    in it, as [gobreaker] reported the transitions. *)
Inductive Call :=
  | CallExecute (req : W -> Reply * W)
  | CallIsOpen.

Definition callTransitions (b : Breaker) (c : Call) (w : W) : list CBState :=
  match c with
  | CallExecute req => (cb_Execute (br_cb b) req w).2
  | CallIsOpen => (cb_State (br_cb b)).2
  end.

Definition runCall (now : Z) (c : Call) (b : Breaker) (w : W) : Breaker * W :=
  match c with
  | CallExecute req => let '(_, w', b') := Execute now b req w in (b', w')
  | CallIsOpen => ((IsOpen now b).2, w)
  end.

Fixpoint runCalls (calls : list (Z * Call)) (b : Breaker) (w : W) : Breaker * W :=
  match calls with
  | [] => (b, w)
  | (now, c) :: rest => let '(b', w') := runCall now c b w in runCalls rest b' w'
  end.

Fixpoint opened (calls : list (Z * Call)) (b : Breaker) (w : W) (last : option Z) : option Z :=
  match calls with
  | [] => last
  | (now, c) :: rest =>
    let '(b', w') := runCall now c b w in
    opened rest b' w'
      (if decide (StateOpen ∈ callTransitions b c w) then Some now else last)
  end.

Lemma OnStateChanges_spec now ts b :
  foldl (OnStateChange now) b ts =
  {| br_cb := br_cb b; br_upstreamName := br_upstreamName b;
     br_fallbackDuration := br_fallbackDuration b;
     br_openedAt := if decide (StateOpen ∈ ts) then Some now else br_openedAt b |}.
Proof.
  revert b. induction ts as [|t ts IH]; intros b; [by destruct b|].
  cbn [foldl]. rewrite IH. unfold OnStateChange.
  repeat case_decide; cbn; f_equal; set_solver.
Qed.

Lemma runCall_spec now c b w :
  let b' := (runCall now c b w).1 in
  br_upstreamName b' = br_upstreamName b /\
  br_fallbackDuration b' = br_fallbackDuration b /\
  br_openedAt b' =
    if decide (StateOpen ∈ callTransitions b c w) then Some now else br_openedAt b.
Proof.
  destruct c as [req|]; cbn; unfold Execute, IsOpen.
  - destruct (cb_Execute (br_cb b) req w) as [[[r w'] cb] ts]. cbn.
    by rewrite OnStateChanges_spec.
  - destruct (cb_State (br_cb b)) as [[st cb] ts]. cbn. by rewrite OnStateChanges_spec.
Qed.

Lemma runCalls_spec calls b w :
  let b' := (runCalls calls b w).1 in
  br_upstreamName b' = br_upstreamName b /\
  br_fallbackDuration b' = br_fallbackDuration b /\
  br_openedAt b' = opened calls b w (br_openedAt b).
Proof.
  revert b w. induction calls as [|[now c] calls IH]; intros b w; cbn; [done|].
  pose proof (runCall_spec now c b w) as (Hn & Hf & Ho).
  destruct (runCall now c b w) as [b' w'] eqn:E. cbn in *.
  destruct (IH b' w') as (H1 & H2 & H3). rewrite H1, H2, H3, Hn, Hf, Ho. done.
Qed.

(** ** Readiness *)

(** Why the proxy is not ready; the text of the reason is built from it. *)
Inductive Reason :=
  | CircuitOpen (upstreams : list string)
  | ExceededFailures (upstream : string).

(** [Set.IsReady]; the breakers are asked in order. *)
Fixpoint openUpstreams (now : Z) (bs : list Breaker) : list string :=
  match bs with
  | [] => []
  | b :: bs' =>
    if (IsOpen now b).1 then UpstreamName b :: openUpstreams now bs'
    else openUpstreams now bs'
  end.

Definition SetIsReady (now : Z) (bs : list Breaker) : bool * option Reason :=
  match openUpstreams now bs with
  | [] => (true, None)
  | open => (false, Some (CircuitOpen (sort_strings open)))
  end.
End Breaker.
Arguments Breaker : clear implicits.

(** A [HealthChecker]: healthy or not, with its upstream's name. *)
Record HealthChecker := { hc_IsHealthy : bool; hc_UpstreamName : string }.

Fixpoint RefresherSetIsReady (hcs : list HealthChecker) : bool * option Reason :=
  match hcs with
  | [] => (true, None)
  | hc :: hcs' =>
    if hc_IsHealthy hc then RefresherSetIsReady hcs'
    else (false, Some (ExceededFailures (hc_UpstreamName hc)))
  end.

Fixpoint CompositeIsReady (checkers : list (bool * option Reason)) : bool * option Reason :=
  match checkers with
  | [] => (true, None)
  | (ready, reason) :: rest => if ready then CompositeIsReady rest else (false, reason)
  end.

Example trips_at_half : ReadyToTrip
  {| cbc_Threshold := S754_finite false 4503599627370496 (-53); cbc_MinRequests := 4;
     cbc_FallbackDuration := 0; cbc_RecoveryDuration := 0 |}
  {| ct_Requests := 4; ct_TotalFailures := 2 |} = true.
Proof. vm_compute. reflexivity. Qed.

Section Theorems.
Context {CB W : Type} (NewCircuitBreaker : Settings -> CB).
Context (cb_Execute : CB -> (W -> Reply * W) -> W -> Reply * W * CB * list CBState).
Context (cb_State : CB -> CBState * CB * list CBState).

(** In every run of calls on a new breaker, the estimated recovery is the
    fallback duration after the last time the circuit opened, and absent when
    it never did; the breaker keeps its upstream's name. *)
Theorem EstimatedRecovery_run name cfg calls w :
  let b0 := New NewCircuitBreaker name cfg in
  let b := (runCalls cb_Execute cb_State calls b0 w).1 in
  UpstreamName b = name /\
  EstimatedRecovery b =
    (fun t => t + cbc_FallbackDuration cfg) <$> opened cb_Execute cb_State calls b0 w None.
Proof.
  cbn zeta. set (b0 := New _ _ _).
  destruct (runCalls_spec cb_Execute cb_State calls b0 w) as (Hn & Hf & Ho).
  unfold UpstreamName, EstimatedRecovery. rewrite Hn, Hf, Ho. split; [done|].
  by destruct (opened _ _ _ _ _ _).
Qed.

Lemma openUpstreams_spec now (bs : list (Breaker CB)) :
  openUpstreams cb_State now bs =
  br_upstreamName <$> filter (fun b => (IsOpen cb_State now b).1 = true) bs.
Proof.
  induction bs as [|b bs IH]; [done|]. cbn [openUpstreams filter list_filter].
  rewrite IH. case_decide as Hb; [by rewrite Hb|].
  by destruct (IsOpen cb_State now b) as [[] b'].
Qed.

(** The proxy is ready exactly when no refresher is unhealthy and no
    circuit is open; otherwise the reason is the first unhealthy upstream, or
    else the sorted list of the upstreams whose circuit is open. *)
Theorem CompositeIsReady_spec now (hcs : list HealthChecker) (bs : list (Breaker CB)) :
  let open := br_upstreamName <$> filter (fun b => (IsOpen cb_State now b).1 = true) bs in
  let bad := filter (fun hc => hc_IsHealthy hc = false) hcs in
  CompositeIsReady [RefresherSetIsReady hcs; SetIsReady cb_State now bs] =
  match bad, open with
  | hc :: _, _ => (false, Some (ExceededFailures (hc_UpstreamName hc)))
  | [], [] => (true, None)
  | [], _ => (false, Some (CircuitOpen (sort_strings open)))
  end.
Proof.
  cbn zeta. unfold CompositeIsReady.
  assert (Hr : RefresherSetIsReady hcs =
    match filter (fun hc => hc_IsHealthy hc = false) hcs with
    | hc :: _ => (false, Some (ExceededFailures (hc_UpstreamName hc)))
    | [] => (true, None) end).
  { induction hcs as [|hc hcs IH]; [done|]. cbn. rewrite IH.
    destruct (hc_IsHealthy hc) eqn:E; case_decide; try congruence; done. }
  rewrite Hr. destruct (filter _ hcs); [|done].
  unfold SetIsReady. rewrite openUpstreams_spec.
  by destruct (br_upstreamName <$> _).
Qed.
End Theorems.
