(* ===== verification/OpenApi.v ===== *)
(** * OpenAPI documents (pkg/openapi: generator.go, inputschema.go, naming.go)

    The part of a parsed document the program reads, as kin-openapi presents it,
    and the functions that turn its operations into MCP tools: parameter
    merging, tool naming, the input schema and the argument mapping.  Schemas
    are shared by pointer (a resolved [$ref] is the pointer of its target, and
    may be cyclic), so they live in a heap.  A Go map the program ranges over is
    the list of its entries in the order of the visit; the order of visiting a
    map the program builds itself is the parameter [range_order]. *)
From S2P Require Export Naming Mcp.
Open Scope Z_scope.

(** ** Data *)

(** [*openapi3.SchemaRef]: [None] is a nil [Value]. *)
Record SchemaRef := { sr_Value : option handle }.

Record Schema := {
  sch_Type : option (list string);
  sch_Description : string;
  sch_Format : string;
  sch_Pattern : string;
  sch_Min : option float64;
  sch_Max : option float64;
  sch_MinLength : Z;                      (* uint64 *)
  sch_MaxLength : option Z;               (* *uint64 *)
  sch_Enum : list value;
  sch_Required : list string;
  sch_Properties : list (string * option SchemaRef);
  sch_MinItems : Z;                       (* uint64 *)
  sch_Items : option SchemaRef;
  sch_OneOf : list (option SchemaRef);
  sch_AnyOf : list (option SchemaRef);
  sch_AllOf : list (option SchemaRef);
  sch_Example : value;                    (* [VNull] is nil *)
  sch_Default : value;
  sch_Extensions : gmap string value
}.

Definition zero_Schema : Schema := {|
  sch_Type := None; sch_Description := ""; sch_Format := ""; sch_Pattern := "";
  sch_Min := None; sch_Max := None; sch_MinLength := 0; sch_MaxLength := None;
  sch_Enum := []; sch_Required := []; sch_Properties := []; sch_MinItems := 0;
  sch_Items := None; sch_OneOf := []; sch_AnyOf := []; sch_AllOf := [];
  sch_Example := VNull; sch_Default := VNull; sch_Extensions := ∅ |}.

(** The schema objects of the document, by address. *)
Abbreviation Heap := (gmap handle Schema).
Definition deref (h : Heap) (p : handle) : Schema := default zero_Schema (h !! p).

(** [openapi3.Parameter] *)
Record Param := {
  par_Name : string;
  par_In : string;
  par_Description : string;
  par_Required : bool;
  par_Schema : option SchemaRef
}.

(** [openapi3.Parameters]: the program treats a nil reference and one without
    a value alike, and both are [None]. *)
Abbreviation Parameters := (list (option Param)).

Record MediaType := { mt_Schema : option SchemaRef }.
Abbreviation Body := (gmap string (option MediaType)).

(** [op_RequestBody] is [None] when the reference or its value is nil, and so
    is a response. *)
Record Operation := {
  op_Extensions : gmap string value;
  op_OperationID : string;
  op_Summary : string;
  op_Description : string;
  op_Parameters : Parameters;
  op_RequestBody : option Body;
  op_Responses : option (gmap string (option Body))
}.

Record PathItem := {
  pi_Parameters : Parameters;
  pi_Operations : list (string * option Operation)
}.

Abbreviation Paths := (list (string * PathItem)).

Record ParamInfo := {
  pin_Name : string;
  pin_Required : bool;
  pin_In : string;
  pin_SchemaType : string
}.

(** [*jsonschema.Schema] of one property, and of the whole input *)
Record PropSchema := {
  js_Type : string;
  js_Description : string;
  js_Format : string;
  js_Minimum : option float64;
  js_Maximum : option float64;
  js_MinLength : option Z;
  js_MaxLength : option Z;
  js_Pattern : string;
  js_Enum : list value
}.

Record InputSchema := {
  is_Type : string;
  is_Properties : gmap string PropSchema;
  is_Required : list string
}.

(** [op.Extensions[key].(string)] *)
Definition extString (op : Operation) (key : string) : option string :=
  match op_Extensions op !! key with
  | Some (VString s) => Some s
  | _ => None
  end.

(** The schema of the [application/json] content, through the nil checks. *)
Definition jsonSchema (body : option Body) : option handle :=
  content ← body; ct ← content !! "application/json"; mt ← ct; ref ← mt_Schema mt; sr_Value ref.

(** [v.Type.Slice()[0]], or "" *)
Definition firstType (s : Schema) : string :=
  match sch_Type s with Some (t :: _) => t | _ => "" end.

(** ** Parameters *)

(** The inner loop of [mergeParams]: replaces the first parameter with the name
    and location of [p], or reports [found = false]. *)
Fixpoint overrideParam (merged : Parameters) (p : Param) : option Parameters :=
  match merged with
  | [] => None
  | Some q :: rest =>
    if decide (par_Name q = par_Name p /\ par_In q = par_In p) then Some (Some p :: rest)
    else cons (Some q) <$> overrideParam rest p
  | None :: rest => cons None <$> overrideParam rest p
  end.

Fixpoint mergeLoop (merged opParams : Parameters) : Parameters :=
  match opParams with
  | [] => merged
  | None :: rest => mergeLoop merged rest
  | Some p :: rest => mergeLoop (default (merged ++ [Some p]) (overrideParam merged p)) rest
  end.

Definition mergeParams (pathParams opParams : Parameters) : Parameters :=
  mergeLoop pathParams opParams.

Section Params.
Context (h : Heap).

Definition paramSchemaType (p : Param) : string :=
  match par_Schema p with
  | Some {| sr_Value := Some s |} => firstType (deref h s)
  | _ => ""
  end.

Definition classifyParam (acc : list string * list ParamInfo * list ParamInfo)
    (ref : option Param) : list string * list ParamInfo * list ParamInfo :=
  match ref with
  | None => acc
  | Some p =>
    let '(pathParams, queryParams, headerParams) := acc in
    let info := {| pin_Name := par_Name p; pin_Required := par_Required p;
                   pin_In := par_In p; pin_SchemaType := paramSchemaType p |} in
    if bool_decide (par_In p = "path") then
      (pathParams ++ [par_Name p], queryParams, headerParams)
    else if bool_decide (par_In p = "query") then
      (pathParams, queryParams ++ [info], headerParams)
    else if bool_decide (par_In p = "header") then
      (pathParams, queryParams, headerParams ++ [info])
    else acc
  end.

Definition classifyParams (params : Parameters)
    : list string * list ParamInfo * list ParamInfo :=
  foldl classifyParam ([], [], []) params.
End Params.

(** ** Names *)
Definition extractExtensionString (v : value) : string :=
  match v with VString s => s | _ => "" end.

Definition ToolBaseName (op : Operation) (method path : string) (hasPathParams : bool)
    (rules : SlugRulesConfig) : string :=
  let fallback :=
    if bool_decide (op_OperationID op <> "") then sanitizeIdentifier (op_OperationID op) rules
    else Slugify method path hasPathParams rules in
  match op_Extensions op !! "x-mcp-tool-name" with
  | Some val =>
    let name := extractExtensionString val in
    if bool_decide (name <> "") then name else fallback
  | None => fallback
  end.

Definition resolveToolUIConfig (op : Operation) (upstreamDefault : option AppUIConfig)
    : option ToolUIConfig :=
  let opScript := default "" (extString op "x-mcp-ui-script") in
  let opStatic := default "" (extString op "x-mcp-ui-static") in
  if bool_decide (opScript <> "") || bool_decide (opStatic <> "") then
    Some {| tui_Static := opStatic; tui_Script := opScript |}
  else match upstreamDefault with
       | Some d =>
         if bool_decide (aui_Script d <> "") || bool_decide (aui_Static d <> "") then
           Some {| tui_Static := aui_Static d; tui_Script := aui_Script d |}
         else None
       | None => None
       end.

(** ** The argument mapping *)
Abbreviation ArgMapping := (gmap string string).

Definition mapKey (location name : string) : string := location +:+ ":" +:+ name.

Definition ArgName (m : ArgMapping) (location name : string) : string :=
  match m !! mapKey location name with Some n => n | None => name end.

Definition located (p : Param) : bool :=
  bool_decide (par_In p = "path") || bool_decide (par_In p = "query")
  || bool_decide (par_In p = "header").

(** [collected[name] = append(collected[name], x)] *)
Definition collect {A} (name : string) (x : A) (m : gmap string (list A)) : gmap string (list A) :=
  <[name := default [] (m !! name) ++ [x]]> m.

Section Arguments.
Context (h : Heap).
(** the order in which the runtime visits the keys of a map *)
Context (range_order : list string -> list string).

Definition keysOf {A} (m : gmap string A) : list string := range_order (map_to_list m).*1.

(** The names under [application/json], with the schemas they refer to. *)
Definition bodyProperties (op : Operation) : list (string * option SchemaRef) :=
  match jsonSchema (op_RequestBody op) with
  | Some s => sch_Properties (deref h s)
  | None => []
  end.

Definition bodyRequired (op : Operation) : gset string :=
  match jsonSchema (op_RequestBody op) with
  | Some s => set_of_names (sch_Required (deref h s))
  | None => ∅
  end.

(** [collected] of [DeriveArgMapping]: the locations a name occurs in *)
Definition collectLocation (m : gmap string (list string)) (ref : option Param) :=
  match ref with
  | Some p => if located p then collect (par_Name p) (par_In p) m else m
  | None => m
  end.

Definition collectedLocations (op : Operation) : gmap string (list string) :=
  foldl (fun m '(propName, _) => collect propName "body" m)
    (foldl collectLocation ∅ (op_Parameters op)) (bodyProperties op).

Definition mapName (collected : gmap string (list string)) (result : ArgMapping) (name : string)
    : ArgMapping :=
  match collected !! name with
  | Some [location] => <[mapKey location name := name]> result
  | Some locations =>
    foldl (fun m location => <[mapKey location name := name +:+ "_" +:+ location]> m)
      result locations
  | None => result
  end.

Definition DeriveArgMapping (op : Operation) : ArgMapping :=
  let collected := collectedLocations op in
  foldl (mapName collected) ∅ (keysOf collected).

(** ** The input schema *)
Definition openAPISchemaToJSONSchema (v : option handle) : PropSchema :=
  match v with
  | None => {| js_Type := ""; js_Description := ""; js_Format := ""; js_Minimum := None;
               js_Maximum := None; js_MinLength := None; js_MaxLength := None;
               js_Pattern := ""; js_Enum := [] |}
  | Some a =>
    let v := deref h a in
    {| js_Type := firstType v;
       js_Description := sch_Description v;
       js_Format := sch_Format v;
       js_Minimum := sch_Min v;
       js_Maximum := sch_Max v;
       js_MinLength := if decide (sch_MinLength v = 0) then None
                       else Some (wrap64 (sch_MinLength v));
       js_MaxLength := wrap64 <$> sch_MaxLength v;
       js_Pattern := sch_Pattern v;
       js_Enum := sch_Enum v |}
  end.

Definition with_Type (s : PropSchema) (t : string) : PropSchema :=
  {| js_Type := t; js_Description := js_Description s; js_Format := js_Format s;
     js_Minimum := js_Minimum s; js_Maximum := js_Maximum s;
     js_MinLength := js_MinLength s; js_MaxLength := js_MaxLength s;
     js_Pattern := js_Pattern s; js_Enum := js_Enum s |}.
Definition with_Description (s : PropSchema) (d : string) : PropSchema :=
  {| js_Type := js_Type s; js_Description := d; js_Format := js_Format s;
     js_Minimum := js_Minimum s; js_Maximum := js_Maximum s;
     js_MinLength := js_MinLength s; js_MaxLength := js_MaxLength s;
     js_Pattern := js_Pattern s; js_Enum := js_Enum s |}.

Definition paramSchemaFull (p : Param) : PropSchema :=
  let s := openAPISchemaToJSONSchema (ref ← par_Schema p; sr_Value ref) in
  let s := if bool_decide (js_Type s = "") then with_Type s "string" else s in
  if bool_decide (par_Description p <> "") then with_Description s (par_Description p) else s.

Record entry := { e_source : string; e_propSchema : PropSchema; e_required : bool }.

(** [collected] of [DeriveInputSchema] *)
Definition collectParam (m : gmap string (list entry)) (ref : option Param) :=
  match ref with
  | Some p =>
    if located p then
      collect (par_Name p)
        {| e_source := par_In p; e_propSchema := paramSchemaFull p;
           e_required := par_Required p || bool_decide (par_In p = "path") |} m
    else m
  | None => m
  end.

Definition collectProperty (required : gset string) (m : gmap string (list entry))
    (prop : string * option SchemaRef) :=
  match prop with
  | (propName, Some {| sr_Value := Some s |}) =>
    collect propName
      {| e_source := "body"; e_propSchema := openAPISchemaToJSONSchema (Some s);
         e_required := bool_decide (propName ∈ required) |} m
  | _ => m
  end.

Definition collectedEntries (op : Operation) : gmap string (list entry) :=
  foldl (collectProperty (bodyRequired op))
    (foldl collectParam ∅ (op_Parameters op)) (bodyProperties op).

Definition addProperty (schema : InputSchema) (key : string) (e : entry) : InputSchema :=
  {| is_Type := is_Type schema;
     is_Properties := <[key := e_propSchema e]> (is_Properties schema);
     is_Required := if e_required e then is_Required schema ++ [key] else is_Required schema |}.

Definition addName (collected : gmap string (list entry)) (schema : InputSchema) (name : string)
    : InputSchema :=
  match collected !! name with
  | Some [e] => addProperty schema name e
  | Some entries =>
    foldl (fun schema e => addProperty schema (name +:+ "_" +:+ e_source e) e) schema entries
  | None => schema
  end.

(** The error is always nil. *)
Definition DeriveInputSchema (op : Operation) : result string InputSchema :=
  let collected := collectedEntries op in
  Ok (foldl (addName collected)
        {| is_Type := "object"; is_Properties := ∅; is_Required := [] |} (keysOf collected)).
End Arguments.

(** ** Tools *)
Record GeneratedTool := {
  gt_MCPTool : Tool;
  gt_InputSchema : InputSchema;   (* what [MCPTool.InputSchema] points to *)
  gt_PrefixedName : string;
  gt_OriginalName : string;
  gt_Method : string;
  gt_PathTemplate : string;
  gt_PathParams : list string;
  gt_QueryParams : list ParamInfo;
  gt_HeaderParams : list ParamInfo;
  gt_Operation : Operation;
  gt_OperationNode : option handle;
  gt_UIConfig : option ToolUIConfig
}.

Definition set_Parameters (op : Operation) (ps : Parameters) : Operation :=
  {| op_Extensions := op_Extensions op; op_OperationID := op_OperationID op;
     op_Summary := op_Summary op; op_Description := op_Description op;
     op_Parameters := ps; op_RequestBody := op_RequestBody op;
     op_Responses := op_Responses op |}.

(** [x-mcp-enabled: false] *)
Definition enabledOperation (op : Operation) : bool :=
  match op_Extensions op !! "x-mcp-enabled" with
  | Some (VBool enabled) => enabled
  | _ => true
  end.

Definition uiResourceURIPrefix : string := "ui://".

Inductive GenerateError :=
  | BuildingInputSchema (method path err : string)
  | ConflictDetection (err : ConflictError).

Section Generate.
Context (h : Heap) (range_order : list string -> list string).
(** the address a new input schema is stored at *)
Context (alloc : InputSchema -> handle).
Context (upstream : UpstreamConfig) (naming : NamingConfig).

(** The body of the inner loop, for an operation that is not skipped. *)
Definition generateTool (path : string) (pathItem : PathItem) (method : string) (op : Operation)
    : result GenerateError GeneratedTool :=
  let allParams := mergeParams (pi_Parameters pathItem) (op_Parameters op) in
  let '(pathParamNames, queryParams, headerParams) := classifyParams h allParams in
  let hasPathParams := bool_decide (0 < length pathParamNames)%nat in
  let baseName := ToolBaseName op method path hasPathParams (nc_DefaultSlugRules naming) in
  let prefixedName := PrefixedName baseName (uc_ToolPrefix upstream) (nc_Separator naming)
                        (nc_MaxLength naming) in
  match DeriveInputSchema h range_order op with
  | Err err => Err (BuildingInputSchema method path err)
  | Ok inputSchema =>
    let description := if bool_decide (op_Summary op = "") then op_Description op
                       else op_Summary op in
    let description := TruncateDescription description (nc_DescriptionMaxLength naming)
                         (nc_DescriptionTruncationSuffix naming) in
    let uiCfg := resolveToolUIConfig op (uc_AppUI upstream) in
    Ok {| gt_MCPTool :=
            {| tool_Name := prefixedName;
               tool_Description := description;
               tool_InputSchema := Some (alloc inputSchema);
               tool_ResourceUri :=
                 (fun _ => uiResourceURIPrefix +:+ prefixedName +:+ "/app") <$> uiCfg |};
          gt_InputSchema := inputSchema;
          gt_PrefixedName := prefixedName;
          gt_OriginalName := baseName;
          gt_Method := method;
          gt_PathTemplate := path;
          gt_PathParams := pathParamNames;
          gt_QueryParams := queryParams;
          gt_HeaderParams := headerParams;
          gt_Operation := set_Parameters op allParams;
          gt_OperationNode := None;
          gt_UIConfig := uiCfg |}
  end.

Fixpoint generateOperations (path : string) (pathItem : PathItem)
    (ops : list (string * option Operation)) : result GenerateError (list GeneratedTool) :=
  match ops with
  | [] => Ok []
  | (_, None) :: rest => generateOperations path pathItem rest
  | (method, Some op) :: rest =>
    if enabledOperation op then
      gt ← generateTool path pathItem method op;
      cons gt <$> generateOperations path pathItem rest
    else generateOperations path pathItem rest
  end.

Fixpoint generatePaths (paths : Paths) : result GenerateError (list GeneratedTool) :=
  match paths with
  | [] => Ok []
  | (path, pathItem) :: rest =>
    tools ← generateOperations path pathItem (pi_Operations pathItem);
    app tools <$> generatePaths rest
  end.

(** [prefixedList[i]] is this projection of [tools[i]]. *)
Definition prefixedTool (gt : GeneratedTool) : PrefixedTool :=
  {| pt_PrefixedName := gt_PrefixedName gt; pt_OriginalPath := gt_PathTemplate gt;
     pt_OriginalMethod := gt_Method gt |}.

(** [paths] is what [doc.Paths.Map()] holds, in the order of the visit. *)
Definition GenerateTools (paths : Paths) : result GenerateError (list GeneratedTool) :=
  tools ← generatePaths paths;
  match DetectConflicts (prefixedTool <$> tools) (nc_ConflictResolution naming) with
  | Err err => Err (ConflictDetection err)
  | Ok surviving =>
    if decide (length surviving = length (prefixedTool <$> tools)) then Ok tools
    else Ok (filter (fun gt => prefixedTool gt ∈ surviving) tools)
  end.
End Generate.

(** ** Operation nodes *)
Inductive Kind := DocumentNode | SequenceNode | MappingNode | ScalarNode | AliasNode.

(** [yaml.Node], with its address *)
Inductive Node :=
  YNode (addr : handle) (kind : Kind) (val : string) (content : list Node).

Definition n_addr (n : Node) : handle := let 'YNode a _ _ _ := n in a.
Definition n_Value (n : Node) : string := let 'YNode _ _ v _ := n in v.
Definition n_Content (n : Node) : list Node := let 'YNode _ _ _ c := n in c.

(** The loop over the pairs of a mapping's content. *)
Fixpoint pairsGet (content : list Node) (key : string) : option Node :=
  match content with
  | k :: v :: rest => if bool_decide (n_Value k = key) then Some v else pairsGet rest key
  | _ => None
  end.

Definition yamlMappingGet (node : option Node) (key : string) : option Node :=
  match node with
  | Some (YNode _ MappingNode _ content) => pairsGet content key
  | _ => None
  end.

Definition FindOperationYAMLNode (root : Node) (path method : string) : option Node :=
  let node := match root with
              | YNode _ DocumentNode _ (n :: _) => n
              | _ => root
              end in
  match yamlMappingGet (Some node) "paths" with
  | None => None
  | Some pathsNode =>
    match yamlMappingGet (Some pathsNode) path with
    | None => None
    | Some pathNode => yamlMappingGet (Some pathNode) (ToLower method)
    end
  end.

(** ** Merged parameters *)

(** The first parameter with a name and a location. *)
Definition paramKey (p : Param) : string * string := (par_Name p, par_In p).
Definition findParam (k : string * string) (ps : Parameters) : option Param :=
  list_find (fun ref => paramKey <$> ref = Some k) ps ≫= snd.
Arguments findParam : simpl never.

Section Merge.
Implicit Types (ps : Parameters) (k : string * string).

Lemma findParam_cons k ref ps :
  findParam k (ref :: ps) =
    if decide (paramKey <$> ref = Some k) then ref else findParam k ps.
Proof.
  unfold findParam. cbn. case_decide; [done|]. by destruct (list_find _ ps) as [[]|].
Qed.

Lemma findParam_Some k q ps :
  findParam k (Some q :: ps) = if decide (paramKey q = k) then Some q else findParam k ps.
Proof.
  rewrite findParam_cons. change (paramKey <$> Some q) with (Some (paramKey q)).
  repeat case_decide; congruence.
Qed.

Lemma findParam_None k ps : findParam k (None :: ps) = findParam k ps.
Proof. by rewrite findParam_cons. Qed.

Lemma paramKey_eq p q : paramKey q = paramKey p <-> par_Name q = par_Name p /\ par_In q = par_In p.
Proof. unfold paramKey. split; [by intros [= -> ->]|by intros [-> ->]]. Qed.

Lemma findParam_one k p :
  findParam k [Some p] = if decide (paramKey p = k) then Some p else None.
Proof. apply findParam_Some. Qed.

Lemma findParam_app k ps1 ps2 :
  findParam k (ps1 ++ ps2) =
    match findParam k ps1 with Some p => Some p | None => findParam k ps2 end.
Proof.
  induction ps1 as [|ref ps1 IH]; [done|].
  cbn [app]. rewrite !findParam_cons. case_decide; [|done]. by destruct ref.
Qed.

Lemma overrideParam_Some ps ps' p : overrideParam ps p = Some ps' ->
  forall k, findParam k ps' = if decide (paramKey p = k) then Some p else findParam k ps.
Proof.
  revert ps'. induction ps as [|[q|] ps IH]; cbn; intros ps'; [done| |].
  - case_decide as Hd; rewrite <-paramKey_eq in Hd.
    + intros [= <-] k. rewrite !findParam_Some. repeat case_decide; congruence.
    + destruct (overrideParam ps p) as [rest|] eqn:E; [|done].
      intros [= <-] k. rewrite !findParam_Some, (IH rest) by done.
      repeat case_decide; congruence.
  - destruct (overrideParam ps p) as [rest|] eqn:E; [|done].
    intros [= <-] k. by rewrite !findParam_None, (IH rest).
Qed.

Lemma overrideParam_None ps p : overrideParam ps p = None -> findParam (paramKey p) ps = None.
Proof.
  induction ps as [|[q|] ps IH]; cbn; [done| |].
  - case_decide as Hd; rewrite <-paramKey_eq in Hd; [done|]. intros Ho.
    rewrite findParam_Some, decide_False by done. apply IH. by destruct (overrideParam ps p).
  - intros Ho. rewrite findParam_None. apply IH. by destruct (overrideParam ps p).
Qed.

Lemma overrideParam_find ps p k :
  findParam k (default (ps ++ [Some p]) (overrideParam ps p)) =
    if decide (paramKey p = k) then Some p else findParam k ps.
Proof.
  destruct (overrideParam ps p) as [ps'|] eqn:E; cbn; [by apply overrideParam_Some|].
  apply overrideParam_None in E. rewrite findParam_app, findParam_one.
  case_decide as Hk; [by rewrite <-Hk, E|]. by destruct (findParam k ps).
Qed.
End Merge.

Lemma mergeParams_find pathParams opParams k :
  findParam k (mergeParams pathParams opParams) =
    match findParam k (reverse opParams) with
    | Some p => Some p
    | None => findParam k pathParams
    end.
Proof.
  unfold mergeParams. revert pathParams.
  induction opParams as [|[p|] opParams IH]; intros pathParams; [done| |];
    cbn [mergeLoop]; rewrite reverse_cons, findParam_app, IH.
  - rewrite overrideParam_find, findParam_one.
    destruct (findParam k (reverse opParams)); [done|]. by case_decide.
  - rewrite findParam_None. by destruct (findParam k (reverse opParams)).
Qed.

(** The merged list keeps its keys distinct. *)
Definition paramKeys (ps : Parameters) : list (string * string) := omap (fmap paramKey) ps.
Arguments paramKeys : simpl never.

Lemma overrideParam_keys ps ps' p :
  overrideParam ps p = Some ps' -> paramKeys ps' = paramKeys ps.
Proof.
  unfold paramKeys. revert ps'. induction ps as [|[q|] ps IH]; cbn; intros ps'; [done| |].
  - case_decide as Hd; rewrite <-paramKey_eq in Hd.
    + intros [= <-]. cbn. by rewrite Hd.
    + destruct (overrideParam ps p) as [rest|]; [|done]. intros [= <-]. cbn. by rewrite (IH rest).
  - destruct (overrideParam ps p) as [rest|]; [|done]. intros [= <-]. cbn. by apply IH.
Qed.

Lemma elem_of_paramKeys k ps : k ∈ paramKeys ps <-> is_Some (findParam k ps).
Proof.
  unfold paramKeys. induction ps as [|[q|] ps IH]; cbn.
  - split; [by intros ?%not_elem_of_nil|by intros []].
  - rewrite elem_of_cons, IH, findParam_Some. case_decide; naive_solver.
  - by rewrite IH, findParam_None.
Qed.

Lemma mergeParams_NoDup pathParams opParams :
  NoDup (paramKeys pathParams) -> NoDup (paramKeys (mergeParams pathParams opParams)).
Proof.
  unfold mergeParams. revert pathParams.
  induction opParams as [|[p|] opParams IH]; intros ps Hnd; cbn; [done| |by apply IH].
  apply IH. destruct (overrideParam ps p) as [ps'|] eqn:E; cbn.
  - by rewrite (overrideParam_keys _ _ _ E).
  - apply overrideParam_None in E. unfold paramKeys. rewrite omap_app. cbn.
    apply NoDup_app. split_and!; [done| |by apply NoDup_singleton].
    intros k Hk ->%list_elem_of_singleton. apply elem_of_paramKeys in Hk as [q Hq]. congruence.
Qed.

(** Operation-level parameters override path-level ones. Looking up any name
    and location in the merged list gives the operation's parameter when it has
    one (the last, if it repeats it) and the path item's otherwise; and merging
    into distinct parameters gives distinct parameters. *)
Theorem mergeParams_lookup (pathParams opParams : Parameters) :
  (forall k, findParam k (mergeParams pathParams opParams) =
    match findParam k (reverse opParams) with
    | Some p => Some p
    | None => findParam k pathParams
    end) /\
  (NoDup (paramKeys pathParams) -> NoDup (paramKeys (mergeParams pathParams opParams))).
Proof. split; [intros k; apply mergeParams_find|apply mergeParams_NoDup]. Qed.

(** ** Grouping by name *)
Section Group.
Context {A : Type}.
Implicit Types (l : list (string * A)) (m : gmap string (list A)).

Definition group m l : gmap string (list A) := foldl (fun m '(n, x) => collect n x m) m l.

Definition named (n : string) l : list A := (filter (fun p => p.1 = n) l).*2.

Lemma collect_lookup n n' x m :
  default [] (collect n x m !! n') = default [] (m !! n') ++ (if decide (n = n') then [x] else []).
Proof.
  unfold collect. destruct (decide (n = n')) as [<-|Hn].
  - by rewrite lookup_insert_eq.
  - by rewrite lookup_insert_ne, app_nil_r.
Qed.

Lemma group_lookup m l n : default [] (group m l !! n) = default [] (m !! n) ++ named n l.
Proof.
  revert m. induction l as [|[n' x] l IH]; intros m; cbn; [by rewrite app_nil_r|].
  unfold group in IH. rewrite IH, collect_lookup, <-app_assoc. f_equal.
  unfold named. cbn. by case_decide.
Qed.

Lemma group_dom m l n : n ∈ dom (group m l) <-> n ∈ dom m \/ n ∈ l.*1.
Proof.
  revert m. induction l as [|[n' x] l IH]; intros m; cbn; [set_solver|].
  unfold group in IH. rewrite IH. unfold collect. rewrite dom_insert, elem_of_union,
    elem_of_singleton, elem_of_cons. tauto.
Qed.

Lemma group_Some l n xs : group ∅ l !! n = Some xs -> xs = named n l.
Proof.
  intros H. pose proof (group_lookup ∅ l n) as Hg. rewrite H in Hg. exact Hg.
Qed.

Lemma elem_of_named n l x : x ∈ named n l <-> (n, x) ∈ l.
Proof.
  unfold named. rewrite list_elem_of_fmap. split.
  - intros ([n' y] & -> & Hin). apply list_elem_of_filter in Hin as [Hn Hin]. cbn in *. by subst.
  - intros Hin. exists (n, x). split; [done|]. by apply list_elem_of_filter.
Qed.

End Group.

Lemma named_fmap {A B} (f : A -> B) n (l : list (string * A)) :
  named n (prod_map id f <$> l) = f <$> named n l.
Proof.
  unfold named. induction l as [|[n' x] l IH]; [done|]. cbn. case_decide; cbn; [f_equal|]; apply IH.
Qed.

(** ** The argument mapping and the input schema *)

(** The arguments of an operation: (name, location), in collection order. *)
Definition paramOccurrences (op : Operation) : list (string * string) :=
  omap (fun ref => p ← ref; if located p then Some (par_Name p, par_In p) else None)
    (op_Parameters op).
Definition occurrences (h : Heap) (op : Operation) : list (string * string) :=
  paramOccurrences op ++ ((fun prop => (prop.1, "body")) <$> bodyProperties h op).

(** The ones the schema must require: path parameters, parameters marked
    required, and the body's required properties. *)
Definition requiredOccurrences (h : Heap) (op : Operation) : list (string * string) :=
  omap (fun ref => p ← ref;
      if located p && (par_Required p || bool_decide (par_In p = "path"))
      then Some (par_Name p, par_In p) else None) (op_Parameters op) ++
  ((fun prop => (prop.1, "body")) <$>
     filter (fun prop => prop.1 ∈ bodyRequired h op) (bodyProperties h op)).

(** The name an argument gets: its own when it is the only one of that name. *)
Definition argumentName (occs : list (string * string)) (name location : string) : string :=
  match named name occs with
  | [_] => name
  | _ => name +:+ "_" +:+ location
  end.

Definition locations : list string := ["path"; "query"; "header"; "body"].

Lemma mapKey_inj l1 l2 n1 n2 : l1 ∈ locations -> l2 ∈ locations ->
  mapKey l1 n1 = mapKey l2 n2 -> l1 = l2 /\ n1 = n2.
Proof.
  unfold mapKey, locations. intros H1 H2 He.
  repeat (apply elem_of_cons in H1 as [->|H1]); [..|by apply not_elem_of_nil in H1];
  repeat (apply elem_of_cons in H2 as [->|H2]); try by apply not_elem_of_nil in H2.
  all: rewrite !string_app_cons in He; try discriminate He.
  all: repeat (injection He as He); by subst.
Qed.

Section Arguments.
Context (h : Heap).

Lemma located_locations p : located p = true -> par_In p ∈ locations.
Proof.
  unfold located, locations. rewrite !orb_true_iff, !bool_decide_eq_true, !elem_of_cons. tauto.
Qed.

Lemma occurrences_locations op name loc : (name, loc) ∈ occurrences h op -> loc ∈ locations.
Proof.
  unfold occurrences, paramOccurrences. rewrite elem_of_app, list_elem_of_omap, list_elem_of_fmap.
  intros [(ref & _ & Hr)|(prop & [= -> ->] & _)].
  - destruct ref as [p|]; cbn in Hr; [|done]. destruct (located p) eqn:E; [|done].
    injection Hr as <- <-. by apply located_locations.
  - unfold locations. set_solver.
Qed.

(** The loops over parameters and properties group what they select. *)
Lemma foldl_group {X A} (f : gmap string (list A) -> X -> gmap string (list A))
    (g : X -> option (string * A)) :
  (forall m x, f m x = match g x with Some (n, y) => collect n y m | None => m end) ->
  forall xs m, foldl f m xs = group m (omap g xs).
Proof.
  intros Hf xs. induction xs as [|x xs IH]; intros m; [done|].
  cbn [foldl omap list_omap]. rewrite IH, Hf. by destruct (g x) as [[n y]|].
Qed.

Lemma collectedLocations_group op : collectedLocations h op = group ∅ (occurrences h op).
Proof.
  unfold collectedLocations, occurrences.
  rewrite (foldl_group collectLocation (fun ref =>
    p ← ref; if located p then Some (par_Name p, par_In p) else None)).
  - unfold group. rewrite foldl_app. f_equal. unfold paramOccurrences.
    generalize (foldl (fun m '(n, x) => collect n x m) ∅
      (omap (fun ref => p ← ref; if located p then Some (par_Name p, par_In p) else None)
         (op_Parameters op))) as m.
    induction (bodyProperties h op) as [|[n ref] l IH]; intros m; [done|]. cbn. apply IH.
  - intros m [p|]; [|done]. cbn. by destruct (located p).
Qed.

(** What [collected] of [DeriveInputSchema] groups. *)
Definition paramEntries (op : Operation) : list (string * entry) :=
  omap (fun ref => p ← ref; if located p then
      Some (par_Name p, {| e_source := par_In p; e_propSchema := paramSchemaFull h p;
                           e_required := par_Required p || bool_decide (par_In p = "path") |})
    else None) (op_Parameters op).
Definition propertyEntry (op : Operation) (prop : string * option SchemaRef)
    : option (string * entry) :=
  match prop with
  | (propName, Some {| sr_Value := Some s |}) =>
    Some (propName, {| e_source := "body";
                       e_propSchema := openAPISchemaToJSONSchema h (Some s);
                       e_required := bool_decide (propName ∈ bodyRequired h op) |})
  | _ => None
  end.
Definition entries (op : Operation) : list (string * entry) :=
  paramEntries op ++ omap (propertyEntry op) (bodyProperties h op).

Lemma collectedEntries_group op : collectedEntries h op = group ∅ (entries op).
Proof.
  unfold collectedEntries, entries, paramEntries.
  rewrite (foldl_group _ (propertyEntry op)) by by intros m [n [[[s|]]|]].
  erewrite (foldl_group (collectParam h)).
  - unfold group. by rewrite foldl_app.
  - intros m [p|]; [|done]. cbn. by destruct (located p).
Qed.

(** Every property of the body has a schema. *)
Definition body_complete (op : Operation) : Prop :=
  Forall (fun prop => exists s, prop.2 = Some {| sr_Value := Some s |}) (bodyProperties h op).

Lemma entries_occurrences op : body_complete op ->
  prod_map id e_source <$> entries op = occurrences h op.
Proof.
  intros Hb. unfold entries, occurrences, paramEntries, paramOccurrences.
  rewrite fmap_app. f_equal.
  - induction (op_Parameters op) as [|[p|] ps IH]; [done| |done].
    cbn. destruct (located p); cbn; by rewrite IH.
  - induction Hb as [|[n ref] l [s Hs] _ IH]; [done|]. cbn in Hs. subst.
    cbn. by rewrite <-IH.
Qed.

Lemma entries_required op name loc : body_complete op ->
  (name, loc) ∈ requiredOccurrences h op <->
  exists e, (name, e) ∈ entries op /\ e_source e = loc /\ e_required e = true.
Proof.
  intros Hb. unfold requiredOccurrences, entries, paramEntries.
  rewrite elem_of_app, list_elem_of_omap, list_elem_of_fmap.
  setoid_rewrite elem_of_app. setoid_rewrite list_elem_of_omap. split.
  - intros [([p|] & Hin & Hr)|([n ref] & [= -> ->] & [Hreq Hin]%list_elem_of_filter)];
      cbn in *; [|done|].
    + destruct (located p) eqn:El, (par_Required p || bool_decide (par_In p = "path")) eqn:Er;
        cbn in Hr; try done. injection Hr as <- <-.
      eexists. split; [left; exists (Some p); split; [done|]; cbn; by rewrite El|].
      by rewrite Er.
    + unfold body_complete in Hb. rewrite Forall_forall in Hb.
      destruct (Hb _ Hin) as [s Hs]. cbn in Hs. subst.
      eexists. split; [right; exists (n, Some {| sr_Value := Some s |}); by split|].
      split; [done|]. by apply bool_decide_eq_true.
  - intros (e & [([p|] & Hin & Hr)|([n ref] & Hin & Hr)] & <- & Hreq); cbn in *; [|done|].
    + destruct (located p) eqn:El; [|done]. injection Hr as <- <-. cbn in *. left.
      exists (Some p). split; [done|]. cbn. by rewrite El, Hreq.
    + destruct ref as [[[s|]]|]; try done. injection Hr as <- <-. cbn in *. right.
      apply bool_decide_eq_true in Hreq. exists (n, Some {| sr_Value := Some s |}).
      split; [done|]. by apply list_elem_of_filter.
Qed.
End Arguments.

Section ArgMapping.
Context (h : Heap).

Lemma insert_locations (f : string -> string) n ls (m : ArgMapping) name loc :
  loc ∈ locations -> (forall l, l ∈ ls -> l ∈ locations) ->
  foldl (fun m l => <[mapKey l n := f l]> m) m ls !! mapKey loc name =
    if decide (n = name /\ loc ∈ ls) then Some (f loc) else m !! mapKey loc name.
Proof.
  intros Hloc. revert m. induction ls as [|l ls IH]; intros m Hls; cbn.
  - rewrite decide_False; [done|]. intros [_ []%not_elem_of_nil].
  - rewrite IH by set_solver. destruct (decide (n = name /\ loc ∈ ls)) as [[-> Hin]|Hno].
    + rewrite decide_True; [done|set_solver].
    + destruct (decide (mapKey l n = mapKey loc name)) as [He|Hne].
      * apply mapKey_inj in He as [-> ->]; [|set_solver|done].
        rewrite decide_True by set_solver. apply lookup_insert_eq.
      * rewrite lookup_insert_ne by done. rewrite decide_False; [done|].
        intros [-> [->|?]%elem_of_cons]; [done|tauto].
Qed.

Lemma mapName_lookup occs n m name loc :
  loc ∈ locations -> (forall p, p ∈ occs -> p.2 ∈ locations) ->
  mapName (group ∅ occs) m n !! mapKey loc name =
    if decide (n = name /\ (n, loc) ∈ occs) then Some (argumentName occs n loc)
    else m !! mapKey loc name.
Proof.
  intros Hloc Hoccs. unfold mapName, argumentName.
  destruct (group ∅ occs !! n) as [ls|] eqn:E.
  - apply group_Some in E. rewrite <-E.
    assert (Hls : forall l, l ∈ ls -> l ∈ locations).
    { intros l. rewrite E, elem_of_named. apply (Hoccs (n, l)). }
    rewrite (decide_ext (n = name /\ (n, loc) ∈ occs) (n = name /\ loc ∈ ls))
      by by rewrite E, elem_of_named.
    pose proof (insert_locations (fun _ => n) n ls m name loc Hloc Hls) as H1.
    pose proof (insert_locations (fun l => n +:+ "_" +:+ l) n ls m name loc Hloc Hls) as H2.
    destruct ls as [|l [|l' ls]]; [exact H2|exact H1|exact H2].
  - rewrite decide_False; [done|]. intros [_ Hin].
    apply not_elem_of_dom in E. apply E, group_dom. right. by apply (list_elem_of_fmap_2 fst _ (n, loc)).
Qed.

Lemma mapNames_lookup occs ns m name loc :
  loc ∈ locations -> (forall p, p ∈ occs -> p.2 ∈ locations) ->
  foldl (mapName (group ∅ occs)) m ns !! mapKey loc name =
    if decide (name ∈ ns /\ (name, loc) ∈ occs) then Some (argumentName occs name loc)
    else m !! mapKey loc name.
Proof.
  intros Hloc Hoccs. revert m. induction ns as [|n ns IH]; intros m; cbn.
  - rewrite decide_False; [done|]. intros [[]%not_elem_of_nil _].
  - rewrite IH, mapName_lookup by done.
    destruct (decide (name ∈ ns /\ (name, loc) ∈ occs)) as [[Hns Hin]|Hno].
    + rewrite decide_True; [done|set_solver].
    + destruct (decide (n = name /\ (n, loc) ∈ occs)) as [[-> Hin]|Hne].
      * rewrite decide_True; [done|set_solver].
      * rewrite decide_False; [done|]. intros [[->|?]%elem_of_cons ?]; tauto.
Qed.

(** ** Keys and required keys of the schema *)
Definition schemaKey (es : list (string * entry)) (name : string) (e : entry) : string :=
  match named name es with
  | [_] => name
  | _ => name +:+ "_" +:+ e_source e
  end.

Definition schema_keys (schema : InputSchema) (P : string -> Prop) (R : string -> Prop) : Prop :=
  forall k, (k ∈ dom (is_Properties schema) <-> P k) /\ (k ∈ is_Required schema <-> R k).

Lemma addProperties_keys (f : entry -> string) es schema P R :
  schema_keys schema P R ->
  schema_keys (foldl (fun s e => addProperty s (f e) e) schema es)
    (fun k => P k \/ exists e, e ∈ es /\ k = f e)
    (fun k => R k \/ exists e, e ∈ es /\ e_required e = true /\ k = f e).
Proof.
  revert schema P R. induction es as [|e es IH]; intros schema P R Hs; cbn.
  - intros k. destruct (Hs k) as [H1 H2]. rewrite H1, H2. set_solver.
  - assert (Hadd : schema_keys (addProperty schema (f e) e) (fun k => P k \/ k = f e)
              (fun k => R k \/ e_required e = true /\ k = f e)).
    { intros k. destruct (Hs k) as [H1 H2]. unfold addProperty. cbn. split.
      - rewrite dom_insert, elem_of_union, elem_of_singleton, H1. tauto.
      - destruct (e_required e); rewrite ?elem_of_app, ?list_elem_of_singleton, H2; naive_solver. }
    intros k. destruct (IH _ _ _ Hadd k) as [H1 H2]. rewrite H1, H2.
    setoid_rewrite elem_of_cons. naive_solver.
Qed.

Lemma addName_keys es name schema P R :
  schema_keys schema P R ->
  schema_keys (addName (group ∅ es) schema name)
    (fun k => P k \/ exists e, (name, e) ∈ es /\ k = schemaKey es name e)
    (fun k => R k \/ exists e, (name, e) ∈ es /\ e_required e = true /\ k = schemaKey es name e).
Proof.
  intros Hs. unfold addName. destruct (group ∅ es !! name) as [xs|] eqn:E.
  - apply group_Some in E.
    assert (Hel : forall e, e ∈ xs <-> (name, e) ∈ es) by (intros e; rewrite E; apply elem_of_named).
    intros k. unfold schemaKey. rewrite <-E.
    pose proof (addProperties_keys (fun _ => name) xs schema P R Hs k) as H1.
    pose proof (addProperties_keys (fun e => name +:+ "_" +:+ e_source e) xs schema P R Hs k) as H2.
    cbv beta in H1, H2. setoid_rewrite Hel in H1. setoid_rewrite Hel in H2.
    destruct xs as [|e [|e' xs]]; [exact H2|exact H1|exact H2].
  - apply not_elem_of_dom in E.
    assert (Hno : forall e, (name, e) ∉ es).
    { intros e Hin. apply E, group_dom. right. by apply (list_elem_of_fmap_2 fst _ (name, e)). }
    intros k. destruct (Hs k) as [H1 H2]. rewrite H1, H2. naive_solver.
Qed.

Lemma addNames_keys es ns schema P R :
  schema_keys schema P R ->
  schema_keys (foldl (addName (group ∅ es)) schema ns)
    (fun k => P k \/ exists name e, name ∈ ns /\ (name, e) ∈ es /\ k = schemaKey es name e)
    (fun k => R k \/ exists name e, name ∈ ns /\ (name, e) ∈ es /\ e_required e = true
                                    /\ k = schemaKey es name e).
Proof.
  revert schema P R. induction ns as [|n ns IH]; intros schema P R Hs; cbn.
  - intros k. destruct (Hs k) as [H1 H2]. rewrite H1, H2. set_solver.
  - intros k. destruct (IH _ _ _ (addName_keys es n schema P R Hs) k) as [H1 H2].
    rewrite H1, H2. setoid_rewrite elem_of_cons. clear. split; split.
    1,3: intros [[?|(e & ?)]|(name & e & ? & ?)]; [by left|right; exists n, e; split; [by left|done]
      |right; exists name, e; split; [by right|done]].
    all: intros [?|(name & e & [->|?] & ?)]; eauto 10.
Qed.

Lemma schemaKey_argumentName op name e : body_complete h op -> (name, e) ∈ entries h op ->
  schemaKey (entries h op) name e = argumentName (occurrences h op) name (e_source e).
Proof.
  intros Hb Hin. unfold schemaKey, argumentName. rewrite <-(entries_occurrences h op Hb), named_fmap.
  by destruct (named name (entries h op)) as [|? []].
Qed.
Context (range_order : list string -> list string).
Context (Horder : forall l, range_order l ≡ₚ l).

Lemma elem_of_keysOf {A} (m : gmap string A) k : k ∈ keysOf range_order m <-> k ∈ dom m.
Proof.
  unfold keysOf. rewrite Horder, elem_of_dom, list_elem_of_fmap. split.
  - intros ([k' v] & -> & Hin). apply elem_of_map_to_list in Hin. by eexists.
  - intros [v Hv]. exists (k, v). by rewrite elem_of_map_to_list.
Qed.

(** Every argument of the operation is mapped. *)
Lemma ArgName_occurrence op name loc : (name, loc) ∈ occurrences h op ->
  ArgName (DeriveArgMapping h range_order op) loc name =
    argumentName (occurrences h op) name loc.
Proof.
  intros Hin. unfold ArgName, DeriveArgMapping. rewrite (collectedLocations_group h op).
  rewrite mapNames_lookup.
  - rewrite decide_True; [done|]. split; [|done]. rewrite elem_of_keysOf by done.
    apply group_dom. right. by apply (list_elem_of_fmap_2 fst _ (name, loc)).
  - by eapply occurrences_locations.
  - intros [n l]. apply occurrences_locations.
Qed.
End ArgMapping.

Lemma InputSchema_keys h order op (Horder : forall l, order l ≡ₚ l) (Hbody : body_complete h op) :
  exists schema, DeriveInputSchema h order op = Ok schema /\
    schema_keys schema
      (fun k => exists name loc, (name, loc) ∈ occurrences h op /\
         argumentName (occurrences h op) name loc = k)
      (fun k => exists name loc, (name, loc) ∈ requiredOccurrences h op /\
         argumentName (occurrences h op) name loc = k).
Proof.
  eexists. split; [done|]. intros k. cbn zeta. rewrite (collectedEntries_group h op).
  destruct (addNames_keys (entries h op) (keysOf order (group ∅ (entries h op)))
    {| is_Type := "object"; is_Properties := ∅; is_Required := [] |}
    (fun _ => False) (fun _ => False)) with (k := k) as [Hp Hr].
  { intros k'. cbn. rewrite dom_empty. set_solver. }
  rewrite Hp, Hr. clear Hp Hr.
  assert (Hkey : forall name e, (name, e) ∈ entries h op ->
    name ∈ keysOf order (group ∅ (entries h op)) /\ (name, e_source e) ∈ occurrences h op).
  { intros name e Hin. split.
    - rewrite elem_of_keysOf by done. apply group_dom. right.
      by apply (list_elem_of_fmap_2 fst _ (name, e)).
    - rewrite <-(entries_occurrences h op Hbody).
      by apply (list_elem_of_fmap_2 (prod_map id e_source) _ (name, e)). }
  pose proof (schemaKey_argumentName h op) as Hsk. split; split.
  - intros [[]|(name & e & _ & Hin & ->)]. destruct (Hkey _ _ Hin). rewrite Hsk by done. eauto.
  - intros (name & loc & Hin & <-). right. rewrite <-(entries_occurrences h op Hbody) in Hin.
    apply list_elem_of_fmap in Hin as ([n e] & [= -> ->] & Hin).
    exists n, e. rewrite Hsk by done. by destruct (Hkey n e Hin).
  - intros [[]|(name & e & _ & Hin & Hreq & ->)]. exists name, (e_source e).
    rewrite Hsk by done. split; [|done]. apply entries_required; [done|]. eauto.
  - intros (name & loc & Hin & <-). right.
    apply (entries_required h op) in Hin as (e & Hin & <- & Hreq); [|done].
    exists name, e. rewrite Hsk by done. by destruct (Hkey name e Hin).
Qed.

Lemma requiredOccurrences_subset h op p : p ∈ requiredOccurrences h op -> p ∈ occurrences h op.
Proof.
  unfold requiredOccurrences, occurrences, paramOccurrences.
  rewrite !elem_of_app, !list_elem_of_omap, !list_elem_of_fmap.
  intros [(ref & Hin & Hr)|(prop & -> & [_ Hin]%list_elem_of_filter)]; [left|right; eauto].
  exists ref. split; [done|]. destruct ref as [q|]; cbn in *; [|done].
  by destruct (located q); cbn in *; [destruct (_ || _)|].
Qed.

(** C24: the input schema and the argument mapping agree. For an operation whose
    body properties all carry a schema, the keys of the derived input schema
    are exactly the names the mapping gives to the operation's parameters and
    body properties, and the required keys are the names of the required ones,
    whatever the order in which the runtime visits its maps. *)
Theorem InputSchema_arguments (h : Heap) (order1 order2 : list string -> list string) (op : Operation)
    (H1 : forall l, order1 l ≡ₚ l) (H2 : forall l, order2 l ≡ₚ l)
    (Hbody : body_complete h op) :
  exists schema, DeriveInputSchema h order1 op = Ok schema /\
    forall k,
      (k ∈ dom (is_Properties schema) <->
         exists name loc, (name, loc) ∈ occurrences h op /\
           ArgName (DeriveArgMapping h order2 op) loc name = k) /\
      (k ∈ is_Required schema <->
         exists name loc, (name, loc) ∈ requiredOccurrences h op /\
           ArgName (DeriveArgMapping h order2 op) loc name = k).
Proof.
  destruct (InputSchema_keys h order1 op H1 Hbody) as (schema & Hs & Hk).
  exists schema. split; [done|]. intros k. destruct (Hk k) as [-> ->].
  assert (Ha : forall name loc, (name, loc) ∈ occurrences h op ->
    ArgName (DeriveArgMapping h order2 op) loc name = argumentName (occurrences h op) name loc).
  { intros. by apply ArgName_occurrence. }
  split; split; intros (name & loc & Hin & Hname); exists name, loc; (split; [done|]);
    rewrite <-Hname; (apply Ha || (symmetry; apply Ha)); auto using requiredOccurrences_subset.
Qed.

(** ** The generated tools *)
Section Generated.
Context (h : Heap) (order : list string -> list string) (alloc : InputSchema -> handle).
Context (upstream : UpstreamConfig) (naming : NamingConfig).
Local Abbreviation generate := (generateTool h order alloc upstream naming).

(** [gt] is what the loops make of an enabled operation of the document. *)
Definition generated_from (ops : list (string * option Operation)) (path : string)
    (item : PathItem) (gt : GeneratedTool) : Prop :=
  exists method op, (method, Some op) ∈ ops /\ enabledOperation op = true /\
    generate path item method op = Ok gt.

Lemma generateTool_total path item method op : exists gt, generate path item method op = Ok gt.
Proof.
  unfold generateTool. destruct (classifyParams h _) as [[ps qs] hs]. cbn. by eexists.
Qed.

Lemma generateTool_route path item method op gt : generate path item method op = Ok gt ->
  gt_PathTemplate gt = path /\ gt_Method gt = method.
Proof.
  unfold generateTool. destruct (classifyParams h _) as [[ps qs] hs]. cbn.
  intros [= <-]. done.
Qed.

Lemma generateOperations_spec path item ops :
  exists tools, generateOperations h order alloc upstream naming path item ops = Ok tools /\
    sublist (gt_Method <$> tools) ops.*1 /\
    Forall (fun gt => gt_PathTemplate gt = path) tools /\
    forall gt, gt ∈ tools <-> generated_from ops path item gt.
Proof.
  induction ops as [|[method [op|]] ops (tools & Hgo & Hsub & Hpath & Hin)]; cbn.
  - exists []. split_and!; [done..|]. intros gt. split; [by intros ?%not_elem_of_nil|].
    intros (? & ? & ?%not_elem_of_nil & _). done.
  - rewrite Hgo. destruct (enabledOperation op) eqn:En.
    + destruct (generateTool_total path item method op) as [gt Hgt]. rewrite Hgt. cbn.
      destruct (generateTool_route _ _ _ _ _ Hgt) as [Hp Hm].
      exists (gt :: tools). split_and!; [done| |by constructor|].
      * cbn. rewrite Hm. by constructor.
      * intros gt'. rewrite elem_of_cons, Hin. unfold generated_from.
        setoid_rewrite elem_of_cons. split.
        -- intros [->|(m & o & ? & ? & ?)]; [|by eauto 6]. exists method, op. by split; [left|].
        -- intros (m & o & [[= -> ->]|?] & ? & Hg); [left|right; by eauto 6]. congruence.
    + exists tools. split_and!; [done|by constructor|done|].
      intros gt'. rewrite Hin. unfold generated_from. setoid_rewrite elem_of_cons. split.
      * intros (m & o & ? & ? & ?). by eauto 6.
      * intros (m & o & [[= -> ->]|?] & ? & Hg); [congruence|by eauto 6].
  - exists tools. split_and!; [done|by constructor|done|].
    intros gt'. rewrite Hin. unfold generated_from. setoid_rewrite elem_of_cons. naive_solver.
Qed.

(** The document is made of Go maps: paths are distinct, and so are the
    methods of a path. *)
Definition distinct_routes (paths : Paths) : Prop :=
  NoDup paths.*1 /\ Forall (fun p => NoDup (pi_Operations p.2).*1) paths.

Definition route (gt : GeneratedTool) : string * string := (gt_PathTemplate gt, gt_Method gt).

Lemma generatePaths_spec paths :
  exists tools, generatePaths h order alloc upstream naming paths = Ok tools /\
    (distinct_routes paths -> NoDup (route <$> tools)) /\
    forall gt, gt ∈ tools <->
      exists path item, (path, item) ∈ paths /\ generated_from (pi_Operations item) path item gt.
Proof.
  induction paths as [|[path item] paths (tools & Hgo & Hnd & Hin)]; cbn.
  - exists []. split_and!; [done|by constructor|]. set_solver.
  - destruct (generateOperations_spec path item (pi_Operations item))
      as (ops & Hops & Hsub & Hpath & Hin').
    rewrite Hops, Hgo. cbn. exists (ops ++ tools). split_and!; [done| |].
    + intros [[Hp Hps]%NoDup_cons [Hm Hms]%Forall_cons]. cbn in *. rewrite fmap_app.
      apply NoDup_app. split_and!.
      * apply (NoDup_fmap_1 snd). rewrite <-list_fmap_compose. by eapply sublist_NoDup.
      * intros r (g1 & -> & H1)%list_elem_of_fmap (g2 & He & H2)%list_elem_of_fmap.
        apply Hin in H2 as (path' & item' & Hin2 & (m & o & _ & _ & Hg)).
        apply generateTool_route in Hg as [Hg _].
        rewrite Forall_forall in Hpath. apply Hpath in H1.
        apply Hp. unfold route in He. injection He as He _. rewrite <-H1, He, Hg.
        by apply (list_elem_of_fmap_2 fst _ (path', item')).
      * by apply Hnd.
    + intros gt. rewrite elem_of_app, Hin', Hin. setoid_rewrite elem_of_cons. naive_solver.
Qed.
End Generated.


(** ** A sample document *)
Module SampleDoc.
Definition ref (p : handle) : option SchemaRef := Some {| sr_Value := Some p |}.
Definition stringSchema : Schema :=
  {| sch_Type := Some ["string"]; sch_Description := ""; sch_Format := ""; sch_Pattern := "";
     sch_Min := None; sch_Max := None; sch_MinLength := 1; sch_MaxLength := Some 40;
     sch_Enum := []; sch_Required := []; sch_Properties := []; sch_MinItems := 0;
     sch_Items := None; sch_OneOf := []; sch_AnyOf := []; sch_AllOf := [];
     sch_Example := VNull; sch_Default := VNull; sch_Extensions := ∅ |}.
Definition petSchema : Schema :=
  {| sch_Type := Some ["object"]; sch_Description := ""; sch_Format := ""; sch_Pattern := "";
     sch_Min := None; sch_Max := None; sch_MinLength := 0; sch_MaxLength := None;
     sch_Enum := []; sch_Required := ["note"];
     sch_Properties := [("id", ref 2); ("note", ref 2)]; sch_MinItems := 0;
     sch_Items := None; sch_OneOf := []; sch_AnyOf := []; sch_AllOf := [];
     sch_Example := VNull; sch_Default := VNull; sch_Extensions := ∅ |}.
Definition heap : Heap := {[1%positive := petSchema; 2%positive := stringSchema]}.

Definition idParam : Param :=
  {| par_Name := "id"; par_In := "path"; par_Description := "pet"; par_Required := true;
     par_Schema := ref 2 |}.
Definition op (operationID : string) (params : Parameters) (body : option Body) : Operation :=
  {| op_Extensions := ∅; op_OperationID := operationID; op_Summary := "s"; op_Description := "d";
     op_Parameters := params; op_RequestBody := body; op_Responses := None |}.
Definition petBody : option Body :=
  Some {["application/json" := Some {| mt_Schema := ref 1 |}]}.
Definition putPet : Operation := op "putPet" [Some idParam] petBody.

Definition upstream : UpstreamConfig := zero_UpstreamConfig.
Definition naming (resolution : string) : NamingConfig :=
  {| nc_Separator := "__"; nc_MaxLength := 64; nc_ConflictResolution := resolution;
     nc_DescriptionMaxLength := 0; nc_DescriptionTruncationSuffix := "";
     nc_DefaultSlugRules := default_slug_rules |}.
Definition alloc (_ : InputSchema) : handle := 1%positive.

(** [id] is declared once, for every method of the path. *)
Definition petItem : PathItem :=
  {| pi_Parameters := [Some idParam];
     pi_Operations := [("GET", Some (op "getPet" [] None)); ("PUT", Some (op "putPet" [] petBody))] |}.
Definition ownerItem : PathItem :=
  {| pi_Parameters := []; pi_Operations := [("GET", Some (op "get_pet" [] None))] |}.
Definition paths : Paths := [("/pets/{id}", petItem); ("/owners", ownerItem)].

Definition summary (gt : GeneratedTool) : string * string * list string :=
  (gt_PrefixedName gt, gt_PathTemplate gt, elements (dom (is_Properties (gt_InputSchema gt)))).
End SampleDoc.

Lemma InputSchema_arguments_witness :
  exists schema, DeriveInputSchema SampleDoc.heap reverse SampleDoc.putPet = Ok schema /\
    "id_path" ∈ dom (is_Properties schema) /\ "id_body" ∈ dom (is_Properties schema) /\
    "note" ∈ is_Required schema.
Proof.
  destruct (InputSchema_arguments SampleDoc.heap reverse reverse SampleDoc.putPet) as (schema & Hs & Hk).
  - intros l. apply reverse_Permutation.
  - intros l. apply reverse_Permutation.
  - vm_compute. repeat constructor; by eexists.
  - exists schema. split; [exact Hs|]. split_and!.
    + apply Hk. exists "id", "path". vm_compute. split; [by left|done].
    + apply Hk. exists "id", "body". vm_compute. split; [by right; left|done].
    + apply Hk. exists "note", "body". vm_compute. split; [by right; left|done].
Defined.


(** ** What the input schema misses *)
Section PathParams.
Lemma findParam_elem k ps p : findParam k ps = Some p -> Some p ∈ ps /\ paramKey p = k.
Proof.
  induction ps as [|[q|] ps IH]; [done| |].
  - rewrite findParam_Some. case_decide as Hk; [intros [= <-]; by split; [left|]|].
    intros H. apply IH in H as [? ?]. by split; [right|].
  - rewrite findParam_None. intros H. apply IH in H as [? ?]. by split; [right|].
Qed.

Lemma findParam_is_Some ps p : Some p ∈ ps -> is_Some (findParam (paramKey p) ps).
Proof.
  induction ps as [|[q|] ps IH]; [by intros ?%not_elem_of_nil| |]; rewrite elem_of_cons.
  - rewrite findParam_Some. intros [[= ->]|Hin]; [by rewrite decide_True|].
    case_decide; [done|]. by apply IH.
  - rewrite findParam_None. intros [?|Hin]; [done|]. by apply IH.
Qed.

Lemma classifyParams_path h ps acc p : Some p ∈ ps \/ par_Name p ∈ acc.1.1 -> par_In p = "path" ->
  par_Name p ∈ (foldl (classifyParam h) acc ps).1.1.
Proof.
  intros Hin Hp. revert acc Hin. induction ps as [|[q|] ps IH]; intros [[xs ys] zs] Hin; cbn.
  - by destruct Hin as [?%not_elem_of_nil|].
  - apply IH. rewrite elem_of_cons in Hin. cbn in Hin.
    destruct Hin as [[[= ->]|]|Hin]; [right|by left|right]; cbn.
    + rewrite bool_decide_true by done. cbn. set_solver.
    + repeat case_bool_decide; cbn; set_solver.
  - apply IH. rewrite elem_of_cons in Hin. naive_solver.
Qed.
End PathParams.

(** The input schema is derived from the operation alone. A path parameter
    that is declared on the path item and not repeated in the operation is a
    parameter of the generated request, yet it is no property of the tool's
    input schema (when no other argument happens to have its name). *)
Theorem path_item_params_missing h order alloc upstream naming path item method op gt p
    (Horder : forall l, order l ≡ₚ l)
    (Hbody : body_complete h op)
    (Hgen : generateTool h order alloc upstream naming path item method op = Ok gt)
    (Hp : Some p ∈ pi_Parameters item) (Hpath : par_In p = "path")
    (Hnew : findParam (paramKey p) (reverse (op_Parameters op)) = None)
    (Hfresh : forall name loc, (name, loc) ∈ occurrences h op ->
       argumentName (occurrences h op) name loc <> par_Name p) :
  par_Name p ∈ gt_PathParams gt /\ par_Name p ∉ dom (is_Properties (gt_InputSchema gt)).
Proof.
  destruct (InputSchema_keys h order op Horder Hbody) as (schema & Hs & Hk).
  unfold generateTool in Hgen.
  destruct (classifyParams h (mergeParams (pi_Parameters item) (op_Parameters op)))
    as [[ps qs] hs] eqn:Ec.
  rewrite Hs in Hgen. injection Hgen as <-. cbn. split.
  - destruct (findParam_is_Some _ _ Hp) as [p' Hp'].
    pose proof (mergeParams_find (pi_Parameters item) (op_Parameters op) (paramKey p)) as Hm.
    rewrite Hnew, Hp' in Hm. apply findParam_elem in Hm as [Hin Hkey].
    unfold paramKey in Hkey. injection Hkey as Hn Hi.
    change ps with (ps, qs, hs).1.1. rewrite <-Ec, <-Hn.
    apply classifyParams_path; [by left|congruence].
  - rewrite (proj1 (Hk _)). intros (name & loc & Hin & He). by apply (Hfresh name loc).
Qed.

Lemma path_item_params_missing_witness :
  exists gt, generateTool SampleDoc.heap reverse SampleDoc.alloc SampleDoc.upstream (SampleDoc.naming "skip")
      "/pets/{id}" SampleDoc.petItem "GET" (SampleDoc.op "getPet" [] None) = Ok gt /\
    "id" ∈ gt_PathParams gt /\ "id" ∉ dom (is_Properties (gt_InputSchema gt)).
Proof.
  eexists. split; [reflexivity|].
  apply (path_item_params_missing SampleDoc.heap reverse SampleDoc.alloc SampleDoc.upstream
    (SampleDoc.naming "skip") "/pets/{id}" SampleDoc.petItem "GET" (SampleDoc.op "getPet" [] None) _
    SampleDoc.idParam).
  - intros l. apply reverse_Permutation.
  - constructor.
  - reflexivity.
  - by left.
  - reflexivity.
  - reflexivity.
  - intros name loc Hin. by apply not_elem_of_nil in Hin.
Defined.

Lemma mergeParams_lookup_witness :
  findParam ("id", "path") (mergeParams [Some SampleDoc.idParam] [None]) = Some SampleDoc.idParam /\
  NoDup (paramKeys (mergeParams [Some SampleDoc.idParam] [Some SampleDoc.idParam])).
Proof.
  split.
  - rewrite (proj1 (mergeParams_lookup [Some SampleDoc.idParam] [None])). reflexivity.
  - apply (mergeParams_lookup [Some SampleDoc.idParam] [Some SampleDoc.idParam]). apply NoDup_singleton.
Defined.
