(* ===== verification/Transform.v ===== *)
(** * Request and response transforms (pkg/transform)

    The jq engine (gojq) is a parameter: parsing, compiling, and the list of
    values and errors that [iter.Next] yields for an input until it is
    exhausted.  What this file models is the program's use of it: the three
    compiled expressions of a tool, draining the iterator, the JSON round trip
    into an envelope and the stringification of its fields, and the middleware
    that hands the envelope or the error to the next handler. *)
From S2P Require Export Json.
Open Scope Z_scope.

(** gojq *)
Class Gojq := {
  Query : Type;
  Code : Type;
  Parse : string -> result string Query;
  CompileQuery : Query -> result string Code;
  (** the results of [iter.Next] after [code.RunWithContext(ctx, input)] *)
  outputs : Code -> value -> list (result string value)
}.

(** The formatting of numbers in the standard library: JSON's, which fails on
    NaN and infinities, and the [%v] verb's. *)
Class Numbers := {
  FormatFloat : float64 -> option string;
  FormatG : float64 -> string
}.

Definition DefaultResponseExpr : string := ".".

(** a string literal of jq *)
Definition jqLit (s : string) : string := String dquote (s +:+ String dquote "").
Definition DefaultErrorExpr : string :=
  "if .title then" +:+ newline +:+
  "  {error: .title, detail: (.detail // " +:+ jqLit "" +:+ "), status: (.status // 0)}" +:+ newline +:+
  "else" +:+ newline +:+
  "  {error: (" +:+ jqLit "upstream error: HTTP " +:+ " + (if .status then (.status | tostring) else "
    +:+ jqLit "unknown" +:+ " end)), body: .}" +:+ newline +:+
  "end".

Inductive JqError :=
  | ParsingJq (err : string)
  | CompilingJq (err : string)
  | NoOutput
  | RuntimeError (err : string).

Inductive TransformError :=
  | CompilingExpression (which expr : string) (err : JqError)
  | RequestTransform (err : JqError)
  | ResponseTransform (err : JqError)
  | ErrorTransform (err : JqError)
  | MarshallingOutput
  | UnmarshallingOutput.

(** The intermediate [rawEnvelope], and the envelope. *)
Record rawEnvelope := {
  raw_Query : list (string * value);
  raw_Headers : list (string * value);
  raw_Path : list (string * value);
  raw_Body : value
}.
Definition zero_rawEnvelope : rawEnvelope :=
  {| raw_Query := []; raw_Headers := []; raw_Path := []; raw_Body := VNull |}.

Record RequestEnvelope := {
  env_Query : gmap string string;
  env_Headers : gmap string string;
  env_Path : gmap string string;
  env_Body : value
}.

(** ** The JSON round trip *)

(** [float64] nearest to an integer literal; out of range is an error. *)
Definition float_of_int (n : Z) : option float64 :=
  match binary_normalize 53 1024 n 0 false with
  | S754_infinity _ => None
  | f => Some f
  end.

(** The value [json.Unmarshal] stores in an [any] for the text of [v]: numbers
    are [float64]s and ill-formed bytes are replaced. *)
Fixpoint reparse (v : value) : option value :=
  match v with
  | VNull => Some VNull
  | VBool b => Some (VBool b)
  | VInt n => VFloat <$> float_of_int n
  | VFloat f => Some (VFloat f)
  | VString s => Some (VString (of_runes (runes s)))
  | VArray vs => VArray <$> mapM reparse vs
  | VObject kvs =>
    VObject <$> mapM (fun kv => v ← reparse kv.2; Some (of_runes (runes kv.1), v)) kvs
  end.

(** A key sets the field whose name it equals up to ASCII case. *)
Definition is_field (field key : string) : bool := bool_decide (ToLower key = field).

(** Decoding into a [map[string]any] field: [null] empties it, an object adds to
    it, and anything else is an error. *)
Definition decodeMap (old : list (string * value)) (v : value) : option (list (string * value)) :=
  match v with
  | VNull => Some []
  | VObject kvs => Some (filter (fun kv => kv.1 ∉ kvs.*1) old ++ kvs)
  | _ => None
  end.

Definition decodeField (raw : rawEnvelope) (kv : string * value) : option rawEnvelope :=
  let '(k, v) := kv in
  if is_field "query" k then
    q ← decodeMap (raw_Query raw) v;
    Some {| raw_Query := q; raw_Headers := raw_Headers raw; raw_Path := raw_Path raw;
            raw_Body := raw_Body raw |}
  else if is_field "headers" k then
    q ← decodeMap (raw_Headers raw) v;
    Some {| raw_Query := raw_Query raw; raw_Headers := q; raw_Path := raw_Path raw;
            raw_Body := raw_Body raw |}
  else if is_field "path" k then
    q ← decodeMap (raw_Path raw) v;
    Some {| raw_Query := raw_Query raw; raw_Headers := raw_Headers raw; raw_Path := q;
            raw_Body := raw_Body raw |}
  else if is_field "body" k then
    Some {| raw_Query := raw_Query raw; raw_Headers := raw_Headers raw; raw_Path := raw_Path raw;
            raw_Body := v |}
  else Some raw.

Fixpoint decodeFields (raw : rawEnvelope) (kvs : list (string * value)) : option rawEnvelope :=
  match kvs with
  | [] => Some raw
  | kv :: kvs' => raw' ← decodeField raw kv; decodeFields raw' kvs'
  end.

(** [json.Unmarshal] of the text of [v] into a [rawEnvelope]; [json.Marshal] has
    written the keys of an object in sorted order. *)
Definition decodeEnvelope (v : value) : option rawEnvelope :=
  v' ← reparse v;
  match v' with
  | VNull => Some zero_rawEnvelope
  | VObject kvs =>
    decodeFields zero_rawEnvelope
      (omap (fun k => pair k <$> assoc k kvs) (sort_strings kvs.*1))
  | _ => None
  end.

Section Envelope.
Context `{Numbers}.

(** [fmt.Sprintf("%v", v)] *)
Fixpoint Sprint (v : value) : string :=
  match v with
  | VNull => "<nil>"
  | VBool b => if b then "true" else "false"
  | VInt n => pretty n
  | VFloat f => FormatG f
  | VString s => s
  | VArray vs => "[" +:+ Join (Sprint <$> vs) " " +:+ "]"
  | VObject kvs =>
    let texts := (fun kv => (kv.1, Sprint kv.2)) <$> kvs in
    "map[" +:+ Join ((fun k => k +:+ ":" +:+ default "" (assoc k texts))
                       <$> sort_strings kvs.*1) " " +:+ "]"
  end.

(** [map[string]any] to [map[string]string], skipping nulls *)
Definition stringFields (raw : list (string * value)) : gmap string string :=
  list_to_map (omap (fun '(k, v) =>
    match v with VNull => None | _ => Some (k, Sprint v) end) raw).

Definition toEnvelope (raw : rawEnvelope) : RequestEnvelope :=
  {| env_Query := stringFields (raw_Query raw);
     env_Headers := stringFields (raw_Headers raw);
     env_Path := stringFields (raw_Path raw);
     env_Body := raw_Body raw |}.
End Envelope.

(** ** Compiled transforms *)
Section Transforms.
Context `{Gojq}.

Record CompiledTransforms := {
  ct_Request : Code;
  ct_Response : Code;
  ct_Error : Code
}.

Definition compileExpr (expr : string) : result JqError Code :=
  match Parse expr with
  | Err err => Err (ParsingJq err)
  | Ok q =>
    match CompileQuery q with
    | Err err => Err (CompilingJq err)
    | Ok code => Ok code
    end
  end.

Definition Compile (reqExpr respExpr errExpr : string)
    : result TransformError CompiledTransforms :=
  let compile which expr :=
    match compileExpr expr with
    | Err err => Err (CompilingExpression which expr err)
    | Ok code => Ok code
    end in
  reqCode ← compile "request" reqExpr;
  respCode ← compile "response" respExpr;
  errCode ← compile "error" errExpr;
  Ok {| ct_Request := reqCode; ct_Response := respCode; ct_Error := errCode |}.

(** The loop of [runOnce]; [first] is the pair [first, have]. *)
Fixpoint drain (first : option value) (iter : list (result string value))
    : result JqError value :=
  match iter with
  | [] => match first with None => Err NoOutput | Some v => Ok v end
  | Err err :: _ => Err (RuntimeError err)
  | Ok v :: iter' => drain (match first with None => Some v | _ => first end) iter'
  end.

Definition runOnce (code : Code) (input : value) : result JqError value :=
  drain None (outputs code input).

Definition RunResponse (c : CompiledTransforms) (body : value) : result TransformError value :=
  match runOnce (ct_Response c) body with
  | Err err => Err (ResponseTransform err)
  | Ok v => Ok v
  end.

Definition RunError (c : CompiledTransforms) (body : value) : result TransformError value :=
  match runOnce (ct_Error c) body with
  | Err err => Err (ErrorTransform err)
  | Ok v => Ok v
  end.

Context `{Numbers}.

Definition RunRequest (c : CompiledTransforms) (a : args) : result TransformError RequestEnvelope :=
  match runOnce (ct_Request c) (VObject a) with
  | Err err => Err (RequestTransform err)
  | Ok v =>
    match Marshal FormatFloat true v with
    | None => Err MarshallingOutput
    | Some _ =>
      match decodeEnvelope v with
      | None => Err UnmarshallingOutput
      | Some raw => Ok (toEnvelope raw)
      end
    end
  end.

(** The values [transform] keeps in a request's context. *)
Record TransformContext := {
  tc_mcpArgs : option args;
  tc_envelope : option RequestEnvelope;
  tc_transformErr : option TransformError
}.

Definition WithMCPArgs (ctx : TransformContext) (a : args) : TransformContext :=
  {| tc_mcpArgs := Some a; tc_envelope := tc_envelope ctx; tc_transformErr := tc_transformErr ctx |}.
Definition MCPArgsFromContext (ctx : TransformContext) : args := default [] (tc_mcpArgs ctx).
Definition withEnvelope (ctx : TransformContext) (env : RequestEnvelope) : TransformContext :=
  {| tc_mcpArgs := tc_mcpArgs ctx; tc_envelope := Some env;
     tc_transformErr := tc_transformErr ctx |}.
Definition RequestEnvelopeFromContext (ctx : TransformContext) : option RequestEnvelope :=
  tc_envelope ctx.
Definition withTransformError (ctx : TransformContext) (err : TransformError)
    : TransformContext :=
  {| tc_mcpArgs := tc_mcpArgs ctx; tc_envelope := tc_envelope ctx;
     tc_transformErr := Some err |}.
Definition ErrorFromContext (ctx : TransformContext) : option TransformError :=
  tc_transformErr ctx.

(** [next] is called on both paths. *)
Definition RequestMiddleware {R} (c : CompiledTransforms) (next : TransformContext -> R)
    (ctx : TransformContext) : R :=
  match RunRequest c (MCPArgsFromContext ctx) with
  | Err err => next (withTransformError ctx err)
  | Ok envelope => next (withEnvelope ctx envelope)
  end.
End Transforms.
Arguments CompiledTransforms {_}.

(** ** Draining the iterator *)
Lemma drain_Ok first iter v :
  drain first iter = Ok v <->
    Forall (fun o => is_ok o = true) iter /\
    match first with
    | Some f => v = f
    | None => exists rest, iter = Ok v :: rest
    end.
Proof.
  revert first. induction iter as [|[w|err] iter IH]; intros first; cbn.
  - destruct first; split; [naive_solver|naive_solver|done|]. intros [_ (? & ?)]. done.
  - rewrite IH, Forall_cons. destruct first as [f|]; [naive_solver|].
    split; [intros [? ->]; eauto|]. intros [[_ ?] (rest & [= -> ->])]. done.
  - split; [done|]. intros [Hf _]. by apply Forall_cons in Hf as [? _].
Qed.

(** A transform's value is the first output of its jq expression, provided
    there is one and no error follows it: an expression that emits a value and
    then fails is reported as a failure. *)
Theorem runOnce_spec `{Gojq} (code : Code) (input v : value) :
  runOnce code input = Ok v <->
    exists rest, outputs code input = Ok v :: rest /\ Forall (fun o => is_ok o = true) rest.
Proof.
  unfold runOnce. rewrite drain_Ok. split.
  - intros [Hf (rest & Hr)]. rewrite Hr in Hf. apply Forall_cons in Hf as [_ Hf]. eauto.
  - intros (rest & -> & Hf). split; [by constructor|eauto].
Qed.

(** ** Decoding the envelope *)
Definition envelope_fields : list string := ["query"; "headers"; "path"; "body"].

(** A key is one of the fields or cannot be taken for one. *)
Definition exact_keys (kvs : list (string * value)) : Prop :=
  Forall (fun k => ToLower k ∈ envelope_fields -> k ∈ envelope_fields) kvs.*1.

Definition map_field (v : option value) : Prop :=
  match v with
  | None | Some VNull => True
  | Some (VObject kvs) => NoDup kvs.*1
  | Some _ => False
  end.

(** The entries a field ends up with, from what it held. *)
Definition fieldEntries (old : list (string * value)) (v : option value) : list (string * value) :=
  match v with
  | None => old
  | Some v => default [] (decodeMap old v)
  end.

Lemma is_field_exact field k : field ∈ envelope_fields ->
  (ToLower k ∈ envelope_fields -> k ∈ envelope_fields) -> is_field field k = bool_decide (k = field).
Proof.
  intros Hf Hk. unfold is_field. apply bool_decide_ext. split.
  - intros He. rewrite He in Hk. specialize (Hk Hf).
    unfold envelope_fields in Hk.
    repeat (apply elem_of_cons in Hk as [->|Hk]; [by rewrite <-He|]). by apply not_elem_of_nil in Hk.
  - intros ->. unfold envelope_fields in Hf.
    repeat (apply elem_of_cons in Hf as [->|Hf]; [done|]). by apply not_elem_of_nil in Hf.
Qed.

Lemma decodeMap_Some old v : map_field (Some v) -> exists q, decodeMap old v = Some q.
Proof. destruct v; cbn; try done; eauto. Qed.

Lemma decodeField_spec raw k v :
  (ToLower k ∈ envelope_fields -> k ∈ envelope_fields) ->
  (k <> "body" -> k ∈ envelope_fields -> map_field (Some v)) ->
  exists raw', decodeField raw (k, v) = Some raw' /\
    raw_Query raw' = (if decide (k = "query") then fieldEntries (raw_Query raw) (Some v) else raw_Query raw) /\
    raw_Headers raw' = (if decide (k = "headers") then fieldEntries (raw_Headers raw) (Some v) else raw_Headers raw) /\
    raw_Path raw' = (if decide (k = "path") then fieldEntries (raw_Path raw) (Some v) else raw_Path raw) /\
    raw_Body raw' = (if decide (k = "body") then v else raw_Body raw).
Proof.
  intros Hk Hv. unfold decodeField, fieldEntries.
  rewrite !is_field_exact by (done || unfold envelope_fields; set_solver).
  assert (Hd : forall old, k ∈ ["query"; "headers"; "path"] ->
    exists q, decodeMap old v = Some q).
  { intros old Hin. apply decodeMap_Some, Hv; unfold envelope_fields; set_solver. }
  repeat case_bool_decide; subst.
  - destruct (Hd (raw_Query raw)) as [q ->]; [set_solver|]. by eexists.
  - destruct (Hd (raw_Headers raw)) as [q ->]; [set_solver|]. by eexists.
  - destruct (Hd (raw_Path raw)) as [q ->]; [set_solver|]. by eexists.
  - by eexists.
  - eexists. split; [done|]. by rewrite !decide_False.
Qed.

Lemma decodeFields_spec kvs raw :
  NoDup kvs.*1 -> exact_keys kvs ->
  (forall f, f ∈ ["query"; "headers"; "path"] -> map_field (assoc f kvs)) ->
  exists raw', decodeFields raw kvs = Some raw' /\
    raw_Query raw' = fieldEntries (raw_Query raw) (assoc "query" kvs) /\
    raw_Headers raw' = fieldEntries (raw_Headers raw) (assoc "headers" kvs) /\
    raw_Path raw' = fieldEntries (raw_Path raw) (assoc "path" kvs) /\
    raw_Body raw' = default (raw_Body raw) (assoc "body" kvs).
Proof.
  revert raw. induction kvs as [|[k v] kvs IH]; intros raw Hnd Hex Hmap; [by exists raw|].
  cbn in Hnd. apply NoDup_cons in Hnd as [Hnot Hnd].
  unfold exact_keys in Hex. cbn in Hex. apply Forall_cons in Hex as [Hk Hex].
  assert (Hv : k <> "body" -> k ∈ envelope_fields -> map_field (Some v)).
  { intros Hb Hin. specialize (Hmap k). cbn in Hmap. rewrite decide_True in Hmap by done.
    apply Hmap. unfold envelope_fields in Hin. set_solver. }
  assert (Hmap' : forall f, f ∈ ["query"; "headers"; "path"] -> map_field (assoc f kvs)).
  { intros f Hf. specialize (Hmap f Hf). cbn in Hmap. case_decide; [|done].
    subst. by rewrite (proj2 (assoc_None k kvs)). }
  destruct (decodeField_spec raw k v Hk Hv) as (raw1 & Hd1 & Hq & Hh & Hp & Hb).
  destruct (IH raw1 Hnd Hex Hmap') as (raw2 & Hd2 & Hq2 & Hh2 & Hp2 & Hb2).
  exists raw2. cbn [decodeFields]. rewrite Hd1. cbn. split; [done|].
  rewrite Hq2, Hh2, Hp2, Hb2, Hq, Hh, Hp, Hb. apply assoc_None in Hnot.
  split_and!; repeat case_decide; subst; try congruence; by rewrite Hnot.
Qed.

(** Writing the keys in sorted order permutes the entries. *)
Lemma sorted_entries_perm {A} (kvs : list (string * A)) : NoDup kvs.*1 ->
  omap (fun k => pair k <$> assoc k kvs) (sort_strings kvs.*1) ≡ₚ kvs.
Proof.
  intros Hnd. rewrite sort_strings_perm.
  assert (Hall : forall kvs', (forall kv, kv ∈ kvs' -> assoc kv.1 kvs = Some kv.2) ->
    omap (fun k => pair k <$> assoc k kvs) kvs'.*1 = kvs').
  { induction kvs' as [|[k v] kvs' IH]; cbn; intros Hin; [done|].
    pose proof (Hin (k, v)) as He. cbn in He. rewrite He by by left. cbn. f_equal.
    apply IH. intros kv ?. apply Hin. by right. }
  rewrite Hall; [done|]. intros [k v] Hin. by apply assoc_elem.
Qed.

Lemma stringFields_lookup `{Numbers} raw k : NoDup raw.*1 ->
  stringFields raw !! k =
    match assoc k raw with
    | None | Some VNull => None
    | Some v => Some (Sprint v)
    end.
Proof.
  unfold stringFields. induction raw as [|[k' v] raw IH]; cbn; intros Hnd; [done|].
  apply NoDup_cons in Hnd as [Hnot Hnd]. specialize (IH Hnd). apply assoc_None in Hnot.
  destruct (decide (k = k')) as [->|Hne].
  - rewrite Hnot in IH. destruct v; cbn; rewrite ?lookup_insert_eq; done.
  - destruct v; cbn; rewrite ?lookup_insert_ne by done; done.
Qed.

(** What a field of the transform's output sends for a name. *)
Definition field_value `{Numbers} (out : list (string * value)) (field k : string) : option string :=
  match assoc field out with
  | Some (VObject kvs) =>
    match assoc k kvs with
    | None | Some VNull => None
    | Some v => Some (Sprint v)
    end
  | _ => None
  end.

(** C29: the request envelope. When the request expression yields an object
    whose [query], [headers] and [path] are objects, null or absent, the envelope
    holds for each of them exactly its non-null entries, stringified, and the
    body as it is: null parameters are omitted from the request. *)
Theorem RunRequest_envelope `{Gojq, Numbers} (c : CompiledTransforms) (a : args)
    (kvs out : list (string * value))
    (Hrun : runOnce (ct_Request c) (VObject a) = Ok (VObject kvs))
    (Hmarshal : is_Some (Marshal FormatFloat true (VObject kvs)))
    (Hreparse : reparse (VObject kvs) = Some (VObject out))
    (Hnd : NoDup out.*1) (Hexact : exact_keys out)
    (Hmaps : forall f, f ∈ ["query"; "headers"; "path"] -> map_field (assoc f out)) :
  exists env, RunRequest c a = Ok env /\
    (forall k, env_Query env !! k = field_value out "query" k) /\
    (forall k, env_Headers env !! k = field_value out "headers" k) /\
    (forall k, env_Path env !! k = field_value out "path" k) /\
    env_Body env = default VNull (assoc "body" out).
Proof.
  unfold RunRequest. rewrite Hrun. destruct Hmarshal as [text ->].
  unfold decodeEnvelope. rewrite Hreparse. cbn [mbind option_bind].
  pose proof (sorted_entries_perm out Hnd) as Hp.
  set (sorted := omap _ _) in *.
  assert (Hnd' : NoDup sorted.*1) by by rewrite Hp.
  assert (Ha : forall f, assoc f sorted = assoc f out) by by intros f; apply assoc_perm.
  destruct (decodeFields_spec sorted zero_rawEnvelope Hnd')
    as (raw & -> & Hq & Hh & Hpath & Hb).
  - unfold exact_keys. by rewrite Hp.
  - intros f Hf. rewrite Ha. by apply Hmaps.
  - rewrite Ha in Hq, Hh, Hpath, Hb. eexists. split; [done|].
    assert (Hfield : forall f k, f ∈ ["query"; "headers"; "path"] ->
      stringFields (fieldEntries [] (assoc f out)) !! k = field_value out f k).
    { intros f k Hf. specialize (Hmaps f Hf). unfold field_value.
      destruct (assoc f out) as [[| | | | | |o]|]; try done.
      change (fieldEntries [] (Some (VObject o))) with o. by rewrite stringFields_lookup. }
    cbn in Hq, Hh, Hpath. split_and!; [intros k; cbn; rewrite ?Hq, ?Hh, ?Hpath..|done];
      apply Hfield; set_solver.
Qed.

(** ** A sample engine: every expression is the constant it names *)
Module SampleEngine.
#[local] Instance numbers : Numbers :=
  {| FormatFloat _ := Some "1"; FormatG _ := "1" |}.
Definition envelope : list (string * value) :=
  [("query", VObject [("tag", VNull); ("q", VString "a b")]);
   ("path", VObject [("petId", VString "42")]);
   ("body", VObject [("ok", VBool true)])].
#[local] Instance engine : Gojq :=
  {| Query := string; Code := string;
     Parse e := if decide (e = "|") then Err "unexpected token" else Ok e;
     CompileQuery := Ok;
     outputs code input :=
       if decide (code = ".") then [Ok input]
       else if decide (code = "empty") then []
       else if decide (code = "., error") then [Ok input; Err "boom"]
       else [Ok (VObject envelope)] |}.
Definition transforms : CompiledTransforms :=
  {| ct_Request := "{}"; ct_Response := "."; ct_Error := "., error" |}.
End SampleEngine.

Lemma RunRequest_envelope_witness :
  exists env, @RunRequest SampleEngine.engine SampleEngine.numbers SampleEngine.transforms [] = Ok env /\
    env_Query env !! "q" = Some "a b" /\ env_Query env !! "tag" = None /\
    env_Path env !! "petId" = Some "42".
Proof.
  destruct (@RunRequest_envelope SampleEngine.engine SampleEngine.numbers SampleEngine.transforms []
    SampleEngine.envelope SampleEngine.envelope) as (env & Hr & Hq & Hh & Hp & Hb).
  - reflexivity.
  - vm_compute. by eexists.
  - vm_compute. reflexivity.
  - by apply (bool_decide_unpack _); vm_compute.
  - by apply (bool_decide_unpack _); vm_compute.
  - intros f Hf. repeat (apply elem_of_cons in Hf as [->|Hf];
      [vm_compute; repeat (constructor; [set_solver|]); constructor|]).
    by apply not_elem_of_nil in Hf.
  - exists env. split; [exact Hr|]. by rewrite !Hq, Hp.
Defined.

Example drain_later_error : @runOnce SampleEngine.engine "., error" VNull = Err (RuntimeError "boom").
Proof. reflexivity. Qed.
