(* ===== verification/Synthetic.v ===== *)
(** * Synthetic instances (pkg/openapi/synthetic.go)

    The generator of the values a tool's transforms are tried on.  Schemas are
    shared by pointer and may be cyclic; the code breaks cycles with a mutable
    set of the addresses being visited, which is threaded through the model.
    The recursion is on fuel, and one more than the number of schemas of the
    document is always enough.  Random data, the clock and the pattern generator
    are parameters. *)
From stdpp Require Export gmap.
From S2P Require Export OpenApi.
Open Scope Z_scope.

(** gofakeit, the clock and reggen; a schema's address stands for the call. *)
Class Faker := {
  Email : handle -> string;
  UUID : handle -> string;
  NowRFC3339 : string;
  reggen : handle -> string -> result string string
}.

(** [m[k] = v] on the entries of a map *)
Fixpoint setField (k : string) (v : value) (kvs : list (string * value)) : list (string * value) :=
  match kvs with
  | [] => [(k, v)]
  | (k', v') :: kvs' => if decide (k = k') then (k, v) :: kvs' else (k', v') :: setField k v kvs'
  end.

(** [int(f)] for a [float64]: truncation; a value out of range, an infinity or a
    NaN gives the smallest integer (amd64). *)
Definition int_of_float (f : float64) : Z :=
  match f with
  | S754_finite s m e =>
    let n := (if s then Z.opp else id) (if e <? 0 then Zpos m / 2 ^ (- e) else Zpos m * 2 ^ e) in
    if decide (- 2 ^ 63 <= n < 2 ^ 63) then n else - 2 ^ 63
  | S754_zero _ => 0
  | _ => - 2 ^ 63
  end.

Definition float_0_1 : float64 := S754_finite false 7205759403792794 (-56).
Definition float_1 : float64 := S754_finite false 4503599627370496 (-52).
Definition float_add : float64 -> float64 -> float64 := SFadd 53 1024.

Section Synthetic.
Context (h : Heap) `{Faker}.

(** [int(schema.MinLength)] of 2^63 or more is negative, where the code
    panics in [strings.Repeat] and the model pads with nothing. *)
Definition generateString (p : handle) : value :=
  let schema := deref h p in
  if bool_decide (sch_Format schema = "email") then VString (Email p)
  else if bool_decide (sch_Format schema = "uuid") then VString (UUID p)
  else if bool_decide (sch_Format schema = "date-time") then VString NowRFC3339
  else if bool_decide (sch_Format schema = "uri") then VString "https://example.com/resource"
  else if bool_decide (sch_Pattern schema <> "") then
    match reggen p (sch_Pattern schema) with
    | Err _ => VString "example_string"
    | Ok v => VString v
    end
  else
    let result := "example_string" in
    let len := Z.of_nat (String.length result) in
    if (0 <? sch_MinLength schema) && (len <? sch_MinLength schema) then
      VString (result +:+ implode (replicate (Z.to_nat (wrap64 (sch_MinLength schema) - len)) "a"%char))
    else VString result.

Definition generateInteger (p : handle) : value :=
  match sch_Min (deref h p) with
  | Some min => VInt (wrap64 (int_of_float min + 1))
  | None => VInt 1
  end.

Definition generateNumber (p : handle) : value :=
  match sch_Min (deref h p) with
  | Some min =>
    let v := float_add min float_0_1 in
    VFloat (if SFltb v float_1 then float_1 else v)
  | None => VFloat float_1
  end.

Abbreviation visiting := (gset handle).
Abbreviation generated A := (option (A * gset handle)).

Section Step.
(** the recursive call *)
Context (rec : option handle -> visiting -> generated value).

Fixpoint generateProperties (properties : list (string * option SchemaRef))
    (result : list (string * value)) (visited : visiting) : generated (list (string * value)) :=
  match properties with
  | [] => Some (result, visited)
  | (name, Some {| sr_Value := Some q |}) :: rest =>
    '(v, visited) ← rec (Some q) visited;
    generateProperties rest (setField name v result) visited
  | (name, _) :: rest => generateProperties rest (setField name VNull result) visited
  end.

Definition injectRequired (result : list (string * value)) (req : string)
    : list (string * value) :=
  match assoc req result with
  | Some _ => result
  | None => setField req VNull result
  end.

Definition generateObject (p : handle) (visited : visiting) : generated value :=
  let schema := deref h p in
  '(result, visited) ← generateProperties (sch_Properties schema) [] visited;
  Some (VObject (foldl injectRequired result (sch_Required schema)), visited).

(** The loop over [result[i]], [n] more elements to fill. *)
Fixpoint generateItems (items : option SchemaRef) (n : nat) (visited : visiting)
    : generated (list value) :=
  match n with
  | O => Some ([], visited)
  | S n' =>
    '(v, visited) ← match items with
                    | Some {| sr_Value := Some q |} => rec (Some q) visited
                    | _ => Some (VNull, visited)
                    end;
    '(vs, visited) ← generateItems items n' visited;
    Some (v :: vs, visited)
  end.

Definition generateArray (p : handle) (visited : visiting) : generated value :=
  let schema := deref h p in
  let minItems := wrap64 (sch_MinItems schema) in
  let minItems := if minItems <? 1 then 1 else minItems in
  '(vs, visited) ← generateItems (sch_Items schema) (Z.to_nat minItems) visited;
  Some (VArray vs, visited).

Definition generateByType (p : handle) (visited : visiting) : generated value :=
  let schemaType := firstType (deref h p) in
  if bool_decide (schemaType = "string") then Some (generateString p, visited)
  else if bool_decide (schemaType = "integer") then Some (generateInteger p, visited)
  else if bool_decide (schemaType = "number") then Some (generateNumber p, visited)
  else if bool_decide (schemaType = "boolean") then Some (VBool false, visited)
  else if bool_decide (schemaType = "object") then generateObject p visited
  else if bool_decide (schemaType = "array") then generateArray p visited
  else Some (VNull, visited).

(** [allOf]: the objects among the values are merged, later ones win. *)
Fixpoint mergeAll (refs : list (option SchemaRef)) (merged : list (string * value))
    (visited : visiting) : generated value :=
  match refs with
  | [] => Some (VObject merged, visited)
  | Some {| sr_Value := Some q |} :: rest =>
    '(v, visited) ← rec (Some q) visited;
    let merged := match v with
                  | VObject m => foldl (fun acc kv => setField kv.1 kv.2 acc) merged m
                  | _ => merged
                  end in
    mergeAll rest merged visited
  | _ :: rest => mergeAll rest merged visited
  end.

(** Priorities 1 to 8, after the cycle check. *)
Definition generateSchema (p : handle) (visited : visiting) : generated value :=
  let schema := deref h p in
  match sch_Example schema with
  | VNull =>
    match sch_Extensions schema !! "x-example" with
    | None | Some VNull =>
      match sch_Default schema with
      | VNull =>
        match sch_Enum schema with
        | v :: _ => Some (v, visited)
        | [] =>
          match sch_OneOf schema with
          | Some {| sr_Value := Some q |} :: _ => rec (Some q) visited
          | _ =>
            match sch_AnyOf schema with
            | Some {| sr_Value := Some q |} :: _ => rec (Some q) visited
            | _ =>
              match sch_AllOf schema with
              | [] => generateByType p visited
              | refs => mergeAll refs [] visited
              end
            end
          end
        end
      | v => Some (v, visited)
      end
    | Some v => Some (v, visited)
    end
  | v => Some (v, visited)
  end.
End Step.

Fixpoint Generate (fuel : nat) (schema : option handle) (visited : visiting) : generated value :=
  match schema with
  | None => Some (VNull, visited)
  | Some p =>
    match fuel with
    | O => None
    | S fuel' =>
      if decide (p ∈ visited) then Some (VObject [("$cycle", VBool true)], visited)
      else
        '(v, visited) ← generateSchema (Generate fuel') p ({[p]} ∪ visited);
        Some (v, visited ∖ {[p]})
    end
  end.

(** Enough for every call: see [Generate_total]. *)
Definition genFuel : nat := S (size h).

(** A call with a fresh [visited] map, as every caller makes. *)
Definition generate (schema : option handle) : option value :=
  fst <$> Generate genFuel schema ∅.

Fixpoint requiredProperties (required : gset string)
    (properties : list (string * option SchemaRef)) : option (list (string * value)) :=
  match properties with
  | [] => Some []
  | (name, ref) :: rest =>
    if decide (name ∈ required) then
      v ← match ref with
          | Some {| sr_Value := Some q |} => generate (Some q)
          | _ => Some VNull
          end;
      cons (name, v) <$> requiredProperties required rest
    else requiredProperties required rest
  end.

Definition generateRequiredOnly (schema : option handle) : option value :=
  match schema with
  | None => Some VNull
  | Some p =>
    let s := deref h p in
    if bool_decide (firstType s <> "object") && bool_decide (length (sch_Properties s) = 0%nat)
    then generate (Some p)
    else VObject <$> requiredProperties (set_of_names (sch_Required s)) (sch_Properties s)
  end.

Definition GenerateThreeInstances (schema : option handle) : option (list value) :=
  match schema with
  | None => Some [VNull; VNull]
  | Some p =>
    let s := deref h p in
    instance1 ← generate (Some p);
    instance2 ← generateRequiredOnly (Some p);
    let variants := if bool_decide (length (sch_OneOf s) = 0%nat) then sch_AnyOf s
                    else sch_OneOf s in
    vs ← mapM (fun q => generate (Some q)) (omap (fun ref => r ← ref; sr_Value r) variants);
    Some (instance1 :: instance2 :: vs)
  end.
End Synthetic.
Arguments generate : simpl never.

(** ** The visited set is restored, and the recursion ends *)
Section Recursion.
Context (h : Heap) `{Faker}.
Local Abbreviation recursor := (option handle -> gset handle -> option (value * gset handle)).

(** A call gives the set back as it got it. *)
Definition restores {A} (m : gset handle -> option (A * gset handle)) : Prop :=
  forall visited x visited', m visited = Some (x, visited') -> visited' = visited.

Definition total {A} (m : gset handle -> option (A * gset handle)) (visited : gset handle) : Prop :=
  exists x, m visited = Some (x, visited).

Definition extends (rec rec' : recursor) : Prop :=
  forall s visited r, rec s visited = Some r -> rec' s visited = Some r.

Section Restore.
Context (rec : recursor) (Hrec : forall s, restores (rec s)).

Lemma generateProperties_restores ps result : restores (generateProperties rec ps result).
Proof.
  revert result. induction ps as [|[name [[[q|]]|]] ps IH]; intros result visited x visited'; cbn.
  - by intros [= _ <-].
  - intros ([v vis] & Hq & Hps)%bind_Some. apply Hrec in Hq as ->. by apply IH in Hps.
  - apply IH.
  - apply IH.
Qed.

Lemma generateItems_restores items n : restores (generateItems rec items n).
Proof.
  induction n as [|n IH]; intros visited x visited'; cbn; [by intros [= _ <-]|].
  intros ([v vis] & Hq & ([vs vis'] & Hn & [= _ <-])%bind_Some)%bind_Some.
  apply IH in Hn as ->. destruct items as [[[q|]]|]; [by apply Hrec in Hq| |]; congruence.
Qed.

Lemma mergeAll_restores refs merged : restores (mergeAll rec refs merged).
Proof.
  revert merged. induction refs as [|[[[q|]]|] refs IH]; intros merged visited x visited'; cbn.
  - by intros [= _ <-].
  - intros ([v vis] & Hq & Hps)%bind_Some. apply Hrec in Hq as ->. by apply IH in Hps.
  - apply IH.
  - apply IH.
Qed.

Lemma generateByType_restores p : restores (generateByType h rec p).
Proof.
  intros visited x visited'. unfold generateByType, generateObject, generateArray.
  repeat case_bool_decide; [congruence..| | |congruence];
    intros ([r vis] & Hr & [= _ <-])%bind_Some.
  - by apply generateProperties_restores in Hr.
  - by apply generateItems_restores in Hr.
Qed.

Lemma generateSchema_restores p : restores (generateSchema h rec p).
Proof.
  intros visited x visited'. unfold generateSchema.
  repeat case_match; try congruence; try apply Hrec; try apply generateByType_restores;
    apply mergeAll_restores.
Qed.
End Restore.

Lemma Generate_restores fuel s : restores (Generate h fuel s).
Proof.
  revert s. induction fuel as [|fuel IH]; intros [p|] visited x visited'; cbn;
    try congruence.
  case_decide as Hp; [congruence|].
  intros ([v vis] & Hv & [= _ <-])%bind_Some.
  apply generateSchema_restores in Hv as ->; [|done]. set_solver.
Qed.

Section Total.
Context (rec : recursor) (visited : gset handle).
Context (Hrec : forall s, total (rec s) visited).

Lemma generateProperties_total ps result : total (generateProperties rec ps result) visited.
Proof.
  revert result. induction ps as [|[name [[[q|]]|]] ps IH]; intros result; cbn; [by eexists| | |].
  - destruct (Hrec (Some q)) as [v Hv]. unfold total. cbn. rewrite Hv. apply IH.
  - apply IH.
  - apply IH.
Qed.

Lemma generateItems_total items n : total (generateItems rec items n) visited.
Proof.
  induction n as [|n [vs IH]]; [by eexists|]. unfold total. cbn.
  destruct items as [[[q|]]|]; [destruct (Hrec (Some q)) as [v ->]| |];
    cbn; rewrite IH; by eexists.
Qed.

Lemma mergeAll_total refs merged : total (mergeAll rec refs merged) visited.
Proof.
  revert merged. induction refs as [|[[[q|]]|] refs IH]; intros merged; cbn; [by eexists| | |].
  - destruct (Hrec (Some q)) as [v Hv]. unfold total. cbn. rewrite Hv. apply IH.
  - apply IH.
  - apply IH.
Qed.

Lemma generateByType_total p : total (generateByType h rec p) visited.
Proof.
  unfold total, generateByType, generateObject, generateArray.
  repeat case_bool_decide; try by eexists.
  - destruct (generateProperties_total (sch_Properties (deref h p)) []) as [kvs ->]. by eexists.
  - cbn zeta.
    destruct (generateItems_total (sch_Items (deref h p))
      (Z.to_nat (if wrap64 (sch_MinItems (deref h p)) <? 1 then 1
                 else wrap64 (sch_MinItems (deref h p))))) as [vs ->]. by eexists.
Qed.

Lemma generateSchema_total p : total (generateSchema h rec p) visited.
Proof.
  unfold total, generateSchema.
  repeat case_match;
    first [apply Hrec | apply generateByType_total | apply mergeAll_total | by eexists].
Qed.
End Total.

(** An address outside the heap is the zero schema, which has no children. *)
Lemma generateSchema_dangling rec p visited : p ∉ dom h ->
  total (generateSchema h rec p) visited.
Proof.
  intros Hp. apply not_elem_of_dom in Hp. unfold total, generateSchema, generateByType, deref.
  rewrite Hp. by eexists.
Qed.

Lemma Generate_total fuel s visited :
  (size (dom h ∖ visited) < fuel)%nat -> total (Generate h fuel s) visited.
Proof.
  revert s visited. induction fuel as [|fuel IH]; intros s visited Hf; [lia|].
  destruct s as [p|]; [|by eexists]. unfold total. cbn.
  case_decide as Hp; [by eexists|].
  assert (Hs : total (generateSchema h (Generate h fuel) p) ({[p]} ∪ visited)).
  { destruct (decide (p ∈ dom h)) as [Hd|]; [|by apply generateSchema_dangling].
    apply generateSchema_total. intros s. apply IH.
    assert (size (dom h ∖ ({[p]} ∪ visited)) < size (dom h ∖ visited))%nat; [|lia].
    apply subset_size. set_solver. }
  destruct Hs as [v ->]. cbn. exists v. do 2 f_equal. set_solver.
Qed.
End Recursion.

(** ** More fuel changes nothing *)
Section Fuel.
Context (h : Heap) `{Faker}.
Context (rec rec' : option handle -> gset handle -> option (value * gset handle)).
Context (Hrec : forall s visited r, rec s visited = Some r -> rec' s visited = Some r).

Lemma generateProperties_extends ps result visited r :
  generateProperties rec ps result visited = Some r ->
  generateProperties rec' ps result visited = Some r.
Proof.
  revert result visited. induction ps as [|[name [[[q|]]|]] ps IH]; intros result visited; cbn; auto.
  intros ([v vis] & Hq%Hrec & Hps)%bind_Some. rewrite Hq. by apply IH.
Qed.

Lemma generateItems_extends items n visited r :
  generateItems rec items n visited = Some r -> generateItems rec' items n visited = Some r.
Proof.
  revert visited r. induction n as [|n IH]; intros visited r; [done|]. cbn.
  intros ([v vis] & Hq & ([vs vis'] & Hn%IH & Hr)%bind_Some)%bind_Some.
  destruct items as [[[q|]]|]; [apply Hrec in Hq; rewrite Hq| |];
    try (injection Hq as <- <-); cbn; by rewrite Hn.
Qed.

Lemma mergeAll_extends refs merged visited r :
  mergeAll rec refs merged visited = Some r -> mergeAll rec' refs merged visited = Some r.
Proof.
  revert merged visited. induction refs as [|[[[q|]]|] refs IH]; intros merged visited; cbn; auto.
  intros ([v vis] & Hq%Hrec & Hps)%bind_Some. rewrite Hq. by apply IH.
Qed.

Lemma generateByType_extends p visited r :
  generateByType h rec p visited = Some r -> generateByType h rec' p visited = Some r.
Proof.
  unfold generateByType, generateObject, generateArray.
  repeat case_bool_decide; try done; intros ([x vis] & Hx & Hr)%bind_Some.
  - apply generateProperties_extends in Hx. by rewrite Hx.
  - apply generateItems_extends in Hx. by rewrite Hx.
Qed.

Lemma generateSchema_extends p visited r :
  generateSchema h rec p visited = Some r -> generateSchema h rec' p visited = Some r.
Proof.
  unfold generateSchema.
  repeat case_match;
    first [done | apply Hrec | apply generateByType_extends | apply mergeAll_extends].
Qed.
End Fuel.

Section Terminates.
Context (h : Heap) `{Faker}.

Lemma Generate_more fuel fuel' s visited r : (fuel <= fuel')%nat ->
  Generate h fuel s visited = Some r -> Generate h fuel' s visited = Some r.
Proof.
  revert fuel' s visited r. induction fuel as [|fuel IH]; intros fuel' s visited r Hle;
    (destruct s as [p|]; [|by destruct fuel']); [done|].
  destruct fuel' as [|fuel']; [lia|]. cbn. case_decide; [done|].
  intros ([v vis] & Hv & Hr)%bind_Some.
  eapply (generateSchema_extends h _ (Generate h fuel')) in Hv; [by rewrite Hv|].
  intros s visited' r' Hs. apply (IH fuel'); [lia|done].
Qed.

Lemma size_dom : size (dom h ∖ ∅) = size h.
Proof. rewrite difference_empty_L. apply size_dom. Qed.

Lemma generate_total s : exists v, generate h s = Some v.
Proof.
  unfold generate, genFuel. destruct (Generate_total h (S (size h)) s ∅) as [v ->].
  - rewrite size_dom. lia.
  - by eexists.
Qed.

Lemma requiredProperties_total required ps : exists kvs, requiredProperties h required ps = Some kvs.
Proof.
  induction ps as [|[name ref] ps [kvs IH]]; cbn; [by eexists|]. rewrite IH.
  case_decide; [|by eexists]. destruct ref as [[[q|]]|]; [|by eexists..].
  destruct (generate_total (Some q)) as [v ->]. by eexists.
Qed.

Lemma generateRequiredOnly_total s : exists v, generateRequiredOnly h s = Some v.
Proof.
  destruct s as [p|]; cbn; [|by eexists]. case_match; [apply generate_total|].
  edestruct requiredProperties_total as [kvs ->]. by eexists.
Qed.
End Terminates.

Lemma GenerateThreeInstances_total (h : Heap) `{Faker} (schema : option handle) :
  exists instances, GenerateThreeInstances h schema = Some instances /\ (2 <= length instances)%nat.
Proof.
  destruct schema as [p|]; [|by eexists]. unfold GenerateThreeInstances.
  destruct (generate_total h (Some p)) as [v1 ->].
  destruct (generateRequiredOnly_total h (Some p)) as [v2 ->]. cbn [mbind option_bind].
  assert (Hm : forall qs, exists vs, mapM (fun q => generate h (Some q)) qs = Some vs).
  { induction qs as [|q qs [vs IH]]; [by eexists|]. cbn.
    destruct (generate_total h (Some q)) as [v ->]. cbn. rewrite IH. by eexists. }
  edestruct Hm as [vs ->]. cbn. eexists. split; [done|]. cbn. lia.
Qed.

(** C25: the generator of synthetic values ends on every schema graph, cycles
    included: the recursion visits each schema of the document at most once on
    a path, so fuel above the number of schemas gives one and the same value,
    the set of visited addresses is empty again afterwards, and the dry-run
    instances (at least two) always exist. *)
Theorem Generate_terminates (h : Heap) `{Faker} (schema : option handle) :
  (exists v, generate h schema = Some v /\
     forall fuel, (size h < fuel)%nat -> Generate h fuel schema ∅ = Some (v, ∅)) /\
  (exists instances, GenerateThreeInstances h schema = Some instances /\
     (2 <= length instances)%nat).
Proof.
  split; [|apply GenerateThreeInstances_total].
  destruct (Generate_total h (S (size h)) schema ∅) as [v Hv]; [rewrite size_dom; lia|].
  exists v. split; [unfold generate, genFuel; by rewrite Hv|].
  intros fuel Hf. by apply (Generate_more h (S (size h))).
Qed.

(** ** Shape of generated objects *)
Section Objects.
Context (h : Heap) `{Faker}.

Lemma setField_keys k v kvs k' : k' ∈ (setField k v kvs).*1 <-> k' = k \/ k' ∈ kvs.*1.
Proof.
  induction kvs as [|[k1 v1] kvs IH]; cbn; [set_solver|].
  case_decide; subst; cbn; rewrite !elem_of_cons, ?IH; naive_solver.
Qed.

Lemma setField_NoDup k v kvs : NoDup kvs.*1 -> NoDup (setField k v kvs).*1.
Proof.
  induction kvs as [|[k1 v1] kvs IH]; cbn; intros Hnd; [by apply NoDup_singleton|].
  apply NoDup_cons in Hnd as [Hnot Hnd]. case_decide; subst; cbn; apply NoDup_cons; [done|].
  split; [|by apply IH]. rewrite setField_keys. naive_solver.
Qed.

(** [kvs] has exactly the keys in [K], once each. *)
Definition keys_are (kvs : list (string * value)) (K : string -> Prop) : Prop :=
  NoDup kvs.*1 /\ forall k, k ∈ kvs.*1 <-> K k.

Lemma setField_keys_are k v kvs K :
  keys_are kvs K -> keys_are (setField k v kvs) (fun k' => k' = k \/ K k').
Proof.
  intros [Hnd Hk]. split; [by apply setField_NoDup|]. intros k'. by rewrite setField_keys, Hk.
Qed.

Lemma keys_are_iff kvs K K' : (forall k, K k <-> K' k) -> keys_are kvs K -> keys_are kvs K'.
Proof. intros Hiff [Hnd Hk]. split; [done|]. intros k. by rewrite Hk. Qed.

Lemma generateProperties_keys rec ps result visited kvs visited' K :
  keys_are result K -> generateProperties rec ps result visited = Some (kvs, visited') ->
  keys_are kvs (fun k => K k \/ k ∈ ps.*1).
Proof.
  revert result visited K. induction ps as [|[name [[[q|]]|]] ps IH]; intros result visited K HK; cbn.
  - intros [= <- _]. eapply keys_are_iff; [|exact HK]. set_solver.
  - intros ([v vis] & _ & Hps)%bind_Some.
    eapply keys_are_iff; [|eapply IH; [by apply setField_keys_are|exact Hps]]. set_solver.
  - intros Hps. eapply keys_are_iff; [|eapply IH; [by apply setField_keys_are|exact Hps]]. set_solver.
  - intros Hps. eapply keys_are_iff; [|eapply IH; [by apply setField_keys_are|exact Hps]]. set_solver.
Qed.

Lemma injectRequired_keys reqs result K : keys_are result K ->
  keys_are (foldl injectRequired result reqs) (fun k => K k \/ k ∈ reqs).
Proof.
  revert result K. induction reqs as [|r reqs IH]; intros result K HK; cbn.
  - eapply keys_are_iff; [|exact HK]. set_solver.
  - assert (HK' : keys_are (injectRequired result r) (fun k => k = r \/ K k)).
    { unfold injectRequired. destruct (assoc r result) eqn:E; [|by apply setField_keys_are].
      eapply keys_are_iff; [|exact HK]. intros k. split; [by right|]. intros [->|]; [|done].
      apply HK. destruct (decide (r ∈ result.*1)) as [|Hn]; [done|].
      apply assoc_None in Hn. congruence. }
    eapply keys_are_iff; [|by apply IH]. set_solver.
Qed.
End Objects.

(** Nothing of higher priority than the type decides the value. *)
Definition type_decides (s : Schema) : Prop :=
  sch_Example s = VNull /\ sch_Default s = VNull /\ sch_Extensions s !! "x-example" = None /\
  sch_Enum s = [] /\ sch_OneOf s = [] /\ sch_AnyOf s = [] /\ sch_AllOf s = [].

(** A generated object is complete: it has every declared property and every
    required name, once each, and nothing else. *)
Theorem generate_object_complete (h : Heap) `{Faker} (p : handle)
    (Htype : firstType (deref h p) = "object") (Hdec : type_decides (deref h p)) :
  exists kvs, generate h (Some p) = Some (VObject kvs) /\ NoDup kvs.*1 /\
    forall k, k ∈ kvs.*1 <->
      k ∈ (sch_Properties (deref h p)).*1 \/ k ∈ sch_Required (deref h p).
Proof.
  destruct Hdec as (He & Hd & Hx & Hen & Hone & Hany & Hall).
  destruct (generate_total h (Some p)) as [v Hv]. rewrite Hv.
  unfold generate, genFuel in Hv. cbn in Hv.
  rewrite decide_False in Hv by set_solver.
  unfold generateSchema in Hv. rewrite He, Hx, Hd, Hen, Hone, Hany, Hall in Hv.
  unfold generateByType in Hv. rewrite Htype in Hv. cbn in Hv. unfold generateObject in Hv.
  apply fmap_Some in Hv as ([v' vis] & Hv & ->).
  apply bind_Some in Hv as ([v'' vis'] & Hv & [= <- _]).
  apply bind_Some in Hv as ([kvs vis''] & Hps & [= <- _]).
  assert (Hk : keys_are [] (fun _ => False)) by (split; [constructor|set_solver]).
  apply (generateProperties_keys _ _ _ _ _ _ _ Hk) in Hps.
  apply (injectRequired_keys (sch_Required (deref h p))) in Hps as [Hnd Hkeys].
  eexists. split; [done|]. split; [done|]. intros k. rewrite Hkeys. tauto.
Qed.

Module SampleSchemas.
#[local] Instance faker : Faker :=
  {| Email _ := "a@example.com"; UUID _ := "0"; NowRFC3339 := "2024-01-01T00:00:00Z";
     reggen _ _ := Err "unsupported" |}.
(** A list node whose [next] refers to itself. *)
Definition node : Schema :=
  {| sch_Type := Some ["object"]; sch_Description := ""; sch_Format := ""; sch_Pattern := "";
     sch_Min := None; sch_Max := None; sch_MinLength := 0; sch_MaxLength := None;
     sch_Enum := []; sch_Required := ["label"; "next"];
     sch_Properties := [("next", SampleDoc.ref 3)]; sch_MinItems := 0;
     sch_Items := None; sch_OneOf := []; sch_AnyOf := []; sch_AllOf := [];
     sch_Example := VNull; sch_Default := VNull; sch_Extensions := ∅ |}.
Definition heap : Heap := {[3%positive := node]}.

Example cyclic : generate heap (Some 3%positive) =
  Some (VObject [("next", VObject [("$cycle", VBool true)]); ("label", VNull)]).
Proof. vm_compute. reflexivity. Qed.
End SampleSchemas.

Lemma generate_object_complete_witness :
  exists kvs, @generate SampleSchemas.heap SampleSchemas.faker (Some 3%positive) = Some (VObject kvs) /\
    "next" ∈ kvs.*1 /\ "label" ∈ kvs.*1.
Proof.
  destruct (@generate_object_complete SampleSchemas.heap SampleSchemas.faker 3%positive)
    as (kvs & Hg & _ & Hk); [reflexivity|by vm_compute|].
  exists kvs. split; [exact Hg|]. rewrite !Hk. split; [left|right]; vm_compute; by left.
Defined.
