(* ===== verification/Loader.v ===== *)
(** * Loading specifications (pkg/openapi: loader.go, overlay.go)

    The conditional fetch of a specification with its retries, the fetch of an
    overlay, and the pipeline that applies the overlay, parses and validates the
    document and builds its router.  The file system, the network, the
    environment and the YAML, OpenAPI and overlay libraries are parameters; the
    network answers each attempt separately. *)
From S2P Require Export OpenApi.
Open Scope Z_scope.

(** What the program reads of a parsed document. *)
Record Document := {
  doc_Paths : Paths;
  doc_Heap : Heap
}.

Record HttpRequest := {
  rq_URL : string;
  rq_Headers : gmap string string
}.

(** [rs_Body] is the outcome of [io.ReadAll]. *)
Record HttpResponse := {
  rs_StatusCode : Z;
  rs_ETag : string;
  rs_Body : result string string
}.

(** The n-th call of [httpClient.Do] of a fetch, and what [ctx.Done()] gives
    during the wait before it. *)
Record Network := {
  net_Do : nat -> HttpRequest -> result string HttpResponse;
  net_Done : nat -> option string
}.

Class SpecLibs := {
  ReadFile : string -> result string string;
  ExpandEnv : string -> string;
  NewRequest : string -> option string;
  (** [yaml.Unmarshal] into a node *)
  yamlNode : string -> result string Node;
  (** [url.Parse], [filepath.Abs]: the base URI as text *)
  parseURL : string -> result string string;
  filepathAbs : string -> result string string;
  (** kin-openapi: the loader with its options, [doc.Validate], [NewRouter] *)
  LoadFromDataWithPath : bool -> string -> string -> string -> result string Document;
  ValidateDocument : Document -> option string;
  NewRouter : Document -> result string handle;
  (** speakeasy's overlay: decoding, [Validate], [ApplyToStrict] and the
      marshalling of the outcome *)
  Overlay : Type;
  decodeOverlay : string -> result string Overlay;
  validateOverlay : Overlay -> option string;
  applyToStrict : Overlay -> Node -> result string Node;
  yamlMarshal : Node -> result string string
}.

Inductive LoadError :=
  | ReadingFile (source err : string)
  | ProcessingSpec (source err : string)
  | CreatingRequest (source err : string)
  | Fetching (source err : string)
  | UnexpectedStatus (source : string) (status : Z)
  | ReadingResponse (source err : string)
  | ParsingOverlay (err : string)
  | ValidatingOverlay (err : string)
  | UnmarshallingSpec (err : string)
  | ApplyingOverlayToSpec (err : string)
  | MarshallingSpec (err : string)
  | LoadingSpecBytes (err : LoadError)
  | LoadingOverlay (err : LoadError)
  | ApplyingOverlay (err : LoadError)
  | ParsingYAMLRoot (err : string)
  | ResolvingBaseURI (source err : string)
  | ParsingSpec (err : string)
  | ValidatingSpec (err : string)
  | BuildingRouter (err : string).

(** [data, etag, notModified]; [None] is a nil slice. *)
Record Fetched := {
  ft_data : option string;
  ft_etag : string;
  ft_notModified : bool
}.
Definition fetched_data (d etag : string) : Fetched :=
  {| ft_data := Some d; ft_etag := etag; ft_notModified := false |}.

Definition isHTTP (source : string) : bool := HasPrefix source "http".

Definition conditionalHeaders (authHeader ifNoneMatch : string) : gmap string string :=
  let h := if bool_decide (authHeader <> "") then {["Authorization" := authHeader]} else ∅ in
  if bool_decide (ifNoneMatch <> "") then <["If-None-Match" := ifNoneMatch]> h else h.

Section Loader.
Context `{SpecLibs}.

(** ** Fetching *)

(** The rest of the retry loop: [n] attempts are left, the next one is number
    [attempt]. *)
Fixpoint fetchAttempts (net : Network) (source authHeader ifNoneMatch : string)
    (n attempt : nat) (lastErr : LoadError) : result LoadError Fetched :=
  match n with
  | O => Err lastErr
  | S n' =>
    match (if decide (attempt = 0%nat) then None else net_Done net attempt) with
    | Some err => Err (ProcessingSpec source err)
    | None =>
      match NewRequest source with
      | Some err => Err (CreatingRequest source err)
      | None =>
        let retry := fetchAttempts net source authHeader ifNoneMatch n' (S attempt) in
        match net_Do net attempt {| rq_URL := source;
                rq_Headers := conditionalHeaders authHeader ifNoneMatch |} with
        | Err err => retry (Fetching source err)
        | Ok resp =>
          if decide (rs_StatusCode resp = 304) then
            Ok {| ft_data := None; ft_etag := rs_ETag resp; ft_notModified := true |}
          else if 500 <=? rs_StatusCode resp then
            retry (UnexpectedStatus source (rs_StatusCode resp))
          else if decide (rs_StatusCode resp <> 200) then
            Err (UnexpectedStatus source (rs_StatusCode resp))
          else
            match rs_Body resp with
            | Err err => Err (ReadingResponse source err)
            | Ok d => Ok (fetched_data d (rs_ETag resp))
            end
        end
      end
    end
  end.

(** ** References

    How the OpenAPI library reads a document that the specification refers to; the
    first request of the network is the one it makes. *)
Inductive ReadURIError :=
  | ErrURINotSupported
  | ReadingURI (location err : string)
  | URIStatus (location : string) (status : Z).

Definition buildAuthHTTPReader (net : Network) (authHeader scheme location : string) : result ReadURIError string :=
  if bool_decide (scheme <> "http") && bool_decide (scheme <> "https") then Err ErrURINotSupported
  else
    match NewRequest location with
    | Some err => Err (ReadingURI location err)
    | None =>
      match net_Do net 0 {| rq_URL := location; rq_Headers := conditionalHeaders authHeader "" |} with
      | Err err => Err (ReadingURI location err)
      | Ok resp =>
        if decide (rs_StatusCode resp <> 200) then Err (URIStatus location (rs_StatusCode resp))
        else match rs_Body resp with Err err => Err (ReadingURI location err) | Ok data => Ok data end
      end
    end.

(** [lastErr] is nil before the loop; with at least one attempt the value
    given here is never returned. *)
Definition FetchSpecConditional (net : Network) (cfg : OpenAPISourceConfig)
    (ifNoneMatch : string) (maxAttempts : Z) : result LoadError Fetched :=
  let source := oas_Source cfg in
  if negb (isHTTP source) then
    match ReadFile source with
    | Err err => Err (ReadingFile source err)
    | Ok d => Ok (fetched_data d "")
    end
  else
    let maxAttempts := if maxAttempts <=? 0 then 1 else maxAttempts in
    fetchAttempts net source (ExpandEnv (oas_AuthHeader cfg)) ifNoneMatch
      (Z.to_nat maxAttempts) 0 (Fetching source "").

Definition loadSpecBytes (net : Network) (cfg : OpenAPISourceConfig)
    : result LoadError (option string * string) :=
  f ← FetchSpecConditional net cfg "" 5; Ok (ft_data f, ft_etag f).

(** One GET without retries; [accept304] is the conditional variant. *)
Definition getOverlay (net : Network) (cfg : OverlayConfig) (ifNoneMatch : string)
    (accept304 : bool) : result LoadError Fetched :=
  let source := ovl_Source cfg in
  match NewRequest source with
  | Some err => Err (CreatingRequest source err)
  | None =>
    match net_Do net 0 {| rq_URL := source;
            rq_Headers := conditionalHeaders (ExpandEnv (ovl_AuthHeader cfg)) ifNoneMatch |} with
    | Err err => Err (Fetching source err)
    | Ok resp =>
      if accept304 && bool_decide (rs_StatusCode resp = 304) then
        Ok {| ft_data := None; ft_etag := rs_ETag resp; ft_notModified := true |}
      else if decide (rs_StatusCode resp <> 200) then
        Err (UnexpectedStatus source (rs_StatusCode resp))
      else
        match rs_Body resp with
        | Err err => Err (ReadingResponse source err)
        | Ok d => Ok (fetched_data d (rs_ETag resp))
        end
    end
  end.

Definition FetchOverlayConditional (net : Network) (cfg : option OverlayConfig)
    (ifNoneMatch : string) : result LoadError Fetched :=
  match cfg with
  | None => Ok {| ft_data := None; ft_etag := ""; ft_notModified := false |}
  | Some cfg =>
    if bool_decide (ovl_Inline cfg <> "") then Ok (fetched_data (ovl_Inline cfg) "")
    else if negb (isHTTP (ovl_Source cfg)) then
      match ReadFile (ovl_Source cfg) with
      | Err err => Err (ReadingFile (ovl_Source cfg) err)
      | Ok d => Ok (fetched_data d "")
      end
    else getOverlay net cfg ifNoneMatch true
  end.

Definition loadOverlayBytes (net : Network) (cfg : OverlayConfig) : result LoadError string :=
  if bool_decide (ovl_Inline cfg <> "") then Ok (ovl_Inline cfg)
  else if isHTTP (ovl_Source cfg) then
    f ← getOverlay net cfg "" false; Ok (default "" (ft_data f))
  else
    match ReadFile (ovl_Source cfg) with
    | Err err => Err (ReadingFile (ovl_Source cfg) err)
    | Ok d => Ok d
    end.

(** ** The pipeline *)
Definition ApplyOverlayBytes (specBytes overlayBytes : string) : result LoadError string :=
  match decodeOverlay overlayBytes with
  | Err err => Err (ParsingOverlay err)
  | Ok ol =>
    match validateOverlay ol with
    | Some err => Err (ValidatingOverlay err)
    | None =>
      match yamlNode specBytes with
      | Err err => Err (UnmarshallingSpec err)
      | Ok root =>
        match applyToStrict ol root with
        | Err err => Err (ApplyingOverlayToSpec err)
        | Ok root' =>
          match yamlMarshal root' with
          | Err err => Err (MarshallingSpec err)
          | Ok modified => Ok modified
          end
        end
      end
    end
  end.

Definition ApplyOverlay (net : Network) (specBytes : string) (cfg : option OverlayConfig)
    : result LoadError string :=
  match cfg with
  | None => Ok specBytes
  | Some cfg =>
    match loadOverlayBytes net cfg with
    | Err err => Err (LoadingOverlay err)
    | Ok overlayBytes => ApplyOverlayBytes specBytes overlayBytes
    end
  end.

Definition specBaseURI (source : string) : result string string :=
  if isHTTP source then parseURL source
  else abs ← filepathAbs source; parseURL ("file://" +:+ abs).

(** The parsed document, its router and the root of its YAML tree. *)
Definition LoadPipelineFromBytes (specBytes : string) (specCfg : OpenAPISourceConfig)
    : result LoadError (Document * handle * Node) :=
  match yamlNode specBytes with
  | Err err => Err (ParsingYAMLRoot err)
  | Ok specYAMLRoot =>
    match specBaseURI (oas_Source specCfg) with
    | Err err => Err (ResolvingBaseURI (oas_Source specCfg) err)
    | Ok baseURI =>
      match LoadFromDataWithPath (oas_AllowExternalRefs specCfg)
              (ExpandEnv (oas_AuthHeader specCfg)) specBytes baseURI with
      | Err err => Err (ParsingSpec err)
      | Ok doc =>
        match ValidateDocument doc with
        | Some err => Err (ValidatingSpec err)
        | None =>
          match NewRouter doc with
          | Err err => Err (BuildingRouter err)
          | Ok router => Ok (doc, router, specYAMLRoot)
          end
        end
      end
    end
  end.

(** The spec and the overlay are fetched over [net1] and [net2]; the rest of
    the function is the code of [LoadPipelineFromBytes]. *)
Definition LoadPipeline (net1 net2 : Network) (specCfg : OpenAPISourceConfig)
    (overlayCfg : option OverlayConfig) : result LoadError (Document * handle * Node) :=
  match loadSpecBytes net1 specCfg with
  | Err err => Err (LoadingSpecBytes err)
  | Ok (specBytes, _) =>
    match ApplyOverlay net2 (default "" specBytes) overlayCfg with
    | Err err => Err (ApplyingOverlay err)
    | Ok modifiedBytes => LoadPipelineFromBytes modifiedBytes specCfg
    end
  end.
End Loader.

(** ** Retries *)

(** An attempt whose outcome makes the loop try again. *)
Definition inconclusive (out : result string HttpResponse) : bool :=
  match out with
  | Err _ => true
  | Ok resp => bool_decide (rs_StatusCode resp <> 304) && (500 <=? rs_StatusCode resp)
  end.

(** What a conclusive response yields. *)
Definition conclude (source : string) (resp : HttpResponse) : result LoadError Fetched :=
  if decide (rs_StatusCode resp = 304) then
    Ok {| ft_data := None; ft_etag := rs_ETag resp; ft_notModified := true |}
  else if decide (rs_StatusCode resp <> 200) then
    Err (UnexpectedStatus source (rs_StatusCode resp))
  else match rs_Body resp with
       | Err err => Err (ReadingResponse source err)
       | Ok d => Ok (fetched_data d (rs_ETag resp))
       end.

(** The error of an inconclusive attempt. *)
Definition attemptError (source : string) (out : result string HttpResponse) : LoadError :=
  match out with
  | Err err => Fetching source err
  | Ok resp => UnexpectedStatus source (rs_StatusCode resp)
  end.

(** The reader takes no notice of the host: the authorization configured for the
    specification's source goes to every address its document refers to. *)
Lemma references_get_credentials `{SpecLibs} (net : Network) (authHeader scheme location data : string) :
  authHeader <> "" -> buildAuthHTTPReader net authHeader scheme location = Ok data ->
  exists req resp, rq_URL req = location /\ rq_Headers req !! "Authorization" = Some authHeader /\
    net_Do net 0 req = Ok resp /\ rs_Body resp = Ok data.
Proof.
  intros Ha. unfold buildAuthHTTPReader. destruct (_ && _); [done|]. destruct (NewRequest location); [done|].
  destruct (net_Do net 0 _) as [resp|err] eqn:Ed; [|done]. case_decide; [done|].
  destruct (rs_Body resp) as [d|] eqn:Eb; [|done]. intros [= ->]. eexists _, resp. split_and!; [| |exact Ed|exact Eb]; [reflexivity|].
  cbn -[conditionalHeaders]. unfold conditionalHeaders.
  rewrite (bool_decide_true (authHeader <> "")), bool_decide_false by naive_solver. apply lookup_singleton_eq.
Qed.

Section Retries.
Context `{SpecLibs} (net : Network) (source auth etag : string).
Context (Hreq : NewRequest source = None) (Hdone : forall n, net_Done net n = None).
Let req : HttpRequest := {| rq_URL := source; rq_Headers := conditionalHeaders auth etag |}.

Lemma fetchAttempts_step n attempt lastErr :
  fetchAttempts net source auth etag (S n) attempt lastErr =
    if inconclusive (net_Do net attempt req)
    then fetchAttempts net source auth etag n (S attempt) (attemptError source (net_Do net attempt req))
    else match net_Do net attempt req with
         | Ok resp => conclude source resp
         | Err _ => Err lastErr
         end.
Proof.
  cbn [fetchAttempts]. rewrite Hreq, Hdone. fold req.
  destruct (decide (attempt = 0%nat)); destruct (net_Do net attempt req) as [resp|err]; try done;
    unfold inconclusive, conclude, attemptError.
  all: destruct (decide (rs_StatusCode resp = 304)) as [->|Hne]; [done|].
  all: rewrite bool_decide_true by done; cbn; by destruct (500 <=? rs_StatusCode resp).
Qed.

Lemma fetchAttempts_conclude n attempt lastErr k resp :
  (k < n)%nat -> (forall j, (j < k)%nat -> inconclusive (net_Do net (attempt + j) req) = true) ->
  net_Do net (attempt + k) req = Ok resp -> inconclusive (Ok resp) = false ->
  fetchAttempts net source auth etag n attempt lastErr = conclude source resp.
Proof.
  revert attempt lastErr k. induction n as [|n IH]; intros attempt lastErr k Hk Hj Hresp Hc; [lia|].
  rewrite fetchAttempts_step. destruct k as [|k].
  - rewrite Nat.add_0_r in Hresp. by rewrite Hresp, Hc.
  - specialize (Hj 0%nat) as Hj0. rewrite Nat.add_0_r in Hj0. rewrite Hj0 by lia.
    apply (IH _ _ k); [lia| |by rewrite Nat.add_succ_comm|done].
    intros j Hlt. rewrite Nat.add_succ_comm. apply Hj. lia.
Qed.

Lemma fetchAttempts_exhausted n attempt lastErr :
  (forall j, (j < n)%nat -> inconclusive (net_Do net (attempt + j) req) = true) ->
  fetchAttempts net source auth etag n attempt lastErr =
    Err (match n with
         | O => lastErr
         | S m => attemptError source (net_Do net (attempt + m) req)
         end).
Proof.
  revert attempt lastErr. induction n as [|n IH]; intros attempt lastErr Hj; [done|].
  rewrite fetchAttempts_step.
  specialize (Hj 0%nat) as Hj0. rewrite Nat.add_0_r in Hj0. rewrite Hj0 by lia.
  rewrite IH.
  - destruct n as [|n]; [by rewrite Nat.add_0_r|]. by rewrite Nat.add_succ_comm.
  - intros j Hlt. rewrite Nat.add_succ_comm. apply Hj. lia.
Qed.
End Retries.

(** The retry loop of a remote specification. With [n] attempts (at least
    one), the first response that is not a server error decides the outcome and
    no later attempt is made; if every attempt fails to connect or answers
    5xx, the error is the one of the last attempt. A 304 is never retried. *)
Theorem FetchSpecConditional_retries `{SpecLibs} (net : Network) (cfg : OpenAPISourceConfig)
    (etag : string) (maxAttempts : Z)
    (Hhttp : isHTTP (oas_Source cfg) = true) (Hreq : NewRequest (oas_Source cfg) = None)
    (Hdone : forall n, net_Done net n = None) :
  let req := {| rq_URL := oas_Source cfg;
                rq_Headers := conditionalHeaders (ExpandEnv (oas_AuthHeader cfg)) etag |} in
  let n := Z.to_nat (Z.max 1 maxAttempts) in
  (forall k resp, (k < n)%nat -> (forall j, (j < k)%nat -> inconclusive (net_Do net j req) = true) ->
     net_Do net k req = Ok resp -> inconclusive (Ok resp) = false ->
     FetchSpecConditional net cfg etag maxAttempts = conclude (oas_Source cfg) resp) /\
  ((forall j, (j < n)%nat -> inconclusive (net_Do net j req) = true) ->
     FetchSpecConditional net cfg etag maxAttempts =
       Err (attemptError (oas_Source cfg) (net_Do net (n - 1) req))).
Proof.
  intros req n. unfold FetchSpecConditional. rewrite Hhttp. cbn [negb].
  replace (if maxAttempts <=? 0 then 1 else maxAttempts) with (Z.max 1 maxAttempts)
    by (destruct (Z.leb_spec maxAttempts 0); lia).
  fold n. split.
  - intros k resp Hk Hj Hr Hc.
    by apply (fetchAttempts_conclude net (oas_Source cfg) _ _ Hreq Hdone n 0 _ k resp).
  - intros Hj. rewrite (fetchAttempts_exhausted net (oas_Source cfg) _ _ Hreq Hdone n 0) by done.
    assert (0 < n)%nat by (subst n; lia). destruct n as [|m]; [lia|].
    do 3 f_equal. lia.
Qed.

(** ** Sample libraries: the text of a specification is its only content *)
Module SampleLibs.
#[local] Instance libs : SpecLibs := {|
  ReadFile f := if decide (f = "spec.yaml") then Ok "spec" else Err "no such file";
  ExpandEnv s := s;
  NewRequest _ := None;
  yamlNode s := if decide (s = "") then Err "empty"
                else Ok (YNode 1 DocumentNode "" [YNode 2 MappingNode "" []]);
  parseURL := Ok;
  filepathAbs f := Ok ("/" +:+ f);
  LoadFromDataWithPath _ _ s _ :=
    if decide (s = "broken") then Err "invalid"
    else Ok {| doc_Paths := SampleDoc.paths; doc_Heap := SampleDoc.heap |};
  ValidateDocument _ := None;
  NewRouter _ := Ok 7%positive;
  Overlay := string;
  decodeOverlay := Ok;
  validateOverlay _ := None;
  applyToStrict _ n := Ok n;
  yamlMarshal _ := Ok "merged" |}.
Definition respond (status : Z) (etag body : string) : result string HttpResponse :=
  Ok {| rs_StatusCode := status; rs_ETag := etag; rs_Body := Ok body |}.
Definition network (outs : list (result string HttpResponse)) : Network :=
  {| net_Do n _ := default (Err "connection refused") (outs !! n); net_Done _ := None |}.
Definition source : OpenAPISourceConfig :=
  {| oas_Source := "https://api.example.com/openapi.json"; oas_AuthHeader := "";
     oas_RefreshInterval := 60; oas_MaxRefreshFailures := 2; oas_AllowExternalRefs := false;
     oas_Version := "" |}.
End SampleLibs.

Lemma FetchSpecConditional_retries_witness :
  let net := SampleLibs.network [Err "refused"; SampleLibs.respond 503 "" "";
               SampleLibs.respond 200 "v1" "spec"] in
  @FetchSpecConditional SampleLibs.libs net SampleLibs.source "" 5 = Ok (fetched_data "spec" "v1") /\
  @FetchSpecConditional SampleLibs.libs net SampleLibs.source "" 2
    = Err (UnexpectedStatus "https://api.example.com/openapi.json" 503).
Proof.
  intros net.
  split.
  - destruct (@FetchSpecConditional_retries SampleLibs.libs net SampleLibs.source "" 5) as [Hc _];
      [reflexivity|reflexivity|done|].
    rewrite (Hc 2%nat {| rs_StatusCode := 200; rs_ETag := "v1"; rs_Body := Ok "spec" |});
      [done|vm_compute; lia| |done|done].
    intros [|[|j]] Hj; [done|done|lia].
  - destruct (@FetchSpecConditional_retries SampleLibs.libs net SampleLibs.source "" 2) as [_ He];
      [reflexivity|reflexivity|done|].
    rewrite He; [done|]. intros [|[|j]] Hj; [done|done|]. vm_compute in Hj. lia.
Defined.
