(* ===== verification/Validator.v ===== *)
(** * Tool validation (pkg/openapi: request_jq.go, validator.go)

    The jq expression generated for an operation's requests, and the validation
    of an upstream's tools when it is built: compiling the three expressions and
    trying them on synthetic instances.  The printability table of the Unicode
    package is a parameter; log output is left out. *)
From S2P Require Export Transform Synthetic Loader.
Open Scope Z_scope.

(** ** Generated request expressions *)

(** [unicode.IsPrint] beyond ASCII *)
Class Unicode := { IsPrint : N -> bool }.

Section Jq.
Context `{Unicode}.

Definition isJqIdentifier (s : string) : bool :=
  match explode s with
  | [] => false
  | c :: cs => (is_alpha c || is_underscore c) && forallb (fun c => is_alnum c || is_underscore c) cs
  end.

Definition hex_digits (width : nat) (n : N) : list ascii :=
  (fun i => hex_digit (N.shiftr n (4 * N.of_nat i) mod 16)%N) <$> reverse (seq 0 width).

Definition quoteRune (p : N * list ascii) : list ascii :=
  let '(r, bs) := p in
  match bs with
  | [b] =>
    if (128 <=? of_byte b)%N then backslash :: "x"%char :: hex_digits 2 (of_byte b)
    else if bool_decide (b = dquote) || bool_decide (b = backslash) then [backslash; b]
    else if (32 <=? r)%N && (r <=? 126)%N then [b]
    else if (r =? 7)%N then [backslash; "a"%char]
    else if (r =? 8)%N then [backslash; "b"%char]
    else if (r =? 12)%N then [backslash; "f"%char]
    else if (r =? 10)%N then [backslash; "n"%char]
    else if (r =? 13)%N then [backslash; "r"%char]
    else if (r =? 9)%N then [backslash; "t"%char]
    else if (r =? 11)%N then [backslash; "v"%char]
    else backslash :: "x"%char :: hex_digits 2 r
  | _ =>
    if IsPrint r then bs
    else if (r <? 65536)%N then backslash :: "u"%char :: hex_digits 4 r
    else backslash :: "U"%char :: hex_digits 8 r
  end.

(** [fmt.Sprintf("%q", s)] *)
Definition Quote (s : string) : string :=
  String dquote (implode (decode (explode s) ≫= quoteRune) +:+ String dquote "").

Definition jqKey (name : string) : string := if isJqIdentifier name then name else Quote name.

(** [.["name"]], the name pasted as it is *)
Definition jqAccess (name : string) : string :=
  if isJqIdentifier name then "." +:+ name
  else ".[" +:+ String dquote (name +:+ String dquote "]").

Definition ParamsIn (location : string) (op : Operation) : list Param :=
  omap (fun ref => p ← ref; if decide (par_In p = location) then Some p else None)
    (op_Parameters op).

Section Entries.
Context (h : Heap) (argMap : option ArgMapping).

(** [resolve(location, name)] *)
Definition resolve (location name : string) : string :=
  match argMap with
  | Some m => ArgName m location name
  | None => name
  end.

Definition pathEntry (p : Param) : string :=
  jqKey (par_Name p) +:+ ": (" +:+ jqAccess (resolve "path" (par_Name p)) +:+ " | tostring)".

Definition queryEntry (p : Param) : string :=
  let access := jqAccess (resolve "query" (par_Name p)) in
  let schemaType := paramSchemaType h p in
  let isNumeric := bool_decide (schemaType = "integer") || bool_decide (schemaType = "number") in
  if isNumeric then
    if par_Required p then jqKey (par_Name p) +:+ ": (" +:+ access +:+ " | tostring)"
    else jqKey (par_Name p) +:+ ": (if " +:+ access +:+ " != null then (" +:+ access
           +:+ " | tostring) else null end)"
  else jqKey (par_Name p) +:+ ": " +:+ access.

Definition plainEntry (location name : string) : string :=
  jqKey name +:+ ": " +:+ jqAccess (resolve location name).

Definition section (name : string) (entries : list string) : list string :=
  match entries with
  | [] => []
  | _ => [name +:+ ": {" +:+ Join entries ", " +:+ "}"]
  end.

Definition GenerateRequestJq (op : Operation) : string :=
  match extString op "x-mcp-request-transform" with
  | Some (String _ _ as s) => s
  | _ =>
    let sections :=
      section "path" (pathEntry <$> ParamsIn "path" op) ++
      section "query" (queryEntry <$> ParamsIn "query" op) ++
      section "body" ((fun prop => plainEntry "body" prop.1) <$> bodyProperties h op) ++
      section "headers" ((fun p => plainEntry "header" (par_Name p)) <$> ParamsIn "header" op) in
    match sections with
    | [] => "{}"
    | _ => "{" +:+ Join sections ", " +:+ "}"
    end
  end.
End Entries.
End Jq.

(** ** Validation of one tool *)

(** [x-mcp-response-transform] and [x-mcp-error-transform], with their defaults *)
Definition transformExpr (op : Operation) (key deflt : string) : string :=
  match extString op key with
  | Some (String _ _ as s) => s
  | _ => deflt
  end.

(** The schema of a response, and of the first of the error responses. *)
Definition responseSchema (op : Operation) (code : string) : option handle :=
  responses ← op_Responses op; body ← responses !! code; jsonSchema body.

Definition extract200Schema (op : Operation) : option handle := responseSchema op "200".

Fixpoint firstSchema (op : Operation) (codes : list string) : option handle :=
  match codes with
  | [] => None
  | code :: rest =>
    match responseSchema op code with
    | Some s => Some s
    | None => firstSchema op rest
    end
  end.
Definition extractErrorSchema (op : Operation) : option handle :=
  firstSchema op ["422"; "400"; "500"].

Definition toStringAnyMap (v : value) : args :=
  match v with VObject m => m | _ => [] end.

(** [schema.Properties[k] = ref] *)
Fixpoint setProperty (k : string) (ref : option SchemaRef) (props : list (string * option SchemaRef))
    : list (string * option SchemaRef) :=
  match props with
  | [] => [(k, ref)]
  | (k', r') :: rest =>
    if decide (k = k') then (k, ref) :: rest else (k', r') :: setProperty k ref rest
  end.

Definition set_Properties (s : Schema) (props : list (string * option SchemaRef))
    (required : list string) : Schema :=
  {| sch_Type := sch_Type s; sch_Description := sch_Description s; sch_Format := sch_Format s;
     sch_Pattern := sch_Pattern s; sch_Min := sch_Min s; sch_Max := sch_Max s;
     sch_MinLength := sch_MinLength s; sch_MaxLength := sch_MaxLength s; sch_Enum := sch_Enum s;
     sch_Required := required; sch_Properties := props; sch_MinItems := sch_MinItems s;
     sch_Items := sch_Items s; sch_OneOf := sch_OneOf s; sch_AnyOf := sch_AnyOf s;
     sch_AllOf := sch_AllOf s; sch_Example := sch_Example s; sch_Default := sch_Default s;
     sch_Extensions := sch_Extensions s |}.
Definition typed_Schema (t : string) : Schema :=
  {| sch_Type := Some [t]; sch_Description := ""; sch_Format := ""; sch_Pattern := "";
     sch_Min := None; sch_Max := None; sch_MinLength := 0; sch_MaxLength := None; sch_Enum := [];
     sch_Required := []; sch_Properties := []; sch_MinItems := 0; sch_Items := None;
     sch_OneOf := []; sch_AnyOf := []; sch_AllOf := []; sch_Example := VNull;
     sch_Default := VNull; sch_Extensions := ∅ |}.

Record ValidatedTool := {
  vt_GeneratedTool : GeneratedTool;
  vt_Transforms : handle;
  vt_Validator : option handle
}.

Inductive ValidateError :=
  | CompilationFailed (tool : string) (err : TransformError)
  | DryRunCancelled (err : string)
  | DryRunFailed (instances : nat) (tool : string) (err : TransformError)
  | SyntheticOutOfFuel
  | LoadingSpec (upstream : string) (err : LoadError)
  | GeneratingTools (upstream : string) (err : GenerateError)
  | ValidatingTool (tool : string) (err : ValidateError).

Section Validate.
Context `{Gojq, Numbers, Faker, Unicode}.
Context (range_order : list string -> list string).
(** the address compiled transforms are stored at *)
Context (allocTransforms : CompiledTransforms -> handle).
(** [ctx.Err()] before the n-th dry run of a tool *)
Context (ctxErr : nat -> option string).

(** The flat input object of a tool.  It is stored at a fresh address [a], and
    the schema of a parameter without one at [b]. *)
Definition syntheticParam (argMap : ArgMapping) (b : handle)
    (acc : list (string * option SchemaRef) * list string) (ref : option Param) :=
  match ref with
  | None => acc
  | Some p =>
    let argName := ArgName argMap (par_In p) (par_Name p) in
    let schema := match par_Schema p with
                  | Some s => Some s
                  | None => Some {| sr_Value := Some b |}
                  end in
    (setProperty argName schema acc.1,
     if par_Required p || bool_decide (par_In p = "path") then acc.2 ++ [argName] else acc.2)
  end.

Definition syntheticProperty (argMap : ArgMapping) (required : gset string)
    (acc : list (string * option SchemaRef) * list string) (prop : string * option SchemaRef) :=
  let argName := ArgName argMap "body" prop.1 in
  (setProperty argName prop.2 acc.1,
   if decide (prop.1 ∈ required) then acc.2 ++ [argName] else acc.2).

Definition buildInputSchemaForSynthetic (h : Heap) (op : Operation) : Heap * handle :=
  let argMap := DeriveArgMapping h range_order op in
  let a := fresh (dom h) in
  let b := fresh ({[a]} ∪ dom h) in
  let acc := foldl (syntheticParam argMap b) ([], []) (op_Parameters op) in
  let '(props, required) :=
    foldl (syntheticProperty argMap (bodyRequired h op)) acc (bodyProperties h op) in
  (<[a := set_Properties (typed_Schema "object") props required]>
     (<[b := typed_Schema "string"]> h), a).

(** The loop of [dryRunRequest]: the failures, in order. *)
Fixpoint dryRuns (compiled : CompiledTransforms) (n : nat) (instances : list value)
    : result ValidateError (list TransformError) :=
  match instances with
  | [] => Ok []
  | inst :: rest =>
    match ctxErr n with
    | Some err => Err (DryRunCancelled err)
    | None =>
      failures ← dryRuns compiled (S n) rest;
      Ok match RunRequest compiled (toStringAnyMap inst) with
         | Err err => err :: failures
         | Ok _ => failures
         end
    end
  end.

Definition dryRunRequest (toolName : string) (compiled : CompiledTransforms)
    (instances : list value) : result ValidateError unit :=
  failures ← dryRuns compiled 0 instances;
  match failures with
  | first :: _ =>
    if decide (length failures = length instances) then
      Err (DryRunFailed (length instances) toolName first)
    else Ok tt
  | [] => Ok tt
  end.

(** The first failure of a transform on the instances, which ends the dry run. *)
Fixpoint firstFailure (run : value -> result TransformError value) (instances : list value)
    : option TransformError :=
  match instances with
  | [] => None
  | inst :: rest => match run inst with Err err => Some err | Ok _ => firstFailure run rest end
  end.

(** What [dryRunResponse] and [dryRunError] log, if anything; the outer [None] is a
    generator out of fuel. *)
Definition dryRunResponse (h : Heap) (compiled : CompiledTransforms) (op : Operation)
    : option (option TransformError) :=
  match extract200Schema op with
  | None => Some None
  | Some schema =>
    instances ← GenerateThreeInstances h (Some schema); Some (firstFailure (RunResponse compiled) instances)
  end.
Definition genericErr : value := VObject [("status", VInt 422); ("title", VString "Unprocessable Entity")].
Definition dryRunError (h : Heap) (compiled : CompiledTransforms) (op : Operation)
    : option (option TransformError) :=
  match extractErrorSchema op with
  | None => Some (firstFailure (RunError compiled) [genericErr])
  | Some schema =>
    instances ← GenerateThreeInstances h (Some schema); Some (firstFailure (RunError compiled) instances)
  end.

(** The dry runs of the response and the error transform change nothing but the
    log, so their warnings are not part of the outcome. *)
Definition ValidateTool (gt : GeneratedTool) (doc : Document)
    : result ValidateError ValidatedTool :=
  let op := gt_Operation gt in
  let h := doc_Heap doc in
  let argMap := DeriveArgMapping h range_order op in
  let reqExpr := GenerateRequestJq h (Some argMap) op in
  let respExpr := transformExpr op "x-mcp-response-transform" DefaultResponseExpr in
  let errExpr := transformExpr op "x-mcp-error-transform" DefaultErrorExpr in
  match Compile reqExpr respExpr errExpr with
  | Err err => Err (CompilationFailed (gt_PrefixedName gt) err)
  | Ok compiled =>
    let '(h', inputSchema) := buildInputSchemaForSynthetic h op in
    match GenerateThreeInstances h' (Some inputSchema) with
    | None => Err SyntheticOutOfFuel
    | Some instances =>
      _ ← dryRunRequest (gt_PrefixedName gt) compiled instances;
      let _warnings := (dryRunResponse h compiled op, dryRunError h compiled op) in
      Ok {| vt_GeneratedTool := gt; vt_Transforms := allocTransforms compiled;
            vt_Validator := None |}
    end
  end.

Definition set_OperationNode (gt : GeneratedTool) (node : option handle) : GeneratedTool :=
  {| gt_MCPTool := gt_MCPTool gt; gt_InputSchema := gt_InputSchema gt;
     gt_PrefixedName := gt_PrefixedName gt; gt_OriginalName := gt_OriginalName gt;
     gt_Method := gt_Method gt; gt_PathTemplate := gt_PathTemplate gt;
     gt_PathParams := gt_PathParams gt; gt_QueryParams := gt_QueryParams gt;
     gt_HeaderParams := gt_HeaderParams gt; gt_Operation := gt_Operation gt;
     gt_OperationNode := node; gt_UIConfig := gt_UIConfig gt |}.

Definition withOperationNode (root : Node) (gt : GeneratedTool) : GeneratedTool :=
  set_OperationNode gt
    (n_addr <$> FindOperationYAMLNode root (gt_PathTemplate gt) (ToLower (gt_Method gt))).

Definition set_Validator (vt : ValidatedTool) (v : handle) : ValidatedTool :=
  {| vt_GeneratedTool := vt_GeneratedTool vt; vt_Transforms := vt_Transforms vt;
     vt_Validator := Some v |}.

(** Validates the tools in turn; the first failure is the upstream's. *)
Fixpoint validateTools (doc : Document) (validator : handle) (tools : list GeneratedTool)
    : result ValidateError (list ValidatedTool) :=
  match tools with
  | [] => Ok []
  | gt :: rest =>
    match ValidateTool gt doc with
    | Err err => Err (ValidatingTool (gt_PrefixedName gt) err)
    | Ok vt => cons (set_Validator vt validator) <$> validateTools doc validator rest
    end
  end.

Definition ValidateUpstream `{SpecLibs} (net1 net2 : Network) (alloc : InputSchema -> handle)
    (upstreamCfg : UpstreamConfig) (namingCfg : NamingConfig)
    : result ValidateError (list ValidatedTool * Node) :=
  match LoadPipeline net1 net2 (uc_OpenAPI upstreamCfg) (uc_Overlay upstreamCfg) with
  | Err err => Err (LoadingSpec (uc_Name upstreamCfg) err)
  | Ok (doc, router, specYAMLRoot) =>
    match GenerateTools (doc_Heap doc) range_order alloc upstreamCfg namingCfg (doc_Paths doc) with
    | Err err => Err (GeneratingTools (uc_Name upstreamCfg) err)
    | Ok tools =>
      validated ← validateTools doc router (withOperationNode specYAMLRoot <$> tools);
      Ok (validated, specYAMLRoot)
    end
  end.
End Validate.

(** ** Outcome of a tool's validation *)
Section Outcome.
Context `{Gojq, Numbers, Faker, Unicode}.
Context (ctxErr : nat -> option string) (Hctx : forall n, ctxErr n = None).

Definition runs (compiled : CompiledTransforms) (inst : value) : Prop :=
  exists env, RunRequest compiled (toStringAnyMap inst) = Ok env.

Lemma dryRuns_failures compiled n instances :
  exists failures, dryRuns ctxErr compiled n instances = Ok failures /\
    (length failures <= length instances)%nat /\
    (length failures < length instances <-> exists inst, inst ∈ instances /\ runs compiled inst)%nat.
Proof.
  revert n. induction instances as [|inst instances IH]; intros n; cbn.
  - exists []. split_and!; [done|done|]. split; [lia|]. by intros (? & ?%not_elem_of_nil & _).
  - rewrite Hctx. destruct (IH (S n)) as (failures & Hf & Hle & Hlt). rewrite Hf. cbn.
    destruct (RunRequest compiled (toStringAnyMap inst)) as [env|err] eqn:E; eexists;
      (split; [done|]); cbn.
    + split; [lia|]. split; [|lia]. intros _. exists inst. split; [by left|by exists env].
    + split; [lia|]. rewrite <-Nat.succ_lt_mono, Hlt. setoid_rewrite elem_of_cons. split.
      * intros (i & ? & ?). eauto.
      * intros (i & [->|?] & [env Hr]); [congruence|]. exists i. split; [done|by exists env].
Qed.

Lemma dryRunRequest_spec tool compiled instances :
  instances <> [] ->
  (dryRunRequest ctxErr tool compiled instances = Ok tt <->
     exists inst, inst ∈ instances /\ runs compiled inst).
Proof.
  intros Hne. unfold dryRunRequest.
  destruct (dryRuns_failures compiled 0 instances) as (failures & -> & Hle & <-). cbn.
  destruct failures as [|err failures]; cbn.
  - split; [|done]. intros _. destruct instances; [done|]. cbn. lia.
  - case_decide as Hl; cbn in *; split; intros Hx; try done; lia.
Qed.
End Outcome.

(** Validation of a tool. It fails when one of the three expressions does
    not compile. Otherwise synthetic instances always exist, at least two of
    them, and (if the context is not cancelled meanwhile) the tool is accepted
    exactly when its request transform succeeds on at least one instance. *)
Theorem ValidateTool_spec `{Gojq, Numbers, Faker, Unicode} range_order allocTransforms ctxErr
    (gt : GeneratedTool) (doc : Document) (Hctx : forall n, ctxErr n = None) :
  let op := gt_Operation gt in
  let outcome := ValidateTool range_order allocTransforms ctxErr gt doc in
  match Compile (GenerateRequestJq (doc_Heap doc)
                   (Some (DeriveArgMapping (doc_Heap doc) range_order op)) op)
          (transformExpr op "x-mcp-response-transform" DefaultResponseExpr)
          (transformExpr op "x-mcp-error-transform" DefaultErrorExpr) with
  | Err err => outcome = Err (CompilationFailed (gt_PrefixedName gt) err)
  | Ok compiled => exists instances,
      (let '(h', schema) := buildInputSchemaForSynthetic range_order (doc_Heap doc) op in
       GenerateThreeInstances h' (Some schema) = Some instances) /\
      (2 <= length instances)%nat /\
      (is_ok outcome = true <-> exists inst, inst ∈ instances /\ runs compiled inst)
  end.
Proof.
  intros op outcome. subst outcome. unfold ValidateTool. fold op.
  destruct (Compile _ _ _) as [compiled|err]; [|done].
  destruct (buildInputSchemaForSynthetic range_order (doc_Heap doc) op) as [h' schema].
  destruct (GenerateThreeInstances_total h' (Some schema)) as (instances & Hi & Hlen).
  rewrite Hi. exists instances. split_and!; [done|done|].
  rewrite <-(dryRunRequest_spec ctxErr Hctx (gt_PrefixedName gt)) by (intros ->; cbn in Hlen; lia).
  destruct (dryRunRequest _ _ _ _) as [[]|err]; by split.
Qed.

(** The dry runs that only warn always end, and warn exactly when the transform
    fails on one of the instances it is tried on. *)
Lemma firstFailure_spec run instances :
  is_Some (firstFailure run instances) <-> exists inst err, inst ∈ instances /\ run inst = Err err.
Proof.
  induction instances as [|inst rest IH]; cbn.
  - split; [by intros [? [=]]|]. by intros (? & ? & ?%not_elem_of_nil & _).
  - destruct (run inst) as [v|err] eqn:E; [rewrite IH|].
    + split; intros (i & err & Hi & Hr); exists i, err; [by split; [right|]|].
      apply elem_of_cons in Hi as [->|Hi]; [congruence|done].
    + split; [|by eexists]. intros _. exists inst, err. split; [by left|done].
Qed.

Lemma warnings_spec `{Gojq, Faker} (h : Heap) (compiled : CompiledTransforms) (op : Operation) :
  (exists w, dryRunResponse h compiled op = Some w /\
     (is_Some w <-> exists schema instances inst err, extract200Schema op = Some schema /\
        GenerateThreeInstances h (Some schema) = Some instances /\ inst ∈ instances /\
        RunResponse compiled inst = Err err)) /\
  exists w, dryRunError h compiled op = Some w /\
    (extractErrorSchema op = None -> is_Some w <-> exists err, RunError compiled genericErr = Err err) /\
    forall schema, extractErrorSchema op = Some schema -> is_Some w <-> exists instances inst err,
      GenerateThreeInstances h (Some schema) = Some instances /\ inst ∈ instances /\
      RunError compiled inst = Err err.
Proof.
  unfold dryRunResponse, dryRunError. split.
  - destruct (extract200Schema op) as [schema|].
    + destruct (GenerateThreeInstances_total h (Some schema)) as (instances & Hi & _). rewrite Hi. eexists.
      split; [done|]. rewrite firstFailure_spec. naive_solver.
    + exists None. split; [done|]. split; [by intros []|naive_solver].
  - destruct (extractErrorSchema op) as [schema|].
    + destruct (GenerateThreeInstances_total h (Some schema)) as (instances & Hi & _). rewrite Hi. eexists.
      split; [done|]. split; [done|]. intros s [= <-]. rewrite firstFailure_spec. naive_solver.
    + eexists. split; [done|]. split; [|done]. intros _. rewrite firstFailure_spec. set_solver.
Qed.

(** ** A sample validation *)
Module SampleValidation.
#[local] Instance unicode : Unicode := {| IsPrint _ := true |}.
Definition document : Document := {| doc_Paths := SampleDoc.paths; doc_Heap := SampleDoc.heap |}.
Definition store (_ : @CompiledTransforms SampleEngine.engine) : handle := 5%positive.
Definition tool : GeneratedTool :=
  {| gt_MCPTool := {| tool_Name := "p__putpet"; tool_Description := ""; tool_InputSchema := None;
                      tool_ResourceUri := None |};
     gt_InputSchema := {| is_Type := "object"; is_Properties := ∅; is_Required := [] |};
     gt_PrefixedName := "p__putpet"; gt_OriginalName := "putpet"; gt_Method := "PUT";
     gt_PathTemplate := "/pets/{id}"; gt_PathParams := ["id"]; gt_QueryParams := [];
     gt_HeaderParams := []; gt_Operation := SampleDoc.putPet; gt_OperationNode := None;
     gt_UIConfig := None |}.
Definition validate : result ValidateError ValidatedTool :=
  @ValidateTool SampleEngine.engine SampleEngine.numbers SampleSchemas.faker unicode
    reverse store (fun _ => None) tool document.
End SampleValidation.

Lemma ValidateTool_spec_witness :
  is_ok SampleValidation.validate = true /\
  exists instances inst, (2 <= length instances)%nat /\ inst ∈ instances /\
    @runs SampleEngine.engine SampleEngine.numbers SampleEngine.transforms inst.
Proof.
  assert (Hok : is_ok SampleValidation.validate = true) by (vm_compute; reflexivity).
  split; [exact Hok|].
  pose proof (@ValidateTool_spec SampleEngine.engine SampleEngine.numbers SampleSchemas.faker
    SampleValidation.unicode reverse SampleValidation.store (fun _ => None)
    SampleValidation.tool SampleValidation.document (fun _ => eq_refl)) as Hs.
  cbv zeta in Hs.
  destruct (Compile _ _ _) as [compiled|err];
    [|discriminate (eq_trans (eq_sym Hok) (f_equal is_ok Hs))].
  destruct Hs as (instances & _ & Hlen & Hiff).
  destruct (proj1 Hiff Hok) as (inst & Hin & env & Hrun).
  exists instances, inst. split; [exact Hlen|]. split; [exact Hin|].
  vm_compute. by eexists.
Defined.

(** The generated expression of the sample operation, whose [id] is renamed. *)
Example GenerateRequestJq_ex :
  @GenerateRequestJq SampleValidation.unicode SampleDoc.heap
    (Some (DeriveArgMapping SampleDoc.heap reverse SampleDoc.putPet)) SampleDoc.putPet =
  "{path: {id: (.id_path | tostring)}, body: {id: .id_body, note: .note}}".
Proof. vm_compute. reflexivity. Qed.
