(* ===== verification/Search.v ===== *)
(** * Semantic tool search (pkg/search/search.go)

    The index behind the [search_tools] tool.  The vector store (chromem-go) is
    a parameter: a collection of documents that a query ranks. *)
From S2P Require Export Json.
Open Scope Z_scope.

(** [InputSchema] is the text of the tool's schema. *)
Record ToolDef := {
  td_Name : string;
  td_Description : string;
  td_InputSchema : string
}.

Inductive SearchError :=
  | CreatingCollection (err : string)
  | IndexingTools (err : string)
  | QueryingIndex (err : string).

(** What the program uses of a chromem-go database. *)
Class VectorStore (Collection Embedding : Type) := {
  CreateCollection : Embedding -> result string Collection;
  AddDocuments : Collection -> list (string * string) -> result string Collection;
  Count : Collection -> Z;
  Query : Collection -> string -> Z -> result string (list string)
}.

(** A collection is a set of documents by id; a query of at most [Count] results
    answers with that many distinct documents of it at most. *)
Class VectorStoreLaws (Collection Embedding : Type) `{VectorStore Collection Embedding} := {
  documents : Collection -> gset string;
  Count_documents c : Count c = Z.of_nat (size (documents c));
  CreateCollection_documents e c : CreateCollection e = Ok c -> documents c = ∅;
  AddDocuments_documents c docs c' :
    AddDocuments c docs = Ok c' -> documents c' = documents c ∪ list_to_set docs.*1;
  Query_results c q n ids :
    Query c q n = Ok ids -> 0 < n <= Count c ->
    Z.of_nat (length ids) <= n /\ NoDup ids /\ forall id, id ∈ ids -> id ∈ documents c
}.

Section Search.
Context {Collection Embedding : Type} `{VectorStore Collection Embedding}.
(** [json.Marshal(tool.InputSchema)], [""] on an error *)
Context (MarshalSchema : option handle -> string).

Record Index := {
  ix_collection : Collection;
  ix_toolsByName : gmap string Tool
}.

Definition document (t : Tool) : string * string :=
  (tool_Name t,
   if bool_decide (tool_Description t = "") then tool_Name t
   else tool_Name t +:+ ": " +:+ tool_Description t).

Definition indexTools (tools : list Tool) : gmap string Tool :=
  foldl (fun m t => <[tool_Name t := t]> m) ∅ tools.

Definition Build (tools : list Tool) (embeddingFunc : Embedding) : result SearchError Index :=
  match CreateCollection embeddingFunc with
  | Err e => Err (CreatingCollection e)
  | Ok coll =>
    match tools with
    | [] => Ok {| ix_collection := coll; ix_toolsByName := indexTools [] |}
    | _ =>
      match AddDocuments coll (document <$> tools) with
      | Err e => Err (IndexingTools e)
      | Ok coll' => Ok {| ix_collection := coll'; ix_toolsByName := indexTools tools |}
      end
    end
  end.

Definition toolDef (t : Tool) : ToolDef :=
  {| td_Name := tool_Name t; td_Description := tool_Description t;
     td_InputSchema := MarshalSchema (tool_InputSchema t) |}.

Definition SearchIndex (idx : Index) (query : string) (limit : Z)
    : result SearchError (list ToolDef) :=
  let limit := if limit <=? 0 then 5 else limit in
  let count := Count (ix_collection idx) in
  if count =? 0 then Ok []
  else
    let limit := if count <? limit then count else limit in
    match Query (ix_collection idx) query limit with
    | Err e => Err (QueryingIndex e)
    | Ok results => Ok (omap (fun id => toolDef <$> (ix_toolsByName idx !! id)) results)
    end.

Lemma indexTools_lookup tools n t :
  indexTools tools !! n = Some t -> t ∈ tools /\ tool_Name t = n.
Proof.
  unfold indexTools. revert n t. induction tools as [|x tools IH] using rev_ind; [done|].
  intros n t. rewrite foldl_app. cbn. intros [[<- <-]|[_ Ht]]%lookup_insert_Some.
  - split; [apply elem_of_app; right; by left|done].
  - apply IH in Ht as [? ?]. split; [apply elem_of_app; by left|done].
Qed.

Lemma indexTools_covers tools t : t ∈ tools -> is_Some (indexTools tools !! tool_Name t).
Proof.
  unfold indexTools. induction tools as [|x tools IH] using rev_ind; [by intros ?%not_elem_of_nil|].
  rewrite foldl_app. cbn. intros [Ht|Ht]%elem_of_app.
  - destruct (decide (tool_Name x = tool_Name t)) as [->|Hne].
    + rewrite lookup_insert_eq. eauto.
    + rewrite lookup_insert_ne by done. auto.
  - apply list_elem_of_singleton in Ht as <-. rewrite lookup_insert_eq. eauto.
Qed.

Context `{!VectorStoreLaws Collection Embedding}.

Lemma Build_documents tools e idx :
  Build tools e = Ok idx ->
  documents (ix_collection idx) = list_to_set (tool_Name <$> tools) /\
  ix_toolsByName idx = indexTools tools.
Proof.
  unfold Build. destruct (CreateCollection e) as [c|] eqn:Ec; [|done].
  apply CreateCollection_documents in Ec.
  destruct tools as [|t tools]; [by intros [= <-]|].
  destruct (AddDocuments c _) as [c'|] eqn:Ea; [|done]. intros [= <-]. split; [|done].
  apply AddDocuments_documents in Ea. cbn [ix_collection]. rewrite Ea, Ec.
  rewrite <-list_fmap_compose. by rewrite (left_id_L ∅ (∪)).
Qed.

(** A search over the index of a list of tools answers with distinct
    tools of that list, at most the limit of them (5 when it is not
    positive), and never drops a result of the vector store. *)
Theorem SearchIndex_sound tools e idx query limit defs
    (Hbuild : Build tools e = Ok idx)
    (Hsearch : SearchIndex idx query limit = Ok defs) :
  Z.of_nat (length defs) <= (if limit <=? 0 then 5 else limit) /\
  NoDup (td_Name <$> defs) /\
  (forall d, d ∈ defs -> exists t, t ∈ tools /\ d = toolDef t) /\
  (defs <> [] -> exists ids, td_Name <$> defs = ids /\
     exists n, Query (ix_collection idx) query n = Ok ids).
Proof.
  destruct (Build_documents _ _ _ Hbuild) as [Hd Ht].
  unfold SearchIndex in Hsearch. set (lim := if limit <=? 0 then 5 else limit) in *.
  assert (Hlim : 0 < lim) by (unfold lim; destruct (Z.leb_spec limit 0); lia).
  pose proof (Count_documents (ix_collection idx)) as Hcount.
  destruct (Z.eqb_spec (Count (ix_collection idx)) 0) as [E|E].
  { injection Hsearch as <-. split_and!; [cbn; lia|constructor| |done].
    intros d Hin. by apply not_elem_of_nil in Hin. }
  set (n := if Count (ix_collection idx) <? lim then Count (ix_collection idx) else lim) in *.
  assert (Hn : 0 < n <= Count (ix_collection idx) /\ n <= lim).
  { unfold n. destruct (Z.ltb_spec (Count (ix_collection idx)) lim); lia. }
  destruct (Query _ query n) as [ids|] eqn:Eq; [|done]. injection Hsearch as <-.
  destruct (Query_results _ _ _ _ Eq ltac:(lia)) as (Hlen & Hnd & Hin).
  assert (Hnames : td_Name <$> omap (fun id => toolDef <$> (ix_toolsByName idx !! id)) ids = ids).
  { rewrite Ht. clear -Hin Hd. induction ids as [|id ids IH]; [done|]. cbn.
    assert (Hid : id ∈ documents (ix_collection idx)) by (apply Hin; by left).
    rewrite Hd, elem_of_list_to_set in Hid.
    apply list_elem_of_fmap in Hid as (t & -> & Hint).
    destruct (indexTools_covers _ _ Hint) as [t' Ht']. rewrite Ht'. cbn.
    apply indexTools_lookup in Ht' as [_ ->]. f_equal. apply IH. intros; apply Hin; by right. }
  split_and!.
  - rewrite <-(length_fmap td_Name), Hnames. lia.
  - by rewrite Hnames.
  - intros d. rewrite list_elem_of_omap. intros (id & Hid & Hd').
    rewrite Ht in Hd'. destruct (indexTools tools !! id) as [t|] eqn:El; [|done].
    cbn in Hd'. injection Hd' as <-. apply indexTools_lookup in El as [? ?]. eauto.
  - intros _. exists ids. split; [done|]. by exists n.
Qed.
End Search.
Arguments Index : clear implicits.

(** A store that answers with its documents in key order. *)
#[export] Instance set_store : VectorStore (gset string) unit := {
  CreateCollection _ := Ok ∅;
  AddDocuments c docs := Ok (c ∪ list_to_set docs.*1);
  Count c := Z.of_nat (size c);
  Query c _ n := Ok (take (Z.to_nat n) (elements c))
}.
#[export] Program Instance set_store_laws : VectorStoreLaws (gset string) unit := {
  documents c := c
}.
Next Obligation. done. Qed.
Next Obligation. by intros e c [= <-]. Qed.
Next Obligation. by intros c docs c' [= <-]. Qed.
Next Obligation.
  cbn. intros c q n ids [= <-] Hn.
  assert (Hsplit : elements c = take (Z.to_nat n) (elements c) ++ drop (Z.to_nat n) (elements c))
    by by rewrite take_drop.
  split_and!.
  - rewrite length_take. lia.
  - pose proof (NoDup_elements c) as Hnd. rewrite Hsplit in Hnd.
    by apply NoDup_app in Hnd as [? _].
  - intros id Hin. apply elem_of_elements. rewrite Hsplit. apply elem_of_app. by left.
Qed.

(** The tools of the sample index. *)
Definition sampleTool (name : string) : Tool :=
  {| tool_Name := name; tool_Description := ""; tool_InputSchema := None;
     tool_ResourceUri := None |}.

Lemma SearchIndex_sound_witness :
  NoDup (td_Name <$> [toolDef (fun _ => "{}") (sampleTool "a")]).
Proof.
  assert (Hb : Build [sampleTool "a"; sampleTool "b"] tt =
    Ok {| ix_collection := ({["a"; "b"]} : gset string);
          ix_toolsByName := indexTools [sampleTool "a"; sampleTool "b"] |})
    by (vm_compute; reflexivity).
  refine (proj1 (proj2 (SearchIndex_sound (fun _ => "{}") _ tt _ "first" 1 _ Hb _))).
  vm_compute. reflexivity.
Defined.
