(* ===== verification/Embedding.v ===== *)
(** * Embedding providers (pkg/embedding: embedding.go, hugot/hugot.go)

    The registry [tool_search] takes its embedding function from.  The functions
    themselves are chromem-go's and hugot's; what the program decides is which
    constructor is called and with what, so an embedding function is the call that
    made it. *)
From S2P Require Export Config Registries.
Open Scope Z_scope.

(** The chromem-go constructors, with the arguments they are called with, and the
    pipeline of an ONNX model. *)
Inductive EmbeddingFunc :=
  | FuncOpenAI (apiKey model : string)
  | FuncOpenAICompat (baseURL apiKey model : string)
  | FuncOllama (model baseURL : string)
  | FuncCohere (apiKey model : string)
  | FuncMistral (apiKey : string)
  | FuncJina (apiKey model : string)
  | FuncMixedbread (apiKey model : string)
  | FuncVertex (apiKey project model : string)
  | FuncAzureOpenAI (apiKey deploymentURL apiVersion model : string)
  | FuncLocalAI (model : string)
  | FuncHugot (pipeline : handle).

Inductive EmbeddingError :=
  | UnknownProvider (provider : string)
  | ConfigRequired (section provider : string)
  | UnknownBuiltin (provider : string)
  | ModelPathRequired
  | CreatingSession (err : string)
  | CreatingPipeline (err : string).

(** hugot: a session of the pure-Go backend and pipelines in it. *)
Class HugotLib (W : Type) := {
  NewGoSession : W -> result string handle * W;
  NewPipeline : handle -> string -> string -> string -> W -> result string handle * W;
  DestroySession : handle -> W -> W;
  (** [RunPipeline] on one text: the embeddings it returns *)
  RunPipeline : handle -> string -> W -> result string (list (list Z)) * W
}.

Section Embedding.
Context {W : Type} `{HugotLib W}.
(** [os.ExpandEnv] *)
Context (ExpandEnv : string -> string).

Definition expandEnv (s : string) : string := ExpandEnv s.

Definition required {T} (section provider : string) (cfg : option T) (f : T -> EmbeddingFunc)
    : result EmbeddingError EmbeddingFunc :=
  match cfg with
  | None => Err (ConfigRequired section provider)
  | Some c => Ok (f c)
  end.

Definition newBuiltinEmbeddingFunc (cfg : EmbeddingConfig) : result EmbeddingError EmbeddingFunc :=
  let p := emb_Provider cfg in
  if bool_decide (p = "openai") then
    required "openai" p (emb_OpenAI cfg) (fun c => FuncOpenAI (expandEnv (oai_APIKey c)) (oai_Model c))
  else if bool_decide (p = "openai_compat") then
    required "openai_compat" p (emb_OpenAICompat cfg)
      (fun c => FuncOpenAICompat (oac_BaseURL c) (expandEnv (oac_APIKey c)) (oac_Model c))
  else if bool_decide (p = "ollama") then
    required "ollama" p (emb_Ollama cfg) (fun c => FuncOllama (oll_Model c) (oll_BaseURL c))
  else if bool_decide (p = "cohere") then
    required "cohere" p (emb_Cohere cfg) (fun c => FuncCohere (expandEnv (coh_APIKey c)) (coh_Model c))
  else if bool_decide (p = "mistral") then
    required "mistral" p (emb_Mistral cfg) (fun c => FuncMistral (expandEnv (mis_APIKey c)))
  else if bool_decide (p = "jina") then
    required "jina" p (emb_Jina cfg) (fun c => FuncJina (expandEnv (jin_APIKey c)) (jin_Model c))
  else if bool_decide (p = "mixedbread") then
    required "mixedbread" p (emb_Mixedbread cfg)
      (fun c => FuncMixedbread (expandEnv (mix_APIKey c)) (mix_Model c))
  else if bool_decide (p = "vertex") then
    required "vertex" p (emb_Vertex cfg)
      (fun c => FuncVertex (expandEnv (vtx_APIKey c)) (vtx_Project c) (vtx_Model c))
  else if bool_decide (p = "azure_openai") then
    required "azure_openai" p (emb_AzureOpenAI cfg)
      (fun c => FuncAzureOpenAI (expandEnv (azr_APIKey c)) (azr_DeploymentURL c) (azr_APIVersion c) (azr_Model c))
  else if bool_decide (p = "localai") then
    Ok (FuncLocalAI (match emb_OpenAICompat cfg with Some c => oac_Model c | None => "" end))
  else Err (UnknownBuiltin p).

(** *** hugot *)
Definition newHugotEmbeddingFunc (cfg : HugotEmbedConfig) (w : W) : result EmbeddingError EmbeddingFunc * W :=
  if bool_decide (hug_ModelPath cfg = "") then (Err ModelPathRequired, w)
  else
    match NewGoSession w with
    | (Err err, w) => (Err (CreatingSession err), w)
    | (Ok session, w) =>
      let onnxFilename := if bool_decide (hug_OnnxFilename cfg = "") then "model.onnx" else hug_OnnxFilename cfg in
      match NewPipeline session (hug_ModelPath cfg) "mcp-auto-embedding" onnxFilename w with
      | (Err err, w) => (Err (CreatingPipeline err), DestroySession session w)
      | (Ok pipeline, w) => (Ok (FuncHugot pipeline), w)
      end
    end.

(** The closure it returns: the first embedding of the text. *)
Definition hugotEmbed (pipeline : handle) (text : string) (w : W) : result string (list Z) * W :=
  match RunPipeline pipeline text w with
  | (Err err, w) => (Err ("hugot: running pipeline: " +:+ err), w)
  | (Ok [], w) => (Err "hugot: no embeddings returned", w)
  | (Ok (e :: _), w) => (Ok e, w)
  end.

(** *** The registry *)
Definition ProviderFactory : Type := EmbeddingConfig -> W -> result EmbeddingError EmbeddingFunc * W.

(** [embedding.Register] *)
Definition Register (reg : Generic.Registry ProviderFactory) (provider : string) (factory : ProviderFactory) :=
  Generic.Register reg provider factory.

Definition New (reg : Generic.Registry ProviderFactory) (cfg : EmbeddingConfig) (w : W)
    : result EmbeddingError EmbeddingFunc * W :=
  match Generic.Get reg (emb_Provider cfg) with
  | None => (Err (UnknownProvider (emb_Provider cfg)), w)
  | Some f => f cfg w
  end.

Definition builtinProviders : list string :=
  ["openai"; "openai_compat"; "ollama"; "cohere"; "mistral"; "jina"; "mixedbread"; "vertex"; "azure_openai";
   "localai"].

(** [init] of the package *)
Definition init_builtin (reg : Generic.Registry ProviderFactory) : Generic.Registry ProviderFactory :=
  foldl (fun reg p => Register reg p (fun cfg w => (newBuiltinEmbeddingFunc cfg, w))) reg builtinProviders.

(** [init] of package hugot *)
Definition init_hugot (reg : Generic.Registry ProviderFactory) : Generic.Registry ProviderFactory :=
  Register reg "hugot" (fun cfg w =>
    match emb_Hugot cfg with
    | None => (Err (ConfigRequired "hugot" "hugot"), w)
    | Some c => newHugotEmbeddingFunc c w
    end).

(** pkg/embedding/all: a package is initialised before those that import it. *)
Definition all : Generic.Registry ProviderFactory := init_hugot (init_builtin Generic.zero).

(** ** Facts *)

(** A configuration with another [openai_compat] section. *)
Definition with_compat (cfg : EmbeddingConfig) (c : OpenAICompatEmbedConfig) : EmbeddingConfig := {|
  emb_Provider := emb_Provider cfg; emb_OpenAI := emb_OpenAI cfg; emb_OpenAICompat := Some c;
  emb_Ollama := emb_Ollama cfg; emb_Cohere := emb_Cohere cfg; emb_Mistral := emb_Mistral cfg;
  emb_Jina := emb_Jina cfg; emb_Mixedbread := emb_Mixedbread cfg; emb_Vertex := emb_Vertex cfg;
  emb_AzureOpenAI := emb_AzureOpenAI cfg; emb_Hugot := emb_Hugot cfg |}.

(** The section of the configuration a provider reads. *)
Definition sectionGiven (cfg : EmbeddingConfig) : bool :=
  let p := emb_Provider cfg in
  let named q := bool_decide (p = q) in
  implb (named "openai") (bool_decide (is_Some (emb_OpenAI cfg))) &&
  implb (named "openai_compat") (bool_decide (is_Some (emb_OpenAICompat cfg))) &&
  implb (named "ollama") (bool_decide (is_Some (emb_Ollama cfg))) &&
  implb (named "cohere") (bool_decide (is_Some (emb_Cohere cfg))) &&
  implb (named "mistral") (bool_decide (is_Some (emb_Mistral cfg))) &&
  implb (named "jina") (bool_decide (is_Some (emb_Jina cfg))) &&
  implb (named "mixedbread") (bool_decide (is_Some (emb_Mixedbread cfg))) &&
  implb (named "vertex") (bool_decide (is_Some (emb_Vertex cfg))) &&
  implb (named "azure_openai") (bool_decide (is_Some (emb_AzureOpenAI cfg))).

(** Decides the comparisons of literal names. *)
Ltac decide_names :=
  cbn beta iota zeta;
  repeat match goal with |- context [bool_decide (?a = ?b :> string)] =>
    let v := eval vm_compute in (bool_decide (a = b)) in change (bool_decide (a = b)) with v
  end; cbn [implb andb is_ok].

Lemma Get_Register reg k v p :
  Generic.Get (Register reg k v) p = if bool_decide (p = k) then Some v else Generic.Get reg p.
Proof.
  unfold Generic.Get, Register, Generic.Register. cbn. case_bool_decide as Hp.
  - subst. apply lookup_insert_eq.
  - by apply lookup_insert_ne.
Qed.

Lemma Get_all p : Generic.Get all p =
  if bool_decide (p = "hugot") then Some (fun cfg w =>
    match emb_Hugot cfg with
    | None => (Err (ConfigRequired "hugot" "hugot"), w)
    | Some c => newHugotEmbeddingFunc c w
    end)
  else if bool_decide (p ∈ builtinProviders) then Some (fun cfg w => (newBuiltinEmbeddingFunc cfg, w))
  else None.
Proof.
  unfold all, init_hugot. rewrite Get_Register. case_bool_decide as Hh; [done|].
  unfold init_builtin, builtinProviders. cbn [foldl]. rewrite !Get_Register.
  repeat (case_bool_decide; [subst; by rewrite bool_decide_true by set_solver|]).
  rewrite bool_decide_false; [done|]. unfold builtinProviders. rewrite !not_elem_of_cons. 
  split_and!; [done..|apply not_elem_of_nil].
Qed.

Lemma required_ok {T} sec p (cfg : option T) f : is_ok (required sec p cfg f) = bool_decide (is_Some cfg).
Proof. destruct cfg; [by rewrite bool_decide_true|]. rewrite bool_decide_false; [done|]. by intros [? [=]]. Qed.

(** With every provider registered, [embedding.New] answers a built-in provider
    with an embedding function exactly when the section it reads is configured,
    touches nothing else, and refuses a name that is not registered.  The
    dispatcher's own default case is never reached. *)
Theorem New_builtin_outcome cfg w (Hnot : emb_Provider cfg <> "hugot") :
  (New all cfg w).2 = w /\
  (is_ok (New all cfg w).1 = bool_decide (emb_Provider cfg ∈ builtinProviders) && sectionGiven cfg) /\
  (emb_Provider cfg ∉ builtinProviders -> New all cfg w = (Err (UnknownProvider (emb_Provider cfg)), w)) /\
  (New all cfg w).1 <> Err (UnknownBuiltin (emb_Provider cfg)).
Proof.
  unfold New. rewrite Get_all, (bool_decide_false (_ = "hugot")) by done.
  case_bool_decide as Hp; [|done]. cbn [fst snd]. split_and!; [done| |done|].
  - unfold newBuiltinEmbeddingFunc, sectionGiven. unfold builtinProviders in Hp. rewrite !elem_of_cons in Hp.
    do 10 (destruct Hp as [->|Hp]; [decide_names; rewrite ?andb_true_r; (apply required_ok || reflexivity)|]).
    by apply not_elem_of_nil in Hp.
  - unfold newBuiltinEmbeddingFunc. unfold builtinProviders in Hp. rewrite !elem_of_cons in Hp.
    do 10 (destruct Hp as [->|Hp]; [decide_names; unfold required; first [done|by case_match]|]).
    by apply not_elem_of_nil in Hp.
Qed.

(** A hugot pipeline that cannot be made leaves no session open; one that is made
    keeps the session it runs in. *)
Theorem hugot_session_released cfg w session w1 (Hpath : hug_ModelPath cfg <> "")
    (Hsession : NewGoSession w = (Ok session, w1)) :
  let file := if bool_decide (hug_OnnxFilename cfg = "") then "model.onnx" else hug_OnnxFilename cfg in
  match NewPipeline session (hug_ModelPath cfg) "mcp-auto-embedding" file w1 with
  | (Ok p, w2) => newHugotEmbeddingFunc cfg w = (Ok (FuncHugot p), w2)
  | (Err e, w2) => newHugotEmbeddingFunc cfg w = (Err (CreatingPipeline e), DestroySession session w2)
  end.
Proof.
  cbn zeta. unfold newHugotEmbeddingFunc.
  rewrite (bool_decide_false (hug_ModelPath cfg = "")), Hsession by done.
  by destruct (NewPipeline _ _ _ _ _) as [[p|e] w2].
Qed.

(** The [localai] provider takes its model from [openai_compat] and nothing else:
    two configurations that differ in the server's URL or key make the same
    function, although the configuration says the URL is read. *)
Theorem localai_ignores_base_url cfg c1 c2 w
    (Hlocal : emb_Provider cfg = "localai") (Hmodel : oac_Model c1 = oac_Model c2) :
  New all (with_compat cfg c1) w = New all (with_compat cfg c2) w /\
  New all (with_compat cfg c1) w = (Ok (FuncLocalAI (oac_Model c1)), w).
Proof.
  unfold New. rewrite !Get_all. cbn [emb_Provider with_compat]. rewrite Hlocal. decide_names.
  rewrite !bool_decide_true by set_solver. unfold newBuiltinEmbeddingFunc. cbn [emb_Provider with_compat].
  rewrite Hlocal. decide_names. cbn. by rewrite Hmodel.
Qed.
End Embedding.

(** ** A sample *)
Module SampleEmbedding.
(** The world counts the sessions that are open; a model named bad does not load. *)
#[local] Instance hugot : HugotLib Z := {|
  NewGoSession n := (Ok 1%positive, n + 1);
  NewPipeline _ path _ _ n := if bool_decide (path = "bad") then (Err "no such model", n) else (Ok 2%positive, n);
  DestroySession _ n := n - 1;
  RunPipeline _ _ n := (Ok [[1; 2]], n) |}.

Definition with_provider (p : string) : EmbeddingConfig := {|
  emb_Provider := p; emb_OpenAI := Some {| oai_APIKey := "$KEY"; oai_Model := "small" |};
  emb_OpenAICompat := None; emb_Ollama := None; emb_Cohere := None; emb_Mistral := None; emb_Jina := None;
  emb_Mixedbread := None; emb_Vertex := None; emb_AzureOpenAI := None; emb_Hugot := None |}.
Definition expand (s : string) : string := if bool_decide (s = "$KEY") then "secret" else s.
End SampleEmbedding.

Section EmbeddingWitnesses.
#[local] Existing Instance SampleEmbedding.hugot.

Lemma New_builtin_outcome_witness :
  New (all SampleEmbedding.expand) (SampleEmbedding.with_provider "openai") 0 = (Ok (FuncOpenAI "secret" "small"), 0) /\
  is_ok (New (all SampleEmbedding.expand) (SampleEmbedding.with_provider "openai") 0).1 = true /\
  is_ok (New (all SampleEmbedding.expand) (SampleEmbedding.with_provider "cohere") 0).1 = false.
Proof.
  split; [reflexivity|].
  split; [rewrite (proj1 (proj2 (New_builtin_outcome SampleEmbedding.expand (SampleEmbedding.with_provider "openai") 0 ltac:(done))))
         |rewrite (proj1 (proj2 (New_builtin_outcome SampleEmbedding.expand (SampleEmbedding.with_provider "cohere") 0 ltac:(done))))];
    reflexivity.
Defined.

Lemma hugot_session_released_witness :
  newHugotEmbeddingFunc {| hug_ModelPath := "bad"; hug_OnnxFilename := "" |} 0 = (Err (CreatingPipeline "no such model"), 0).
Proof.
  assert (Hs : NewGoSession 0 = (Ok 1%positive, 1)) by reflexivity.
  exact (hugot_session_released {| hug_ModelPath := "bad"; hug_OnnxFilename := "" |} 0 1%positive 1 ltac:(done) Hs).
Defined.

Lemma localai_ignores_base_url_witness :
  let c url := {| oac_BaseURL := url; oac_APIKey := ""; oac_Model := "bert" |} in
  let cfg url := with_compat (SampleEmbedding.with_provider "localai") (c url) in
  c "http://a:1/v1" <> c "http://b:2/v1" /\
  New (all SampleEmbedding.expand) (cfg "http://a:1/v1") 0 = New (all SampleEmbedding.expand) (cfg "http://b:2/v1") 0.
Proof.
  cbn zeta. split; [discriminate|].
  exact (proj1 (localai_ignores_base_url SampleEmbedding.expand (SampleEmbedding.with_provider "localai")
    {| oac_BaseURL := "http://a:1/v1"; oac_APIKey := ""; oac_Model := "bert" |}
    {| oac_BaseURL := "http://b:2/v1"; oac_APIKey := ""; oac_Model := "bert" |} 0 eq_refl eq_refl)).
Defined.
End EmbeddingWitnesses.
