(* ===== verification/ToolRegistry.v ===== *)
(** * The tool registry (pkg/upstream/registry.go)

    The immutable table from prefixed tool names to their entries, with the
    membership of every tool group computed when it is built: from validated
    upstreams ([New]) or from already compiled entries ([NewFromEntries], which
    the background refresh uses).  JSONPath evaluation ([jsonpath.NewPath] and
    [Query]) and the tools' executors are parameters. *)
From S2P Require Export Mcp.
Open Scope Z_scope.

(** A YAML node is known by its identity, as the code compares node pointers. *)
Abbreviation node := positive.

(** The shared [*Upstream]: [up_ref] is its identity, under which the manager
    keeps the one field that is assigned later, [CircuitBreaker]. *)
Record Upstream := {
  up_ref : positive;
  up_Name : string;
  up_ToolPrefix : string;
  up_BaseURL : string;
  up_Client : option handle
}.
#[export] Instance Upstream_eq_dec : EqDecision Upstream.
Proof. solve_decision. Defined.

Record RegistryEntry := {
  re_PrefixedName : string;
  re_OriginalName : string;
  re_Upstream : option Upstream;
  re_MCPTool : option Tool;
  re_Transforms : option handle;
  re_ResponseFormat : string;
  re_AuthRequired : bool;
  re_Method : string;
  re_PathTemplate : string;
  re_Validator : option handle;
  re_ValidationCfg : ValidationConfig;
  re_OperationNode : option node;
  re_Executor : handle;
  re_Handler : option handle;
  re_RateLimit : string;
  re_UIHandler : option handle;
  re_CacheName : string
}.

Record ValidatedUpstream := {
  vu_Config : UpstreamConfig;
  vu_Entries : list RegistryEntry;
  vu_SpecYAMLRoot : option node
}.

Record groupData := {
  gd_toolList : list Tool;
  gd_toolSet : gset string
}.

Record Registry := {
  byPrefixedName : gmap string RegistryEntry;
  byPrefix : gmap string Upstream;
  byUpstreamName : gmap string (list RegistryEntry);
  specRootByName : gmap string (option node);
  toolList : list (option Tool);
  separator : string;
  groups : gmap string groupData
}.

Inductive RegistryError :=
  | SharedToolPrefix (prev name prefix : string)
  | ToolNameConflict (tool upA upB : string)
  | InvalidFilter (group filter : string)
  (** a dereference of a nil pointer, at which Go panics *)
  | NilDereference.

Definition emptyRegistry (sep : string) : Registry := {|
  byPrefixedName := ∅; byPrefix := ∅; byUpstreamName := ∅;
  specRootByName := ∅; toolList := []; separator := sep; groups := ∅ |}.

Definition set_specRoot (r : Registry) (name : string) (root : option node) : Registry := {|
  byPrefixedName := byPrefixedName r; byPrefix := byPrefix r;
  byUpstreamName := byUpstreamName r;
  specRootByName := <[name := root]> (specRootByName r);
  toolList := toolList r; separator := separator r; groups := groups r |}.

Definition set_groups (r : Registry) (gs : gmap string groupData) : Registry := {|
  byPrefixedName := byPrefixedName r; byPrefix := byPrefix r;
  byUpstreamName := byUpstreamName r; specRootByName := specRootByName r;
  toolList := toolList r; separator := separator r; groups := gs |}.

(** [r.byPrefix[entry.Upstream.ToolPrefix] = entry.Upstream], when non-nil *)
Definition addPrefix (e : RegistryEntry) (m : gmap string Upstream) : gmap string Upstream :=
  match re_Upstream e with
  | Some up => <[up_ToolPrefix up := up]> m
  | None => m
  end.

Section Building.
(** A compiled filter; [NewPath] returns [None] for a filter that does not parse. *)
Context {JSONPath : Type} (NewPath : string -> option JSONPath).
Context (Query : JSONPath -> node -> list node).

(** ** New *)

Fixpoint checkSharedPrefixes (prefixToName : gmap string string)
    (upstreams : list ValidatedUpstream) : result RegistryError unit :=
  match upstreams with
  | [] => Ok tt
  | vu :: rest =>
    let prefix := uc_ToolPrefix (vu_Config vu) in
    match prefixToName !! prefix with
    | Some prev => Err (SharedToolPrefix prev (uc_Name (vu_Config vu)) prefix)
    | None =>
      checkSharedPrefixes (<[prefix := uc_Name (vu_Config vu)]> prefixToName) rest
    end
  end.

(** The body of the entries loop of [New]. *)
Definition addEntry (upName : string) (r : Registry) (e : RegistryEntry)
    : result RegistryError Registry :=
  match byPrefixedName r !! re_PrefixedName e with
  | Some existing =>
    match re_Upstream existing with
    | Some up => Err (ToolNameConflict (re_PrefixedName e) (up_Name up) upName)
    | None => Err NilDereference
    end
  | None => Ok {|
      byPrefixedName := <[re_PrefixedName e := e]> (byPrefixedName r);
      byPrefix := addPrefix e (byPrefix r);
      byUpstreamName :=
        <[upName := default [] (byUpstreamName r !! upName) ++ [e]]> (byUpstreamName r);
      specRootByName := specRootByName r;
      toolList := toolList r ++ [re_MCPTool e];
      separator := separator r;
      groups := groups r |}
  end.

Fixpoint addEntries (upName : string) (es : list RegistryEntry) (r : Registry)
    : result RegistryError Registry :=
  match es with
  | [] => Ok r
  | e :: es' => addEntry upName r e ≫= addEntries upName es'
  end.

Fixpoint addUpstreams (upstreams : list ValidatedUpstream) (r : Registry)
    : result RegistryError Registry :=
  match upstreams with
  | [] => Ok r
  | vu :: rest =>
    let name := uc_Name (vu_Config vu) in
    addEntries name (vu_Entries vu) (set_specRoot r name (vu_SpecYAMLRoot vu))
      ≫= addUpstreams rest
  end.

(** ** Groups, as both constructors build them *)

Fixpoint compileFilters (compiled : gmap string JSONPath) (gs : list GroupConfig)
    : result RegistryError (gmap string JSONPath) :=
  match gs with
  | [] => Ok compiled
  | g :: gs' =>
    if bool_decide (gc_Filter g = "") then compileFilters compiled gs'
    else match NewPath (gc_Filter g) with
         | None => Err (InvalidFilter (gc_Name g) (gc_Filter g))
         | Some jp => compileFilters (<[gc_Name g := jp]> compiled) gs'
         end
  end.

(** [matchedNodes]: nil (here empty) without a filter or a spec root *)
Definition matchedNodes (jp : option JSONPath) (root : option node) : gset node :=
  match jp, root with
  | Some p, Some n => list_to_set (Query p n)
  | _, _ => ∅
  end.

(** Whether the entry passes the group's filter. *)
Definition entryIncluded (jp : option JSONPath) (matched : gset node)
    (e : RegistryEntry) : bool :=
  match jp, re_OperationNode e with
  | Some _, Some n => bool_decide (n ∈ matched)
  | _, _ => true
  end.

Definition upstreamTools (jp : option JSONPath) (root : option node)
    (es : list RegistryEntry) : list string :=
  re_PrefixedName <$> filter (entryIncluded jp (matchedNodes jp root)) es.

(** [gd.toolSet]; [ups] lists (upstream, spec root, entries) as they are visited. *)
Definition groupToolSet (jp : option JSONPath) (g : GroupConfig)
    (ups : list (string * option node * list RegistryEntry)) : gset string :=
  let upstreamSet := set_of_names (gc_Upstreams g) in
  set_of_names (filter (fun u => u.1.1 ∈ upstreamSet) ups
    ≫= fun u => upstreamTools jp u.1.2 u.2).

(** [gd.toolList]: registry order is kept *)
Fixpoint groupToolList (toolSet : gset string) (l : list (option Tool))
    : result RegistryError (list Tool) :=
  match l with
  | [] => Ok []
  | None :: _ => Err NilDereference
  | Some t :: l' =>
    rest ← groupToolList toolSet l';
    Ok (if decide (tool_Name t ∈ toolSet) then t :: rest else rest)
  end.

Fixpoint buildGroups (compiled : gmap string JSONPath)
    (ups : GroupConfig -> list (string * option node * list RegistryEntry))
    (tools : list (option Tool)) (gs : list GroupConfig) (acc : gmap string groupData)
    : result RegistryError (gmap string groupData) :=
  match gs with
  | [] => Ok acc
  | g :: gs' =>
    let toolSet := groupToolSet (compiled !! gc_Name g) g (ups g) in
    l ← groupToolList toolSet tools;
    buildGroups compiled ups tools gs'
      (<[gc_Name g := {| gd_toolList := l; gd_toolSet := toolSet |}]> acc)
  end.

Definition vu_view (vu : ValidatedUpstream) : string * option node * list RegistryEntry :=
  (uc_Name (vu_Config vu), vu_SpecYAMLRoot vu, vu_Entries vu).

Definition New (upstreams : list ValidatedUpstream) (naming : NamingConfig)
    (gs : list GroupConfig) : result RegistryError Registry :=
  _ ← checkSharedPrefixes ∅ upstreams;
  r ← addUpstreams upstreams (emptyRegistry (nc_Separator naming));
  compiled ← compileFilters ∅ gs;
  gd ← buildGroups compiled (fun _ => vu_view <$> upstreams) (toolList r) gs ∅;
  Ok (set_groups r gd).

(** ** NewFromEntries *)

Definition upstreamNameOf (e : RegistryEntry) : string :=
  match re_Upstream e with Some up => up_Name up | None => "" end.

Definition addCompiledEntry (r : Registry) (e : RegistryEntry)
    : result RegistryError Registry :=
  match byPrefixedName r !! re_PrefixedName e with
  | Some existing =>
    Err (ToolNameConflict (re_PrefixedName e) (upstreamNameOf existing) (upstreamNameOf e))
  | None => Ok {|
      byPrefixedName := <[re_PrefixedName e := e]> (byPrefixedName r);
      byPrefix := addPrefix e (byPrefix r);
      byUpstreamName := byUpstreamName r;
      specRootByName := specRootByName r;
      toolList := toolList r ++
        match re_MCPTool e with Some t => [Some t] | None => [] end;
      separator := separator r;
      groups := groups r |}
  end.

Fixpoint addCompiledEntries (es : list RegistryEntry) (r : Registry)
    : result RegistryError Registry :=
  match es with
  | [] => Ok r
  | e :: es' => addCompiledEntry r e ≫= addCompiledEntries es'
  end.

Definition set_upstreamEntries (r : Registry) (name : string) (es : list RegistryEntry)
    : Registry := {|
  byPrefixedName := byPrefixedName r; byPrefix := byPrefix r;
  byUpstreamName := <[name := es]> (byUpstreamName r);
  specRootByName := specRootByName r;
  toolList := toolList r; separator := separator r; groups := groups r |}.

Fixpoint addCompiledUpstreams (ups : list (string * list RegistryEntry)) (r : Registry)
    : result RegistryError Registry :=
  match ups with
  | [] => Ok r
  | (name, es) :: ups' =>
    addCompiledEntries es (set_upstreamEntries r name es) ≫= addCompiledUpstreams ups'
  end.

(** [order] is the order in which the registration loop's [range] visits
    [entriesByUpstream], and [gorder g] the one of group [g]'s loop; Go
    leaves both open.  The spec roots are copied into a map, so the order of
    that loop is irrelevant. *)
Definition NewFromEntries (order : list (string * list RegistryEntry))
    (gorder : GroupConfig -> list (string * list RegistryEntry))
    (specRoots : gmap string (option node)) (naming : NamingConfig)
    (gs : list GroupConfig) : result RegistryError Registry :=
  let r0 := emptyRegistry (nc_Separator naming) in
  let r1 := {|
    byPrefixedName := byPrefixedName r0; byPrefix := byPrefix r0;
    byUpstreamName := byUpstreamName r0; specRootByName := specRoots;
    toolList := toolList r0; separator := separator r0; groups := groups r0 |} in
  r ← addCompiledUpstreams order r1;
  compiled ← compileFilters ∅ gs;
  gd ← buildGroups compiled
    (fun g => (fun u => (u.1, default None (specRoots !! u.1), u.2)) <$> gorder g)
    (toolList r) gs ∅;
  Ok (set_groups r gd).
End Building.

(** ** Lookups *)
Definition EntryForTool (r : Registry) (prefixedName : string) : option RegistryEntry :=
  byPrefixedName r !! prefixedName.
Definition EntriesForUpstream (r : Registry) (upstreamName : string) : list RegistryEntry :=
  default [] (byUpstreamName r !! upstreamName).
Definition SpecRootForUpstream (r : Registry) (upstreamName : string) : option node :=
  default None (specRootByName r !! upstreamName).
(** The order of the names is the map's iteration order. *)
Definition UpstreamNames (r : Registry) : list string := (map_to_list (byUpstreamName r)).*1.
Definition ToolsForGroup (r : Registry) (groupName : string) : list Tool :=
  match groups r !! groupName with Some gd => gd_toolList gd | None => [] end.
Definition Tools (r : Registry) : list (option Tool) := toolList r.
Definition AuthRequired (r : Registry) (toolName : string) : bool :=
  match byPrefixedName r !! toolName with Some e => re_AuthRequired e | None => true end.
(** Go panics when the entry has no upstream; every builder sets one. *)
Definition ToolUpstreamName (r : Registry) (toolName : string) : result RegistryError string :=
  match byPrefixedName r !! toolName with
  | None => Ok ""
  | Some e => match re_Upstream e with Some up => Ok (up_Name up) | None => Err NilDereference end
  end.
Definition UIHandlerForTool (r : Registry) (toolName : string) : option handle :=
  match byPrefixedName r !! toolName with Some e => re_UIHandler e | None => None end.

(** ** Dispatch *)
Section Dispatch.
(** [Execute] runs an entry's executor in the outside world [W]. *)
Context {W : Type} (Execute : handle -> args -> W -> Reply * W).

Definition handleToolCall (e : RegistryEntry) (a : args) (w : W) : Reply * W :=
  Execute (re_Executor e) a w.

Definition DispatchForGroup (r : Registry) (groupName name : string) (a : args) (w : W)
    : Reply * W :=
  match groups r !! groupName with
  | None => (reply_ok (errorResult ("unknown group: " +:+ groupName)), w)
  | Some gd =>
    if decide (name ∈ gd_toolSet gd) then
      match byPrefixedName r !! name with
      | None => (reply_ok (errorResult ("unknown tool: " +:+ name)), w)
      | Some e => handleToolCall e a w
      end
    else (reply_ok (errorResult ("tool not available in this group: " +:+ name)), w)
  end.

Definition Dispatch (r : Registry) (name : string) (a : args) (w : W) : Reply * W :=
  if negb (Contains name (separator r))
  then (reply_ok (errorResult ("tool name missing prefix separator: " +:+ name)), w)
  else match byPrefixedName r !! name with
       | None => (reply_ok (errorResult ("unknown tool: " +:+ name)), w)
       | Some e => handleToolCall e a w
       end.
End Dispatch.

(** ** What a constructor registers

    [fresh m es]: no two entries of [es] share a tool name, and none is in [m]. *)
Definition fresh (m : gmap string RegistryEntry) (es : list RegistryEntry) : Prop :=
  NoDup (re_PrefixedName <$> es) /\ Forall (fun e => m !! re_PrefixedName e = None) es.

Definition indexEntries (es : list RegistryEntry) (m : gmap string RegistryEntry) :=
  foldl (fun m e => <[re_PrefixedName e := e]> m) m es.

Lemma fresh_cons m e es :
  fresh m (e :: es) <->
  m !! re_PrefixedName e = None /\ fresh (<[re_PrefixedName e := e]> m) es.
Proof.
  unfold fresh. rewrite fmap_cons, NoDup_cons, Forall_cons, !Forall_forall. split.
  - intros [[Hnot Hnd] [Hm Hall]]. split_and!; [done|done|]. intros x Hx.
    rewrite lookup_insert_ne; [by apply Hall|]. intros Heq. apply Hnot. rewrite Heq.
    by apply list_elem_of_fmap_2.
  - intros [Hm [Hnd Hall]]. split_and!; [|done|done|].
    + intros (x & Heq & Hx)%list_elem_of_fmap. specialize (Hall x Hx).
      by rewrite Heq, lookup_insert_eq in Hall.
    + intros x Hx. specialize (Hall x Hx). by apply lookup_insert_None in Hall as [? _].
Qed.

Lemma fresh_app m es1 es2 :
  fresh m (es1 ++ es2) <-> fresh m es1 /\ fresh (indexEntries es1 m) es2.
Proof.
  revert m. induction es1 as [|e es1 IH]; intros m; cbn.
  - split; [intros H; split; [split; constructor|done]|tauto].
  - rewrite !fresh_cons, IH. tauto.
Qed.

Lemma fresh_empty es : fresh ∅ es <-> NoDup (re_PrefixedName <$> es).
Proof.
  unfold fresh. split; [tauto|]. intros H. split; [done|]. apply Forall_forall. intros.
  apply lookup_empty.
Qed.

Lemma lookup_indexEntries es m n e :
  fresh m es ->
  indexEntries es m !! n = Some e <->
  m !! n = Some e \/ (e ∈ es /\ re_PrefixedName e = n).
Proof.
  revert m. induction es as [|x es IH]; intros m Hf; cbn.
  - split; [tauto|]. intros [?|[?%not_elem_of_nil _]]; done.
  - apply fresh_cons in Hf as [Hm Hf]. fold (indexEntries es (<[re_PrefixedName x:=x]> m)).
    rewrite IH by done. rewrite elem_of_cons, lookup_insert_Some. split.
    + intros [[[<- <-]|[? ?]]|[? ?]]; tauto.
    + intros [Hn|[[->|He] Hp]]; [|tauto|tauto]. left. right. split; [congruence|done].
Qed.

Lemma indexEntries_app es1 es2 m :
  indexEntries (es1 ++ es2) m = indexEntries es2 (indexEntries es1 m).
Proof. apply foldl_app. Qed.

(** An entry as every builder makes it. *)
Definition entry_wf (e : RegistryEntry) : Prop :=
  is_Some (re_Upstream e) /\
  exists t, re_MCPTool e = Some t /\ tool_Name t = re_PrefixedName e.

(** The part of a registry that a constructor's loops fill. *)
Record registered (r r' : Registry) (es : list RegistryEntry) : Prop := {
  rg_index : byPrefixedName r' = indexEntries es (byPrefixedName r);
  rg_tools : Forall entry_wf es -> toolList r' = toolList r ++ (re_MCPTool <$> es);
  rg_separator : separator r' = separator r;
  rg_groups : groups r' = groups r
}.

Lemma registered_trans r1 r2 r3 es1 es2 :
  registered r1 r2 es1 -> registered r2 r3 es2 -> registered r1 r3 (es1 ++ es2).
Proof.
  intros [H1 H2 H3 H4] [H5 H6 H7 H8]. split; [| |congruence|congruence].
  - by rewrite indexEntries_app, H5, H1.
  - intros [Hw1 Hw2]%Forall_app. by rewrite H6, H2, fmap_app, app_assoc by done.
Qed.

Lemma registered_nil r r' :
  byPrefixedName r' = byPrefixedName r -> toolList r' = toolList r ->
  separator r' = separator r -> groups r' = groups r -> registered r r' [].
Proof. intros ????. split; [done| |done|done]. intros _. by rewrite app_nil_r. Qed.

Lemma addEntries_spec upName es r :
  (is_ok (addEntries upName es r) = true <-> fresh (byPrefixedName r) es) /\
  forall r', addEntries upName es r = Ok r' ->
    registered r r' es /\
    specRootByName r' = specRootByName r /\
    byUpstreamName r' = (match es with [] => byUpstreamName r | _ =>
      <[upName := EntriesForUpstream r upName ++ es]> (byUpstreamName r) end).
Proof.
  revert r. induction es as [|e es IH]; intros r; cbn.
  - split; [split; [intros _; split; constructor|done]|].
    intros r' [= <-]. by split; [apply registered_nil|].
  - unfold addEntry. rewrite fresh_cons.
    destruct (byPrefixedName r !! re_PrefixedName e) as [x|] eqn:Hx.
    + split.
      * split; [|intros [? _]; done]. by destruct (re_Upstream x).
      * intros r'. by destruct (re_Upstream x).
    + cbn. specialize (IH {| byPrefixedName := <[re_PrefixedName e:=e]> (byPrefixedName r);
        byPrefix := addPrefix e (byPrefix r);
        byUpstreamName := <[upName:=default [] (byUpstreamName r !! upName) ++ [e]]>
                            (byUpstreamName r);
        specRootByName := specRootByName r; toolList := toolList r ++ [re_MCPTool e];
        separator := separator r; groups := groups r |}) as [IH1 IH2].
      split; [rewrite IH1; cbn; tauto|].
      intros r' Hr'. destruct (IH2 r' Hr') as ([H1 H2 H3 H4] & H5 & H6).
      cbn in *. split_and!; [split; try done| done |].
      * intros Hw. rewrite H2 by by inversion Hw. by rewrite <-app_assoc.
      * rewrite H6. unfold EntriesForUpstream. destruct es as [|e' es]; [done|].
        cbn. rewrite insert_insert_eq, lookup_insert_eq. cbn.
        by rewrite <-app_assoc.
Qed.

Definition allEntries (ups : list ValidatedUpstream) : list RegistryEntry :=
  ups ≫= vu_Entries.
Definition upstreamNames (ups : list ValidatedUpstream) : list string :=
  (fun vu => uc_Name (vu_Config vu)) <$> ups.

Lemma addUpstreams_spec ups r :
  (is_ok (addUpstreams ups r) = true <-> fresh (byPrefixedName r) (allEntries ups)) /\
  forall r', addUpstreams ups r = Ok r' -> registered r r' (allEntries ups).
Proof.
  revert r. induction ups as [|vu ups IH]; intros r; cbn.
  - split; [split; [intros _; split; constructor|done]|]. intros r' [= <-].
    by apply registered_nil.
  - set (r0 := set_specRoot r _ _).
    destruct (addEntries_spec (uc_Name (vu_Config vu)) (vu_Entries vu) r0) as [H1 H2].
    change (allEntries (vu :: ups)) with (vu_Entries vu ++ allEntries ups).
    rewrite fresh_app. change (byPrefixedName r) with (byPrefixedName r0).
    destruct (addEntries _ _ r0) as [r1|err] eqn:E; cbn in *.
    + destruct (H2 r1 eq_refl) as [Hreg _]. destruct (IH r1) as [IH1 IH2].
      rewrite IH1, (rg_index _ _ _ Hreg). split; [tauto|].
      intros r' Hr'. apply (registered_trans _ r1); [|auto].
      destruct Hreg; by split.
    + split; [|done]. split; [done|]. intros [? _]. by apply H1 in H.
Qed.

Lemma checkSharedPrefixes_ok ups m :
  is_ok (checkSharedPrefixes m ups) = true <->
  NoDup ((fun vu => uc_ToolPrefix (vu_Config vu)) <$> ups) /\
  Forall (fun vu => m !! uc_ToolPrefix (vu_Config vu) = None) ups.
Proof.
  revert m. induction ups as [|vu ups IH]; intros m; cbn.
  - split; [intros _; split; constructor|done].
  - rewrite NoDup_cons, Forall_cons.
    destruct (m !! _) as [prev|] eqn:E; cbn; [split; [done|intros (_&?&_); congruence]|].
    rewrite IH, !Forall_forall. split.
    + intros [Hnd Hall]. split_and!; [| done | done |].
      * intros (x & Heq & Hx)%list_elem_of_fmap. specialize (Hall x Hx). cbn in Hall, Heq.
        by rewrite Heq, lookup_insert_eq in Hall.
      * intros x Hx. specialize (Hall x Hx). by apply lookup_insert_None in Hall as [? _].
    + intros [[Hnot Hnd] [_ Hall]]. split; [done|]. intros x Hx.
      rewrite lookup_insert_ne; [by apply Hall|]. intros Heq. apply Hnot.
      rewrite Heq. by apply (list_elem_of_fmap_2 (fun vu => uc_ToolPrefix (vu_Config vu))).
Qed.

Section BuildingFacts.
Context {JSONPath : Type} (NewPath : string -> option JSONPath).
Context (Query : JSONPath -> node -> list node).

Definition filterValid (g : GroupConfig) : Prop :=
  gc_Filter g = "" \/ is_Some (NewPath (gc_Filter g)).

(** The compiled filter of a group: nil without one. *)
Definition filterOf (g : GroupConfig) : option JSONPath :=
  if bool_decide (gc_Filter g = "") then None else NewPath (gc_Filter g).

Lemma compileFilters_ok gs m :
  is_ok (compileFilters NewPath m gs) = true <-> Forall filterValid gs.
Proof.
  revert m. induction gs as [|g gs IH]; intros m; cbn; [by rewrite Forall_nil|].
  rewrite Forall_cons. unfold filterValid at 1. case_bool_decide.
  - rewrite IH. tauto.
  - destruct (NewPath _) as [jp|] eqn:E; cbn.
    + rewrite IH. split; [intros; split; [right; eauto|done]|tauto].
    + split; [done|]. intros [[?|[? ?]] _]; congruence.
Qed.

Lemma compileFilters_other gs m m' n :
  compileFilters NewPath m gs = Ok m' -> n ∉ (gc_Name <$> gs) -> m' !! n = m !! n.
Proof.
  revert m. induction gs as [|g gs IH]; cbn; intros m H Hn; [by run_ok|].
  apply not_elem_of_cons in Hn as [Hne Hn].
  case_bool_decide; [by eapply IH|]. destruct (NewPath _); [|done].
  rewrite (IH _ H Hn). by apply lookup_insert_ne.
Qed.

Lemma compileFilters_lookup gs m m' g :
  compileFilters NewPath m gs = Ok m' -> NoDup (gc_Name <$> gs) ->
  (forall g, g ∈ gs -> m !! gc_Name g = None) ->
  g ∈ gs -> m' !! gc_Name g = filterOf g.
Proof.
  revert m. induction gs as [|g0 gs IH]; cbn; intros m H Hnd Hm Hg; [set_solver|].
  apply NoDup_cons in Hnd as [Hnot Hnd].
  apply elem_of_cons in Hg as [->|Hg].
  - unfold filterOf. case_bool_decide.
    + rewrite (compileFilters_other _ _ _ _ H Hnot). apply Hm. by left.
    + destruct (NewPath _); [|done].
      rewrite (compileFilters_other _ _ _ _ H Hnot). apply lookup_insert_eq.
  - case_bool_decide; [eapply IH; eauto; intros; apply Hm; by right|].
    destruct (NewPath _); [|done]. eapply IH; eauto.
    intros g' Hg'. rewrite lookup_insert_ne; [apply Hm; by right|].
    intros Heq. apply Hnot. rewrite Heq. by apply list_elem_of_fmap_2.
Qed.

(** The tools of a list whose names are in a set, in list order. *)
Definition toolsIn (s : gset string) (l : list (option Tool)) : list Tool :=
  filter (fun t => tool_Name t ∈ s) (omap id l).

Lemma groupToolList_spec s l :
  Forall is_Some l -> groupToolList s l = Ok (toolsIn s l).
Proof.
  induction 1 as [|x l [t ->] _ IH]; [done|]. cbn. rewrite IH. cbn.
  unfold toolsIn. cbn. by case_decide.
Qed.

Lemma buildGroups_spec compiled ups tools gs acc :
  Forall is_Some tools -> NoDup (gc_Name <$> gs) ->
  exists m, buildGroups Query compiled ups tools gs acc = Ok m /\
    (forall g, g ∈ gs ->
      let s := groupToolSet Query (compiled !! gc_Name g) g (ups g) in
      m !! gc_Name g = Some {| gd_toolList := toolsIn s tools; gd_toolSet := s |}) /\
    (forall n, n ∉ (gc_Name <$> gs) -> m !! n = acc !! n).
Proof.
  intros Ht. revert acc. induction gs as [|g gs IH]; intros acc Hnd; cbn.
  - eexists. split_and!; [done|set_solver|done].
  - apply NoDup_cons in Hnd as [Hnot Hnd]. rewrite groupToolList_spec by done. cbn.
    edestruct IH as (m & -> & H1 & H2); [done|]. eexists. split_and!; [done| |].
    + intros g' [->|Hg]%elem_of_cons; [|by apply H1].
      rewrite H2 by done. apply lookup_insert_eq.
    + intros n [Hne Hn]%not_elem_of_cons. rewrite H2 by done. by apply lookup_insert_ne.
Qed.

(** Duplicate group names only make later groups win; the run still succeeds. *)
Lemma buildGroups_ok compiled ups tools gs acc :
  Forall is_Some tools -> is_ok (buildGroups Query compiled ups tools gs acc) = true.
Proof.
  intros Ht. revert acc. induction gs as [|g gs IH]; intros acc; [done|].
  cbn. rewrite groupToolList_spec by done. apply IH.
Qed.

Lemma wf_tools es : Forall entry_wf es -> Forall is_Some (re_MCPTool <$> es).
Proof.
  intros H. apply Forall_fmap. eapply Forall_impl; [exact H|].
  intros e [_ (t & Ht & _)]. cbn. rewrite Ht. eauto.
Qed.

(** What a successful [New] went through. *)
Lemma New_inv ups naming gs r :
  New NewPath Query ups naming gs = Ok r ->
  fresh ∅ (allEntries ups) /\
  exists r0 compiled,
    registered (emptyRegistry (nc_Separator naming)) r0 (allEntries ups) /\
    compileFilters NewPath ∅ gs = Ok compiled /\
    buildGroups Query compiled (fun _ => vu_view <$> ups) (toolList r0) gs ∅ = Ok (groups r) /\
    r = set_groups r0 (groups r).
Proof.
  unfold New. intros H. run_ok.
  match goal with H : addUpstreams _ _ = Ok ?x |- _ =>
    rename H into Hadd; rename x into r0 end.
  destruct (addUpstreams_spec ups (emptyRegistry (nc_Separator naming))) as [[Hf _] Hr].
  split; [apply Hf; by rewrite Hadd|]. exists r0. eexists. split_and!; eauto.
Qed.

(** ** The abstract registry

    What a registry promises, with no reference to how it was built: [ups]
    lists each upstream's name, spec root and entries in any order. *)
Abbreviation upstreamView := (string * option node * list RegistryEntry)%type.

Definition passes (g : GroupConfig) (root : option node) (e : RegistryEntry) : Prop :=
  forall jp n, filterOf g = Some jp -> re_OperationNode e = Some n ->
  exists rt, root = Some rt /\ n ∈ Query jp rt.

Definition groupMember (ups : list upstreamView) (g : GroupConfig) (n : string) : Prop :=
  exists u e, u ∈ ups /\ u.1.1 ∈ gc_Upstreams g /\ e ∈ u.2 /\
    passes g u.1.2 e /\ re_PrefixedName e = n.

Record builtFrom (ups : list upstreamView) (sep : string) (gs : list GroupConfig)
    (r : Registry) : Prop := {
  bf_index : forall n e, byPrefixedName r !! n = Some e <->
    e ∈ (ups ≫= snd) /\ re_PrefixedName e = n;
  bf_tools : toolList r ≡ₚ re_MCPTool <$> (ups ≫= snd);
  bf_separator : separator r = sep;
  bf_entries : forall u, u ∈ ups -> EntriesForUpstream r u.1.1 = u.2;
  bf_no_entries : forall n, n ∉ ups.*1.*1 -> EntriesForUpstream r n = [];
  bf_roots : forall u, u ∈ ups -> SpecRootForUpstream r u.1.1 = u.1.2;
  bf_groups : forall g, g ∈ gs -> exists gd, groups r !! gc_Name g = Some gd /\
    (forall n, n ∈ gd_toolSet gd <-> groupMember ups g n) /\
    gd_toolList gd = toolsIn (gd_toolSet gd) (toolList r);
  bf_no_groups : forall n, n ∉ (gc_Name <$> gs) -> groups r !! n = None
}.

Lemma matchedNodes_spec jp root n :
  n ∈ matchedNodes Query jp root <->
  exists p rt, jp = Some p /\ root = Some rt /\ n ∈ Query p rt.
Proof.
  unfold matchedNodes. destruct jp as [p|], root as [rt|]; [|set_solver..].
  rewrite elem_of_list_to_set. naive_solver.
Qed.

Lemma entryIncluded_passes g root e :
  entryIncluded (filterOf g) (matchedNodes Query (filterOf g) root) e = true <->
  passes g root e.
Proof.
  unfold entryIncluded, passes.
  destruct (filterOf g) as [jp|], (re_OperationNode e) as [n|]; [|naive_solver..].
  rewrite bool_decide_eq_true, matchedNodes_spec. naive_solver.
Qed.

Lemma groupToolSet_spec g ups n :
  n ∈ groupToolSet Query (filterOf g) g ups <-> groupMember ups g n.
Proof.
  unfold groupToolSet, groupMember, upstreamTools. rewrite elem_of_set_of_names.
  rewrite list_elem_of_bind. split.
  - intros (u & Hn & Hu). apply list_elem_of_filter in Hu as [Hset Hu].
    apply elem_of_set_of_names in Hset.
    apply list_elem_of_fmap in Hn as (e & -> & He).
    apply elem_of_filter_bool in He as [Hinc He]. exists u, e.
    by rewrite entryIncluded_passes in Hinc.
  - intros (u & e & Hu & Hset & He & Hp & <-). exists u. split.
    + apply list_elem_of_fmap_2, elem_of_filter_bool. by rewrite entryIncluded_passes.
    + apply list_elem_of_filter. by rewrite elem_of_set_of_names.
Qed.

(** The groups part, shared by both constructors. *)
Lemma buildGroups_refines compiled ups tools gs m :
  compileFilters NewPath ∅ gs = Ok compiled -> NoDup (gc_Name <$> gs) ->
  Forall is_Some tools ->
  buildGroups Query compiled ups tools gs ∅ = Ok m ->
  (forall g, g ∈ gs -> exists gd, m !! gc_Name g = Some gd /\
     (forall n, n ∈ gd_toolSet gd <-> groupMember (ups g) g n) /\
     gd_toolList gd = toolsIn (gd_toolSet gd) tools) /\
  (forall n, n ∉ (gc_Name <$> gs) -> m !! n = None).
Proof.
  intros Hc Hnd Ht Hb.
  destruct (buildGroups_spec compiled ups tools gs ∅ Ht Hnd) as (m' & Hb' & H1 & H2).
  rewrite Hb in Hb'. injection Hb' as <-. split.
  - intros g Hg. eexists. split; [by apply H1|]. cbn. split; [|done]. intros n.
    rewrite (compileFilters_lookup gs ∅ compiled g Hc Hnd); [|done|done].
    apply groupToolSet_spec.
  - intros n Hn. by rewrite H2.
Qed.

Lemma addUpstreams_tables ups r r' :
  addUpstreams ups r = Ok r' -> NoDup (upstreamNames ups) ->
  (forall vu, vu ∈ ups ->
    EntriesForUpstream r' (uc_Name (vu_Config vu)) =
      EntriesForUpstream r (uc_Name (vu_Config vu)) ++ vu_Entries vu /\
    SpecRootForUpstream r' (uc_Name (vu_Config vu)) = vu_SpecYAMLRoot vu) /\
  (forall n, n ∉ upstreamNames ups ->
    EntriesForUpstream r' n = EntriesForUpstream r n /\
    SpecRootForUpstream r' n = SpecRootForUpstream r n).
Proof.
  revert r. induction ups as [|vu ups IH]; intros r; cbn; [intros [= <-] _; set_solver|].
  intros Hadd [Hnot Hnd]%NoDup_cons.
  apply bind_Ok in Hadd as (r1 & He & Hadd).
  destruct (addEntries_spec (uc_Name (vu_Config vu)) (vu_Entries vu)
    (set_specRoot r (uc_Name (vu_Config vu)) (vu_SpecYAMLRoot vu))) as [_ Hes].
  destruct (Hes r1 He) as (_ & Hroot & Hup). clear Hes.
  destruct (IH r1 Hadd Hnd) as [IH1 IH2]. cbn in Hroot, Hup.
  assert (Hself : EntriesForUpstream r1 (uc_Name (vu_Config vu)) =
    EntriesForUpstream r (uc_Name (vu_Config vu)) ++ vu_Entries vu).
  { unfold EntriesForUpstream at 1. rewrite Hup. destruct (vu_Entries vu).
    - by rewrite app_nil_r.
    - by rewrite lookup_insert_eq. }
  assert (Hother : forall n, n <> uc_Name (vu_Config vu) ->
    EntriesForUpstream r1 n = EntriesForUpstream r n /\
    SpecRootForUpstream r1 n = SpecRootForUpstream r n).
  { intros n Hn. unfold EntriesForUpstream, SpecRootForUpstream. rewrite Hroot, Hup.
    rewrite lookup_insert_ne by done. split; [|done].
    destruct (vu_Entries vu); [done|]. by rewrite lookup_insert_ne. }
  split.
  - intros vu' [->|Hvu]%elem_of_cons.
    + destruct (IH2 _ Hnot) as [-> ->]. split; [done|].
      unfold SpecRootForUpstream. by rewrite Hroot, lookup_insert_eq.
    + destruct (IH1 vu' Hvu) as [-> ->]. split; [|done]. f_equal. apply Hother.
      intros Heq. apply Hnot. rewrite <-Heq.
      by apply (list_elem_of_fmap_2 (fun vu => uc_Name (vu_Config vu))).
  - intros n [Hne Hn]%not_elem_of_cons. destruct (IH2 n Hn) as [-> ->].
    by apply Hother.
Qed.

Lemma allEntries_views ups : (vu_view <$> ups) ≫= snd = allEntries ups.
Proof. induction ups as [|vu ups IH]; cbn; [done|]. by f_equal. Qed.

Lemma views_names ups : (vu_view <$> ups).*1.*1 = upstreamNames ups.
Proof. by rewrite <-!list_fmap_compose. Qed.

Lemma New_builtFrom ups naming gs r :
  New NewPath Query ups naming gs = Ok r ->
  NoDup (upstreamNames ups) -> NoDup (gc_Name <$> gs) ->
  Forall entry_wf (allEntries ups) ->
  builtFrom (vu_view <$> ups) (nc_Separator naming) gs r.
Proof.
  unfold New. intros H Hnames Hgs Hwf.
  apply bind_Ok in H as (_ & _ & H). apply bind_Ok in H as (r0 & Hadd & H).
  apply bind_Ok in H as (compiled & Hc & H). apply bind_Ok in H as (gd & Hb & H).
  injection H as <-.
  destruct (addUpstreams_spec ups (emptyRegistry (nc_Separator naming))) as [[Hf _] Hreg].
  rewrite Hadd in Hf. specialize (Hf eq_refl). destruct (Hreg r0 Hadd) as [R1 R2 R3 R4].
  destruct (addUpstreams_tables _ _ _ Hadd Hnames) as [T1 T2]. specialize (R2 Hwf).
  assert (Ht : Forall is_Some (toolList r0)) by (rewrite R2; by apply wf_tools).
  destruct (buildGroups_refines _ _ _ _ _ Hc Hgs Ht Hb) as [G1 G2].
  split; cbn.
  - intros n e. rewrite allEntries_views, R1, lookup_indexEntries by done. cbn.
    rewrite lookup_empty. naive_solver.
  - by rewrite allEntries_views, R2.
  - done.
  - intros u (vu & -> & Hvu)%list_elem_of_fmap. cbn. by destruct (T1 vu Hvu).
  - intros n Hn. rewrite views_names in Hn. by destruct (T2 n Hn).
  - intros u (vu & -> & Hvu)%list_elem_of_fmap. cbn. by destruct (T1 vu Hvu).
  - done.
  - done.
Qed.

Lemma addCompiledEntries_spec es r :
  (is_ok (addCompiledEntries es r) = true <-> fresh (byPrefixedName r) es) /\
  forall r', addCompiledEntries es r = Ok r' ->
    registered r r' es /\
    specRootByName r' = specRootByName r /\ byUpstreamName r' = byUpstreamName r.
Proof.
  revert r. induction es as [|e es IH]; intros r; cbn.
  - split; [split; [intros _; split; constructor|done]|].
    intros r' [= <-]. by split; [apply registered_nil|].
  - unfold addCompiledEntry. rewrite fresh_cons.
    destruct (byPrefixedName r !! re_PrefixedName e) as [x|] eqn:Hx; cbn.
    { split; [|done]. split; [done|]. intros [? _]; done. }
    match goal with |- context [addCompiledEntries es ?r1] =>
      destruct (IH r1) as [IH1 IH2] end.
    split; [rewrite IH1; cbn; tauto|].
    intros r' Hr'. destruct (IH2 r' Hr') as ([H1 H2 H3 H4] & H5 & H6).
    cbn in *. split_and!; [split; try done|done|done].
    intros [(_ & t & Ht & _) Hw]%Forall_cons. rewrite H2, Ht by done. cbn. by rewrite Ht, <-app_assoc.
Qed.

Lemma addCompiledUpstreams_spec order r :
  (is_ok (addCompiledUpstreams order r) = true <-> fresh (byPrefixedName r) (order ≫= snd)) /\
  forall r', addCompiledUpstreams order r = Ok r' ->
    registered r r' (order ≫= snd) /\
    specRootByName r' = specRootByName r /\
    (NoDup order.*1 ->
      (forall u, u ∈ order -> EntriesForUpstream r' u.1 = u.2) /\
      (forall n, n ∉ order.*1 -> EntriesForUpstream r' n = EntriesForUpstream r n)).
Proof.
  revert r. induction order as [|[name es] order IH]; intros r; cbn.
  - split; [split; [intros _; split; constructor|done]|].
    intros r' [= <-]. split_and!; [by apply registered_nil|done|]. intros _. set_solver.
  - set (r0 := set_upstreamEntries r name es).
    destruct (addCompiledEntries_spec es r0) as [H1 H2].
    rewrite fresh_app. change (byPrefixedName r) with (byPrefixedName r0).
    destruct (addCompiledEntries _ r0) as [r1|err] eqn:E; cbn in *.
    2:{ split; [|done]. split; [done|]. intros [? _]. by apply H1 in H. }
    destruct (H2 r1 eq_refl) as (Hreg & Hroot & Hup). destruct (IH r1) as [IH1 IH2].
    rewrite IH1, (rg_index _ _ _ Hreg). split; [tauto|].
    intros r' Hr'. destruct (IH2 r' Hr') as (Hreg' & Hroot' & Htab).
    split_and!; [|by rewrite Hroot', Hroot|].
    + apply (registered_trans _ r1); [|done]. destruct Hreg; by split.
    + intros [Hnot Hnd]%NoDup_cons. destruct (Htab Hnd) as [T1 T2]. split.
      * intros u [->|Hu]%elem_of_cons; [|by apply T1]. cbn. rewrite T2 by done.
        unfold EntriesForUpstream. by rewrite Hup, lookup_insert_eq.
      * intros n [Hne Hn]%not_elem_of_cons. rewrite T2 by done.
        unfold EntriesForUpstream. by rewrite Hup, lookup_insert_ne.
Qed.

(** The views [NewFromEntries] works on. *)
Definition entriesView (specRoots : gmap string (option node))
    (order : list (string * list RegistryEntry)) : list upstreamView :=
  (fun u => (u.1, default None (specRoots !! u.1), u.2)) <$> order.

Lemma entriesView_snd roots order : entriesView roots order ≫= snd = order ≫= snd.
Proof. induction order as [|u order IH]; cbn; [done|]. by f_equal. Qed.

Lemma groupMember_perm ups1 ups2 g n :
  ups1 ≡ₚ ups2 -> groupMember ups1 g n <-> groupMember ups2 g n.
Proof. intros H. unfold groupMember. by setoid_rewrite H. Qed.

(** [NewFromEntries] never fails but for a name clash or an invalid filter. *)
Lemma NewFromEntries_builtFrom order gorder roots naming gs :
  NoDup ((fun e => re_PrefixedName e) <$> (order ≫= snd)) ->
  Forall filterValid gs -> NoDup order.*1 -> NoDup (gc_Name <$> gs) ->
  Forall entry_wf (order ≫= snd) -> (forall g, gorder g ≡ₚ order) ->
  exists r, NewFromEntries NewPath Query order gorder roots naming gs = Ok r /\
    builtFrom (entriesView roots order) (nc_Separator naming) gs r.
Proof.
  intros Hfresh Hfil Hnames Hgs Hwf Hord. unfold NewFromEntries.
  match goal with |- context [addCompiledUpstreams order ?r] => set (r1 := r) end.
  destruct (addCompiledUpstreams_spec order r1) as [Hok Hspec].
  apply fresh_empty in Hfresh. apply Hok in Hfresh as Hrun.
  apply is_ok_true in Hrun as (r0 & Hr0). rewrite Hr0. cbn.
  destruct (Hspec r0 Hr0) as ([R1 R2 R3 R4] & Hroot & Htab).
  destruct (Htab Hnames) as [T1 T2]. specialize (R2 Hwf). cbn in R1, R2.
  apply (compileFilters_ok gs ∅) in Hfil. apply is_ok_true in Hfil as (compiled & Hc).
  rewrite Hc. cbn.
  assert (Ht : Forall is_Some (toolList r0)) by (rewrite R2; by apply wf_tools).
  match goal with |- context [buildGroups Query compiled ?u _ gs ∅] => set (ups := u) end.
  destruct (buildGroups_spec compiled ups (toolList r0) gs ∅ Ht Hgs) as (gd & Hb & _).
  rewrite Hb. cbn. eexists. split; [done|].
  destruct (buildGroups_refines _ _ _ _ _ Hc Hgs Ht Hb) as [G1 G2].
  assert (Hperm : forall g, ups g ≡ₚ entriesView roots order)
    by (intros g; unfold ups, entriesView; by rewrite (Hord g)).
  split; cbn.
  - intros n e. rewrite entriesView_snd, R1, lookup_indexEntries by done. cbn.
    rewrite lookup_empty. naive_solver.
  - by rewrite entriesView_snd, R2.
  - by rewrite R3.
  - intros u (x & -> & Hx)%list_elem_of_fmap. apply (T1 x Hx).
  - intros n Hn. unfold EntriesForUpstream in *. cbn. rewrite T2; [done|].
    intros Hn'. apply Hn. unfold entriesView. by rewrite <-!list_fmap_compose.
  - intros u (x & -> & Hx)%list_elem_of_fmap. unfold SpecRootForUpstream. cbn.
    by rewrite Hroot.
  - intros g Hg. destruct (G1 g Hg) as (d & ? & Hmem & ?). exists d.
    split_and!; [done| |done]. intros n. by rewrite Hmem, (groupMember_perm _ _ _ _ (Hperm g)).
  - done.
Qed.
End BuildingFacts.

(** ** Registries that answer alike

    Go does not fix the order in which a refresh visits the upstreams, so two
    rebuilds of the same entries may list the tools in different orders; every
    lookup and every dispatch is the same. *)
Definition groupEquiv (g1 g2 : option groupData) : Prop :=
  match g1, g2 with
  | None, None => True
  | Some d1, Some d2 => gd_toolSet d1 = gd_toolSet d2 /\ gd_toolList d1 ≡ₚ gd_toolList d2
  | _, _ => False
  end.

#[export] Instance Registry_equiv : Equiv Registry := fun r1 r2 =>
  byPrefixedName r1 = byPrefixedName r2 /\
  toolList r1 ≡ₚ toolList r2 /\
  separator r1 = separator r2 /\
  (forall n, EntriesForUpstream r1 n = EntriesForUpstream r2 n) /\
  (forall n, groupEquiv (groups r1 !! n) (groups r2 !! n)).

#[export] Instance groupEquiv_equivalence : Equivalence groupEquiv.
Proof.
  split.
  - by intros [d|].
  - intros [d1|] [d2|]; cbn; [|done..]. by intros [-> ->].
  - intros [d1|] [d2|] [d3|]; cbn; try done. by intros [-> ->].
Qed.

#[export] Instance Registry_equivalence : Equivalence (≡@{Registry}).
Proof.
  split.
  - intros r. by split_and!.
  - intros r1 r2 (?&?&?&?&?). by split_and!.
  - intros r1 r2 r3 (P1&T1&S1&H1&H2) (P2&T2&S2&H3&H4).
    split_and!; [congruence|by rewrite T1|congruence| |]; intros n.
    + by rewrite H1.
    + specialize (H2 n). specialize (H4 n). by etransitivity.
Qed.

#[export] Instance EntryForTool_proper : Proper ((≡) ==> (=) ==> (=)) EntryForTool.
Proof. intros r1 r2 (H&_) n ? <-. unfold EntryForTool. by rewrite H. Qed.

#[export] Instance AuthRequired_proper : Proper ((≡) ==> (=) ==> (=)) AuthRequired.
Proof. intros r1 r2 (H&_) n ? <-. unfold AuthRequired. by rewrite H. Qed.

#[export] Instance ToolsForGroup_proper : Proper ((≡) ==> (=) ==> (≡ₚ)) ToolsForGroup.
Proof.
  intros r1 r2 (_&_&_&_&H) n ? <-. specialize (H n). unfold ToolsForGroup.
  destruct (groups r1 !! n), (groups r2 !! n); try done. by destruct H.
Qed.

#[export] Instance DispatchForGroup_proper {W} (Execute : handle -> args -> W -> Reply * W) :
  Proper ((≡) ==> (=) ==> (=) ==> (=) ==> (=) ==> (=)) (DispatchForGroup Execute).
Proof.
  intros r1 r2 (Hn&_&_&_&Hg) g ? <- n ? <- a ? <- w ? <-. specialize (Hg g).
  unfold DispatchForGroup. rewrite Hn.
  destruct (groups r1 !! g), (groups r2 !! g); try done. cbn in Hg.
  destruct Hg as [-> _]. done.
Qed.

#[export] Instance Dispatch_proper {W} (Execute : handle -> args -> W -> Reply * W) :
  Proper ((≡) ==> (=) ==> (=) ==> (=) ==> (=)) (Dispatch Execute).
Proof.
  intros r1 r2 (Hn&_&Hs&_) n ? <- a ? <- w ? <-. unfold Dispatch. by rewrite Hn, Hs.
Qed.

Section Determined.
Context {JSONPath : Type} (NewPath : string -> option JSONPath).
Context (Query : JSONPath -> node -> list node).

Lemma toolsIn_perm s l1 l2 : l1 ≡ₚ l2 -> toolsIn s l1 ≡ₚ toolsIn s l2.
Proof. intros H. unfold toolsIn. by rewrite H. Qed.

Lemma toolsIn_ext s1 s2 l : s1 = s2 -> toolsIn s1 l = toolsIn s2 l.
Proof. by intros ->. Qed.

(** The abstract registry says everything a client can observe. *)
Lemma builtFrom_determines ups1 ups2 sep gs r1 r2 :
  ups1 ≡ₚ ups2 ->
  builtFrom NewPath Query ups1 sep gs r1 -> builtFrom NewPath Query ups2 sep gs r2 ->
  r1 ≡ r2.
Proof.
  intros Hp [I1 T1 S1 E1 N1 _ G1 O1] [I2 T2 S2 E2 N2 _ G2 O2].
  assert (Hall : ups1 ≫= snd ≡ₚ ups2 ≫= snd) by by apply bind_Permutation.
  assert (Ht : toolList r1 ≡ₚ toolList r2) by by rewrite T1, T2, Hall.
  split_and!; [|done|congruence| |].
  - apply map_eq. intros n. apply option_eq. intros e. by rewrite I1, I2, Hall.
  - intros n. destruct (decide (n ∈ ups1.*1.*1)) as [Hn|Hn].
    + apply list_elem_of_fmap in Hn as (y & -> & (u & -> & Hu)%list_elem_of_fmap).
      rewrite E1 by done. rewrite Hp in Hu. by rewrite E2.
    + rewrite N1 by done. rewrite N2; [done|]. by rewrite <-Hp.
  - intros n. destruct (decide (n ∈ gc_Name <$> gs)) as [Hn|Hn].
    + apply list_elem_of_fmap in Hn as (g & -> & Hg).
      destruct (G1 g Hg) as (d1 & -> & M1 & L1), (G2 g Hg) as (d2 & -> & M2 & L2). cbn.
      assert (Hs : gd_toolSet d1 = gd_toolSet d2).
      { apply set_eq. intros x. rewrite M1, M2. by apply groupMember_perm. }
      split; [done|]. rewrite L1, L2, Hs. by apply toolsIn_perm.
    + rewrite (O1 n Hn), (O2 n Hn). done.
Qed.

(** A registry as [New] builds it satisfies the hypotheses of a rebuild. *)
Lemma New_ok_facts ups naming gs r :
  New NewPath Query ups naming gs = Ok r ->
  NoDup (re_PrefixedName <$> allEntries ups) /\ Forall (filterValid NewPath) gs.
Proof.
  intros H. apply New_inv in H as (Hf & r0 & compiled & _ & Hc & _).
  split; [apply fresh_empty, Hf|]. apply (compileFilters_ok NewPath Query gs ∅). by rewrite Hc.
Qed.
End Determined.

(** ** Properties *)
Section Properties.
Context {JSONPath : Type} (NewPath : string -> option JSONPath).
Context (Query : JSONPath -> node -> list node).

Definition NewSucceedsWhen (ups : list ValidatedUpstream) (gs : list GroupConfig) : Prop :=
  NoDup ((fun vu => uc_ToolPrefix (vu_Config vu)) <$> ups) /\
  NoDup (re_PrefixedName <$> allEntries ups) /\
  Forall (filterValid NewPath) gs.

(** C19: C1: [New] succeeds exactly when no two upstreams share a tool prefix, no
    two tools share a prefixed name and every group filter parses. *)
Theorem New_ok_iff ups naming gs (Hwf : Forall entry_wf (allEntries ups)) :
  is_ok (New NewPath Query ups naming gs) = true <-> NewSucceedsWhen ups gs.
Proof.
  unfold New, NewSucceedsWhen.
  pose proof (checkSharedPrefixes_ok ups ∅) as Hpre. rewrite Forall_forall in Hpre.
  destruct (addUpstreams_spec ups (emptyRegistry (nc_Separator naming))) as [Hadd Hreg].
  cbn in Hadd. rewrite fresh_empty in Hadd.
  pose proof (compileFilters_ok NewPath Query gs ∅) as Hc.
  destruct (checkSharedPrefixes ∅ ups) as [[]|e]; cbn in *.
  2:{ split; [done|]. intros (?&_&_). apply Hpre. split; [done|]. intros. apply lookup_empty. }
  destruct (addUpstreams ups _) as [r0|e]; cbn in *; [|split; [done|tauto]].
  destruct (compileFilters NewPath ∅ gs) as [compiled|e]; cbn in *; [|split; [done|tauto]].
  assert (Ht : Forall is_Some (toolList r0)).
  { rewrite (rg_tools _ _ _ (Hreg r0 eq_refl) Hwf). by apply wf_tools. }
  pose proof (buildGroups_ok Query compiled (fun _ => vu_view <$> ups) _ gs ∅ Ht) as Hb.
  apply is_ok_true in Hb as (gd & ->). cbn. tauto.
Qed.

(** C18: whatever order the iteration over the upstreams takes, rebuilding a
    registry from the entries of one that [New] built succeeds and yields a
    registry no client can tell from it. *)
Theorem NewFromEntries_agrees ups naming gs r order gorder roots
    (Hnew : New NewPath Query ups naming gs = Ok r)
    (Hwf : Forall entry_wf (allEntries ups))
    (Hnames : NoDup (upstreamNames ups)) (Hgs : NoDup (gc_Name <$> gs))
    (Hroots : forall vu, vu ∈ ups ->
      roots !! uc_Name (vu_Config vu) = Some (vu_SpecYAMLRoot vu))
    (Horder : order ≡ₚ (fun vu => (uc_Name (vu_Config vu), vu_Entries vu)) <$> ups)
    (Hgorder : forall g, gorder g ≡ₚ order) :
  exists r', NewFromEntries NewPath Query order gorder roots naming gs = Ok r' /\ r' ≡ r.
Proof.
  destruct (New_ok_facts NewPath Query _ _ _ _ Hnew) as [Hnd Hfil].
  assert (Hall : order ≫= snd ≡ₚ allEntries ups).
  { rewrite (bind_Permutation snd _ _ Horder). clear. induction ups; cbn; [done|].
    by f_equiv. }
  destruct (NewFromEntries_builtFrom NewPath Query order gorder roots naming gs)
    as (r' & Hr' & Hb'); [by rewrite Hall|done| |done|by rewrite Hall|done|].
  { rewrite Horder, <-list_fmap_compose. done. }
  exists r'. split; [done|].
  eapply builtFrom_determines; [|exact Hb'|by apply New_builtFrom].
  unfold entriesView. rewrite Horder, <-list_fmap_compose. apply reflexive_eq.
  apply list_fmap_ext. intros i vu Hvu. cbn. unfold vu_view.
  by rewrite (Hroots vu) by by eapply list_elem_of_lookup_2.
Qed.

(** In a registry [New] built, a group holds exactly the tools of its
    upstreams that pass its filter, in the registry's order, and no group
    exists but the configured ones. *)
Theorem New_group_membership ups naming gs r
    (Hnew : New NewPath Query ups naming gs = Ok r)
    (Hwf : Forall entry_wf (allEntries ups))
    (Hnames : NoDup (upstreamNames ups)) (Hgs : NoDup (gc_Name <$> gs)) :
  (forall g, g ∈ gs -> forall t, t ∈ ToolsForGroup r (gc_Name g) <->
    Some t ∈ Tools r /\ groupMember NewPath Query (vu_view <$> ups) g (tool_Name t)) /\
  (forall g, g ∈ gs -> (Some <$> ToolsForGroup r (gc_Name g)) `sublist_of` Tools r) /\
  (forall n, n ∉ (gc_Name <$> gs) -> ToolsForGroup r n = []).
Proof.
  destruct (New_builtFrom NewPath Query _ _ _ _ Hnew Hnames Hgs Hwf)
    as [_ _ _ _ _ _ Hg Ho].
  unfold ToolsForGroup, Tools. split_and!.
  - intros g Hin t. destruct (Hg g Hin) as (gd & -> & Hmem & ->). rewrite <-Hmem.
    unfold toolsIn. rewrite list_elem_of_filter, list_elem_of_omap. cbn. naive_solver.
  - intros g Hin. destruct (Hg g Hin) as (gd & -> & _ & ->). unfold toolsIn.
    clear. induction (toolList r) as [|[t|] l IH]; cbn; [done| |by constructor].
    case_decide; cbn; by constructor.
  - intros n Hn. by rewrite (Ho n Hn).
Qed.

(** A dispatch through a group runs the executor registered under that
    name when the tool is a member, and otherwise answers with an [IsError]
    result and leaves the world as it is; the [unknown tool] branch is never
    taken. *)
Theorem DispatchForGroup_isolated {W} (Execute : handle -> args -> W -> Reply * W)
    ups naming gs r
    (Hnew : New NewPath Query ups naming gs = Ok r)
    (Hwf : Forall entry_wf (allEntries ups))
    (Hnames : NoDup (upstreamNames ups)) (Hgs : NoDup (gc_Name <$> gs)) g n a w :
  (g ∈ gs /\ groupMember NewPath Query (vu_view <$> ups) g n ->
     exists e, e ∈ allEntries ups /\ re_PrefixedName e = n /\ EntryForTool r n = Some e /\
     DispatchForGroup Execute r (gc_Name g) n a w = Execute (re_Executor e) a w) /\
  (g ∈ gs /\ ~ groupMember NewPath Query (vu_view <$> ups) g n ->
     DispatchForGroup Execute r (gc_Name g) n a w =
     (reply_ok (errorResult ("tool not available in this group: " +:+ n)), w)) /\
  (gc_Name g ∉ (gc_Name <$> gs) ->
     DispatchForGroup Execute r (gc_Name g) n a w =
     (reply_ok (errorResult ("unknown group: " +:+ gc_Name g)), w)).
Proof.
  destruct (New_builtFrom NewPath Query _ _ _ _ Hnew Hnames Hgs Hwf)
    as [Hidx _ _ _ _ _ Hg Ho].
  rewrite allEntries_views in Hidx. unfold DispatchForGroup, EntryForTool. split_and!.
  - intros [Hin Hm]. destruct (Hg g Hin) as (gd & -> & Hmem & _).
    rewrite decide_True by by apply Hmem.
    destruct Hm as (u & e & Hu & _ & He & _ & Hn).
    assert (He' : e ∈ allEntries ups).
    { rewrite <-allEntries_views. apply list_elem_of_bind. by exists u. }
    exists e. assert (byPrefixedName r !! n = Some e) as -> by by apply Hidx. done.
  - intros [Hin Hm]. destruct (Hg g Hin) as (gd & -> & Hmem & _).
    rewrite decide_False; [done|]. by rewrite Hmem.
  - intros Hn. by rewrite (Ho _ Hn).
Qed.
End Properties.

(** ** A sample registry, at which the theorems are applied *)
Module Sample.
Definition upstreamConfig (name prefix : string) : UpstreamConfig := {|
  uc_Name := name; uc_Enabled := true; uc_ToolPrefix := prefix; uc_Type := "http";
  uc_BaseURL := ""; uc_Cache := ""; uc_Timeout := 0; uc_TLSSkipVerify := false;
  uc_Headers := ∅; uc_Transport := zero_TransportConfig;
  uc_OpenAPI := zero_OpenAPISourceConfig; uc_Overlay := None;
  uc_StartupValidationTimeout := 0; uc_Validation := zero_ValidationConfig;
  uc_InboundAuthOverride := None; uc_OutboundAuth := zero_OutboundAuthConfig;
  uc_Commands := []; uc_Scripts := []; uc_RateLimit := ""; uc_CircuitBreaker := "";
  uc_AppUI := None; uc_JSScriptPool := None |}.

Definition upstream (ref : positive) (name prefix : string) : Upstream := {|
  up_ref := ref; up_Name := name; up_ToolPrefix := prefix; up_BaseURL := "";
  up_Client := None |}.

Definition entry (up : Upstream) (name : string) (n : option node) (exec : handle)
    : RegistryEntry := {|
  re_PrefixedName := name; re_OriginalName := name; re_Upstream := Some up;
  re_MCPTool := Some {| tool_Name := name; tool_Description := "";
                        tool_InputSchema := None; tool_ResourceUri := None |};
  re_Transforms := None; re_ResponseFormat := "json"; re_AuthRequired := true;
  re_Method := "GET"; re_PathTemplate := "/"; re_Validator := None;
  re_ValidationCfg := zero_ValidationConfig; re_OperationNode := n;
  re_Executor := exec; re_Handler := None; re_RateLimit := ""; re_UIHandler := None;
  re_CacheName := "" |}.

Definition pets := upstream 1 "pets" "pets".
Definition shop := upstream 2 "shop" "shop".
Definition petEntries := [entry pets "pets__list" (Some 11%positive) 1;
                          entry pets "pets__drop" (Some 12%positive) 2].
Definition shopEntries := [entry shop "shop__buy" None 3].

Definition upstreams : list ValidatedUpstream :=
  [{| vu_Config := upstreamConfig "pets" "pets"; vu_Entries := petEntries;
      vu_SpecYAMLRoot := Some 10%positive |};
   {| vu_Config := upstreamConfig "shop" "shop"; vu_Entries := shopEntries;
      vu_SpecYAMLRoot := None |}].

Definition naming : NamingConfig := {|
  nc_Separator := "__"; nc_MaxLength := 64; nc_ConflictResolution := "error";
  nc_DescriptionMaxLength := 0; nc_DescriptionTruncationSuffix := "";
  nc_DefaultSlugRules := zero_SlugRulesConfig |}.

Definition all : GroupConfig :=
  {| gc_Name := "all"; gc_Endpoint := "/mcp"; gc_Upstreams := ["pets"; "shop"];
     gc_Filter := "" |}.
Definition readers : GroupConfig :=
  {| gc_Name := "readers"; gc_Endpoint := "/read"; gc_Upstreams := ["pets"; "shop"];
     gc_Filter := "$.get" |}.
Definition groupConfigs := [all; readers].

(** A JSONPath engine with one filter, which selects node 11 of document 10. *)
Definition NewPath (s : string) : option unit :=
  if bool_decide (s = "$.get") then Some tt else None.
Definition Query (_ : unit) (n : node) : list node :=
  if bool_decide (n = 10%positive) then [11%positive] else [].

Definition registry : Registry :=
  match New NewPath Query upstreams naming groupConfigs with
  | Ok r => r
  | Err _ => emptyRegistry ""
  end.

Lemma registry_ok : New NewPath Query upstreams naming groupConfigs = Ok registry.
Proof. vm_compute. reflexivity. Qed.

Lemma upstreams_wf : Forall entry_wf (allEntries upstreams).
Proof. repeat constructor; eexists; split; reflexivity. Qed.

Lemma upstreams_names : NoDup (upstreamNames upstreams).
Proof. by apply (bool_decide_unpack _). Qed.

Lemma groups_names : NoDup (gc_Name <$> groupConfigs).
Proof. by apply (bool_decide_unpack _). Qed.

(** The group with the filter shows one of the two pet tools, and the shop
    tool, which has no operation node. *)
Example readers_tools :
  tool_Name <$> ToolsForGroup registry "readers" = ["pets__list"; "shop__buy"].
Proof. vm_compute. reflexivity. Qed.
End Sample.

Lemma New_ok_iff_witness :
  is_ok (New Sample.NewPath Sample.Query Sample.upstreams Sample.naming Sample.groupConfigs)
    = true.
Proof.
  apply New_ok_iff; [exact Sample.upstreams_wf|]. split_and!.
  - by apply (bool_decide_unpack _).
  - by apply (bool_decide_unpack _).
  - constructor; [by left|]. constructor; [right; by eexists|constructor].
Defined.

Lemma NewFromEntries_agrees_witness :
  exists r', NewFromEntries Sample.NewPath Sample.Query
    [("shop", Sample.shopEntries); ("pets", Sample.petEntries)]
    (fun _ => [("shop", Sample.shopEntries); ("pets", Sample.petEntries)])
    {["pets" := Some 10%positive; "shop" := None]} Sample.naming Sample.groupConfigs = Ok r' /\
    r' ≡ Sample.registry.
Proof.
  apply (NewFromEntries_agrees _ _ Sample.upstreams).
  - exact Sample.registry_ok.
  - exact Sample.upstreams_wf.
  - exact Sample.upstreams_names.
  - exact Sample.groups_names.
  - apply Forall_forall. repeat constructor.
  - apply Permutation_swap.
  - done.
Defined.

Lemma New_group_membership_witness :
  (Some <$> ToolsForGroup Sample.registry "readers") `sublist_of` Tools Sample.registry.
Proof.
  refine (proj1 (proj2 (New_group_membership _ _ _ _ _ _ Sample.registry_ok
    Sample.upstreams_wf Sample.upstreams_names Sample.groups_names)) Sample.readers _).
  right. left.
Defined.

(** The group of the pet readers does not run [pets__drop]. *)
Lemma DispatchForGroup_isolated_witness :
  DispatchForGroup (fun e _ w => (reply_ok (textResult ""), e :: w)) Sample.registry
    "readers" "pets__drop" [] [] =
  (reply_ok (errorResult "tool not available in this group: pets__drop"), []).
Proof.
  refine (proj1 (proj2 (DispatchForGroup_isolated _ _ _ _ _ _ _ Sample.registry_ok
    Sample.upstreams_wf Sample.upstreams_names Sample.groups_names Sample.readers
    "pets__drop" [] [])) _).
  split; [right; left|].
  intros (u & e & Hu & _ & He & Hp & Hn).
  repeat (apply elem_of_cons in Hu as [->|Hu]); [..|by apply not_elem_of_nil in Hu];
  repeat (apply elem_of_cons in He as [->|He]); try by apply not_elem_of_nil in He.
  all: try discriminate Hn.
  destruct (Hp tt 12%positive eq_refl eq_refl) as (rt & [= <-] & Hin).
  apply (bool_decide_pack _) in Hin. by vm_compute in Hin.
Defined.
