(* ===== verification/HttpUpstream.v ===== *)
(** * HTTP upstreams (pkg/upstream/http: builder.go, client.go, ui_factory.go)

    The registry entries of an upstream described by an OpenAPI document, built
    at configuration time from the validated tools.  The middleware registry is
    the one of [Registries]; the transport builder, the UI handler factory and
    the addresses of new objects are parameters. *)
From S2P Require Export Registries Validator ToolRegistry.
Open Scope Z_scope.

(** An HTTP middleware wraps a handler. *)
Abbreviation Middleware := (handle -> handle).
Abbreviation MiddlewareRegistry :=
  (Generic.Registry (OutboundAuthConfig -> result string Middleware)).

(** [http.Client] as [NewHTTPClient] assembles it *)
Record Client := {
  cl_Timeout : Z;
  cl_Transport : handle;
  (** [headerRoundTripper], when there are static headers *)
  cl_Headers : gmap string string
}.

Class HttpEnv := {
  middlewares : MiddlewareRegistry;
  (** [transport.NewBuilder().Build] *)
  BuildTransport : TransportConfig -> result string handle;
  allocClient : Client -> handle;
  (** [&Executor{entry: entry}] of a tool, and the transform middleware *)
  newExecutor : string -> handle;
  requestMiddleware : handle -> Middleware;
  (** the factory of [withui]; [None] when the package is not imported *)
  uiHandlerBuilder : option (ToolUIConfig -> option handle -> string -> string -> option handle ->
                             string -> result string handle)
}.

Inductive BuildError :=
  | UpstreamValidation (upstream : string) (err : ValidateError)
  | BuildOutboundAuth (upstream : string) (err : LookupError)
  | BuildingClient (upstream err : string)
  | LoadingUI (tool err : string)
  | LoadingPipeline (err : LoadError)
  | GeneratingToolList (err : GenerateError)
  | ValidatingEntry (tool : string) (err : ValidateError).

(** [init]: the builder of the type http and of upstreams without a type *)
Definition init_builders {B} (builder : B) (builders : Generic.Registry B) : Generic.Registry B :=
  Generic.Register (Generic.Register builders "http" builder) "" builder.

(** ** Extensions *)
Definition extractResponseFormat (op : Operation) : string :=
  match op_Extensions op !! "x-mcp-response-format" with
  | Some (VString (String _ _ as s)) => s
  | _ => "json"
  end.

Definition extractRateLimit (op : Operation) : string :=
  match op_Extensions op !! "x-mcp-rate-limit" with
  | Some (VString s) => TrimSpace s
  | _ => ""
  end.

Definition resolveCacheName (op : Operation) (upstreamDefault : string) : string :=
  match op_Extensions op !! "x-mcp-cache" with
  | Some (VString s) => s
  | _ => upstreamDefault
  end.

Definition extractAuthRequired (op : Operation) : bool :=
  match op_Extensions op !! "x-mcp-auth-required" with
  | Some (VBool v) => v
  | Some (VString v) => bool_decide (ToLower v <> "false")
  | _ => true
  end.

Section Builder.
Context `{HttpEnv}.

Definition set_InsecureSkipVerify (t : TransportConfig) : TransportConfig :=
  let tls := trc_TLS t in
  {| trc_MaxIdleConns := trc_MaxIdleConns t;
     trc_MaxIdleConnsPerHost := trc_MaxIdleConnsPerHost t;
     trc_IdleConnTimeout := trc_IdleConnTimeout t;
     trc_DialTimeout := trc_DialTimeout t;
     trc_DialKeepalive := trc_DialKeepalive t;
     trc_ResponseHeaderTimeout := trc_ResponseHeaderTimeout t;
     trc_ForceHTTP2 := trc_ForceHTTP2 t;
     trc_ProxyURL := trc_ProxyURL t;
     trc_TLS := {| tls_InsecureSkipVerify := true;
                   tls_MinVersion := tls_MinVersion tls; tls_MaxVersion := tls_MaxVersion tls;
                   tls_RootCAPath := tls_RootCAPath tls;
                   tls_ClientCertPath := tls_ClientCertPath tls;
                   tls_ClientKeyPath := tls_ClientKeyPath tls;
                   tls_ServerName := tls_ServerName tls;
                   tls_SessionCacheSize := tls_SessionCacheSize tls |} |}.

(** The telemetry wrapper is left out. *)
Definition NewHTTPClient (cfg : UpstreamConfig) : result string handle :=
  let transportCfg := if uc_TLSSkipVerify cfg then set_InsecureSkipVerify (uc_Transport cfg)
                      else uc_Transport cfg in
  match BuildTransport transportCfg with
  | Err err => Err err
  | Ok t => Ok (allocClient {| cl_Timeout := uc_Timeout cfg; cl_Transport := t;
                               cl_Headers := uc_Headers cfg |})
  end.

(** The factory is a variable of the package; the last registration holds. *)
Definition RegisterUIHandlerBuilder {A} (f : A) (uiHandlerBuilder : option A) : option A := Some f.

Definition buildUIHandler (cfg : ToolUIConfig) (pool : option handle)
    (toolName description : string) (schema : option handle) (resourceURI : string)
    : result string (option handle) :=
  match uiHandlerBuilder with
  | None => Ok None
  | Some f =>
    match f cfg pool toolName description schema resourceURI with
    | Err err => Err err
    | Ok handler => Ok (Some handler)
    end
  end.

Definition outboundStrategy (cfg : OutboundAuthConfig) : string :=
  if bool_decide (ouc_Strategy cfg = "") then "none" else ouc_Strategy cfg.

Definition set_Upstream (cfg : OutboundAuthConfig) (name : string) : OutboundAuthConfig :=
  {| ouc_Strategy := ouc_Strategy cfg; ouc_Bearer := ouc_Bearer cfg; ouc_APIKey := ouc_APIKey cfg;
     ouc_OAuth2ClientCredentials := ouc_OAuth2ClientCredentials cfg;
     ouc_OAuth2UserSession := ouc_OAuth2UserSession cfg; ouc_Lua := ouc_Lua cfg;
     ouc_JS := ouc_JS cfg; ouc_Upstream := name; ouc_JSAuthPool := ouc_JSAuthPool cfg;
     ouc_LuaAuthPool := ouc_LuaAuthPool cfg; ouc_OAuthTokenStore := ouc_OAuthTokenStore cfg;
     ouc_OAuthCallbackReg := ouc_OAuthCallbackReg cfg |}.

Definition newUpstream (cfg : UpstreamConfig) (ref : positive) (client : handle) : Upstream :=
  {| up_ref := ref; up_Name := uc_Name cfg; up_ToolPrefix := uc_ToolPrefix cfg;
     up_BaseURL := uc_BaseURL cfg; up_Client := Some client |}.

(** The handler chain: transform, then outbound auth, then the executor. *)
Definition composeHandler (outboundMW : Middleware) (transforms executor : handle) : handle :=
  requestMiddleware transforms (outboundMW executor).

(** The entry of one validated tool, before its UI handler. *)
Definition builtEntry (cfg : UpstreamConfig) (up : Upstream) (outboundMW : Middleware)
    (vt : ValidatedTool) : RegistryEntry :=
  let gt := vt_GeneratedTool vt in
  let op := gt_Operation gt in
  let rateLimit := extractRateLimit op in
  let rateLimit := if bool_decide (rateLimit = "") then uc_RateLimit cfg else rateLimit in
  let executor := newExecutor (gt_PrefixedName gt) in
  {| re_PrefixedName := gt_PrefixedName gt;
     re_OriginalName := gt_OriginalName gt;
     re_Upstream := Some up;
     re_MCPTool := Some (gt_MCPTool gt);
     re_Transforms := Some (vt_Transforms vt);
     re_ResponseFormat := extractResponseFormat op;
     re_AuthRequired := extractAuthRequired op;
     re_Method := gt_Method gt;
     re_PathTemplate := gt_PathTemplate gt;
     re_Validator := vt_Validator vt;
     re_ValidationCfg := uc_Validation cfg;
     re_OperationNode := gt_OperationNode gt;
     re_Executor := executor;
     re_Handler := Some (composeHandler outboundMW (vt_Transforms vt) executor);
     re_RateLimit := rateLimit;
     re_UIHandler := None;
     re_CacheName := resolveCacheName op (uc_Cache cfg) |}.

Definition set_UIHandler (e : RegistryEntry) (ui : option handle) : RegistryEntry :=
  {| re_PrefixedName := re_PrefixedName e; re_OriginalName := re_OriginalName e;
     re_Upstream := re_Upstream e; re_MCPTool := re_MCPTool e; re_Transforms := re_Transforms e;
     re_ResponseFormat := re_ResponseFormat e; re_AuthRequired := re_AuthRequired e;
     re_Method := re_Method e; re_PathTemplate := re_PathTemplate e;
     re_Validator := re_Validator e; re_ValidationCfg := re_ValidationCfg e;
     re_OperationNode := re_OperationNode e; re_Executor := re_Executor e;
     re_Handler := re_Handler e; re_RateLimit := re_RateLimit e; re_UIHandler := ui;
     re_CacheName := re_CacheName e |}.

Fixpoint buildEntries (cfg : UpstreamConfig) (up : Upstream) (outboundMW : Middleware)
    (tools : list ValidatedTool) : result BuildError (list RegistryEntry) :=
  match tools with
  | [] => Ok []
  | vt :: rest =>
    let gt := vt_GeneratedTool vt in
    let entry := builtEntry cfg up outboundMW vt in
    match gt_UIConfig gt with
    | None => cons entry <$> buildEntries cfg up outboundMW rest
    | Some uiCfg =>
      match buildUIHandler uiCfg (uc_JSScriptPool cfg) (gt_PrefixedName gt)
              (tool_Description (gt_MCPTool gt)) (tool_InputSchema (gt_MCPTool gt))
              ("ui://" +:+ gt_PrefixedName gt +:+ "/app") with
      | Err err => Err (LoadingUI (gt_PrefixedName gt) err)
      | Ok handler => cons (set_UIHandler entry handler) <$> buildEntries cfg up outboundMW rest
      end
    end
  end.

(** [validate] is the run of [ValidateUpstream] under the startup timeout;
    [ref] is the identity of the new [Upstream]. *)
Definition Build (validate : UpstreamConfig -> NamingConfig ->
      result ValidateError (list ValidatedTool * Node))
    (ref : positive) (cfg : UpstreamConfig) (naming : NamingConfig)
    : result BuildError ValidatedUpstream :=
  match validate cfg naming with
  | Err err => Err (UpstreamValidation (uc_Name cfg) err)
  | Ok (tools, specYAMLRoot) =>
    let outboundCfg := set_Upstream (uc_OutboundAuth cfg) (uc_Name cfg) in
    match newMiddleware middlewares ("outbound/" +:+ outboundStrategy outboundCfg) outboundCfg with
    | Err err => Err (BuildOutboundAuth (uc_Name cfg) err)
    | Ok outboundMW =>
      match NewHTTPClient cfg with
      | Err err => Err (BuildingClient (uc_Name cfg) err)
      | Ok client =>
        entries ← buildEntries cfg (newUpstream cfg ref client) outboundMW tools;
        Ok {| vu_Config := cfg; vu_Entries := entries;
              vu_SpecYAMLRoot := Some (n_addr specYAMLRoot) |}
      end
    end
  end.
End Builder.

(** ** What a built upstream is made of *)

(** The entry a validated tool gets, with its UI handler. *)
Definition entry_of `{HttpEnv} (cfg : UpstreamConfig) (up : Upstream) (mw : Middleware)
    (vt : ValidatedTool) (e : RegistryEntry) : Prop :=
  exists ui, e = set_UIHandler (builtEntry cfg up mw vt) ui /\
    (gt_UIConfig (vt_GeneratedTool vt) = None -> ui = None).

Lemma buildEntries_spec `{HttpEnv} cfg up mw tools entries :
  buildEntries cfg up mw tools = Ok entries -> Forall2 (entry_of cfg up mw) tools entries.
Proof.
  revert entries. induction tools as [|vt tools IH]; intros entries; cbn; [intros [= <-]; constructor|].
  destruct (gt_UIConfig (vt_GeneratedTool vt)) as [uiCfg|] eqn:Eui.
  - destruct (buildUIHandler _ _ _ _ _ _) as [handler|]; [|done].
    intros (rest & Hrest & <-)%fmap_Ok. constructor; [|by apply IH].
    exists handler. by split; [|rewrite Eui].
  - intros (rest & Hrest & <-)%fmap_Ok. constructor; [|by apply IH]. by exists None.
Qed.

(** An HTTP upstream that is built has one entry per validated tool, in the
    same order. All entries share one [Upstream] with the configuration's name,
    prefix and base URL; the operation's rate limit, cache and authentication
    extensions override the upstream's defaults, and an explicitly empty cache
    extension disables caching. *)
Theorem Build_entries `{HttpEnv} validate ref (cfg : UpstreamConfig) (naming : NamingConfig)
    (tools : list ValidatedTool) (root : Node) (vu : ValidatedUpstream)
    (Hval : validate cfg naming = Ok (tools, root))
    (Hbuild : HttpUpstream.Build validate ref cfg naming = Ok vu) :
  vu_Config vu = cfg /\
  exists client mw,
    let up := newUpstream cfg ref client in
    up_Name up = uc_Name cfg /\ up_ToolPrefix up = uc_ToolPrefix cfg /\
    Forall2 (entry_of cfg up mw) tools (vu_Entries vu) /\
    Forall2 (fun vt e =>
      let op := gt_Operation (vt_GeneratedTool vt) in
      re_PrefixedName e = gt_PrefixedName (vt_GeneratedTool vt) /\
      re_Upstream e = Some up /\
      (op_Extensions op !! "x-mcp-cache" = None -> re_CacheName e = uc_Cache cfg) /\
      (op_Extensions op !! "x-mcp-cache" = Some (VString "") -> re_CacheName e = "") /\
      (op_Extensions op !! "x-mcp-rate-limit" = None -> re_RateLimit e = uc_RateLimit cfg) /\
      (op_Extensions op !! "x-mcp-auth-required" = None -> re_AuthRequired e = true))
      tools (vu_Entries vu).
Proof.
  unfold HttpUpstream.Build in Hbuild. rewrite Hval in Hbuild.
  destruct (newMiddleware _ _ _) as [mw|]; [|done].
  destruct (NewHTTPClient cfg) as [client|]; [|done].
  apply bind_Ok in Hbuild as (entries & He & [= <-]). cbn. split; [done|].
  exists client, mw. apply buildEntries_spec in He. split_and!; [done..|].
  eapply Forall2_impl; [exact He|]. intros vt e (ui & -> & _). cbn.
  unfold resolveCacheName, extractRateLimit, extractAuthRequired.
  split_and!; [done|done|intros ->..]; done.
Qed.

(** ** A sample build *)
Module SampleBuild.
#[local] Instance httpEnv : HttpEnv := {|
  middlewares := Generic.Register Generic.zero "outbound/none" (fun _ => Ok (fun h => h));
  BuildTransport _ := Ok 11%positive;
  allocClient _ := 12%positive;
  newExecutor _ := 13%positive;
  requestMiddleware t h := h;
  uiHandlerBuilder := None |}.
Definition validated : ValidatedTool :=
  {| vt_GeneratedTool := SampleValidation.tool; vt_Transforms := 5%positive;
     vt_Validator := Some 7%positive |}.
Definition root : Node := YNode 1 DocumentNode "" [].
Definition validate (_ : UpstreamConfig) (_ : NamingConfig)
    : result ValidateError (list ValidatedTool * Node) := Ok ([validated], root).
End SampleBuild.

Lemma Build_entries_witness :
  exists vu, @Build SampleBuild.httpEnv SampleBuild.validate 1 zero_UpstreamConfig
      (SampleDoc.naming "error") = Ok vu /\
    length (vu_Entries vu) = 1%nat /\ Forall (fun e => re_AuthRequired e = true) (vu_Entries vu).
Proof.
  eexists. split; [reflexivity|].
  destruct (@Build_entries SampleBuild.httpEnv SampleBuild.validate 1 zero_UpstreamConfig
    (SampleDoc.naming "error") [SampleBuild.validated] SampleBuild.root _ eq_refl eq_refl)
    as (_ & client & mw & _ & _ & _ & Hf).
  split; [reflexivity|].
  inversion Hf as [|vt e l k He Hk]; subst. inversion Hk; subst. constructor; [|constructor].
  by apply He.
Defined.
