(* ===== verification/Content.v ===== *)
(** * Response bodies (pkg/content: format.go, error.go)

    How an upstream's response becomes MCP content: the format that decides the
    conversion, the jq transforms of JSON and text bodies, and the error result.
    A JSON text is parsed by the [JsonText] parameter into its value, with an
    integer literal as a [VInt] and repeated keys merged; decoding it into an
    [any] makes every number a float ([reparse]). *)
From S2P Require Export Transform.
Open Scope Z_scope.

Class JsonText := { ParseJSON : string -> option value }.

(** [json.Unmarshal] into an [any] *)
Definition Unmarshal `{JsonText} (body : string) : option value := ParseJSON body ≫= reparse.

(** ** Formats *)
Definition FormatJSON : string := "json".
Definition FormatText : string := "text".
Definition FormatImage : string := "image".
Definition FormatAudio : string := "audio".
Definition FormatBinary : string := "binary".
Definition FormatAuto : string := "auto".

Definition semicolon : ascii := ";"%char.

Definition stripMIMEParams (contentType : string) : string :=
  TrimSpace (before_byte semicolon contentType).

Definition Detect (configured contentType : string) : string :=
  if bool_decide (configured <> FormatAuto) then configured
  else
    let ct := ToLower (TrimSpace (before_byte semicolon contentType)) in
    if bool_decide (ct = "application/json") || HasSuffix ct "+json" then FormatJSON
    else if HasPrefix ct "text/" then FormatText
    else if HasPrefix ct "image/" then FormatImage
    else if HasPrefix ct "audio/" then FormatAudio
    else FormatBinary.

(** ** Conversion *)
Inductive ContentError :=
  | UnmarshalJSONBody
  | ResponseTransformFailed (err : JqError).

Section Conversion.
Context `{Gojq, Numbers, JsonText}.

(** The same loop as [transform]'s. *)
Definition runOnce (code : Code) (input : value) : result JqError value :=
  drain None (outputs code input).

(** The encoder ends its text with a newline, which is trimmed. *)
Definition marshalToString (v : value) : string :=
  match v with
  | VString s => s
  | _ => match Marshal FormatFloat false v with
         | None => Sprint v
         | Some t => TrimRight (t +:+ newline) (ascii_of_N 10)
         end
  end.

(** The JSON case, which is also the default. *)
Definition jsonContent (body : string) (responseTransform : option Code)
    : result ContentError (list Content) :=
  match Unmarshal body with
  | None => Err UnmarshalJSONBody
  | Some parsed =>
    match responseTransform with
    | None => Ok [TextContent (marshalToString parsed)]
    | Some code =>
      match runOnce code parsed with
      | Err err => Err (ResponseTransformFailed err)
      | Ok transformed => Ok [TextContent (marshalToString transformed)]
      end
    end
  end.

Definition ToMCPContent (format body contentType : string) (responseTransform : option Code)
    : result ContentError (list Content) :=
  let mimeType := stripMIMEParams contentType in
  if bool_decide (format = FormatJSON) then jsonContent body responseTransform
  else if bool_decide (format = FormatText) then
    match responseTransform with
    | None => Ok [TextContent body]
    | Some code =>
      match runOnce code (VString body) with
      | Err err => Err (ResponseTransformFailed err)
      | Ok transformed => Ok [TextContent (marshalToString transformed)]
      end
    end
  else if bool_decide (format = FormatImage) then Ok [ImageContent body mimeType]
  else if bool_decide (format = FormatAudio) then Ok [AudioContent body mimeType]
  else if bool_decide (format = FormatBinary) then Ok [EmbeddedResource mimeType body]
  else jsonContent body responseTransform.

(** ** Error bodies *)
Record ProblemDetail := {
  pd_Type : string;
  pd_Title : string;
  pd_Status : Z;
  pd_Detail : string;
  pd_Instance : string
}.
Definition zero_ProblemDetail : ProblemDetail :=
  {| pd_Type := ""; pd_Title := ""; pd_Status := 0; pd_Detail := ""; pd_Instance := "" |}.

(** A member of the object sets the field whose name it equals up to case; [null]
    leaves it alone and a value of another type is an error. *)
Definition decodeString (old : string) (v : value) : option string :=
  match v with VNull => Some old | VString s => Some (of_runes (runes s)) | _ => None end.
Definition decodeInt (old : Z) (v : value) : option Z :=
  match v with
  | VNull => Some old
  | VInt n => if (- 2 ^ 63 <=? n) && (n <? 2 ^ 63) then Some n else None
  | _ => None
  end.

Definition problemField (pd : ProblemDetail) (kv : string * value) : option ProblemDetail :=
  let '(k, v) := kv in
  if is_field "type" k then
    s ← decodeString (pd_Type pd) v;
    Some {| pd_Type := s; pd_Title := pd_Title pd; pd_Status := pd_Status pd;
            pd_Detail := pd_Detail pd; pd_Instance := pd_Instance pd |}
  else if is_field "title" k then
    s ← decodeString (pd_Title pd) v;
    Some {| pd_Type := pd_Type pd; pd_Title := s; pd_Status := pd_Status pd;
            pd_Detail := pd_Detail pd; pd_Instance := pd_Instance pd |}
  else if is_field "status" k then
    n ← decodeInt (pd_Status pd) v;
    Some {| pd_Type := pd_Type pd; pd_Title := pd_Title pd; pd_Status := n;
            pd_Detail := pd_Detail pd; pd_Instance := pd_Instance pd |}
  else if is_field "detail" k then
    s ← decodeString (pd_Detail pd) v;
    Some {| pd_Type := pd_Type pd; pd_Title := pd_Title pd; pd_Status := pd_Status pd;
            pd_Detail := s; pd_Instance := pd_Instance pd |}
  else if is_field "instance" k then
    s ← decodeString (pd_Instance pd) v;
    Some {| pd_Type := pd_Type pd; pd_Title := pd_Title pd; pd_Status := pd_Status pd;
            pd_Detail := pd_Detail pd; pd_Instance := s |}
  else Some pd.

Fixpoint problemFields (pd : ProblemDetail) (kvs : list (string * value)) : option ProblemDetail :=
  match kvs with
  | [] => Some pd
  | kv :: kvs' => pd' ← problemField pd kv; problemFields pd' kvs'
  end.

(** [json.Unmarshal] into a [ProblemDetail] *)
Definition unmarshalProblem (body : string) : option ProblemDetail :=
  match ParseJSON body with
  | Some VNull => Some zero_ProblemDetail
  | Some (VObject kvs) => problemFields zero_ProblemDetail kvs
  | _ => None
  end.

Definition problemMap (pd : ProblemDetail) : value :=
  VObject [("type", VString (pd_Type pd)); ("title", VString (pd_Title pd));
           ("status", VInt (pd_Status pd)); ("detail", VString (pd_Detail pd));
           ("instance", VString (pd_Instance pd))].

Definition ParseErrorBody (body contentType : string) : value :=
  let ct := ToLower (TrimSpace (before_byte semicolon contentType)) in
  let generic := match Unmarshal body with Some v => v | None => VString body end in
  if bool_decide (ct = "application/problem+json") then
    match unmarshalProblem body with
    | Some pd => problemMap pd
    | None => generic
    end
  else generic.

(** [m["status"] = statusCode] unless it is there and not nil *)
Definition withStatus (statusCode : Z) (parsed : value) : value :=
  match parsed with
  | VObject kvs =>
    match assoc "status" kvs with
    | None | Some VNull =>
      VObject (filter (fun kv => kv.1 <> "status") kvs ++ [("status", VInt statusCode)])
    | Some _ => parsed
    end
  | _ => parsed
  end.

Definition ToErrorResult (body contentType : string) (statusCode : Z) (errorTransform : Code)
    : CallToolResult :=
  let parsed := withStatus statusCode (ParseErrorBody body contentType) in
  let transformed :=
    match runOnce errorTransform parsed with
    | Ok v => v
    | Err _ => VObject [("error", VString ("upstream returned " +:+ pretty statusCode));
                        ("body", VString body)]
    end in
  {| res_IsError := true; res_Content := [TextContent (marshalToString transformed)] |}.
End Conversion.

(** ** What an error transform gets to see *)
Lemma assoc_app {A} k (kvs1 kvs2 : list (string * A)) :
  assoc k (kvs1 ++ kvs2) = match assoc k kvs1 with Some v => Some v | None => assoc k kvs2 end.
Proof. induction kvs1 as [|[k' v'] kvs1 IH]; cbn; [done|]. by case_decide. Qed.

Lemma assoc_filter_ne {A} k k' (kvs : list (string * A)) :
  assoc k (filter (fun kv => kv.1 <> k') kvs) = if decide (k = k') then None else assoc k kvs.
Proof.
  induction kvs as [|[k0 v0] kvs IH]; [cbn; by case_decide|]. rewrite filter_cons. cbn.
  repeat case_decide; cbn; rewrite ?IH; repeat case_decide; simplify_eq; done.
Qed.

Lemma withStatus_object code kvs :
  exists kvs', withStatus code (VObject kvs) = VObject kvs' /\
    (forall k, k <> "status" -> assoc k kvs' = assoc k kvs) /\
    assoc "status" kvs' = match assoc "status" kvs with
                          | None | Some VNull => Some (VInt code)
                          | st => st
                          end.
Proof.
  unfold withStatus. destruct (assoc "status" kvs) as [v|] eqn:E; [destruct v|].
  all: eexists; split; [done|]; split; [intros k Hk|]; try done.
  all: rewrite assoc_app, assoc_filter_ne; repeat case_decide; simplify_eq; try done.
  all: destruct (assoc k kvs); cbn; [done|]; by rewrite decide_False.
Qed.

Lemma problemFields_status pd kvs pd' :
  Forall (fun k => ToLower k <> "status") kvs.*1 -> problemFields pd kvs = Some pd' ->
  pd_Status pd' = pd_Status pd.
Proof.
  revert pd. induction kvs as [|[k v] kvs IH]; cbn; intros pd Hk Hpd; [by injection Hpd as <-|].
  apply Forall_cons in Hk as [Hk Hks]. apply bind_Some in Hpd as (pd1 & H1 & H2).
  rewrite (IH pd1 Hks H2). unfold problemField, is_field in H1.
  rewrite (bool_decide_false (ToLower k = "status")) in H1 by done.
  repeat case_bool_decide; try (apply bind_Some in H1 as (s & _ & H1)); by injection H1 as <-.
Qed.

(** What the error transform of an object body sees. Its members are the body's
    own; [status] is the body's where it has one and the HTTP status where it is
    missing or null. *)
Theorem error_input_status `{JsonText} (body contentType : string) (code : Z)
    (kvs : list (string * value))
    (Htype : ToLower (TrimSpace (before_byte semicolon contentType)) <> "application/problem+json")
    (Hbody : Unmarshal body = Some (VObject kvs)) :
  exists kvs', withStatus code (ParseErrorBody body contentType) = VObject kvs' /\
    (forall k, k <> "status" -> assoc k kvs' = assoc k kvs) /\
    assoc "status" kvs' = match assoc "status" kvs with
                          | None | Some VNull => Some (VInt code)
                          | st => st
                          end.
Proof.
  unfold ParseErrorBody. rewrite bool_decide_false by done. rewrite Hbody.
  apply withStatus_object.
Qed.

(** A problem detail loses the HTTP status. RFC 9457 makes every member
    optional, but the struct's zero [status] is not nil, so the transform of a
    problem body without one is told status 0 whatever the response's was. *)
Theorem problem_status_lost `{JsonText} (body contentType : string) (code : Z)
    (kvs : list (string * value)) (pd : ProblemDetail)
    (Htype : ToLower (TrimSpace (before_byte semicolon contentType)) = "application/problem+json")
    (Hbody : ParseJSON body = Some (VObject kvs))
    (Hpd : problemFields zero_ProblemDetail kvs = Some pd)
    (Hnone : Forall (fun k => ToLower k <> "status") kvs.*1) :
  exists kvs', withStatus code (ParseErrorBody body contentType) = VObject kvs' /\
    assoc "status" kvs' = Some (VInt 0) /\ assoc "title" kvs' = Some (VString (pd_Title pd)).
Proof.
  unfold ParseErrorBody, unmarshalProblem. rewrite bool_decide_true by done. rewrite Hbody, Hpd.
  pose proof (problemFields_status _ _ _ Hnone Hpd) as Hs.
  unfold problemMap, withStatus. cbn. rewrite Hs. by eexists.
Qed.

(** ** Sample bodies *)
Module SampleBodies.
(** A parser that knows two texts. *)
#[local] Instance json : JsonText := {|
  ParseJSON s :=
    if decide (s = "problem") then Some (VObject [("title", VString "Gone"); ("detail", VNull)])
    else if decide (s = "object") then Some (VObject [("code", VInt 7); ("status", VNull)])
    else None |}.
End SampleBodies.

Lemma error_input_status_witness :
  exists kvs', withStatus 404 (@ParseErrorBody SampleBodies.json "object" "application/json")
      = VObject kvs' /\ assoc "status" kvs' = Some (VInt 404).
Proof.
  destruct (@error_input_status SampleBodies.json "object" "application/json" 404
    [("code", VFloat (S754_finite false 7881299347898368 (-50))); ("status", VNull)])
    as (kvs' & H1 & _ & H2).
  - vm_compute. discriminate.
  - vm_compute. reflexivity.
  - exists kvs'. split; [exact H1|exact H2].
Defined.

Lemma problem_status_lost_witness :
  exists kvs', withStatus 410 (@ParseErrorBody SampleBodies.json "problem"
      "application/problem+json; charset=utf-8") = VObject kvs' /\
    assoc "status" kvs' = Some (VInt 0) /\ assoc "title" kvs' = Some (VString "Gone").
Proof.
  apply (@problem_status_lost SampleBodies.json "problem"
    "application/problem+json; charset=utf-8" 410 [("title", VString "Gone"); ("detail", VNull)]
    {| pd_Type := ""; pd_Title := "Gone"; pd_Status := 0; pd_Detail := ""; pd_Instance := "" |}).
  - vm_compute. reflexivity.
  - reflexivity.
  - vm_compute. reflexivity.
  - repeat constructor; vm_compute; discriminate.
Defined.
