(* ===== verification/Url.v ===== *)
(** * URLs and headers (net/url, net/textproto)

    The escaping of path segments and query components, the encoding and parsing
    of query strings, and the canonical form of header names, as far as
    pkg/upstream/http/executor.go uses them.  The lemmas are round trips:
    whoever decodes what the program encoded gets the program's values back. *)
From S2P Require Export Json.
Open Scope Z_scope.

(** ** Percent escaping *)
Definition percent : ascii := "%"%char.
Definition is_unreserved (c : ascii) : bool :=
  is_alnum c || bool_decide (c ∈ explode "-_.~").

Definition upper_hex (n : N) : ascii :=
  if (n <? 10)%N then byte_of (48 + n) else byte_of (55 + n).
Definition escape_byte (c : ascii) : list ascii :=
  [percent; upper_hex (of_byte c / 16); upper_hex (of_byte c mod 16)].

(** One byte of [url.PathEscape] and of [url.QueryEscape] *)
Definition path_byte (c : ascii) : list ascii :=
  if is_unreserved c || bool_decide (c ∈ explode "$&+:=@") then [c] else escape_byte c.
Definition query_byte (c : ascii) : list ascii :=
  if is_unreserved c then [c]
  else if bool_decide (c = " "%char) then ["+"%char] else escape_byte c.

Definition PathEscape (s : string) : string := implode (explode s ≫= path_byte).
Definition QueryEscape (s : string) : string := implode (explode s ≫= query_byte).

Definition unhex (c : ascii) : option N :=
  let n := of_byte c in
  if is_digit c then Some (n - 48)%N
  else if in_range 97 102 c then Some (n - 87)%N
  else if in_range 65 70 c then Some (n - 55)%N
  else None.

(** [url.PathUnescape] and, with [plus], [url.QueryUnescape] *)
Fixpoint unescape (plus : bool) (s : list ascii) : option (list ascii) :=
  match s with
  | [] => Some []
  | c :: s' =>
    if bool_decide (c = percent) then
      match s' with
      | h :: l :: rest =>
        n ← unhex h; m ← unhex l; cons (byte_of (n * 16 + m)) <$> unescape plus rest
      | _ => None
      end
    else cons (if plus && bool_decide (c = "+"%char) then " "%char else c) <$> unescape plus s'
  end.

Definition PathUnescape (s : string) : option string := implode <$> unescape false (explode s).
Definition QueryUnescape (s : string) : option string := implode <$> unescape true (explode s).

(** ** Query strings *)

(** [url.Values] *)
Abbreviation Values := (gmap string (list string)).

Definition Values_Add (m : Values) (k v : string) : Values := <[k := default [] (m !! k) ++ [v]]> m.
Definition Values_Set (m : Values) (k v : string) : Values := <[k := [v]]> m.

Definition ampersand : ascii := "&"%char.
Definition equals : ascii := "="%char.

(** One [key=value] piece; malformed ones are skipped. *)
Definition parsePiece (m : Values) (piece : string) : Values :=
  if bool_decide (";"%char ∈ explode piece) || bool_decide (piece = "") then m
  else
    let '(k, v) := default (piece, "") (cut_byte equals piece) in
    match QueryUnescape k, QueryUnescape v with
    | Some k, Some v => Values_Add m k v
    | _, _ => m
    end.

Definition ParseQuery (query : string) : Values := foldl parsePiece ∅ (split_byte ampersand query).

Definition encodeKey (m : Values) (k : string) : list string :=
  (fun v => QueryEscape k +:+ String equals (QueryEscape v)) <$> default [] (m !! k).

(** [Values.Encode]: the keys in sorted order *)
Definition Encode (m : Values) : string :=
  Join (sort_strings (map_to_list m).*1 ≫= encodeKey m) (String ampersand "").

(** ** Header names *)
Definition is_token_char (c : ascii) : bool :=
  is_alnum c || bool_decide (c ∈ explode "!#$%&'*+-.^_`|~").

Fixpoint canonical_go (upper : bool) (s : list ascii) : list ascii :=
  match s with
  | [] => []
  | c :: s' =>
    (if upper then upper_char c else lower_char c)
      :: canonical_go (bool_decide (c = "-"%char)) s'
  end.

(** [http.CanonicalHeaderKey]: a name that is no token stays as it is. *)
Definition CanonicalHeaderKey (k : string) : string :=
  if forallb is_token_char (explode k) then implode (canonical_go true (explode k)) else k.

(** ** Decoding gives the value back *)
Lemma unescape_path c rest :
  unescape false (path_byte c ++ rest) = cons c <$> unescape false rest.
Proof. destruct c as [[] [] [] [] [] [] [] []]; reflexivity. Qed.

Lemma unescape_query c rest :
  unescape true (query_byte c ++ rest) = cons c <$> unescape true rest.
Proof. destruct c as [[] [] [] [] [] [] [] []]; reflexivity. Qed.

Lemma PathUnescape_PathEscape s : PathUnescape (PathEscape s) = Some s.
Proof.
  unfold PathUnescape, PathEscape. rewrite explode_implode.
  assert (H : unescape false (explode s ≫= path_byte) = Some (explode s)).
  { induction (explode s) as [|c l IH]; [done|]. cbn [mbind list_bind].
    by rewrite unescape_path, IH. }
  rewrite H. cbn. by rewrite implode_explode.
Qed.

Lemma QueryUnescape_QueryEscape s : QueryUnescape (QueryEscape s) = Some s.
Proof.
  unfold QueryUnescape, QueryEscape. rewrite explode_implode.
  assert (H : unescape true (explode s ≫= query_byte) = Some (explode s)).
  { induction (explode s) as [|c l IH]; [done|]. cbn [mbind list_bind].
    by rewrite unescape_query, IH. }
  rewrite H. cbn. by rewrite implode_explode.
Qed.

(** The bytes an escaped text is made of. *)
Definition path_safe (c : ascii) : bool :=
  is_unreserved c || bool_decide (c ∈ explode "$&+:=@%").
Definition query_safe (c : ascii) : bool := is_unreserved c || bool_decide (c ∈ explode "+%").

Lemma path_byte_safe c : forallb path_safe (path_byte c) = true.
Proof. destruct c as [[] [] [] [] [] [] [] []]; reflexivity. Qed.
Lemma query_byte_safe c : forallb query_safe (query_byte c) = true.
Proof. destruct c as [[] [] [] [] [] [] [] []]; reflexivity. Qed.

Lemma elem_of_forallb {A} (p : A -> bool) l x : forallb p l = true -> x ∈ l -> p x = true.
Proof. rewrite forallb_forall. intros H Hx. by apply H, list_elem_of_In. Qed.

Lemma PathEscape_safe s c : c ∈ explode (PathEscape s) -> path_safe c = true.
Proof.
  unfold PathEscape. rewrite explode_implode. intros (b & Hc & _)%list_elem_of_bind.
  by eapply elem_of_forallb; [apply path_byte_safe|].
Qed.

Lemma QueryEscape_safe s c : c ∈ explode (QueryEscape s) -> query_safe c = true.
Proof.
  unfold QueryEscape. rewrite explode_implode. intros (b & Hc & _)%list_elem_of_bind.
  by eapply elem_of_forallb; [apply query_byte_safe|].
Qed.

(** ** Splitting at a separator *)
Lemma split_byte_none c s : c ∉ explode s -> split_byte c s = [s].
Proof.
  induction s as [|d s IH]; [done|]. cbn. intros Hc.
  rewrite bool_decide_false by set_solver. by rewrite IH by set_solver.
Qed.

Lemma split_byte_app c p s :
  c ∉ explode p -> split_byte c (p +:+ String c s) = p :: split_byte c s.
Proof.
  induction p as [|d p IH].
  - intros _. change ("" +:+ String c s) with (String c s). cbn [split_byte].
    by rewrite bool_decide_true.
  - rewrite string_app_cons. cbn [split_byte String.list_ascii_of_string]. intros Hc.
    rewrite bool_decide_false by set_solver. by rewrite IH by set_solver.
Qed.

Lemma split_byte_Join c parts :
  Forall (fun p => c ∉ explode p) parts -> parts <> [] ->
  split_byte c (Join parts (String c "")) = parts.
Proof.
  induction 1 as [|p parts Hp Hps IH]; [done|]. intros _.
  destruct parts as [|q parts]; [by apply split_byte_none|].
  change (Join (p :: q :: parts) (String c "")) with (p +:+ String c (Join (q :: parts) (String c ""))).
  rewrite split_byte_app by done. by rewrite IH.
Qed.

(** ** Parsing an encoded query *)
Lemma parsePiece_encoded m k v :
  parsePiece m (QueryEscape k +:+ String equals (QueryEscape v)) = Values_Add m k v.
Proof.
  assert (Hk : forall c, query_safe c = false -> c ∉ explode (QueryEscape k))
    by (intros c Hc Hin%QueryEscape_safe; congruence).
  assert (Hv : forall c, query_safe c = false -> c ∉ explode (QueryEscape v))
    by (intros c Hc Hin%QueryEscape_safe; congruence).
  unfold parsePiece. rewrite bool_decide_false.
  - rewrite bool_decide_false.
    + cbn [orb]. rewrite cut_byte_app by by apply Hk. cbn [default from_option id].
      by rewrite !QueryUnescape_QueryEscape.
    + intros H%(f_equal explode). rewrite explode_app in H. cbn in H.
      by destruct (explode (QueryEscape k)).
  - rewrite explode_app. cbn. rewrite elem_of_app, elem_of_cons.
    intros [H|[H|H]]; [by apply (Hk ";"%char) in H|done|by apply (Hv ";"%char) in H].
Qed.

Definition addPair (m : Values) (kv : string * string) : Values := Values_Add m kv.1 kv.2.

Lemma addPairs_lookup ps (m : Values) k :
  foldl addPair m ps !! k =
    match snd <$> filter (fun kv => kv.1 = k) ps with
    | [] => m !! k
    | vs => Some (default [] (m !! k) ++ vs)
    end.
Proof.
  revert m. induction ps as [|[k' v] ps IH]; intros m; [done|]. cbn [foldl]. rewrite IH, filter_cons.
  unfold addPair, Values_Add. cbn [fst snd]. case_decide as Hk; subst.
  - rewrite lookup_insert_eq. cbn. destruct (snd <$> filter _ ps); [done|].
    by rewrite <-app_assoc.
  - by rewrite lookup_insert_ne.
Qed.

Definition pairsOf (m : Values) (ks : list string) : list (string * string) :=
  ks ≫= fun k => pair k <$> default [] (m !! k).

Lemma pairsOf_values m ks k : NoDup ks ->
  snd <$> filter (fun kv => kv.1 = k) (pairsOf m ks) =
    if decide (k ∈ ks) then default [] (m !! k) else [].
Proof.
  induction 1 as [|k' ks Hnot Hnd IH]; [done|]. cbn [pairsOf mbind list_bind].
  rewrite filter_app, fmap_app. fold (pairsOf m ks). rewrite IH. clear IH.
  assert (Hself : snd <$> filter (fun kv => kv.1 = k) (pair k' <$> default [] (m !! k')) =
    if decide (k' = k) then default [] (m !! k') else []).
  { induction (default [] (m !! k')) as [|v vs IH]; [by case_decide|].
    change (pair k' <$> v :: vs) with ((k', v) :: (pair k' <$> vs)). rewrite filter_cons. cbn [fst].
    case_decide; [by rewrite fmap_cons, IH|done]. }
  rewrite Hself. case_decide as Hk; subst.
  - rewrite decide_False by done. rewrite decide_True by by left. by rewrite app_nil_r.
  - case_decide as Hin; [by rewrite decide_True by by right|]. by rewrite decide_False by set_solver.
Qed.

Lemma foldl_parsePiece m keys (acc : Values) :
  foldl parsePiece acc (keys ≫= encodeKey m) = foldl addPair acc (pairsOf m keys).
Proof.
  revert acc. induction keys as [|k keys IH]; intros acc; [done|].
  cbn [pairsOf mbind list_bind]. fold (pairsOf m keys). rewrite !foldl_app.
  assert (Hself : foldl parsePiece acc (encodeKey m k) =
                  foldl addPair acc (pair k <$> default [] (m !! k))).
  { unfold encodeKey. revert acc. induction (default [] (m !! k)) as [|v vs IHv]; intros acc; [done|].
    cbn [fmap list_fmap foldl]. by rewrite parsePiece_encoded, IHv. }
  rewrite Hself. apply IH.
Qed.

(** A query string gives its values back. *)
Lemma ParseQuery_Encode (m : Values) : map_Forall (fun _ vs => vs <> []) m ->
  ParseQuery (Encode m) = m.
Proof.
  intros Hm. set (keys := sort_strings (map_to_list m).*1).
  assert (Hkeys : NoDup keys /\ forall k, k ∈ keys <-> is_Some (m !! k)).
  { unfold keys. split; [rewrite sort_strings_perm; apply NoDup_fst_map_to_list|].
    intros k. rewrite sort_strings_perm, list_elem_of_fmap. split.
    - intros ([k' v] & -> & Hin%elem_of_map_to_list). by eexists.
    - intros [v Hv%elem_of_map_to_list]. by exists (k, v). }
  destruct Hkeys as [Hnd Hin].
  assert (Hpieces : ParseQuery (Encode m) = foldl parsePiece ∅ (keys ≫= encodeKey m)).
  { unfold ParseQuery, Encode. fold keys.
    destruct (decide (keys ≫= encodeKey m = [])) as [->|Hne]; [done|].
    rewrite split_byte_Join; [done| |done].
    apply Forall_forall. intros p (k & Hp & _)%list_elem_of_bind.
    unfold encodeKey in Hp. apply list_elem_of_fmap in Hp as (v & -> & _).
    rewrite explode_app. cbn. rewrite elem_of_app, elem_of_cons.
    intros [H%QueryEscape_safe|[H|H%QueryEscape_safe]]; done. }
  rewrite Hpieces, foldl_parsePiece. apply map_eq. intros k.
  rewrite addPairs_lookup, pairsOf_values, lookup_empty by done.
  destruct (m !! k) as [vs|] eqn:E.
  - rewrite decide_True by (by apply Hin; rewrite E). cbn.
    specialize (Hm k vs E). by destruct vs.
  - rewrite decide_False; [done|]. intros H%Hin. rewrite E in H. by destruct H.
Qed.
