(* ===== verification/TypeGen.v ===== *)
(** * The generator of the resource types (internal/crdutil/typegen.go)

    spec_gen.go is derived from pkg/config/config.go: eight structs are renamed,
    [koanf] tags become [json] tags in camel case, [time.Duration] becomes string.
    The Go parser, the formatter and the file system are parameters; the syntax
    tree, the conversion and the rendering are not. *)
From S2P Require Export Url.
Open Scope Z_scope.

(** ** go/ast, as far as it is read

    A comment group is its [Text()]. *)
Inductive Expr :=
  | Ident (name : string)
  | SelectorExpr (x : Expr) (sel : string)
  | StarExpr (x : Expr)
  | ArrayType (elt : Expr)
  | MapType (key value : Expr)
  | OtherExpr (kind : string).

Record Field := {
  fd_Doc : option string;
  fd_Names : list string;
  fd_Type : Expr;
  fd_Tag : option string;
  fd_Comment : option string
}.

Inductive TypeDef :=
  | StructType (fields : list Field)
  | OtherType (kind : string).

Record TypeSpec := {
  ts_Doc : option string;
  ts_Name : string;
  ts_Type : TypeDef
}.

Inductive Decl :=
  | TypeDecl (doc : option string) (specs : list TypeSpec)
  | OtherDecl.

(** ** What is generated *)
Record generatedField := {
  gf_Name : string;
  gf_Type : string;
  gf_JSONTag : string;
  gf_Doc : string
}.

Record generatedType := {
  gt_Name : string;
  gt_Doc : string;
  gt_Fields : list generatedField
}.

Definition SpecGenPath : string := "pkg/crd/v1alpha1/spec_gen.go".

Definition SpecMapping : list (string * string) :=
  [("JWTAuthConfig", "JWTAuthSpec"); ("NamingConfig", "ProxyNamingSpec"); ("SlugRulesConfig", "ProxySlugRulesSpec");
   ("TelemetryConfig", "ProxyTelemetrySpec"); ("CommandConfig", "MCPUpstreamCommandSpec");
   ("CommandInputSchema", "MCPUpstreamCommandInputSchema");
   ("CommandSchemaProperty", "MCPUpstreamCommandSchemaProperty"); ("ValidationConfig", "MCPUpstreamValidationSpec")].

(** ** reflect.StructTag.Get *)
Section Tags.
(** [strconv.Unquote] of a quoted text with escapes *)
Context (UnquoteEscapes : string -> option string).

Definition dquote : ascii := ascii_of_N 34.
Definition backslash : ascii := "\"%char.
Definition quoted (s : string) : string := String dquote (s +:+ String dquote "").

Definition tag_name_char (c : ascii) : bool :=
  negb (in_range 0 32 c || bool_decide (c = ":"%char) || bool_decide (c = dquote) || in_range 127 127 c).

Fixpoint scanName (l : list ascii) : list ascii * list ascii :=
  match l with
  | c :: rest => if tag_name_char c then let '(n, r) := scanName rest in (c :: n, r) else ([], l)
  | [] => ([], [])
  end.

(** What stands before the closing quote, as written, and what follows it. *)
Fixpoint scanQuoted (l : list ascii) : option (list ascii * list ascii) :=
  match l with
  | [] => None
  | c :: rest =>
    if bool_decide (c = dquote) then Some ([], rest)
    else if bool_decide (c = backslash) then
      match rest with
      | d :: rest' => '(q, r) ← scanQuoted rest'; Some (c :: d :: q, r)
      | [] => None
      end
    else '(q, r) ← scanQuoted rest; Some (c :: q, r)
  end.

Definition Unquote (q : list ascii) : option string :=
  if bool_decide (backslash ∈ q) then UnquoteEscapes (implode q)
  else if bool_decide (ascii_of_N 10 ∈ q) then None
  else Some (implode q).

Fixpoint tagLookup (fuel : nat) (tag : list ascii) (key : string) : option string :=
  match fuel with
  | O => None
  | S fuel =>
    let tag := drop_while (fun c => bool_decide (c = " "%char)) tag in
    match scanName tag with
    | ([], _) => None
    | (name, c :: d :: rest) =>
      if bool_decide (c = ":"%char) && bool_decide (d = dquote) then
        '(q, rest) ← scanQuoted rest;
        if bool_decide (implode name = key) then Unquote q else tagLookup fuel rest key
      else None
    | _ => None
    end
  end.

Definition StructTagGet (tag key : string) : string :=
  default "" (tagLookup (S (String.length tag)) (explode tag) key).

(** ** Conversion *)
(** [unicode.ToUpper] *)
Context (UpperRune : N -> N).

(** [unicode.IsUpper(rune(s[0]))]: the first byte, read as a Latin-1 character *)
Definition startsUpper (s : string) : bool :=
  match s with
  | String c _ => is_upper c || in_range 192 214 c || in_range 216 222 c
  | EmptyString => false
  end.

Definition upperFirst (part : string) : string :=
  match runes part with
  | [] => part
  | r :: rs => of_runes (UpperRune r :: rs)
  end.

Definition snakeToCamel (s : string) : string :=
  match split_byte underscore s with
  | [] => ""
  | p :: ps => Join (p :: (upperFirst <$> ps)) ""
  end.

Definition docText (doc : option string) : string := match doc with None => "" | Some t => TrimSpace t end.

Definition extractTypeDoc (ts : TypeSpec) : string := docText (ts_Doc ts).

Definition extractFieldDoc (field : Field) : string :=
  match fd_Doc field with
  | Some doc => TrimSpace doc
  | None => docText (fd_Comment field)
  end.

Fixpoint convertTypeExpr (nameMap : gmap string string) (expr : Expr) : result string string :=
  match expr with
  | Ident name =>
    match nameMap !! name with
    | Some mapped => Ok mapped
    | None =>
      if startsUpper name then
        Err ("type " +:+ quoted name +:+ " is not in SpecMapping — add it to internal/crdutil/typegen.go and re-run make generate-crds")
      else Ok name
    end
  | SelectorExpr x sel =>
    match x with
    | Ident pkg =>
      if bool_decide (pkg = "time" /\ sel = "Duration") then Ok "string" else Ok (pkg +:+ "." +:+ sel)
    | _ => Err "unexpected selector expression"
    end
  | StarExpr x => inner ← convertTypeExpr nameMap x; Ok ("*" +:+ inner)
  | ArrayType elt => inner ← convertTypeExpr nameMap elt; Ok ("[]" +:+ inner)
  | MapType key val =>
    key ← convertTypeExpr nameMap key; val ← convertTypeExpr nameMap val; Ok ("map[" +:+ key +:+ "]" +:+ val)
  | OtherExpr kind => Err ("unsupported type expression " +:+ kind)
  end.

(** The [koanf] tag of a field, [""] when there is none. *)
Definition koanfTag (field : Field) : string :=
  match fd_Tag field with None => "" | Some tag => StructTagGet (Trim tag "`"%char) "koanf" end.

Definition convertField (field : Field) (nameMap : gmap string string) : result string (option generatedField) :=
  match fd_Names field with
  | [] => Ok None
  | name :: _ =>
    let koanfVal := koanfTag field in
    if bool_decide (koanfVal = "-" \/ koanfVal = "") then Ok None
    else
      match convertTypeExpr nameMap (fd_Type field) with
      | Err err => Err ("field " +:+ name +:+ ": " +:+ err)
      | Ok goType =>
        Ok (Some {| gf_Name := name; gf_Type := goType; gf_JSONTag := snakeToCamel koanfVal;
                    gf_Doc := extractFieldDoc field |})
      end
  end.

Definition indexSpec (doc : option string) (idx : gmap string TypeSpec) (ts : TypeSpec) : gmap string TypeSpec :=
  let ts := match ts_Doc ts with
            | None => {| ts_Doc := doc; ts_Name := ts_Name ts; ts_Type := ts_Type ts |}
            | Some _ => ts
            end in
  <[ts_Name ts := ts]> idx.

Definition buildTypeIndex (f : list Decl) : gmap string TypeSpec :=
  foldl (fun idx decl =>
    match decl with
    | TypeDecl doc specs => foldl (indexSpec doc) idx specs
    | OtherDecl => idx
    end) ∅ f.

(** The loop over a struct's fields. *)
Fixpoint convertFields (configType : string) (nameMap : gmap string string) (fields : list Field)
    : result string (list generatedField) :=
  match fields with
  | [] => Ok []
  | field :: rest =>
    match convertField field nameMap with
    | Err err => Err ("field in " +:+ configType +:+ ": " +:+ err)
    | Ok None => convertFields configType nameMap rest
    | Ok (Some gf) => cons gf <$> convertFields configType nameMap rest
    end
  end.

Definition nameMap : gmap string string := foldl (fun m e => <[e.1 := e.2]> m) ∅ SpecMapping.

(** The loop over [SpecMapping]. *)
Fixpoint generateTypes (configPath : string) (typeIndex : gmap string TypeSpec) (entries : list (string * string))
    : result string (list generatedType) :=
  match entries with
  | [] => Ok []
  | (configType, crdType) :: rest =>
    match typeIndex !! configType with
    | None => Err ("type " +:+ quoted configType +:+ " not found in " +:+ configPath)
    | Some ts =>
      match ts_Type ts with
      | OtherType _ => Err ("type " +:+ quoted configType +:+ " is not a struct in " +:+ configPath)
      | StructType fields =>
        match convertFields configType nameMap fields with
        | Err err => Err err
        | Ok gfs =>
          cons {| gt_Name := crdType; gt_Doc := extractTypeDoc ts; gt_Fields := gfs |}
            <$> generateTypes configPath typeIndex rest
        end
      end
    end
  end.

(** ** Rendering *)
Definition tab : string := String (ascii_of_N 9) "".
Definition newline_char : ascii := ascii_of_N 10.

Definition commentLines (indent doc : string) : string :=
  if bool_decide (doc = "") then ""
  else Join ((fun line => indent +:+ (if bool_decide (line = "") then "//" else "// " +:+ line) +:+ newline)
               <$> split_byte newline_char doc) "".

Definition renderField (f : generatedField) : string :=
  tab +:+ "// +optional" +:+ newline +:+ commentLines tab (gf_Doc f) +:+
  tab +:+ gf_Name f +:+ " " +:+ gf_Type f +:+ " `json:" +:+ quoted (gf_JSONTag f +:+ ",omitempty") +:+ "`" +:+ newline.

Definition renderType (gt : generatedType) : string :=
  newline +:+ commentLines "" (gt_Doc gt) +:+ "type " +:+ gt_Name gt +:+ " struct {" +:+ newline +:+
  Join (renderField <$> gt_Fields gt) "" +:+ "}" +:+ newline.

Definition renderHeader : string :=
  "// Code generated by " +:+ quoted "go run ./cmd/crdgen" +:+ ". DO NOT EDIT." +:+ newline +:+
  "// Source: pkg/config/config.go" +:+ newline +:+
  "// Regenerate with: make generate-crds" +:+ newline +:+ newline +:+
  "package v1alpha1" +:+ newline.

Definition rawSpec (types : list generatedType) : string := renderHeader +:+ Join (renderType <$> types) "".

(** [go/format.Source] *)
Context (FormatSource : string -> result string string).

Definition renderSpecContent (types : list generatedType) : result string string :=
  match FormatSource (rawSpec types) with
  | Err err => Err ("formatting generated code: " +:+ err +:+ newline +:+ "raw source:" +:+ newline +:+ rawSpec types)
  | Ok formatted => Ok formatted
  end.
End Tags.

(** ** Files *)
Inductive ReadError := NotExist | OtherRead (err : string).

Class FileSystem (F : Type) := {
  ReadFile : string -> F -> result ReadError string;
  WriteFile : string -> string -> F -> option string * F
}.

(** A file that was written reads back, and the others are as they were. *)
Class FileLaws (F : Type) `{FileSystem F} := {
  read_written p c fs fs' : WriteFile p c fs = (None, fs') -> ReadFile p fs' = Ok c;
  read_others p q c fs : q <> p -> ReadFile q (WriteFile p c fs).2 = ReadFile q fs
}.

(** [filepath.Join] of a clean absolute directory and clean relative parts *)
Definition joinPath (root : string) (parts : list string) : string :=
  (if bool_decide (root = "/") then "/" else root +:+ "/") +:+ Join parts "/".

Section Files.
Context {F : Type} `{FileSystem F}.
Context (UnquoteEscapes : string -> option string) (UpperRune : N -> N).
Context (FormatSource : string -> result string string).
(** [go/parser.ParseFile] on a file's text *)
Context (ParseFile : string -> result string (list Decl)).
(** [crypto/sha256] and its hexadecimal digest *)
Context (HashBytes : string -> string).
Context (showReadError : ReadError -> string).

Definition parseFile (path : string) (fs : F) : result string (list Decl) :=
  match ReadFile path fs with
  | Err err => Err (showReadError err)
  | Ok src => ParseFile src
  end.

Definition GenerateSpecContent (configPath : string) (fs : F) : result string string :=
  match parseFile configPath fs with
  | Err err => Err ("parsing " +:+ configPath +:+ ": " +:+ err)
  | Ok f =>
    types ← generateTypes UnquoteEscapes UpperRune configPath (buildTypeIndex f) SpecMapping;
    renderSpecContent FormatSource types
  end.

Definition configPathOf (repoRoot : string) : string := joinPath repoRoot ["pkg"; "config"; "config.go"].
Definition specPathOf (repoRoot : string) : string := joinPath repoRoot [SpecGenPath].

Definition WriteSpecFile (repoRoot : string) (fs : F) : option string * F :=
  match GenerateSpecContent (configPathOf repoRoot) fs with
  | Err err => (Some ("generating spec content: " +:+ err), fs)
  | Ok content => WriteFile (specPathOf repoRoot) content fs
  end.

Definition ValidateSpecFile (repoRoot : string) (fs : F) : result string bool :=
  match GenerateSpecContent (configPathOf repoRoot) fs with
  | Err err => Err ("generating expected content: " +:+ err)
  | Ok want =>
    match ReadFile (specPathOf repoRoot) fs with
    | Err err => Err ("reading " +:+ SpecGenPath +:+ ": " +:+ showReadError err)
    | Ok got => Ok (bool_decide (HashBytes want = HashBytes got))
    end
  end.
End Files.

(** ** Facts *)
Lemma explode_Join_empty parts : explode (Join parts "") = concat (explode <$> parts).
Proof.
  induction parts as [|p parts IH]; [done|]. destruct parts as [|q parts]; [cbn; by rewrite app_nil_r|].
  change (Join (p :: q :: parts) "") with (p +:+ Join (q :: parts) ""). rewrite explode_app, IH. done.
Qed.

Lemma explode_Join_sep c p parts :
  explode (Join (p :: parts) (String c "")) = explode p ++ concat ((fun q => c :: explode q) <$> parts).
Proof.
  revert p. induction parts as [|q parts IH]; intros p; [cbn; by rewrite app_nil_r|].
  change (Join (p :: q :: parts) (String c "")) with (p +:+ String c (Join (q :: parts) (String c ""))).
  rewrite explode_app. cbn [String.list_ascii_of_string]. by rewrite IH.
Qed.

Section CamelCase.
Context (UpperRune : N -> N).

(** A word of a snake-case name: a lower-case letter, then lower-case letters and digits. *)
Definition word_char (c : ascii) : bool := is_lower c || is_digit c.
Definition is_word (w : string) : bool :=
  match explode w with c :: l => is_lower c && forallb word_char l | [] => false end.

(** The reference inverse: an underscore before every capital. *)
Definition camelToSnake (s : string) : string :=
  implode (explode s ≫= fun c => if is_upper c then [underscore; lower_char c] else [c]).

Lemma word_char_facts c : word_char c = true -> is_upper c = false /\ lead c = 1%nat /\ c <> underscore.
Proof. destruct c as [[] [] [] [] [] [] [] []]; vm_compute; (discriminate || (intros _; repeat split; discriminate)). Qed.
Lemma is_lower_facts c : is_lower c = true ->
  word_char c = true /\ is_upper (upper_char c) = true /\ lower_char (upper_char c) = c /\ (of_byte (upper_char c) < 128)%N.
Proof. destruct c as [[] [] [] [] [] [] [] []]; vm_compute; (discriminate || (intros _; repeat split)). Qed.

Lemma words_ascii l : forallb word_char l = true -> runes (implode l) = of_byte <$> l.
Proof.
  unfold runes. rewrite explode_implode. induction l as [|c l IH]; [done|]. intros [Hc Hl]%andb_true_iff.
  rewrite decode_lead1 by by apply word_char_facts. cbn. by rewrite IH.
Qed.

Lemma encode_byte c : (of_byte c < 128)%N -> encode_rune (of_byte c) = [c].
Proof. intros Hc. unfold encode_rune. apply N.ltb_lt in Hc. rewrite Hc. f_equal. apply ascii_N_embedding. Qed.

Lemma of_runes_bytes l : Forall (fun c => (of_byte c < 128)%N) l -> of_runes (of_byte <$> l) = implode l.
Proof.
  intros Hl. unfold of_runes. f_equal. induction Hl as [|c l Hc Hl IH]; [done|]. cbn. by rewrite encode_byte, IH.
Qed.

Lemma word_char_small c : word_char c = true -> (of_byte c < 128)%N.
Proof. destruct c as [[] [] [] [] [] [] [] []]; vm_compute; (discriminate || done). Qed.

Context (HUpper : forall c, is_lower c = true -> UpperRune (of_byte c) = of_byte (upper_char c)).

Lemma upperFirst_word c l : is_lower c = true -> forallb word_char l = true ->
  explode (upperFirst UpperRune (implode (c :: l))) = upper_char c :: l.
Proof.
  intros Hc Hl. destruct (is_lower_facts c Hc) as (Hw & _ & _ & Hsmall). unfold upperFirst.
  rewrite words_ascii by (cbn; by rewrite Hw). cbn [fmap list_fmap]. rewrite HUpper by done.
  change (of_byte (upper_char c) :: (of_byte <$> l)) with (of_byte <$> (upper_char c :: l)).
  rewrite of_runes_bytes; [apply explode_implode|]. constructor; [done|].
  apply Forall_forall. intros d Hd. apply word_char_small. rewrite forallb_forall in Hl. apply Hl.
  by apply list_elem_of_In.
Qed.

Lemma word_chars_kept l : forallb word_char l = true ->
  (l ≫= fun c => if is_upper c then [underscore; lower_char c] else [c]) = l.
Proof.
  induction l as [|c l IH]; [done|]. intros [Hc Hl]%andb_true_iff. cbn.
  destruct (word_char_facts c Hc) as (-> & _). cbn. by rewrite IH.
Qed.

(** C37: Camel case loses nothing of a snake-case name made of words: the tag it came
    from can be read back, so two of them never become the same JSON name. *)
Theorem snakeToCamel_roundtrip words (Hne : words <> []) (Hwords : Forall (fun w => is_word w = true) words) :
  camelToSnake (snakeToCamel UpperRune (Join words "_")) = Join words "_".
Proof.
  assert (Hsplit : split_byte underscore (Join words "_") = words).
  { refine (split_byte_Join underscore words _ Hne). eapply Forall_impl; [exact Hwords|]. intros w Hw Hin. cbn in Hw.
    unfold is_word in Hw. destruct (explode w) as [|c l]; [done|]. apply andb_true_iff in Hw as [Hc Hl].
    apply elem_of_cons in Hin as [<-|Hin]; [discriminate Hc|].
    apply (elem_of_forallb word_char) in Hin; [|done]. by apply word_char_facts in Hin as (_ & _ & []). }
  unfold snakeToCamel. rewrite Hsplit. clear Hsplit Hne.
  destruct words as [|w words]; [done|]. apply Forall_cons in Hwords as [Hw Hwords].
  apply explode_inj. change "_" with (String underscore ""). unfold camelToSnake. rewrite explode_implode, explode_Join_empty, (explode_Join_sep underscore).
  cbn [fmap list_fmap concat]. rewrite bind_app. f_equal.
  - apply word_chars_kept. unfold is_word in Hw. destruct (explode w) as [|c l]; [done|].
    apply andb_true_iff in Hw as [Hc Hl]. cbn [forallb]. rewrite Hl. by destruct (is_lower_facts c Hc) as (-> & _).
  - induction Hwords as [|v vs Hv Hvs IH]; [done|]. cbn [fmap list_fmap concat]. rewrite bind_app, IH. f_equal.
    unfold is_word in Hv. destruct (explode v) as [|c l] eqn:Ev; [done|]. apply andb_true_iff in Hv as [Hc Hl].
    assert (v = implode (c :: l)) as -> by (by rewrite <-Ev, implode_explode).
    rewrite upperFirst_word by done. destruct (is_lower_facts c Hc) as (_ & Hup & Hlow & _).
    cbn [mbind list_bind]. rewrite Hup, Hlow. cbn [app]. do 2 f_equal. by apply word_chars_kept.
Qed.
End CamelCase.

(** ** The generated types *)

(** A type the generated file can use: a predeclared name, a declared one, another
    package's, or one built from these. *)
Inductive GoType (declared : list string) : string -> Prop :=
  | gt_predeclared n : startsUpper n = false -> GoType declared n
  | gt_declared n : n ∈ declared -> GoType declared n
  | gt_qualified pkg n : GoType declared (pkg +:+ "." +:+ n)
  | gt_pointer t : GoType declared t -> GoType declared ("*" +:+ t)
  | gt_slice t : GoType declared t -> GoType declared ("[]" +:+ t)
  | gt_map k v : GoType declared k -> GoType declared v -> GoType declared ("map[" +:+ k +:+ "]" +:+ v).

Lemma nameMap_declared n m : nameMap !! n = Some m -> m ∈ SpecMapping.*2.
Proof.
  assert (Hall : map_Forall (fun _ v => v ∈ SpecMapping.*2) nameMap) by (apply (bool_decide_unpack _); vm_compute; done).
  apply Hall.
Qed.

Lemma convertTypeExpr_GoType expr t : convertTypeExpr nameMap expr = Ok t -> GoType (SpecMapping.*2) t.
Proof.
  revert t. induction expr as [n|x IH sel|x IH|x IH|k IHk v IHv|kind]; intros t; cbn [convertTypeExpr]; [| | | | |done].
  - destruct (nameMap !! n) as [m|] eqn:En; [intros [= <-]; by eapply gt_declared, nameMap_declared|].
    destruct (startsUpper n) eqn:Eu; [done|]. intros [= <-]. by apply gt_predeclared.
  - destruct x; try done. case_bool_decide; intros [= <-]; [by apply gt_predeclared|apply gt_qualified].
  - intros (i & Hi & [= <-])%bind_Ok. apply gt_pointer. auto.
  - intros (i & Hi & [= <-])%bind_Ok. apply gt_slice. auto.
  - intros (a & Ha & Hrest)%bind_Ok. apply bind_Ok in Hrest as (b & Hb & [= <-]). apply gt_map; auto.
Qed.

Section Generated.
Context (UnquoteEscapes : string -> option string) (UpperRune : N -> N).

(** The fields that are not programmatic. *)
Definition kept (fd : Field) : Prop :=
  fd_Names fd <> [] /\ koanfTag UnquoteEscapes fd <> "-" /\ koanfTag UnquoteEscapes fd <> "".
#[local] Instance kept_dec fd : Decision (kept fd).
Proof. unfold kept. destruct (fd_Names fd); apply _. Defined.

Definition derived (fd : Field) (gf : generatedField) : Prop :=
  head (fd_Names fd) = Some (gf_Name gf) /\
  gf_JSONTag gf = snakeToCamel UpperRune (koanfTag UnquoteEscapes fd) /\
  convertTypeExpr nameMap (fd_Type fd) = Ok (gf_Type gf) /\
  GoType (SpecMapping.*2) (gf_Type gf).

Lemma convertFields_derived configType fields gfs :
  convertFields UnquoteEscapes UpperRune configType nameMap fields = Ok gfs ->
  Forall2 derived (filter kept fields) gfs.
Proof.
  revert gfs. induction fields as [|fd fields IH]; intros gfs; cbn [convertFields]; [by intros [= <-]|].
  rewrite filter_cons. unfold convertField. destruct (fd_Names fd) as [|name names] eqn:En.
  { rewrite decide_False by (unfold kept; rewrite En; naive_solver). apply IH. }
  case_bool_decide as Htag.
  { rewrite decide_False by (unfold kept; naive_solver). apply IH. }
  rewrite decide_True by (unfold kept; rewrite En; naive_solver).
  destruct (convertTypeExpr nameMap (fd_Type fd)) as [t|] eqn:Et; [|done].
  intros (gfs' & Hgfs & [= <-])%fmap_Ok. constructor; [|by apply IH].
  unfold derived. rewrite En, Et. cbn. split_and!; [done..|]. by eapply convertTypeExpr_GoType.
Qed.

End Generated.

Section Freshness.
Context {F : Type} `{FileLaws F}.
Context (UnquoteEscapes : string -> option string) (UpperRune : N -> N) (FormatSource : string -> result string string).
Context (ParseFile : string -> result string (list Decl)) (HashBytes : string -> string).
Context (showReadError : ReadError -> string).

Lemma paths_differ root : configPathOf root <> specPathOf root.
Proof. unfold configPathOf, specPathOf, joinPath. intros Heq%string_app_inj_r. discriminate. Qed.

#[local] Notation generate := (GenerateSpecContent UnquoteEscapes UpperRune FormatSource ParseFile showReadError).
#[local] Notation write := (WriteSpecFile UnquoteEscapes UpperRune FormatSource ParseFile showReadError).
#[local] Notation validate := (ValidateSpecFile UnquoteEscapes UpperRune FormatSource ParseFile HashBytes showReadError).

Lemma generate_config root fs fs' : ReadFile (configPathOf root) fs = ReadFile (configPathOf root) fs' ->
  generate (configPathOf root) fs = generate (configPathOf root) fs'.
Proof. intros Hr. unfold GenerateSpecContent, parseFile. by rewrite Hr. Qed.

(** What the generator has just written is up to date, and stays so until one of
    the two files changes: generating again writes the same text.  On any other
    tree the check says whether spec_gen.go is what would be generated, as long as
    the two texts do not collide under the hash. *)
Theorem spec_file_fresh root fs fs' (Hwrite : write root fs = (None, fs')) :
  validate root fs' = Ok true /\
  (exists content, generate (configPathOf root) fs' = Ok content /\ ReadFile (specPathOf root) fs' = Ok content /\
     (write root fs').1 = (WriteFile (specPathOf root) content fs').1) /\
  (forall fs1 want got, generate (configPathOf root) fs1 = Ok want -> ReadFile (specPathOf root) fs1 = Ok got ->
     (HashBytes want = HashBytes got -> want = got) ->
     validate root fs1 = Ok (bool_decide (want = got))).
Proof.
  unfold WriteSpecFile in Hwrite. destruct (generate (configPathOf root) fs) as [content|] eqn:Eg; [|done].
  assert (Hgen : generate (configPathOf root) fs' = Ok content).
  { rewrite <-Eg. symmetry. apply generate_config. change fs' with (None : option string, fs').2. rewrite <-Hwrite.
    symmetry. apply read_others, paths_differ. }
  pose proof (read_written _ _ _ _ Hwrite) as Hread. split_and!.
  - unfold ValidateSpecFile. rewrite Hgen, Hread. by rewrite bool_decide_true.
  - exists content. split_and!; [done..|]. unfold WriteSpecFile. by rewrite Hgen.
  - intros fs1 want got Hwant Hgot Hinj. unfold ValidateSpecFile. rewrite Hwant, Hgot. f_equal.
    apply bool_decide_ext. naive_solver.
Qed.
End Freshness.

(** ** The program's own types *)
Module SampleTypes.
(** A field with a [koanf] tag, without its comments. *)
Definition field (name : string) (t : Expr) (koanf : string) : Field := {|
  fd_Doc := None; fd_Names := [name]; fd_Type := t; fd_Tag := Some ("`koanf:" +:+ quoted koanf +:+ "`");
  fd_Comment := None |}.
Definition struct (name : string) (fields : list Field) : Decl :=
  TypeDecl None [{| ts_Doc := None; ts_Name := name; ts_Type := StructType fields |}].

(** The mapped structs of pkg/config/config.go. *)
Definition config_go : list Decl :=
  [struct "JWTAuthConfig"
    [field "Issuer" (Ident "string") "issuer";
     field "Audience" (Ident "string") "audience";
     field "JWKSURL" (Ident "string") "jwks_url"];
   struct "NamingConfig"
    [field "Separator" (Ident "string") "separator";
     field "MaxLength" (Ident "int") "max_length";
     field "ConflictResolution" (Ident "string") "conflict_resolution";
     field "DescriptionMaxLength" (Ident "int") "description_max_length";
     field "DescriptionTruncationSuffix" (Ident "string") "description_truncation_suffix";
     field "DefaultSlugRules" (Ident "SlugRulesConfig") "default_slug_rules"];
   struct "SlugRulesConfig"
    [field "ReplaceSlashes" (Ident "bool") "replace_slashes";
     field "ReplaceBraces" (Ident "bool") "replace_braces";
     field "ExpandCamelCase" (Ident "bool") "expand_camel_case";
     field "Lowercase" (Ident "bool") "lowercase";
     field "CollapseSeparators" (Ident "bool") "collapse_separators"];
   struct "TelemetryConfig"
    [field "ServiceName" (Ident "string") "service_name";
     field "ServiceVersion" (Ident "string") "service_version";
     field "OTLPEndpoint" (Ident "string") "otlp_endpoint";
     field "Insecure" (Ident "bool") "insecure"];
   struct "CommandConfig"
    [field "ToolName" (Ident "string") "tool_name";
     field "Description" (Ident "string") "description";
     field "Command" (Ident "string") "command";
     field "InputSchema" (Ident "CommandInputSchema") "input_schema";
     field "Timeout" (SelectorExpr (Ident "time") "Duration") "timeout";
     field "Env" (MapType (Ident "string") (Ident "string")) "env";
     field "WorkingDir" (Ident "string") "working_dir";
     field "Shell" (Ident "bool") "shell";
     field "MaxOutput" (Ident "int64") "max_output"];
   struct "CommandInputSchema"
    [field "Type" (Ident "string") "type";
     field "Properties" (MapType (Ident "string") (Ident "CommandSchemaProperty")) "properties";
     field "Required" (ArrayType (Ident "string")) "required"];
   struct "CommandSchemaProperty"
    [field "Type" (Ident "string") "type";
     field "Description" (Ident "string") "description"];
   struct "ValidationConfig"
    [field "ValidateRequest" (Ident "bool") "validate_request";
     field "ValidateResponse" (Ident "bool") "validate_response";
     field "ResponseValidationFailure" (Ident "string") "response_validation_failure";
     field "SuccessStatus" (ArrayType (Ident "int")) "success_status";
     field "ErrorStatus" (ArrayType (Ident "int")) "error_status"]].

(** The types of pkg/crd/v1alpha1/spec_gen.go: name, type and tag of each field. *)
Definition spec_gen_go : list (string * list (string * string * string)) :=
  [("JWTAuthSpec",
    [("Issuer", "string", "issuer");
     ("Audience", "string", "audience");
     ("JWKSURL", "string", "jwksUrl")]);
   ("ProxyNamingSpec",
    [("Separator", "string", "separator");
     ("MaxLength", "int", "maxLength");
     ("ConflictResolution", "string", "conflictResolution");
     ("DescriptionMaxLength", "int", "descriptionMaxLength");
     ("DescriptionTruncationSuffix", "string", "descriptionTruncationSuffix");
     ("DefaultSlugRules", "ProxySlugRulesSpec", "defaultSlugRules")]);
   ("ProxySlugRulesSpec",
    [("ReplaceSlashes", "bool", "replaceSlashes");
     ("ReplaceBraces", "bool", "replaceBraces");
     ("ExpandCamelCase", "bool", "expandCamelCase");
     ("Lowercase", "bool", "lowercase");
     ("CollapseSeparators", "bool", "collapseSeparators")]);
   ("ProxyTelemetrySpec",
    [("ServiceName", "string", "serviceName");
     ("ServiceVersion", "string", "serviceVersion");
     ("OTLPEndpoint", "string", "otlpEndpoint");
     ("Insecure", "bool", "insecure")]);
   ("MCPUpstreamCommandSpec",
    [("ToolName", "string", "toolName");
     ("Description", "string", "description");
     ("Command", "string", "command");
     ("InputSchema", "MCPUpstreamCommandInputSchema", "inputSchema");
     ("Timeout", "string", "timeout");
     ("Env", "map[string]string", "env");
     ("WorkingDir", "string", "workingDir");
     ("Shell", "bool", "shell");
     ("MaxOutput", "int64", "maxOutput")]);
   ("MCPUpstreamCommandInputSchema",
    [("Type", "string", "type");
     ("Properties", "map[string]MCPUpstreamCommandSchemaProperty", "properties");
     ("Required", "[]string", "required")]);
   ("MCPUpstreamCommandSchemaProperty",
    [("Type", "string", "type");
     ("Description", "string", "description")]);
   ("MCPUpstreamValidationSpec",
    [("ValidateRequest", "bool", "validateRequest");
     ("ValidateResponse", "bool", "validateResponse");
     ("ResponseValidationFailure", "string", "responseValidationFailure");
     ("SuccessStatus", "[]int", "successStatus");
     ("ErrorStatus", "[]int", "errorStatus")])].

Definition noEscapes (s : string) : option string := None.
Definition upper (r : N) : N := of_byte (upper_char (byte_of r)).
Definition strip (gt : generatedType) : string * list (string * string * string) :=
  (gt_Name gt, (fun f => (gf_Name f, gf_Type f, gf_JSONTag f)) <$> gt_Fields gt).

(** A disk, and a parser that knows the one source. *)
#[local] Instance disk : FileSystem (gmap string string) := {|
  ReadFile p fs := match fs !! p with Some c => Ok c | None => Err NotExist end;
  WriteFile p c fs := (None, <[p := c]> fs) |}.
#[local] Instance disk_laws : FileLaws (gmap string string).
Proof.
  split; cbn.
  - intros p c fs fs' [= <-]. by rewrite lookup_insert_eq.
  - intros p q c fs Hne. by rewrite lookup_insert_ne.
Qed.
Definition parse (src : string) : result string (list Decl) :=
  if bool_decide (src = "package config") then Ok config_go else Err "syntax error".
Definition tree : gmap string string := {["/repo/pkg/config/config.go" := "package config"]}.
Definition showError (e : ReadError) : string := match e with NotExist => "no such file" | OtherRead err => err end.
End SampleTypes.

Section TypeGenWitnesses.
Import SampleTypes.
#[local] Existing Instances SampleTypes.disk SampleTypes.disk_laws.

Lemma snakeToCamel_roundtrip_witness :
  snakeToCamel upper "description_max_length" = "descriptionMaxLength" /\
  camelToSnake (snakeToCamel upper (Join ["description"; "max"; "length"] "_")) = "description_max_length".
Proof.
  split; [reflexivity|].
  assert (HU : forall c, is_lower c = true -> upper (of_byte c) = of_byte (upper_char c)).
  { intros c _. unfold upper. do 2 f_equal. apply ascii_N_embedding. }
  assert (Hw : Forall (fun w => is_word w = true) ["description"; "max"; "length"]) by (repeat constructor).
  exact (snakeToCamel_roundtrip upper HU ["description"; "max"; "length"] ltac:(done) Hw).
Defined.

(** The file in the repository is the one the generator makes, field by field. *)
Example spec_gen_current :
  exists types, generateTypes noEscapes upper "pkg/config/config.go" (buildTypeIndex config_go) SpecMapping = Ok types /\
    strip <$> types = spec_gen_go.
Proof. eexists. split; [vm_compute; reflexivity|vm_compute; reflexivity]. Qed.


Lemma spec_file_fresh_witness :
  exists fs', WriteSpecFile noEscapes upper Ok parse showError "/repo" tree = (None, fs') /\
    ValidateSpecFile noEscapes upper Ok parse (fun s => s) showError "/repo" fs' = Ok true /\
    ValidateSpecFile noEscapes upper Ok parse (fun s => s) showError "/repo" tree
      = Err ("reading " +:+ SpecGenPath +:+ ": no such file").
Proof.
  destruct (WriteSpecFile noEscapes upper Ok parse showError "/repo" tree) as [err fs'] eqn:Hw.
  assert (err = None) as ->.
  { assert (He : (WriteSpecFile noEscapes upper Ok parse showError "/repo" tree).1 = None) by (vm_compute; reflexivity).
    rewrite Hw in He. exact He. }
  exists fs'. split; [reflexivity|]. split; [|vm_compute; reflexivity].
  exact (proj1 (spec_file_fresh noEscapes upper Ok parse (fun s => s) showError "/repo" tree fs' Hw)).
Defined.
End TypeGenWitnesses.
