(* ===== verification/CrdTools.v ===== *)
(** * Generating and checking the resource definitions (src/cmd/crdgen,
    src/cmd/crdlint, pkg/analysis/crdlint)

    The command that writes spec_gen.go and the CRD manifests, the command that
    checks them, and the same check as a linter of one package.  The file system
    and controller-gen are parameters; the theorems are about the three programs
    together: what is checked after it was generated passes, and the two checks
    agree.  Logging is left out. *)
From S2P Require Export TypeGen.
Open Scope Z_scope.

(** What the tools need of the operating system, besides files: [go run] with its
    arguments in a directory gives the text of its error. *)
Class Workbench (F : Type) := {
  Stat : string -> F -> bool;
  MkdirTemp : string -> F -> result string string * F;
  MkdirAll : string -> F -> option string * F;
  RemoveAll : string -> F -> F;
  GoRun : list string -> string -> F -> option string * F
}.

Definition controllerGenVersion : string := "v0.17.0".
Definition crdOutputDirs : list string := ["charts/mcp-auto/crds"].
(** A Go map: it is visited in any order. *)
Definition crdRenames : list (string * string) :=
  [("mcp-auto.ai_mcpproxies.yaml", "mcpproxy.yaml"); ("mcp-auto.ai_mcpupstreams.yaml", "mcpupstream.yaml")].

Inductive ToolError :=
  | WorkingDir (err : string)
  | NoGoMod (dir : string)
  | NoPosition
  | SpecFileError (err : string)
  | TempDir (err : string)
  | ControllerGenError (err : string)
  | ReadingGenerated (src : string) (err : ReadError)
  | CreatingOutput (dir err : string)
  | WritingManifest (path err : string)
  | HashingGenerated (src : string) (err : ReadError)
  | HashingExisting (path : string) (err : ReadError).

(** A clean absolute path by its parts, the last one first; its directory is the
    tail of the list. *)
Abbreviation parts := (list string) (only parsing).
Definition pathString (p : parts) : string := joinPath "/" (reverse p).

Section Tools.
Context {F : Type} `{FileSystem F, Workbench F}.
Context (UnquoteEscapes : string -> option string) (UpperRune : N -> N).
Context (FormatSource : string -> result string string).
Context (ParseFile : string -> result string (list Decl)).
Context (HashBytes : string -> string) (showReadError : ReadError -> string).
(** [os.Getwd], and the source file that [runtime.Caller] names. *)
Context (Getwd : result string parts) (caller : option parts).

#[local] Notation WriteSpecFile := (WriteSpecFile UnquoteEscapes UpperRune FormatSource ParseFile showReadError).
#[local] Notation ValidateSpecFile :=
  (ValidateSpecFile UnquoteEscapes UpperRune FormatSource ParseFile HashBytes showReadError).

(** ** The root of the repository *)
Fixpoint walkUp (dir : parts) (fs : F) : option parts :=
  if Stat (joinPath (pathString dir) ["go.mod"]) fs then Some dir
  else match dir with [] => None | _ :: parent => walkUp parent fs end.

(** The error names the directory the walk ended in. *)
Definition findRepoRootFromWd (fs : F) : result ToolError string :=
  match Getwd with
  | Err err => Err (WorkingDir err)
  | Ok dir => match walkUp dir fs with Some root => Ok (pathString root) | None => Err (NoGoMod "/") end
  end.
(** crdgen starts at its own source file. *)
Definition findRepoRoot (fs : F) : result ToolError string :=
  match caller with
  | None => findRepoRootFromWd fs
  | Some filename =>
      match walkUp (tail filename) fs with Some root => Ok (pathString root) | None => findRepoRootFromWd fs end
  end.

(** ** controller-gen *)
Definition tool : string := "sigs.k8s.io/controller-tools/cmd/controller-gen@" +:+ controllerGenVersion.
Definition outputArg (outDir : string) : string := "output:crd:dir=" +:+ outDir.
Definition generateArgs (outDir : string) : list string :=
  ["run"; tool; "crd"; "object:headerFile="; "paths=./pkg/crd/v1alpha1/..."; outputArg outDir].
Definition lintArgs (outDir : string) : list string :=
  ["run"; tool; "crd"; "paths=./pkg/crd/v1alpha1/..."; outputArg outDir].
Definition runControllerGen (args : string -> list string) (repoRoot outDir : string) (fs : F) : option ToolError * F :=
  let '(err, fs') := GoRun (args outDir) repoRoot fs in (ControllerGenError <$> err, fs').

(** A step that works in a temporary directory, which is removed whatever happens. *)
Definition inTempDir {A} (pattern : string) (body : string -> F -> result ToolError A * F) (fs : F)
    : result ToolError A * F :=
  match MkdirTemp pattern fs with
  | (Err err, fs1) => (Err (TempDir err), fs1)
  | (Ok tmpDir, fs1) => let '(r, fs2) := body tmpDir fs1 in (r, RemoveAll tmpDir fs2)
  end.

(** ** crdgen

    The two loops over [crdRenames] each have an order. *)
Section Generate.
Context (readOrder writeOrder : list (string * string)).

Fixpoint readGenerated (tmpDir : string) (renames : list (string * string)) (fs : F)
    : result ToolError (gmap string string) :=
  match renames with
  | [] => Ok ∅
  | (src, _) :: rest =>
      match ReadFile (joinPath tmpDir [src]) fs with
      | Err err => Err (ReadingGenerated src err)
      | Ok data => generated ← readGenerated tmpDir rest fs; Ok (<[src := data]> generated)
      end
  end.

Fixpoint writeManifests (absOutDir : string) (generated : gmap string string)
    (renames : list (string * string)) (fs : F) : option ToolError * F :=
  match renames with
  | [] => (None, fs)
  | (src, dst) :: rest =>
      let dstPath := joinPath absOutDir [dst] in
      match WriteFile dstPath (default "" (generated !! src)) fs with
      | (Some err, fs1) => (Some (WritingManifest dstPath err), fs1)
      | (None, fs1) => writeManifests absOutDir generated rest fs1
      end
  end.

Fixpoint writeOutputs (repoRoot : string) (generated : gmap string string) (outDirs : list string) (fs : F)
    : option ToolError * F :=
  match outDirs with
  | [] => (None, fs)
  | outDir :: rest =>
      let absOutDir := joinPath repoRoot [outDir] in
      match MkdirAll absOutDir fs with
      | (Some err, fs1) => (Some (CreatingOutput absOutDir err), fs1)
      | (None, fs1) =>
          match writeManifests absOutDir generated writeOrder fs1 with
          | (Some err, fs2) => (Some err, fs2)
          | (None, fs2) => writeOutputs repoRoot generated rest fs2
          end
      end
  end.

Definition failed (r : option ToolError * F) : result ToolError unit * F :=
  (match r.1 with Some err => Err err | None => Ok tt end, r.2).

Definition generateManifests (repoRoot tmpDir : string) (fs : F) : result ToolError unit * F :=
  match runControllerGen generateArgs repoRoot tmpDir fs with
  | (Some err, fs1) => (Err err, fs1)
  | (None, fs1) =>
      match readGenerated tmpDir readOrder fs1 with
      | Err err => (Err err, fs1)
      | Ok generated => failed (writeOutputs repoRoot generated crdOutputDirs fs1)
      end
  end.

Definition crdgen (fs : F) : result ToolError unit * F :=
  match findRepoRoot fs with
  | Err err => (Err err, fs)
  | Ok repoRoot =>
      match WriteSpecFile repoRoot fs with
      | (Some err, fs1) => (Err (SpecFileError err), fs1)
      | (None, fs1) => inTempDir "mcp-crds-*" (generateManifests repoRoot) fs1
      end
  end.
End Generate.

(** ** crdlint *)
Section Check.
Context (lintOrder : list (string * string)).

Definition hashFile (path : string) (fs : F) : result ReadError string :=
  match ReadFile path fs with Err err => Err err | Ok b => Ok (HashBytes b) end.

(** One manifest: whether it is as generated. *)
Fixpoint checkManifests (absOutDir tmpDir : string) (renames : list (string * string)) (allOK : bool) (fs : F)
    : result ToolError bool :=
  match renames with
  | [] => Ok allOK
  | (src, dst) :: rest =>
      match hashFile (joinPath tmpDir [src]) fs with
      | Err err => Err (HashingGenerated src err)
      | Ok generatedHash =>
          let dstPath := joinPath absOutDir [dst] in
          match hashFile dstPath fs with
          | Err NotExist => checkManifests absOutDir tmpDir rest false fs
          | Err err => Err (HashingExisting dstPath err)
          | Ok existingHash =>
              checkManifests absOutDir tmpDir rest
                (if bool_decide (generatedHash <> existingHash) then false else allOK) fs
          end
      end
  end.
Fixpoint checkOutputs (repoRoot tmpDir : string) (outDirs : list string) (allOK : bool) (fs : F)
    : result ToolError bool :=
  match outDirs with
  | [] => Ok allOK
  | outDir :: rest =>
      allOK' ← checkManifests (joinPath repoRoot [outDir]) tmpDir lintOrder allOK fs;
      checkOutputs repoRoot tmpDir rest allOK' fs
  end.

Definition checkGenerated (repoRoot : string) (allOK : bool) (tmpDir : string) (fs : F) : result ToolError bool * F :=
  match runControllerGen lintArgs repoRoot tmpDir fs with
  | (Some err, fs1) => (Err err, fs1)
  | (None, fs1) => (checkOutputs repoRoot tmpDir crdOutputDirs allOK fs1, fs1)
  end.

Definition checkAll (repoRoot : string) (fs : F) : result ToolError bool * F :=
  match ValidateSpecFile repoRoot fs with
  | Err err => (Err (SpecFileError err), fs)
  | Ok specOK => inTempDir "mcp-crdlint-*" (checkGenerated repoRoot specOK) fs
  end.

Definition crdlint (fs : F) : result ToolError bool * F :=
  match findRepoRootFromWd fs with Err err => (Err err, fs) | Ok repoRoot => checkAll repoRoot fs end.

(** [main]: the exit code. *)
Definition crdlint_main (fs : F) : Z := match (crdlint fs).1 with Ok true => 0 | _ => 1 end.

(** ** The linter

    A pass has the files of one package; a file may be without a position.  What it
    reports is anchored at the first file. *)
Record Pass := { pass_Files : list (option parts) }.

Definition passRepoRoot (first : option parts) (fs : F) : result ToolError parts :=
  match first with
  | None => Err NoPosition
  | Some name =>
      match walkUp (tail name) fs with
      | Some root => Ok root
      | None => Err (NoGoMod (pathString (tail name)))
      end
  end.

(** [filepath.Rel] of a directory below the root *)
Definition relPath (root dir : parts) : string :=
  match reverse (take (length dir - length root) dir) with [] => "." | rel => Join rel "/" end.

Definition staleSpec : string := SpecGenPath +:+ " is out of date — run: make generate-crds".
Definition missingManifest (path : string) : string :=
  "CRD file " +:+ path +:+ " is missing — run: make generate-crds".
Definition staleManifest (path generatedHash existingHash : string) : string :=
  "CRD file " +:+ path +:+ " is out of date (generated sha256=" +:+ generatedHash +:+ ", on-disk sha256="
    +:+ existingHash +:+ ") — run: make generate-crds".

Fixpoint reportManifests (repoRoot outDir tmpDir : string) (renames : list (string * string)) (fs : F)
    : result ToolError (list string) :=
  match renames with
  | [] => Ok []
  | (src, dst) :: rest =>
      match hashFile (joinPath tmpDir [src]) fs with
      | Err err => Err (HashingGenerated src err)
      | Ok generatedHash =>
          let dstPath := joinPath repoRoot [outDir; dst] in
          match hashFile dstPath fs with
          | Err NotExist =>
              reports ← reportManifests repoRoot outDir tmpDir rest fs;
              Ok (missingManifest (Join [outDir; dst] "/") :: reports)
          | Err err => Err (HashingExisting dstPath err)
          | Ok existingHash =>
              reports ← reportManifests repoRoot outDir tmpDir rest fs;
              Ok ((if bool_decide (generatedHash <> existingHash)
                   then [staleManifest (Join [outDir; dst] "/") generatedHash existingHash] else []) ++ reports)
          end
      end
  end.
Fixpoint reportOutputs (repoRoot tmpDir : string) (outDirs : list string) (fs : F) : result ToolError (list string) :=
  match outDirs with
  | [] => Ok []
  | outDir :: rest =>
      reports ← reportManifests repoRoot outDir tmpDir lintOrder fs;
      more ← reportOutputs repoRoot tmpDir rest fs; Ok (reports ++ more)
  end.

Definition reportGenerated (repoRoot tmpDir : string) (fs : F) : result ToolError (list string) * F :=
  match runControllerGen lintArgs repoRoot tmpDir fs with
  | (Some err, fs1) => (Err err, fs1)
  | (None, fs1) => (reportOutputs repoRoot tmpDir crdOutputDirs fs1, fs1)
  end.

Definition reportAll (repoRoot : string) (fs : F) : result ToolError (list string) * F :=
  match ValidateSpecFile repoRoot fs with
  | Err err => (Err (SpecFileError err), fs)
  | Ok specOK =>
      let '(r, fs') := inTempDir "mcp-crdlint-*" (reportGenerated repoRoot) fs in
      ((reports ← r; Ok ((if specOK then [] else [staleSpec]) ++ reports)), fs')
  end.

(** [run] of the analyzer *)
Definition analyze (pass : Pass) (fs : F) : result ToolError (list string) * F :=
  match pass_Files pass with
  | [] => (Ok [], fs)
  | first :: _ =>
      match passRepoRoot first fs, first with
      | Err err, _ => (Err err, fs)
      | Ok _, None => (Ok [], fs)
      | Ok root, Some name =>
          if bool_decide (relPath root (tail name) <> "pkg/crd/v1alpha1") then (Ok [], fs)
          else reportAll (pathString root) fs
      end
  end.
End Check.

(** ** The walk to the root *)
Lemma walkUp_nearest dir fs :
  match walkUp dir fs with
  | Some root => exists below, dir = below ++ root /\ Stat (joinPath (pathString root) ["go.mod"]) fs = true /\
      forall nearer p, dir = p ++ nearer -> (length root < length nearer)%nat ->
        Stat (joinPath (pathString nearer) ["go.mod"]) fs = false
  | None => forall above p, dir = p ++ above -> Stat (joinPath (pathString above) ["go.mod"]) fs = false
  end.
Proof.
  induction dir as [|x dir IH]; cbn; destruct (Stat _ fs) eqn:Es.
  - exists []. split_and!; [done..|]. intros nearer [|]; [|done]. cbn. intros <- Hlt. cbn in Hlt. lia.
  - intros above p [-> ->]%eq_sym%app_nil. done.
  - exists []. split_and!; [done..|]. intros nearer p Hp Hlt. apply (f_equal length) in Hp. rewrite length_app in Hp.
    cbn in *. lia.
  - destruct (walkUp dir fs) as [root|].
    + destruct IH as (below & -> & Hroot & Hn). exists (x :: below). split_and!; [done..|].
      intros nearer [|y p] Hp Hlt; [cbn in Hp; by subst|]. injection Hp as _ Hp. by eapply Hn.
    + intros above [|y p] Hp; [cbn in Hp; by subst|]. injection Hp as _ Hp. by eapply IH.
Qed.

(** ** The two checks agree *)
Lemma joinPath_twice root a b : a <> "" -> joinPath (joinPath root [a]) [b] = joinPath root [a; b].
Proof.
  intros Ha. assert (Hne : joinPath root [a] <> "/").
  { unfold joinPath. cbn. case_bool_decide; [by intros [=]|]. destruct root as [|c [|d root]]; [by intros [=]| |];
      cbn; by intros [=]. }
  unfold joinPath at 1. rewrite bool_decide_false by done. unfold joinPath. cbn. by rewrite !string_app_assoc.
Qed.

Definition agree (check : result ToolError bool * F) (report : result ToolError (list string) * F) : Prop :=
  check.2 = report.2 /\
  match check.1, report.1 with
  | Ok ok, Ok reports => ok = true <-> reports = []
  | Err err, Err err' => err = err'
  | _, _ => False
  end.

Lemma checkManifests_agree root outDir tmpDir renames ok fs : outDir <> "" ->
  match checkManifests (joinPath root [outDir]) tmpDir renames ok fs,
        reportManifests root outDir tmpDir renames fs with
  | Ok b, Ok reports => b = true <-> ok = true /\ reports = []
  | Err err, Err err' => err = err'
  | _, _ => False
  end.
Proof.
  intros Hout. revert ok. induction renames as [|[src dst] rest IH]; intros ok; cbn -[joinPath Join]; [naive_solver|].
  rewrite joinPath_twice by done. destruct (hashFile (joinPath tmpDir [src]) fs) as [g|]; [|done].
  destruct (hashFile _ fs) as [e|[|err]]; [|specialize (IH false)|done].
  - specialize (IH (if bool_decide (g <> e) then false else ok)).
    destruct (checkManifests _ _ _ _ _), (reportManifests _ _ _ _ _); cbn; try done.
    rewrite IH. case_bool_decide; destruct ok; naive_solver.
  - destruct (checkManifests _ _ _ _ _), (reportManifests _ _ _ _ _); cbn; try done. naive_solver.
Qed.

Lemma checkOutputs_agree lintOrder root tmpDir outDirs ok fs : Forall (fun d => d <> "") outDirs ->
  match checkOutputs lintOrder root tmpDir outDirs ok fs, reportOutputs lintOrder root tmpDir outDirs fs with
  | Ok b, Ok reports => b = true <-> ok = true /\ reports = []
  | Err err, Err err' => err = err'
  | _, _ => False
  end.
Proof.
  intros Hout. revert ok. induction Hout as [|outDir rest Hd _ IH]; intros ok; cbn; [naive_solver|].
  pose proof (checkManifests_agree root outDir tmpDir lintOrder ok fs Hd) as Hm.
  destruct (checkManifests _ _ _ _ _) as [b|], (reportManifests _ _ _ _ _) as [r1|]; cbn; try done.
  specialize (IH b). destruct (checkOutputs _ _ _ _ _ _), (reportOutputs _ _ _ _ _); cbn; try done.
  rewrite IH, Hm, app_nil. naive_solver.
Qed.

Lemma checkAll_agree lintOrder root fs : agree (checkAll lintOrder root fs) (reportAll lintOrder root fs).
Proof.
  unfold agree, checkAll, reportAll. destruct (ValidateSpecFile root fs) as [ok|err]; [|done].
  unfold inTempDir. destruct (MkdirTemp _ fs) as [[tmp|err] fs1]; [|done].
  unfold checkGenerated, reportGenerated. destruct (runControllerGen _ _ _ fs1) as [[err|] fs2]; [done|]. cbn -[checkOutputs reportOutputs].
  split; [done|]. pose proof (checkOutputs_agree lintOrder root tmp crdOutputDirs ok fs2 ltac:(by repeat constructor)) as Hc.
  destruct (checkOutputs _ _ _ _ _ _), (reportOutputs _ _ _ _ _); cbn; try done.
  rewrite Hc. destruct ok; naive_solver.
Qed.

(** The linter of golangci-lint and the command check the same thing: on the
    package of the resource types, in the repository the command is started in, the
    linter reports nothing exactly when the command accepts, both fail with the same
    error and leave the same files; on any other package of the repository the
    linter does nothing. *)
Theorem linters_agree (lintOrder : list (string * string)) (name : parts) (rest : list (option parts))
    (root : parts) (fs : F)
    (Hroot : walkUp (tail name) fs = Some root)
    (Hwd : findRepoRootFromWd fs = Ok (pathString root)) :
  let pass := {| pass_Files := Some name :: rest |} in
  (relPath root (tail name) = "pkg/crd/v1alpha1" ->
     agree (crdlint lintOrder fs) (analyze lintOrder pass fs)) /\
  (relPath root (tail name) <> "pkg/crd/v1alpha1" -> analyze lintOrder pass fs = (Ok [], fs)).
Proof.
  cbn. unfold analyze, passRepoRoot, crdlint. cbn. rewrite Hroot, Hwd. split; intros Hrel.
  - rewrite bool_decide_false by naive_solver. apply checkAll_agree.
  - by rewrite bool_decide_true.
Qed.

(** ** What the checks mean *)
Section Meaning.
Context `{!FileLaws F}.
Context (lintOrder : list (string * string)) (Hlint : lintOrder ≡ₚ crdRenames).

Definition manifestPath (root dst : string) : string := joinPath root ["charts/mcp-auto/crds"; dst].
Definition deepcopyPath (root : string) : string := joinPath root ["pkg/crd/v1alpha1/zz_generated.deepcopy.go"].
(** The sources of the types. *)
Definition typeSources (root : string) : list string :=
  (fun f => joinPath root ["pkg/crd/v1alpha1"; f]) <$> ["types.go"; "spec_gen.go"; "groupversion_info.go"].

(** What the tools rely on: temporary directories are outside the repository and
    nothing but what is in them goes with them, directories hold no text, and
    controller-gen writes the manifests into its output directory, as the type
    sources say, and the copying methods, and nothing else. *)
Context (root : string) (manifest : F -> string -> string).
Class WorkbenchLaws : Prop := {
  temp_outside pattern fs d fs' x y :
    MkdirTemp pattern fs = (Ok d, fs') -> joinPath root [x] <> joinPath d [y];
  temp_keeps pattern fs q : ReadFile q (MkdirTemp pattern fs).2 = ReadFile q fs;
  mkdir_keeps d fs q : ReadFile q (MkdirAll d fs).2 = ReadFile q fs;
  remove_keeps d fs q : (forall y, q <> joinPath d [y]) -> ReadFile q (RemoveAll d fs) = ReadFile q fs;
  gen_manifests args d fs fs' src dst :
    args = generateArgs d \/ args = lintArgs d -> GoRun args root fs = (None, fs') -> (src, dst) ∈ crdRenames ->
    ReadFile (joinPath d [src]) fs' = Ok (manifest fs src);
  gen_keeps args d fs q :
    args = generateArgs d \/ args = lintArgs d -> (forall y, q <> joinPath d [y]) -> q <> deepcopyPath root ->
    ReadFile q (GoRun args root fs).2 = ReadFile q fs;
  manifest_of_types fs fs' src :
    (forall q, q ∈ typeSources root -> ReadFile q fs = ReadFile q fs') -> manifest fs src = manifest fs' src
}.
Context `{!WorkbenchLaws}.

(** A manifest is current when its file has the hash of what would be generated. *)
Definition current (fs gen : F) (r : string * string) : Prop :=
  exists c, ReadFile (manifestPath root r.2) fs = Ok c /\ HashBytes (manifest gen r.1) = HashBytes c.

Lemma checkManifests_spec tmpDir renames ok (m : string -> string) fs :
  (forall src dst, (src, dst) ∈ renames -> ReadFile (joinPath tmpDir [src]) fs = Ok (m src)) ->
  match checkManifests (joinPath root ["charts/mcp-auto/crds"]) tmpDir renames ok fs with
  | Ok b => b = true <-> ok = true /\ Forall (fun r => exists c,
      ReadFile (manifestPath root r.2) fs = Ok c /\ HashBytes (m r.1) = HashBytes c) renames
  | Err err => exists dst e, err = HashingExisting dst (OtherRead e) /\ ReadFile dst fs = Err (OtherRead e) /\
      exists r, r ∈ renames /\ dst = manifestPath root r.2
  end.
Proof.
  revert ok. induction renames as [|[src dst] rest IH]; intros ok Hm; cbn -[joinPath]; [naive_solver|].
  unfold hashFile. rewrite (Hm src dst) by set_solver. rewrite joinPath_twice by done.
  fold (manifestPath root dst).
  assert (Hm' : forall src' dst', (src', dst') ∈ rest -> ReadFile (joinPath tmpDir [src']) fs = Ok (m src'))
    by (intros src' dst' Hin; apply (Hm src' dst'); by right).
  pose proof (fun ok' => IH ok' Hm') as IH'. clear IH.
  destruct (ReadFile (manifestPath root dst) fs) as [c|[|e]] eqn:Er.
  - specialize (IH' (if bool_decide (HashBytes (m src) <> HashBytes c) then false else ok)).
    destruct (checkManifests _ _ _ _ _) as [b|err].
    + rewrite IH', Forall_cons. cbn. rewrite Er. case_bool_decide; naive_solver.
    + destruct IH' as (d & e & -> & He & r & Hr & ->). exists (manifestPath root r.2), e. split_and!; [done..|].
      exists r. split; [by right|done].
  - specialize (IH' false). destruct (checkManifests _ _ _ _ _) as [b|err].
    + rewrite IH', Forall_cons. cbn. rewrite Er. naive_solver.
    + destruct IH' as (d & e & -> & He & r & Hr & ->). exists (manifestPath root r.2), e. split_and!; [done..|].
      exists r. split; [by right|done].
  - exists (manifestPath root dst), e. split_and!; [done..|]. exists (src, dst). split; [by left|done].
Qed.

(** Files of the repository, temporary files, and the manifests. *)
Lemma repo_path parts : joinPath root parts = joinPath root [Join parts "/"].
Proof. done. Qed.
Lemma repo_outside pattern fs d fs' parts : MkdirTemp pattern fs = (Ok d, fs') -> forall y, joinPath root parts <> joinPath d [y].
Proof. intros Ht y. rewrite repo_path. by eapply temp_outside. Qed.
Lemma manifest_not_deepcopy dst : manifestPath root dst <> deepcopyPath root.
Proof. unfold manifestPath, deepcopyPath, joinPath. intros Heq%string_app_inj_r. discriminate. Qed.
Lemma manifest_not_source dst parts : manifestPath root dst = joinPath root ("pkg" :: parts) -> False.
Proof. unfold manifestPath, joinPath. intros Heq%string_app_inj_r. destruct parts; discriminate. Qed.

(** Running controller-gen in a new temporary directory keeps the repository,
    except for the copying methods. *)
Lemma gen_in_temp args pattern fs d fs1 parts :
  MkdirTemp pattern fs = (Ok d, fs1) -> args = generateArgs d \/ args = lintArgs d ->
  joinPath root parts <> deepcopyPath root ->
  ReadFile (joinPath root parts) (GoRun args root fs1).2 = ReadFile (joinPath root parts) fs.
Proof.
  intros Ht Ha Hd. rewrite (gen_keeps args d); [|done|by eapply repo_outside|done].
  change fs1 with (@Ok string string d, fs1).2. rewrite <-Ht. apply temp_keeps.
Qed.

Lemma temp_manifest pattern fs d fs1 src : MkdirTemp pattern fs = (Ok d, fs1) -> manifest fs1 src = manifest fs src.
Proof.
  intros Ht. apply manifest_of_types. intros q _. change fs1 with (@Ok string string d, fs1).2. rewrite <-Ht.
  apply temp_keeps.
Qed.

Lemma checkOutputs_one order tmpDir ok fs :
  checkOutputs order root tmpDir crdOutputDirs ok fs =
  checkManifests (joinPath root ["charts/mcp-auto/crds"]) tmpDir order ok fs.
Proof. cbn -[joinPath]. by destruct (checkManifests _ _ _ _ _). Qed.

(** A check that ends says yes exactly when spec_gen.go is as it would be generated
    and every manifest is there and as the types say; and it fails only when a
    temporary directory, controller-gen or the reading of a file does. *)
Theorem lint_exact fs :
  match (checkAll lintOrder root fs).1 with
  | Ok b => b = true <-> ValidateSpecFile root fs = Ok true /\ Forall (current fs fs) crdRenames
  | Err (TempDir _) | Err (ControllerGenError _) => True
  | Err (SpecFileError err) => ValidateSpecFile root fs = Err err
  | Err (HashingExisting path err) =>
      ReadFile path fs = Err err /\ err <> NotExist /\ exists r, r ∈ crdRenames /\ path = manifestPath root r.2
  | Err _ => False
  end.
Proof.
  unfold checkAll. destruct (ValidateSpecFile root fs) as [ok|err] eqn:Ev; [|done].
  unfold inTempDir. destruct (MkdirTemp "mcp-crdlint-*" fs) as [[d|err] fs1] eqn:Et; [|done].
  unfold checkGenerated, runControllerGen. destruct (GoRun (lintArgs d) root fs1) as [[e|] fs2] eqn:Eg; [done|].
  cbn -[checkOutputs]. rewrite checkOutputs_one.
  assert (Hkeep : forall dst, ReadFile (manifestPath root dst) fs2 = ReadFile (manifestPath root dst) fs).
  { intros dst. change fs2 with (@None string, fs2).2. rewrite <-Eg.
    eapply gen_in_temp; [done|by right|apply manifest_not_deepcopy]. }
  pose proof (checkManifests_spec d lintOrder ok (manifest fs) fs2) as Hspec.
  destruct (checkManifests _ _ _ _ _) as [b|err].
  - rewrite Hspec.
    + rewrite Hlint. unfold current. setoid_rewrite Hkeep. naive_solver.
    + intros src dst Hin. rewrite <-(temp_manifest _ _ _ _ src Et). eapply gen_manifests; [by right|done|]. by rewrite <-Hlint.
  - destruct Hspec as (dst & e & -> & He & r & Hr & ->).
    + intros src dst Hin. rewrite <-(temp_manifest _ _ _ _ src Et). eapply gen_manifests; [by right|done|]. by rewrite <-Hlint.
    + rewrite <-Hkeep. split_and!; [done..|]. exists r. by rewrite <-Hlint.
Qed.

(** ** Generating, then checking *)
Context (readOrder writeOrder : list (string * string)).
Context (Hread : readOrder ≡ₚ crdRenames) (Hwrite : writeOrder ≡ₚ crdRenames).

Lemma readGenerated_reads tmpDir renames fs generated (m : string -> string) :
  (forall src dst, (src, dst) ∈ renames -> ReadFile (joinPath tmpDir [src]) fs = Ok (m src)) ->
  readGenerated tmpDir renames fs = Ok generated ->
  forall src dst, (src, dst) ∈ renames -> generated !! src = Some (m src).
Proof.
  revert generated. induction renames as [|[s d] rest IH]; intros g Hm Hg src dst Hin; [by apply not_elem_of_nil in Hin|].
  cbn in Hg. rewrite (Hm s d) in Hg by by left. destruct (readGenerated tmpDir rest fs) as [g'|] eqn:Eg; [|done].
  injection Hg as <-. destruct (decide (s = src)) as [->|Hne]; [apply lookup_insert_eq|].
  rewrite lookup_insert_ne by done. apply elem_of_cons in Hin as [[= -> ->]|Hin]; [done|].
  eapply (IH g'); [|done|exact Hin]. intros s' d' H'. apply (Hm s' d'). by right.
Qed.

Lemma writeManifests_writes generated renames fs fs' :
  writeManifests (joinPath root ["charts/mcp-auto/crds"]) generated renames fs = (None, fs') ->
  (forall q, (forall r, r ∈ renames -> q <> manifestPath root r.2) -> ReadFile q fs' = ReadFile q fs) /\
  (NoDup renames.*2 -> forall r, r ∈ renames ->
     ReadFile (manifestPath root r.2) fs' = Ok (default "" (generated !! r.1))).
Proof.
  revert fs. induction renames as [|[src dst] rest IH]; intros fs; cbn -[joinPath].
  { intros [= <-]. split; [done|]. intros _ r Hr. by apply not_elem_of_nil in Hr. }
  rewrite joinPath_twice by done. fold (manifestPath root dst).
  destruct (WriteFile (manifestPath root dst) _ fs) as [[e|] fs1] eqn:Ew; [done|]. intros Hrest.
  destruct (IH _ Hrest) as [Hkeep Hnew]. split.
  - intros q Hq. rewrite Hkeep by (intros r Hr; apply Hq; by right).
    change fs1 with (@None string, fs1).2. rewrite <-Ew. apply read_others. apply (Hq (src, dst)). by left.
  - intros [Hd Hnd]%NoDup_cons r [->|Hr]%elem_of_cons; [|by apply Hnew]. cbn. rewrite Hkeep; [by eapply read_written|].
    intros r Hr Heq. apply Hd. unfold manifestPath, joinPath in Heq. apply string_app_inj_r in Heq.
    assert (dst = r.2) as -> by (injection Heq; done). by apply list_elem_of_fmap_2.
Qed.

Lemma removed_dir d fs pattern fs0 fs1 parts : MkdirTemp pattern fs0 = (Ok d, fs1) ->
  ReadFile (joinPath root parts) (RemoveAll d fs) = ReadFile (joinPath root parts) fs.
Proof. intros Ht. apply remove_keeps. intros y. by eapply repo_outside. Qed.

Lemma generateManifests_outcome pattern fs0 d fs fs' :
  MkdirTemp pattern fs0 = (Ok d, fs) ->
  generateManifests readOrder writeOrder root d fs = (Ok tt, fs') ->
  Forall (fun r => ReadFile (manifestPath root r.2) fs' = Ok (manifest fs0 r.1)) crdRenames /\
  forall parts, ReadFile (joinPath root ("pkg" :: parts)) fs' = ReadFile (joinPath root ("pkg" :: parts)) fs0 \/
    joinPath root ("pkg" :: parts) = deepcopyPath root.
Proof.
  intros Ht. unfold generateManifests, runControllerGen.
  destruct (GoRun (generateArgs d) root fs) as [[e|] fs2] eqn:Eg; [done|]. cbn -[readGenerated writeOutputs].
  assert (Hgen : forall src dst, (src, dst) ∈ readOrder -> ReadFile (joinPath d [src]) fs2 = Ok (manifest fs0 src)).
  { intros src dst Hin. rewrite <-(temp_manifest _ _ _ _ src Ht).
    eapply gen_manifests; [by left|done|]. by rewrite <-Hread. }
  destruct (readGenerated d readOrder fs2) as [generated|] eqn:Er; [|done].
  pose proof (readGenerated_reads _ _ _ _ _ Hgen Er) as Hg. unfold failed. cbn -[joinPath].
  destruct (MkdirAll _ fs2) as [[e|] fs3] eqn:Em; [done|].
  assert (Hdir : forall q, ReadFile q fs3 = ReadFile q fs2)
    by (intros q; change fs3 with (@None string, fs3).2; rewrite <-Em; apply mkdir_keeps).
  destruct (writeManifests _ generated writeOrder fs3) as [[e|] fs4] eqn:Ew; [done|]. intros [= <-].
  apply writeManifests_writes in Ew as [Hkeep Hnew]. split.
  - assert (Hnd : NoDup writeOrder.*2) by (rewrite Hwrite; by apply (bool_decide_unpack _)).
    rewrite Forall_forall. intros [src dst] Hin. rewrite (Hnew Hnd (src, dst)) by (by rewrite Hwrite). cbn.
    by rewrite (Hg src dst) by (by rewrite Hread).
  - intros parts. destruct (decide (joinPath root ("pkg" :: parts) = deepcopyPath root)) as [|Hne]; [by right|left].
    rewrite Hkeep, Hdir.
    + change fs2 with (@None string, fs2).2. rewrite <-Eg. eapply gen_in_temp; [done|by left|done].
    + intros r _ Heq. by eapply manifest_not_source.
Qed.

Lemma pkg_not_deepcopy parts : Join ("pkg" :: parts) "/" <> "pkg/crd/v1alpha1/zz_generated.deepcopy.go" ->
  joinPath root ("pkg" :: parts) <> deepcopyPath root.
Proof. intros Hne Heq. unfold deepcopyPath, joinPath in Heq. by apply string_app_inj_r in Heq. Qed.

Lemma validate_reads fs fs' :
  ReadFile (configPathOf root) fs = ReadFile (configPathOf root) fs' ->
  ReadFile (specPathOf root) fs = ReadFile (specPathOf root) fs' ->
  ValidateSpecFile root fs = ValidateSpecFile root fs'.
Proof.
  intros Hc Hs. unfold TypeGen.ValidateSpecFile. rewrite Hs. by erewrite generate_config by exact Hc.
Qed.

(** C35: After the generator has succeeded the check passes: started in the same
    repository it says yes, or a temporary directory or controller-gen fails. *)
Theorem generated_passes fs fs'
    (Hroot : findRepoRoot fs = Ok root)
    (Hgen : crdgen readOrder writeOrder fs = (Ok tt, fs'))
    (Hwd : findRepoRootFromWd fs' = Ok root) :
  match (crdlint lintOrder fs').1 with
  | Ok b => b = true
  | Err (TempDir _) | Err (ControllerGenError _) => True
  | Err _ => False
  end.
Proof.
  unfold crdgen in Hgen. rewrite Hroot in Hgen. destruct (WriteSpecFile root fs) as [[e|] fs1] eqn:Es; [done|].
  unfold inTempDir in Hgen. destruct (MkdirTemp "mcp-crds-*" fs1) as [[d|e] fs2] eqn:Et; [|done].
  destruct (generateManifests _ _ root d fs2) as [r fs3] eqn:Eg. injection Hgen as -> <-.
  destruct (generateManifests_outcome _ _ _ _ _ Et Eg) as [Hnew Hkeep].
  assert (Hpkg : forall parts, joinPath root ("pkg" :: parts) <> deepcopyPath root ->
    ReadFile (joinPath root ("pkg" :: parts)) (RemoveAll d fs3) = ReadFile (joinPath root ("pkg" :: parts)) fs1).
  { intros parts Hne. rewrite (removed_dir _ _ _ _ _ _ Et). by destruct (Hkeep parts). }
  assert (Hspec : ValidateSpecFile root (RemoveAll d fs3) = Ok true).
  { destruct (spec_file_fresh UnquoteEscapes UpperRune FormatSource ParseFile HashBytes showReadError _ _ _ Es)
      as (Hv & _). rewrite <-Hv. apply validate_reads.
    - apply (Hpkg ["config"; "config.go"]), pkg_not_deepcopy. discriminate.
    - apply (Hpkg ["crd/v1alpha1/spec_gen.go"]), pkg_not_deepcopy. discriminate. }
  pose proof (lint_exact (RemoveAll d fs3)) as Hl. unfold crdlint. rewrite Hwd.
  destruct (checkAll lintOrder root (RemoveAll d fs3)).1 as [b|err].
  - apply Hl. split; [done|]. eapply Forall_impl; [exact Hnew|]. intros [src dst] Hc. cbn in Hc.
    exists (manifest fs1 src). cbn. split; [rewrite <-Hc; by eapply removed_dir|]. f_equal.
    apply manifest_of_types. intros q (f & -> & Hf)%list_elem_of_fmap.
    apply (Hpkg ["crd/v1alpha1"; f]), pkg_not_deepcopy. repeat (apply elem_of_cons in Hf as [->|Hf]; [discriminate|]).
    by apply not_elem_of_nil in Hf.
  - destruct err; try done; [by rewrite Hspec in Hl|]. destruct Hl as (Hr & _ & [src dst] & Hin & ->).
    erewrite (removed_dir _ _ _ _ _ ([_; _]) Et : ReadFile (manifestPath root _) _ = _) in Hr. rewrite Forall_forall in Hnew. apply Hnew in Hin. cbn in *.
    unfold manifestPath in *. congruence.
Qed.
End Meaning.
End Tools.

(** ** A sample repository *)
Module SampleTools.
Import SampleTypes.
#[local] Existing Instances SampleTypes.disk SampleTypes.disk_laws.
Abbreviation files := (gmap string string) (only parsing).

(** A controller-gen that copies the sources of the types. *)
Definition manifest (dir : string) (fs : files) (src : string) : string :=
  src +:+ ": " +:+ Join ((fun q => default "" (fs !! q)) <$> typeSources dir) ", ".
Definition outputOf (args : list string) : string :=
  implode (drop (String.length "output:crd:dir=") (explode (default "" (last args)))).
Definition inOutput (d : string) : list string := (fun r => joinPath d [r.1]) <$> crdRenames.
#[local] Instance bench : Workbench files := {|
  Stat p fs := bool_decide (is_Some (fs !! p));
  MkdirTemp pattern fs := (Ok ("/tmp/" +:+ pattern), fs);
  MkdirAll _ fs := (None, fs);
  RemoveAll d fs := foldr delete fs (inOutput d);
  GoRun args dir fs :=
    let copied := if bool_decide ("object:headerFile=" ∈ args) then <[deepcopyPath dir := "package v1alpha1"]> fs else fs in
    (None, foldr (fun r => <[joinPath (outputOf args) [r.1] := manifest dir fs r.1]>) copied crdRenames) |}.

Lemma outputOf_args d args : args = generateArgs d \/ args = lintArgs d -> outputOf args = d.
Proof.
  assert (Hd : implode (drop (String.length "output:crd:dir=") (explode (outputArg d))) = d).
  { unfold outputArg. rewrite explode_app. cbn. apply implode_explode. }
  intros [->| ->]; exact Hd.
Qed.

#[local] Instance bench_laws : WorkbenchLaws "/repo" (manifest "/repo").
Proof.
  split; cbn -[joinPath deepcopyPath crdRenames outputOf manifest inOutput].
  - intros pattern fs d fs' x y [= <- <-]. unfold joinPath. cbn. by intros [=].
  - done.
  - done.
  - intros d fs q Hq. unfold inOutput, crdRenames. cbn -[joinPath]. by rewrite !lookup_delete_ne by (intros Heq; by eapply Hq).
  - intros args d fs fs' src dst Ha [= <-] Hin. rewrite (outputOf_args d) by done.
    assert (Hneq : joinPath d ["mcp-auto.ai_mcpproxies.yaml"] <> joinPath d ["mcp-auto.ai_mcpupstreams.yaml"])
      by (unfold joinPath; intros Heq%string_app_inj_r; discriminate).
    cbn -[joinPath manifest]. unfold crdRenames in Hin.
    repeat (apply elem_of_cons in Hin as [[= -> ->]|Hin]); [by rewrite lookup_insert_eq| |by apply not_elem_of_nil in Hin].
    by rewrite lookup_insert_ne, lookup_insert_eq.
  - intros args d fs q Ha Hq Hd. rewrite (outputOf_args d) by done. cbn -[joinPath manifest deepcopyPath].
    rewrite !lookup_insert_ne by (intros Heq; by eapply Hq). case_bool_decide; [by rewrite lookup_insert_ne|done].
  - intros fs fs' src Hq. unfold manifest. do 3 f_equal. apply list_fmap_ext. intros _ q Hin%list_elem_of_lookup_2.
    specialize (Hq q Hin). cbn in Hq. destruct (fs !! q), (fs' !! q); congruence.
Qed.

Definition repository : files := <["/repo/go.mod" := "module mcp-auto"]>
  (<["/repo/pkg/crd/v1alpha1/types.go" := "type MCPProxy struct"]> tree).
Definition generate := crdgen noEscapes upper Ok parse showError (Ok ["repo"]) (Some ["main.go"; "crdgen"; "cmd"; "repo"])
  crdRenames (reverse crdRenames).
Definition lint := crdlint noEscapes upper Ok parse (fun s => s) showError (Ok ["repo"]) crdRenames.
Definition package := {| pass_Files := [Some ["types.go"; "v1alpha1"; "crd"; "pkg"; "repo"]] |}.
Definition lintPackage := analyze noEscapes upper Ok parse (fun s => s) showError crdRenames package.
End SampleTools.

Section CrdToolsWitnesses.
Import SampleTypes SampleTools.
#[local] Existing Instances SampleTypes.disk SampleTypes.disk_laws SampleTools.bench SampleTools.bench_laws.

(** The repository fails the check before the generator has run, and passes after. *)
Example stale_before : (lint repository).1 = Err (SpecFileError ("reading " +:+ SpecGenPath +:+ ": no such file")).
Proof. vm_compute. reflexivity. Qed.

Lemma generated_passes_witness : exists fs', generate repository = (Ok tt, fs') /\ (lint fs').1 = Ok true.
Proof.
  assert (Hok : (generate repository).1 = Ok tt /\ is_ok (lint (generate repository).2).1 = true)
    by (split; vm_compute; reflexivity).
  assert (Hwd : findRepoRootFromWd (Ok ["repo"]) (generate repository).2 = Ok "/repo") by (vm_compute; reflexivity).
  destruct (generate repository) as [r fs'] eqn:Hg. destruct Hok as [Hr Hl]. cbn in *. subst r. exists fs'. split; [done|].
  pose proof (generated_passes noEscapes upper Ok parse (fun s => s) showError (Ok ["repo"])
    (Some ["main.go"; "crdgen"; "cmd"; "repo"]) crdRenames ltac:(done) "/repo" (manifest "/repo") crdRenames
    (reverse crdRenames) ltac:(done) ltac:(apply reverse_Permutation) repository fs'
    ltac:(vm_compute; reflexivity) Hg Hwd) as Hp. fold lint in Hp.
  destruct (lint fs').1 as [b|err]; [by rewrite Hp|discriminate Hl].
Defined.

Lemma linters_agree_witness : agree (lint repository) (lintPackage repository) /\
  (lintPackage repository).1 = Err (SpecFileError ("reading " +:+ SpecGenPath +:+ ": no such file")).
Proof.
  assert (Hroot : walkUp ["v1alpha1"; "crd"; "pkg"; "repo"] repository = Some ["repo"]) by (vm_compute; reflexivity).
  assert (Hwd : findRepoRootFromWd (Ok ["repo"]) repository = Ok (pathString ["repo"])) by (vm_compute; reflexivity).
  split; [|vm_compute; reflexivity].
  apply (linters_agree noEscapes upper Ok parse (fun s => s) showError (Ok ["repo"]) crdRenames
    ["types.go"; "v1alpha1"; "crd"; "pkg"; "repo"] [] ["repo"] repository Hroot Hwd). reflexivity.
Defined.
End CrdToolsWitnesses.
