(* ===== verification/Outbound.v ===== *)
(** * Outbound authentication (pkg/auth/outbound: outbound.go, context.go,
    middleware.go, bearer, apikey, none, oauth2)

    A token provider supplies the credentials of an upstream call; the middleware
    asks it and puts either headers or an early result into the request's
    context.  [os.Getenv] is a parameter, and so is the text of an error. *)
From S2P Require Export Mcp.
Open Scope Z_scope.

(** What inbound authentication found out about the caller (pkg/auth/inbound). *)
Record TokenInfo := {
  ti_Subject : string;
  ti_Scopes : list string;
  ti_Audience : list string;
  ti_Extra : list (string * value)
}.

Inductive AuthError :=
  | AuthRequiredError (AuthURL : string)
  | EmptyEnvVar (name : string)
  | LoadingToken (upstream err : string)
  | GeneratingAuthURL (upstream err : string)
  | RefreshingToken (upstream err : string)
  | FetchingClientToken (err : string)
  | ScriptAuth (err : string).

(** The [TokenProvider] interface; [W] is what a provider may change. *)
Class TokenProvider (P W : Type) := {
  Token : P -> option TokenInfo -> W -> result AuthError string * W;
  RawHeaders : P -> option TokenInfo -> W -> result AuthError (gmap string string) * W
}.

(** The context values of the package. *)
Record AuthContext := {
  ac_Headers : gmap string string;
  ac_Result : option CallToolResult
}.
Definition zero_AuthContext : AuthContext := {| ac_Headers := ∅; ac_Result := None |}.
Definition withHeaders (ctx : AuthContext) (headers : gmap string string) : AuthContext :=
  {| ac_Headers := headers; ac_Result := ac_Result ctx |}.
Definition withAuthResult (ctx : AuthContext) (result : CallToolResult) : AuthContext :=
  {| ac_Headers := ac_Headers ctx; ac_Result := Some result |}.
Definition HeadersFromContext (ctx : AuthContext) : gmap string string := ac_Headers ctx.
Definition AuthResultFromContext (ctx : AuthContext) : option CallToolResult := ac_Result ctx.

(** [err.Error()] *)
Class AuthTexts := { errorText : AuthError -> string }.

Definition authErrResult `{AuthTexts} (err : AuthError) : CallToolResult :=
  match err with
  | AuthRequiredError url =>
    errorResult ("Authorization required. Please visit the following URL to grant access:"
                 +:+ newline +:+ url)
  | _ => errorResult ("outbound auth error: " +:+ errorText err)
  end.

(** [next] is called on every path. *)
Definition Middleware `{AuthTexts} {P W R : Type} `{TokenProvider P W} (provider : P)
    (next : AuthContext -> W -> R) (info : option TokenInfo) (ctx : AuthContext) (w : W) : R :=
  match RawHeaders provider info w with
  | (Err err, w) => next (withAuthResult ctx (authErrResult err)) w
  | (Ok rawHeaders, w) =>
    if negb (bool_decide (rawHeaders = ∅)) then next (withHeaders ctx rawHeaders) w
    else
      match Token provider info w with
      | (Err err, w) => next (withAuthResult ctx (authErrResult err)) w
      | (Ok token, w) =>
        if bool_decide (token = "") then next ctx w
        else next (withHeaders ctx {["Authorization" := "Bearer " +:+ token]}) w
      end
  end.

(** ** Providers without state *)
Section Static.
Context {W : Type} (Getenv : string -> string).

Record BearerProvider := { bp_tokenEnv : string }.
Definition NewBearerProvider (cfg : BearerOutboundConfig) : BearerProvider :=
  {| bp_tokenEnv := boc_TokenEnv cfg |}.
Definition BearerToken (p : BearerProvider) : result AuthError string :=
  let val := Getenv (bp_tokenEnv p) in
  if bool_decide (val = "") then Err (EmptyEnvVar (bp_tokenEnv p)) else Ok val.

Record APIKeyProvider := { ap_header : string; ap_valueEnv : string; ap_prefix : string }.
Definition NewAPIKeyProvider (cfg : APIKeyOutboundConfig) : APIKeyProvider :=
  {| ap_header := akc_Header cfg; ap_valueEnv := akc_ValueEnv cfg; ap_prefix := akc_Prefix cfg |}.
Definition APIKeyRawHeaders (p : APIKeyProvider) : result AuthError (gmap string string) :=
  let val := Getenv (ap_valueEnv p) in
  if bool_decide (val = "") then Err (EmptyEnvVar (ap_valueEnv p))
  else Ok {[ap_header p := ap_prefix p +:+ val]}.

#[export] Instance bearer_provider : TokenProvider BearerProvider W := {|
  Token p _ w := (BearerToken p, w);
  RawHeaders _ _ w := (Ok ∅, w) |}.
#[export] Instance apikey_provider : TokenProvider APIKeyProvider W := {|
  Token _ _ w := (Ok "", w);
  RawHeaders p _ w := (APIKeyRawHeaders p, w) |}.
(** [none.Provider] has no fields. *)
#[export] Instance none_provider : TokenProvider unit W := {|
  Token _ _ w := (Ok "", w);
  RawHeaders _ _ w := (Ok ∅, w) |}.
End Static.

(** ** OAuth2 client credentials (oauth2/oauth2.go)

    golang.org/x/oauth2 fetches, caches and refreshes the token: [src] is its
    token source, made from the client's configuration. *)
Section ClientCredentials.
Context {W TokenSource : Type} (ExpandEnv : string -> string).
Context (newTokenSource : string -> string -> string -> list string -> TokenSource).
Context (sourceToken : TokenSource -> W -> result string OAuthToken * W).

Record ClientProvider := { cp_src : TokenSource }.
Definition NewClientProvider (cfg : OAuth2CCConfig) : ClientProvider :=
  {| cp_src := newTokenSource (o2c_ClientID cfg) (ExpandEnv (o2c_ClientSecret cfg))
                 (o2c_TokenURL cfg) (o2c_Scopes cfg) |}.
Definition ClientToken (p : ClientProvider) (w : W) : result AuthError string * W :=
  match sourceToken (cp_src p) w with
  | (Err err, w) => (Err (FetchingClientToken err), w)
  | (Ok tok, w) => (Ok (tok_AccessToken tok), w)
  end.

#[export] Instance client_provider : TokenProvider ClientProvider W := {|
  Token p _ w := ClientToken p w;
  RawHeaders _ _ w := (Ok ∅, w) |}.
End ClientCredentials.

(** The context the middleware hands on: credentials, or a result that ends the
    call, never both. *)
Definition authContext `{AuthTexts} {P W : Type} `{TokenProvider P W} (provider : P)
    (info : option TokenInfo) (w : W) : AuthContext * W :=
  Middleware provider pair info zero_AuthContext w.

Lemma Middleware_context `{AuthTexts} {P W R : Type} `{TokenProvider P W} (provider : P)
    (next : AuthContext -> W -> R) info w :
  Middleware provider next info zero_AuthContext w =
    next (authContext provider info w).1 (authContext provider info w).2.
Proof.
  unfold authContext, Middleware. destruct (RawHeaders provider info w) as [[h|err] w1]; [|done].
  case_bool_decide; cbn; [|done]. destruct (Token provider info w1) as [[tok|err] w2]; [|done].
  by case_bool_decide.
Qed.

Lemma authContext_exclusive `{AuthTexts} {P W : Type} `{TokenProvider P W} (provider : P) info (w : W) :
  ac_Result (authContext provider info w).1 = None \/
  ac_Headers (authContext provider info w).1 = ∅ /\
  exists res, ac_Result (authContext provider info w).1 = Some res /\ res_IsError res = true.
Proof.
  unfold authContext, Middleware. destruct (RawHeaders provider info w) as [[h|err] w1].
  - case_bool_decide; cbn; [|by left]. destruct (Token provider info w1) as [[tok|err] w2].
    + case_bool_decide; by left.
    + right. split; [done|]. eexists. split; [done|]. by destruct err.
  - right. split; [done|]. eexists. split; [done|]. by destruct err.
Qed.
