(* ===== verification/HttpRequest.v ===== *)
(** * The upstream request (pkg/upstream/http: buildUpstreamURL and the headers of
    executor.go, the round trippers of client.go)

    How an envelope becomes the URL and the headers of a request.  [url.Parse] and
    the rendering of a URL are parameters; the path and the query put into it are
    not. *)
From S2P Require Export Transform Url Outbound HttpUpstream.
Open Scope Z_scope.

Record HttpRequest := {
  hr_Method : string;
  hr_URL : string;
  hr_Header : gmap string string;
  hr_Body : option string
}.

(** [http.Header] as long as every name has one value. *)
Definition Header_Set (h : gmap string string) (k v : string) : gmap string string :=
  <[CanonicalHeaderKey k := v]> h.
Definition Header_Get (h : gmap string string) (k : string) : string :=
  default "" (h !! CanonicalHeaderKey k).

(** [u.Query()] is [ParseQuery (url_RawQuery u)]. *)
Class UrlEnv := {
  URL : Type;
  ParseURL : string -> result string URL;
  url_RawQuery : URL -> string;
  withRawQuery : URL -> string -> URL;
  url_String : URL -> string
}.

(** ** The request *)
Section Request.
Context `{UrlEnv}.
(** The iteration order of a map. *)
Context (order : gmap string string -> list (string * string)).

Definition placeholder (name : string) : string := "{" +:+ name +:+ "}".

Definition substPath (pathTemplate : string) (kvs : list (string * string)) : string :=
  foldl (fun path kv => ReplaceAll path (placeholder kv.1) (PathEscape kv.2)) pathTemplate kvs.

Definition setQuery (q : Values) (kvs : list (string * string)) : Values :=
  foldl (fun q kv => if bool_decide (kv.2 = "") then q else Values_Set q kv.1 kv.2) q kvs.

Definition buildUpstreamURL (baseURL pathTemplate : string) (envelope : RequestEnvelope)
    : result string string :=
  let path := substPath pathTemplate (order (env_Path envelope)) in
  match ParseURL (baseURL +:+ path) with
  | Err err => Err ("parsing URL: " +:+ err)
  | Ok u =>
    let u := if bool_decide (env_Query envelope = ∅) then u
             else withRawQuery u
                    (Encode (setQuery (ParseQuery (url_RawQuery u)) (order (env_Query envelope)))) in
    Ok (url_String u)
  end.

Definition setHeaders (h : gmap string string) (kvs : list (string * string))
    : gmap string string :=
  foldl (fun h kv => Header_Set h kv.1 kv.2) h kvs.

(** The headers [ServeHTTP] sets, in its order. *)
Definition requestHeaders (envelope authHeaders : gmap string string) (hasBody : bool)
    : gmap string string :=
  let h := setHeaders (setHeaders ∅ (order envelope)) (order authHeaders) in
  if hasBody then Header_Set h "Content-Type" "application/json" else h.

(** [tokenInfoHeaderTransport] and [headerRoundTripper] *)
Definition tokenHeaders (h : gmap string string) (info : option TokenInfo) : gmap string string :=
  match info with
  | None => h
  | Some info =>
    foldl (fun h kv =>
      match CutPrefix kv.1 "header:", kv.2 with
      | Some hdr, VString s => Header_Set h hdr s
      | _, _ => h
      end) h (ti_Extra info)
  end.

Definition staticHeaders (h : gmap string string) (kvs : list (string * string))
    : gmap string string :=
  foldl (fun h kv => if bool_decide (Header_Get h kv.1 = "") then Header_Set h kv.1 kv.2 else h)
    h kvs.

Definition withHeader (req : HttpRequest) (h : gmap string string) : HttpRequest :=
  {| hr_Method := hr_Method req; hr_URL := hr_URL req; hr_Header := h; hr_Body := hr_Body req |}.

(** [Client.Do] up to the transport *)
Definition wireRequest (client : Client) (info : option TokenInfo) (req : HttpRequest)
    : HttpRequest :=
  withHeader req (staticHeaders (tokenHeaders (hr_Header req) info) (order (cl_Headers client))).
End Request.

(** ** [outbound.AuthTransport]

    The counterpart of the middleware for a client of its own: the credentials are
    set on the request.  [base] is the transport underneath. *)
Section AuthTransport.
Context (order : gmap string string -> list (string * string)).
Context {P W R : Type} `{TokenProvider P W}.
Context (base : HttpRequest -> W -> result string R * W) (authErrorText : AuthError -> string).

Definition AuthRoundTrip (provider : P) (req : HttpRequest) (info : option TokenInfo) (w : W)
    : result string R * W :=
  match RawHeaders provider info w with
  | (Err err, w) => (Err ("get raw headers: " +:+ authErrorText err), w)
  | (Ok headers, w) =>
    if (0 <? size headers)%nat then base (withHeader req (setHeaders (hr_Header req) (order headers))) w
    else
      match Token provider info w with
      | (Err err, w) => (Err ("get outbound token: " +:+ authErrorText err), w)
      | (Ok token, w) =>
        if bool_decide (token = "") then base req w
        else base (withHeader req (Header_Set (hr_Header req) "Authorization" ("Bearer " +:+ token))) w
      end
  end.

(** The transport sends what the middleware would have the executor send, and
    nothing where the middleware ends the call. *)
Lemma AuthRoundTrip_agrees `{AuthTexts} (Horder : forall m, order m ≡ₚ map_to_list m) provider req info w :
  let '(ctx, w') := authContext provider info w in
  match ac_Result ctx with
  | None => AuthRoundTrip provider req info w =
      base (withHeader req (setHeaders (hr_Header req) (order (ac_Headers ctx)))) w'
  | Some _ => exists err, AuthRoundTrip provider req info w = (Err err, w')
  end.
Proof.
  assert (Hempty : order ∅ = []) by (apply Permutation_nil; rewrite Horder, map_to_list_empty; done).
  assert (Hsame : forall h, h = hr_Header req -> withHeader req h = req) by (intros h ->; by destruct req).
  unfold authContext, Outbound.Middleware, AuthRoundTrip. destruct (RawHeaders provider info w) as [[h|err] w1]; [|by eexists].
  case_bool_decide as Hh; cbn [negb].
  - subst. rewrite map_size_empty. cbn. destruct (Token provider info w1) as [[tok|err] w2]; [|by eexists].
    case_bool_decide as Ht; cbn.
    + rewrite Hempty. cbn. by rewrite Hsame.
    + pose proof (Horder {["Authorization" := "Bearer " +:+ tok]}) as Ho.
      rewrite map_to_list_singleton in Ho. apply symmetry, Permutation_length_1_inv in Ho. by rewrite Ho.
  - destruct (0 <? size h)%nat eqn:Es; [done|]. apply Nat.ltb_ge in Es.
    exfalso. apply Hh, map_size_empty_inv. lia.
Qed.
End AuthTransport.

(** ** The path *)

(** A path template: text without braces, and named holes. *)
Inductive segment := Lit (text : string) | Hole (name : string).

Definition lbrace : ascii := "{"%char.
Definition rbrace : ascii := "}"%char.
Definition brace_free (s : string) : Prop := lbrace ∉ explode s /\ rbrace ∉ explode s.
Definition segment_ok (sg : segment) : Prop :=
  match sg with Lit s => brace_free s | Hole n => brace_free n end.

Definition segmentText (sg : segment) : string :=
  match sg with Lit s => s | Hole n => placeholder n end.
Fixpoint templateText (segs : list segment) : string :=
  match segs with [] => "" | sg :: segs => segmentText sg +:+ templateText segs end.

(** The path of a request: every hole with a value is filled. *)
Definition fill (path : gmap string string) (sg : segment) : segment :=
  match sg with
  | Lit s => Lit s
  | Hole n => match path !! n with Some v => Lit (PathEscape v) | None => Hole n end
  end.

Lemma PathEscape_no c v : path_safe c = false -> c ∉ explode (PathEscape v).
Proof. intros Hc Hin%PathEscape_safe. congruence. Qed.

Lemma PathEscape_brace_free v : brace_free (PathEscape v).
Proof. split; by apply PathEscape_no. Qed.

(** Two names followed by a closing brace. *)
Lemma brace_cut n k s t : brace_free n -> brace_free k ->
  n +:+ String rbrace s = k +:+ String rbrace t -> n = k.
Proof.
  intros [_ Hn] [_ Hk] Heq. apply (f_equal (cut_byte rbrace)) in Heq.
  rewrite !cut_byte_app in Heq by done. by injection Heq.
Qed.

Lemma placeholder_prefix k n s : brace_free k -> brace_free n ->
  HasPrefix (placeholder n +:+ s) (placeholder k) = true -> n = k.
Proof.
  intros Hk Hn [t Ht]%HasPrefix_spec. unfold placeholder in Ht.
  rewrite !string_app_assoc in Ht. change ("{" +:+ ?x) with (String lbrace x) in Ht.
  injection Ht as Ht. by apply (brace_cut n k s t) in Ht.
Qed.

(** One [ReplaceAll] fills one hole. *)
Lemma ReplaceAll_segments k v segs : brace_free k -> Forall segment_ok segs ->
  ReplaceAll (templateText segs) (placeholder k) (PathEscape v) =
    templateText (fill {[k := v]} <$> segs).
Proof.
  intros Hk. unfold ReplaceAll.
  change (placeholder k) with (String lbrace (k +:+ "}")).
  induction 1 as [|[s|n] segs Hs Hsegs IH]; [done| |]; cbn [templateText segmentText fmap list_fmap fill].
  - destruct Hs as [Hs _]. rewrite replace_go_lit by done. by rewrite IH.
  - destruct (decide (n = k)) as [->|Hne].
    + rewrite lookup_singleton_eq.
      change (placeholder k) with (String lbrace (k +:+ "}")).
      rewrite replace_go_hit. by rewrite IH.
    + rewrite lookup_singleton_ne by done. cbn [segmentText].
      assert (Hmiss : HasPrefix (placeholder n +:+ templateText segs) (placeholder k) = false).
      { apply not_true_is_false. intros H%placeholder_prefix; done. }
      unfold placeholder in *. change ("{" +:+ ?x) with (String lbrace x) in *.
      rewrite string_app_cons in Hmiss |- *. rewrite replace_go_miss by exact Hmiss.
      rewrite string_app_cons. f_equal.
      rewrite replace_go_lit; [by rewrite IH|]. rewrite explode_app, elem_of_app.
      destruct Hs as [Hs _]. intros [?|[?|?%not_elem_of_nil]%elem_of_cons]; done.
Qed.

Lemma fill_ok path sg : segment_ok sg -> segment_ok (fill path sg).
Proof. destruct sg as [s|n]; cbn; [done|]. destruct (path !! n); [|done]. intros _. apply PathEscape_brace_free. Qed.

Lemma fill_fill m1 m2 sg : fill m2 (fill m1 sg) = fill (m1 ∪ m2) sg.
Proof.
  destruct sg as [s|n]; cbn; [done|]. rewrite lookup_union. destruct (m1 !! n) as [v|]; cbn.
  - by destruct (m2 !! n).
  - by destruct (m2 !! n).
Qed.

(** The substitutions together, in any order. *)
Lemma substPath_segments kvs segs :
  NoDup kvs.*1 -> Forall (fun kv => brace_free kv.1) kvs -> Forall segment_ok segs ->
  substPath (templateText segs) kvs = templateText (fill (list_to_map kvs) <$> segs).
Proof.
  revert segs. induction kvs as [|[k v] kvs IH]; intros segs Hnd Hks Hsegs.
  - cbn. f_equal. induction segs as [|[s|n] segs IH]; cbn; [done|..].
    + f_equal. apply IH. by inversion Hsegs.
    + rewrite lookup_empty. f_equal. apply IH. by inversion Hsegs.
  - cbn in Hnd. apply NoDup_cons in Hnd as [Hnot Hnd]. apply Forall_cons in Hks as [Hk Hks].
    cbn [substPath foldl fst snd]. cbn [fst] in Hk. rewrite ReplaceAll_segments by done.
    change (substPath (templateText (fill {[k := v]} <$> segs)) kvs =
      templateText (fill (list_to_map ((k, v) :: kvs)) <$> segs)).
    rewrite IH; [|done..|].
    + rewrite <-list_fmap_compose. f_equal. apply list_fmap_ext. intros i sg _. cbn [compose].
      rewrite fill_fill. f_equal. cbn. by rewrite insert_union_singleton_l.
    + apply Forall_fmap. eapply Forall_impl; [exact Hsegs|]. intros sg. apply fill_ok.
Qed.

(** ** The query *)
Lemma setQuery_lookup q kvs k : NoDup kvs.*1 ->
  setQuery q kvs !! k =
    match assoc k kvs with
    | Some v => if decide (v = "") then q !! k else Some [v]
    | None => q !! k
    end.
Proof.
  revert q. induction kvs as [|[k' v] kvs IH]; intros q Hnd; [done|].
  apply NoDup_cons in Hnd as [Hnot Hnd]. cbn [setQuery foldl fst snd].
  change (setQuery (if bool_decide (v = "") then q else Values_Set q k' v) kvs !! k =
    match assoc k ((k', v) :: kvs) with
    | Some v => if decide (v = "") then q !! k else Some [v] | None => q !! k end).
  rewrite IH by done. cbn [assoc]. unfold Values_Set. destruct (decide (k = k')) as [->|Hne].
  - rewrite (proj2 (assoc_None k' kvs)) by done. case_bool_decide; case_decide; try done.
    by rewrite lookup_insert_eq.
  - replace ((if bool_decide (v = "") then q else <[k' := [v]]> q) !! k) with (q !! k); [done|].
    case_bool_decide; [done|]. by rewrite lookup_insert_ne.
Qed.

Definition full (m : Values) : Prop := map_Forall (fun _ vs => vs <> []) m.

Lemma ParseQuery_full s : full (ParseQuery s).
Proof.
  unfold ParseQuery. assert (H : full ∅) by apply map_Forall_empty. revert H.
  generalize (∅ : Values). induction (split_byte ampersand s) as [|p ps IH]; intros m Hm; [done|].
  cbn [foldl]. apply IH. unfold parsePiece. destruct (bool_decide _ || _); [done|].
  destruct (default _ _) as [k v]. destruct (QueryUnescape k), (QueryUnescape v); try done.
  apply map_Forall_insert_2; [|done]. by destruct (default [] _).
Qed.

Lemma setQuery_full q kvs : full q -> full (setQuery q kvs).
Proof.
  revert q. induction kvs as [|[k v] kvs IH]; intros q Hq; [done|]. cbn [setQuery foldl]. apply IH.
  case_bool_decide; [done|]. by apply map_Forall_insert_2.
Qed.

(** C30: The URL of a call carries the arguments and nothing else. For a template of
    literal text and named holes, whatever the order Go visits the maps in: each
    hole with a value is replaced by the value's escaped form, which decodes to the
    value and contains no byte that could end the segment or the path; and
    decoding the query gives the base URL's own parameters, overridden by the
    envelope's non-empty ones. *)
Theorem buildUpstreamURL_spec `{UrlEnv} (order : gmap string string -> list (string * string))
    (baseURL : string) (segs : list segment) (env : RequestEnvelope) (url : string)
    (Horder : forall m, order m ≡ₚ map_to_list m)
    (Hsegs : Forall segment_ok segs)
    (Hnames : map_Forall (fun k _ => brace_free k) (env_Path env))
    (Hrun : buildUpstreamURL order baseURL (templateText segs) env = Ok url) :
  (forall c v, c ∈ explode "/?#;{} " -> c ∉ explode (PathEscape v)) /\
  (forall v, PathUnescape (PathEscape v) = Some v) /\
  exists u q, ParseURL (baseURL +:+ templateText (fill (env_Path env) <$> segs)) = Ok u /\
    url = url_String (if decide (env_Query env = ∅) then u else withRawQuery u q) /\
    forall k, ParseQuery q !! k =
      match env_Query env !! k with
      | Some v => if decide (v = "") then ParseQuery (url_RawQuery u) !! k else Some [v]
      | None => ParseQuery (url_RawQuery u) !! k
      end.
Proof.
  split; [|split].
  { intros c v Hc. apply PathEscape_no. cbn in Hc. repeat (apply elem_of_cons in Hc as [->|Hc]; [done|]).
    by apply not_elem_of_nil in Hc. }
  { apply PathUnescape_PathEscape. }
  assert (Hnd : forall m : gmap string string, NoDup (order m).*1)
    by (intros m; rewrite Horder; apply NoDup_fst_map_to_list).
  assert (Hassoc : forall (m : gmap string string) k, assoc k (order m) = m !! k).
  { intros m k. destruct (m !! k) as [v|] eqn:E.
    - apply assoc_elem; [done|]. rewrite Horder. by apply elem_of_map_to_list.
    - apply assoc_None. rewrite Horder. intros ([k' v] & -> & Hv%elem_of_map_to_list)%list_elem_of_fmap.
      cbn in E. congruence. }
  unfold buildUpstreamURL in Hrun. rewrite substPath_segments in Hrun; [|done| |done].
  2:{ rewrite Horder. apply Forall_forall. intros [k v] Hv%elem_of_map_to_list. by apply (Hnames k v). }
  replace (list_to_map (order (env_Path env))) with (env_Path env) in Hrun
    by (symmetry; rewrite (list_to_map_proper _ _ (Hnd _) (Horder _)); apply list_to_map_to_list).
  destruct (ParseURL _) as [u|]; [|done].
  exists u, (Encode (setQuery (ParseQuery (url_RawQuery u)) (order (env_Query env)))).
  split; [done|]. split.
  - injection Hrun as <-. case_bool_decide; by case_decide.
  - intros k. rewrite ParseQuery_Encode by (apply setQuery_full, ParseQuery_full).
    by rewrite setQuery_lookup, Hassoc.
Qed.

(** ** The headers *)

(** The last value a list of settings gives to a canonical name. *)
Definition picked (K : string) (kvs : list (string * string)) : option string :=
  last (snd <$> filter (fun kv => CanonicalHeaderKey kv.1 = K) kvs).

Lemma setHeaders_lookup h kvs K :
  setHeaders h kvs !! K = match picked K kvs with Some v => Some v | None => h !! K end.
Proof.
  unfold picked. revert h. induction kvs as [|[k v] kvs IH]; intros h; [done|].
  change (setHeaders h ((k, v) :: kvs)) with (setHeaders (Header_Set h k v) kvs).
  rewrite IH, filter_cons. unfold Header_Set. cbn [fst]. case_decide as Hk.
  - rewrite fmap_cons, last_cons. cbn [snd]. destruct (last _); [done|].
    by rewrite <-Hk, lookup_insert_eq.
  - destruct (last _); [done|]. by rewrite lookup_insert_ne.
Qed.

(** The headers an inbound token asks for. *)
Definition tokenSettings (info : option TokenInfo) : list (string * string) :=
  match info with
  | None => []
  | Some info =>
    omap (fun kv => match CutPrefix kv.1 "header:", kv.2 with
                    | Some hdr, VString s => Some (hdr, s)
                    | _, _ => None
                    end) (ti_Extra info)
  end.

Lemma tokenHeaders_settings h info : tokenHeaders h info = setHeaders h (tokenSettings info).
Proof.
  destruct info as [info|]; [|done]. cbn. revert h.
  induction (ti_Extra info) as [|[k v] kvs IH]; intros h; [done|]. cbn [foldl omap list_omap fst snd].
  rewrite IH. destruct (CutPrefix k "header:"); [|done]. by destruct v.
Qed.

(** What the program itself sets under a name, strongest last: the envelope, outbound
    authentication, the content type of a body, the inbound token. *)
Definition ownHeader (order : gmap string string -> list (string * string))
    (envelope authHeaders : gmap string string) (hasBody : bool) (info : option TokenInfo)
    (K : string) : option string :=
  picked K (order envelope ++ order authHeaders ++
            (if hasBody then [("Content-Type", "application/json")] else []) ++ tokenSettings info).

Lemma setHeaders_app h kvs1 kvs2 : setHeaders h (kvs1 ++ kvs2) = setHeaders (setHeaders h kvs1) kvs2.
Proof. apply foldl_app. Qed.

Lemma ownHeader_lookup order envelope authHeaders hasBody info K :
  tokenHeaders (requestHeaders order envelope authHeaders hasBody) info !! K =
    ownHeader order envelope authHeaders hasBody info K.
Proof.
  rewrite tokenHeaders_settings. unfold requestHeaders, ownHeader.
  transitivity (setHeaders ∅ (order envelope ++ order authHeaders ++
    (if hasBody then [("Content-Type", "application/json")] else []) ++ tokenSettings info) !! K).
  - rewrite !setHeaders_app. by destruct hasBody.
  - rewrite setHeaders_lookup, lookup_empty. by destruct (picked K _).
Qed.

Lemma staticHeaders_keep h kvs K v : h !! K = Some v -> v <> "" -> staticHeaders h kvs !! K = Some v.
Proof.
  revert h. induction kvs as [|[k x] kvs IH]; intros h Hh Hv; [done|].
  cbn [staticHeaders foldl fst snd]. apply IH; [|done]. case_bool_decide as Hg; [|done].
  unfold Header_Set. rewrite lookup_insert_ne; [done|]. intros <-. unfold Header_Get in Hg.
  by rewrite Hh in Hg.
Qed.

Lemma staticHeaders_absent h kvs k v :
  NoDup kvs.*1 -> (k, v) ∈ kvs ->
  (forall k', k' ∈ kvs.*1 -> CanonicalHeaderKey k' = CanonicalHeaderKey k -> k' = k) ->
  h !! CanonicalHeaderKey k = None -> staticHeaders h kvs !! CanonicalHeaderKey k = Some v.
Proof.
  revert h. induction kvs as [|[k' x] kvs IH]; intros h Hnd Hin Huniq Hh; [by apply not_elem_of_nil in Hin|].
  cbn in Hnd. apply NoDup_cons in Hnd as [Hnot Hnd]. cbn [staticHeaders foldl fst snd].
  apply elem_of_cons in Hin as [[= <- <-]|Hin].
  - assert (Hg : Header_Get h k = "") by (unfold Header_Get; by rewrite Hh).
    rewrite (bool_decide_true _ Hg). unfold Header_Set at 2.
    assert (Hrest : forall h', h' !! CanonicalHeaderKey k = Some v ->
      staticHeaders h' kvs !! CanonicalHeaderKey k = Some v).
    { clear IH Hh. revert Hnot Huniq. induction kvs as [|[k2 x2] kvs IH2]; intros Hnot Huniq h' Hh'; [done|].
      cbn in Hnot, Huniq, Hnd. apply NoDup_cons in Hnd as [_ Hnd]. cbn [staticHeaders foldl fst snd].
      apply IH2; [done|set_solver|set_solver|]. case_bool_decide; [|done]. unfold Header_Set.
      rewrite lookup_insert_ne; [done|]. intros Heq. apply Hnot.
      rewrite <-(Huniq k2) by (done || set_solver). set_solver. }
    apply Hrest, lookup_insert_eq.
  - apply IH; [done|done|set_solver|]. case_bool_decide; [|done]. unfold Header_Set.
    rewrite lookup_insert_ne; [done|]. intros Heq. apply Hnot.
    rewrite (Huniq k') by (done || set_solver). by apply (list_elem_of_fmap_2 fst _ (k, v)).
Qed.

(** C31: Who decides a header of the upstream request. What the program sets for the
    call wins over the upstream's static headers, the later source over the
    earlier: the envelope, then the outbound credentials, then the content type of
    a body, then the headers the inbound token asks for. A static header is sent
    when the call sets none of its name. *)
Theorem wireRequest_headers (order : gmap string string -> list (string * string))
    (client : Client) (info : option TokenInfo) (req : HttpRequest)
    (envelope authHeaders : gmap string string) (hasBody : bool)
    (Horder : forall m, order m ≡ₚ map_to_list m)
    (Hreq : hr_Header req = requestHeaders order envelope authHeaders hasBody) :
  let sent := hr_Header (wireRequest order client info req) in
  (forall K v, ownHeader order envelope authHeaders hasBody info K = Some v -> v <> "" ->
     sent !! K = Some v) /\
  (forall k v, cl_Headers client !! k = Some v ->
     (forall k', is_Some (cl_Headers client !! k') ->
        CanonicalHeaderKey k' = CanonicalHeaderKey k -> k' = k) ->
     ownHeader order envelope authHeaders hasBody info (CanonicalHeaderKey k) = None ->
     sent !! CanonicalHeaderKey k = Some v).
Proof.
  cbn. rewrite Hreq. split.
  - intros K v Hown Hv. apply staticHeaders_keep; [|done]. by rewrite ownHeader_lookup.
  - intros k v Hk Huniq Hown. apply staticHeaders_absent.
    + rewrite Horder. apply NoDup_fst_map_to_list.
    + rewrite Horder. by apply elem_of_map_to_list.
    + intros k'. rewrite Horder. intros ([k2 v2] & -> & Hv%elem_of_map_to_list)%list_elem_of_fmap.
      by apply Huniq.
    + by rewrite ownHeader_lookup.
Qed.

(** ** A sample request *)
Module SampleRequest.
(** A URL is its text before and after the question mark. *)
#[local] Instance urls : UrlEnv := {|
  URL := string * string;
  ParseURL s := Ok (default (s, "") (cut_byte "?"%char s));
  url_RawQuery := snd;
  withRawQuery u q := (u.1, q);
  url_String u := u.1 +:+ "?" +:+ u.2 |}.
Definition order : gmap string string -> list (string * string) := map_to_list.
Definition segs : list segment := [Lit "/pets/"; Hole "id"; Lit "/notes"].
Definition envelope : RequestEnvelope :=
  {| env_Query := {["q" := "a&b=c d"]}; env_Headers := {["x-trace" := "1"]};
     env_Path := {["id" := "../{id}"]}; env_Body := VNull |}.
Definition client : Client :=
  {| cl_Timeout := 0; cl_Transport := 1; cl_Headers := {["X-Env" := "prod"]} |}.
Definition info : TokenInfo :=
  {| ti_Subject := "ann"; ti_Scopes := []; ti_Audience := [];
     ti_Extra := [("header:X-Trace", VString "2"); ("role", VString "admin")] |}.
Definition req : HttpRequest :=
  {| hr_Method := "GET"; hr_URL := ""; hr_Header := requestHeaders order (env_Headers envelope) ∅ false;
     hr_Body := None |}.
End SampleRequest.
#[local] Existing Instance SampleRequest.urls.

Example buildUpstreamURL_ex :
  buildUpstreamURL SampleRequest.order "https://api?v=2" "" SampleRequest.envelope =
    Ok "https://api?q=a%26b%3Dc+d&v=2".
Proof. vm_compute. reflexivity. Qed.

Lemma buildUpstreamURL_spec_witness :
  buildUpstreamURL SampleRequest.order "https://api" (templateText SampleRequest.segs)
    SampleRequest.envelope = Ok "https://api/pets/..%2F%7Bid%7D/notes?q=a%26b%3Dc+d" /\
  exists u q, ParseURL "https://api/pets/..%2F%7Bid%7D/notes" = Ok u /\
    ParseQuery q !! "q" = Some ["a&b=c d"].
Proof.
  split; [vm_compute; reflexivity|].
  destruct (buildUpstreamURL_spec SampleRequest.order "https://api" SampleRequest.segs
    SampleRequest.envelope "https://api/pets/..%2F%7Bid%7D/notes?q=a%26b%3Dc+d")
    as (_ & _ & u & q & Hu & _ & Hq).
  - reflexivity.
  - repeat constructor; vm_compute; set_solver.
  - intros k v Hv. change (env_Path SampleRequest.envelope) with ({["id" := "../{id}"]} : gmap string string) in Hv.
    apply lookup_singleton_Some in Hv as [<- _]. split; vm_compute; set_solver.
  - vm_compute. reflexivity.
  - exists u, q. split; [exact Hu|]. rewrite Hq. reflexivity.
Defined.

Lemma wireRequest_headers_witness :
  let sent := hr_Header (wireRequest SampleRequest.order SampleRequest.client
                (Some SampleRequest.info) SampleRequest.req) in
  sent !! "X-Trace" = Some "2" /\ sent !! "X-Env" = Some "prod".
Proof.
  intros sent.
  destruct (wireRequest_headers SampleRequest.order SampleRequest.client (Some SampleRequest.info)
    SampleRequest.req (env_Headers SampleRequest.envelope) ∅ false) as [Hown Hstatic].
  - reflexivity.
  - reflexivity.
  - split.
    + apply Hown; [vm_compute; reflexivity|discriminate].
    + apply (Hstatic "X-Env" "prod"); [vm_compute; reflexivity| |vm_compute; reflexivity].
      intros k' [v Hv] _.
      change (cl_Headers SampleRequest.client) with ({["X-Env" := "prod"]} : gmap string string) in Hv.
      by apply lookup_singleton_Some in Hv as [<- _].
Defined.
