(* ===== verification/HttpExecutor.v ===== *)
(** * Tool execution over HTTP (pkg/upstream/http/executor.go; the methods of
    pkg/openapi's Validator)

    One call of a tool: the request transform, outbound authentication, the
    request, its validation, the circuit breaker, the round trip and the
    conversion of the response.  The network, kin-openapi's router and filters and
    gobreaker are parameters. *)
From S2P Require Export Content HttpRequest CircuitBreaker.
Open Scope Z_scope.

Record UpstreamResponse := {
  ur_StatusCode : Z;
  ur_ContentType : string;
  ur_Body : result string string
}.

Class ExecEnv (W : Type) := {
  (** the error of [http.NewRequestWithContext] for a method and a URL *)
  NewHTTPRequest : string -> string -> option string;
  (** the transport under the client's round trippers *)
  transportRoundTrip : handle -> HttpRequest -> W -> result string UpstreamResponse * W;
  ReqInput : Type;
  FindRoute : handle -> HttpRequest -> result string ReqInput;
  filterRequest : ReqInput -> option string;
  filterResponse : ReqInput -> UpstreamResponse -> string -> option string;
  transformErrorText : TransformError -> string;
  FormatRFC3339 : Z -> string
}.

Definition statusIn (list : list Z) (status : Z) : bool := existsb (Z.eqb status) list.

(** ** The call *)
Section Call.
Context {W : Type} `{!ExecEnv W, UrlEnv, Gojq, Numbers, JsonText, Unicode, AuthTexts}.
Context (order : gmap string string -> list (string * string)).
(** The entry, with the objects it points to: [entry.Upstream], its client,
    [entry.Transforms] when it is a [*CompiledTransforms], and the caller. *)
Context (entry : RegistryEntry) (up : Upstream) (client : Client).
Context (entryTransforms : option CompiledTransforms) (info : option TokenInfo).
Implicit Types (w : W) (req : HttpRequest).

Definition Do req w : result string UpstreamResponse * W :=
  transportRoundTrip (cl_Transport client) (wireRequest order client info req) w.

Definition BuildRequestInput (validator : handle) req : result string ReqInput :=
  match FindRoute validator req with
  | Err err => Err ("route not found: " +:+ err)
  | Ok route => Ok route
  end.

(** The input, and the error found. *)
Definition ValidateRequest (validator : handle) req : option ReqInput * option string :=
  match BuildRequestInput validator req with
  | Err err => (None, Some err)
  | Ok input => (Some input, filterRequest input)
  end.

Definition ValidateResponse (reqInput : ReqInput) (resp : UpstreamResponse) (body : string) : option string :=
  filterResponse reqInput resp body.

Definition buildErrorResult (transforms : CompiledTransforms) (statusCode : Z)
    (contentType body : string) : CallToolResult :=
  ToErrorResult body contentType statusCode (ct_Error transforms).

Definition buildSuccessResult (transforms : CompiledTransforms)
    (responseFormat contentType body : string) : CallToolResult :=
  let format := Detect responseFormat contentType in
  match ToMCPContent format body contentType (Some (ct_Response transforms)) with
  | Err _ => {| res_IsError := false; res_Content := [TextContent body] |}
  | Ok contents => {| res_IsError := false; res_Content := contents |}
  end.

(** The result and status code of a response that arrived. *)
Definition responseResult (reqInput : option ReqInput) (transforms : CompiledTransforms)
    (validator : option handle) (resp : UpstreamResponse) (body : string) : CallToolResult :=
  let cfg := re_ValidationCfg entry in
  let statusCode := ur_StatusCode resp in
  let inSuccess := statusIn (vc_SuccessStatus cfg) statusCode in
  let inError := statusIn (vc_ErrorStatus cfg) statusCode in
  if negb inSuccess && negb inError then
    errorResult ("unexpected HTTP " +:+ pretty statusCode)
  else if inError then buildErrorResult transforms statusCode (ur_ContentType resp) body
  else
    let invalid :=
      match vc_ValidateResponse cfg, reqInput, validator with
      | true, Some input, Some _ => ValidateResponse input resp body
      | _, _, _ => None
      end in
    match invalid, bool_decide (vc_ResponseValidationFailure cfg = "fail") with
    | Some valErr, true => errorResult ("response validation failed: " +:+ valErr)
    | _, _ => buildSuccessResult transforms (re_ResponseFormat entry) (ur_ContentType resp) body
    end.

(** The status code is 0 when no response was read. *)
Definition httpDispatchWithStatus req (reqInput : option ReqInput)
    (transforms : CompiledTransforms) (validator : option handle) w : Reply * Z * W :=
  match Do req w with
  | (Err err, w) => (reply_err ("executing HTTP request: " +:+ err), 0, w)
  | (Ok resp, w) =>
    match ur_Body resp with
    | Err err => (reply_err ("reading response body: " +:+ err), 0, w)
    | Ok body =>
      (reply_ok (responseResult reqInput transforms validator resp body), ur_StatusCode resp, w)
    end
  end.

(** ** The circuit breaker *)

(** The sentinel errors, which [errors.Is] recognises. *)
Definition ErrUpstreamFailure : string := "upstream 5xx failure".
Definition ErrOpenState : string := "circuit breaker is open".
Definition ErrTooManyRequests : string := "too many requests".

Context {CB : Type}.
Context (cb_Execute : CB -> (W -> Reply * W) -> W -> Reply * W * CB * list CBState).

(** The function the breaker runs. *)
Definition guarded (req : HttpRequest) (reqInput : option ReqInput)
    (transforms : CompiledTransforms) (validator : option handle) w : Reply * W :=
  let '(r, statusCode, w) := httpDispatchWithStatus req reqInput transforms validator w in
  match rep_Error r with
  | Some dispErr => (reply_err dispErr, w)
  | None =>
    if 500 <=? statusCode then
      ({| rep_Result := rep_Result r; rep_Error := Some ErrUpstreamFailure |}, w)
    else (r, w)
  end.

Definition openCircuitResult (now : Z) (cb : Breaker CB) : CallToolResult :=
  let msg := "upstream " +:+ Quote (UpstreamName cb)
             +:+ " is unavailable: circuit breaker is open" in
  let msg := match EstimatedRecovery cb with
             | Some recovery =>
               if now <? recovery then
                 msg +:+ ", estimated recovery at " +:+ FormatRFC3339 recovery
               else msg
             | None => msg
             end in
  errorResult msg.

(** The dispatch at time [now], with the breaker of the upstream if it has one. *)
Definition dispatch (now : Z) (breaker : option (Breaker CB)) (req : HttpRequest)
    (reqInput : option ReqInput) (transforms : CompiledTransforms) (validator : option handle) w
    : Reply * option (Breaker CB) * W :=
  match breaker with
  | None =>
    let '(r, _, w) := httpDispatchWithStatus req reqInput transforms validator w in
    (r, None, w)
  | Some cb =>
    let '(r, w, cb) :=
      CircuitBreaker.Execute cb_Execute now cb (guarded req reqInput transforms validator) w in
    let reply :=
      match rep_Error r with
      | None => r
      | Some err =>
        if bool_decide (err = ErrOpenState) || bool_decide (err = ErrTooManyRequests) then
          reply_ok (openCircuitResult now cb)
        else if bool_decide (err = ErrUpstreamFailure) then
          {| rep_Result := rep_Result r; rep_Error := None |}
        else r
      end in
    (reply, Some cb, w)
  end.

(** ** The pipeline *)

(** The terminal handler. *)
Definition ServeHTTP (now : Z) (breaker : option (Breaker CB)) (tctx : TransformContext)
    (actx : AuthContext) w : Reply * option (Breaker CB) * W :=
  let stop (r : Reply) := (r, breaker, w) in
  match ErrorFromContext tctx, AuthResultFromContext actx with
  | Some tErr, _ => stop (reply_ok (errorResult ("request transform: " +:+ transformErrorText tErr)))
  | None, Some authResult => stop (reply_ok authResult)
  | None, None =>
    match entryTransforms, RequestEnvelopeFromContext tctx with
    | None, _ =>
      stop (reply_err ("invalid transforms for tool " +:+ Quote (re_PrefixedName entry)
                       +:+ ": expected *transform.CompiledTransforms"))
    | Some _, None =>
      stop (reply_err ("no request envelope in context for tool " +:+ Quote (re_PrefixedName entry)))
    | Some transforms, Some envelope =>
      match buildUpstreamURL order (up_BaseURL up) (re_PathTemplate entry) envelope with
      | Err err => stop (reply_err ("building upstream URL: " +:+ err))
      | Ok upstreamURL =>
        let hasBody := negb (match env_Body envelope with VNull => true | _ => false end) in
        match Marshal FormatFloat true (env_Body envelope) with
        | None => stop (reply_err "marshalling request body")
        | Some bodyBytes =>
          match NewHTTPRequest (re_Method entry) upstreamURL with
          | Some err => stop (reply_err ("creating HTTP request: " +:+ err))
          | None =>
            let req :=
              {| hr_Method := re_Method entry; hr_URL := upstreamURL;
                 hr_Header := requestHeaders order (env_Headers envelope)
                                (HeadersFromContext actx) hasBody;
                 hr_Body := if hasBody then Some bodyBytes else None |} in
            let cfg := re_ValidationCfg entry in
            match re_Validator entry with
            | None => dispatch now breaker req None transforms None w
            | Some validator =>
              if vc_ValidateRequest cfg then
                match ValidateRequest validator req with
                | (_, Some valErr) =>
                  stop (reply_ok (errorResult ("request validation failed: " +:+ valErr)))
                | (ri, None) => dispatch now breaker req ri transforms (Some validator) w
                end
              else
                let ri := if vc_ValidateResponse cfg then
                            match BuildRequestInput validator req with
                            | Ok ri => Some ri
                            | Err _ => None
                            end
                          else None in
                dispatch now breaker req ri transforms (Some validator) w
            end
          end
        end
      end
    end
  end.

(** The handler chain of a built entry, and the call. *)
Definition Execute {P : Type} `{!TokenProvider P W} (provider : P) (now : Z)
    (breaker : option (Breaker CB)) (transforms : CompiledTransforms) (a : args) w
    : Reply * option (Breaker CB) * W :=
  match NewHTTPRequest "POST" "http://internal/" with
  | Some err => (reply_err ("creating internal pipeline request: " +:+ err), breaker, w)
  | None =>
    RequestMiddleware transforms
      (fun tctx => Outbound.Middleware provider (ServeHTTP now breaker tctx) info zero_AuthContext w)
      {| tc_mcpArgs := Some a; tc_envelope := None; tc_transformErr := None |}
  end.
End Call.

(** ** What a call may do *)
Section Theorems.
Context {W : Type} `{!ExecEnv W, UrlEnv, Gojq, Numbers, JsonText, Unicode, AuthTexts}.
Context (order : gmap string string -> list (string * string)).
Context (entry : RegistryEntry) (up : Upstream) (client : Client) (info : option TokenInfo).
Context {CB : Type}.
Context (cb_Execute : CB -> (W -> Reply * W) -> W -> Reply * W * CB * list CBState).
Implicit Types (w : W) (req : HttpRequest).

Lemma existsb_eqb_elem (l : list Z) z : statusIn l z = true <-> z ∈ l.
Proof.
  unfold statusIn. rewrite existsb_exists. split.
  - intros (x & Hx & Heq%Z.eqb_eq). subst. by apply list_elem_of_In.
  - intros Hz. exists z. split; [by apply list_elem_of_In|apply Z.eqb_refl].
Qed.

(** When a response is reported as a success. Its status is in the success list
    and not in the error list, and it passed response validation, or validation is
    off, was impossible, or only warns. Every other response becomes an [IsError]
    result; a success whose conversion fails is reported with its raw body. *)
Theorem responseResult_success (reqInput : option ReqInput) (transforms : CompiledTransforms)
    (validator : option handle) (resp : UpstreamResponse) (body : string) :
  let cfg := re_ValidationCfg entry in
  let res := responseResult entry reqInput transforms validator resp body in
  (res_IsError res = false <->
     ur_StatusCode resp ∈ vc_SuccessStatus cfg /\ ur_StatusCode resp ∉ vc_ErrorStatus cfg /\
     (vc_ResponseValidationFailure cfg = "fail" -> vc_ValidateResponse cfg = true ->
      forall input, reqInput = Some input -> is_Some validator -> ValidateResponse input resp body = None)) /\
  (res_IsError res = false ->
     ToMCPContent (Detect (re_ResponseFormat entry) (ur_ContentType resp)) body (ur_ContentType resp)
       (Some (ct_Response transforms)) = Ok (res_Content res) \/
     res_Content res = [TextContent body]).
Proof.
  cbn. unfold responseResult. rewrite <-!existsb_eqb_elem.
  set (cfg := re_ValidationCfg entry).
  destruct (statusIn (vc_SuccessStatus cfg) _), (statusIn (vc_ErrorStatus cfg) _); cbn [negb andb];
    try (split; [split; [done|intros (? & Hn & _); by try destruct Hn]|done]).
  set (invalid := match vc_ValidateResponse cfg with true => _ | false => _ end).
  set (ok := buildSuccessResult transforms (re_ResponseFormat entry) (ur_ContentType resp) body).
  assert (Hok : res_IsError ok = false /\
    (ToMCPContent (Detect (re_ResponseFormat entry) (ur_ContentType resp)) body (ur_ContentType resp)
       (Some (ct_Response transforms)) = Ok (res_Content ok) \/ res_Content ok = [TextContent body])).
  { unfold ok, buildSuccessResult. destruct (ToMCPContent _ _ _ _); split; [done|by left|done|by right]. }
  destruct Hok as [Hok1 Hok2].
  case_bool_decide as Hfail; destruct invalid as [err|] eqn:Einv; cbn.
  - split; [|done]. split; [done|]. intros (_ & _ & Hv). unfold invalid in Einv.
    destruct (vc_ValidateResponse cfg); [|done]. destruct reqInput as [input|]; [|done].
    destruct validator; [|done]. by rewrite (Hv Hfail eq_refl input eq_refl ltac:(by eexists)) in Einv.
  - split; [|done]. split; [|done]. intros _. split_and!; [done|done|]. intros _ Hval input -> [v ->].
    unfold invalid in Einv. by rewrite Hval in Einv.
  - split; [|done]. split; [|done]. intros _. split_and!; [done|done|]. by intros.
  - split; [|done]. split; [|done]. intros _. split_and!; [done|done|]. by intros.
Qed.

(** gobreaker's contract: it runs the request once and answers what it answered,
    or rejects the call with one of its two errors and runs nothing. *)
Definition gobreaker_contract : Prop := forall cb f w,
  let '(r, w', _, _) := cb_Execute cb f w in
  (r, w') = f w \/
  w' = w /\ rep_Result r = None /\
    (rep_Error r = Some ErrOpenState \/ rep_Error r = Some ErrTooManyRequests).

Lemma httpDispatch_shape req reqInput transforms validator w :
  let '(r, _, _) := httpDispatchWithStatus order entry client info req reqInput transforms validator w in
  (exists err, r = reply_err err /\ err <> ErrOpenState /\ err <> ErrTooManyRequests /\
     err <> ErrUpstreamFailure) \/
  exists res, r = reply_ok res.
Proof.
  unfold httpDispatchWithStatus. destruct (Do _ _ _ _ _) as [[resp|err] w1].
  - destruct (ur_Body resp) as [body|err]; [right; by eexists|left]. by eexists.
  - left. by eexists.
Qed.

(** The circuit breaker is transparent. A call through it answers exactly what the
    dispatch without it answers, results of 5xx responses included, and changes the
    world in the same way, or it is refused with an [IsError] result and no request
    is sent. The breaker counts the call as a failure exactly when no response was
    read or its status is 500 or above. *)
Theorem dispatch_transparent (Hgb : gobreaker_contract) (now : Z) (cb : Breaker CB) req
    (reqInput : option ReqInput) (transforms : CompiledTransforms) (validator : option handle) w :
  let '(r0, code, w0) :=
    httpDispatchWithStatus order entry client info req reqInput transforms validator w in
  let '(r, _, w') :=
    dispatch order entry client info cb_Execute now (Some cb) req reqInput transforms validator w in
  ((r, w') = (r0, w0) \/ w' = w /\ exists text, r = reply_ok (errorResult text)) /\
  (rep_Error (guarded order entry client info req reqInput transforms validator w).1 = None <->
   rep_Error r0 = None /\ code < 500).
Proof.
  unfold dispatch, CircuitBreaker.Execute.
  pose proof (Hgb (br_cb cb) (guarded order entry client info req reqInput transforms validator) w) as Hc.
  pose proof (httpDispatch_shape req reqInput transforms validator w) as Hshape.
  unfold guarded in Hc |- *.
  destruct (httpDispatchWithStatus _ _ _ _ _ _ _ _ w) as [[r0 code] w0].
  destruct (cb_Execute _ _ _) as [[[r w'] cb'] ts]. cbn [fst snd]. split.
  - destruct Hc as [Hran|(-> & Hnone & [He|He])].
    + left. destruct Hshape as [(err & -> & Hn1 & Hn2 & Hn3)|[res ->]]; cbn [rep_Error reply_err] in *.
      * injection Hran as -> ->. cbn. rewrite !bool_decide_false by done. done.
      * destruct (Z.leb_spec 500 code); injection Hran as -> ->; cbn; done.
    + right. rewrite He. cbn. split; [done|]. eexists. reflexivity.
    + right. rewrite He. cbn. split; [done|]. eexists. reflexivity.
  - destruct Hshape as [(err & -> & _)|[res ->]]; cbn; [naive_solver|].
    destruct (Z.leb_spec 500 code); cbn; [|by split]. split; [done|]. intros [_ ?]. lia.
Qed.

(** The request [ServeHTTP] sends for an envelope. *)
Definition requestFor (envelope : RequestEnvelope) (authHeaders : gmap string string) (url body : string)
    : HttpRequest :=
  let hasBody := negb (match env_Body envelope with VNull => true | _ => false end) in
  {| hr_Method := re_Method entry; hr_URL := url;
     hr_Header := requestHeaders order (env_Headers envelope) authHeaders hasBody;
     hr_Body := if hasBody then Some body else None |}.

Lemma ServeHTTP_contacts transforms now (breaker : option (Breaker CB)) tctx actx w :
  (forall res, ac_Result actx = Some res -> res_IsError res = true) ->
  let run := ServeHTTP order entry up client (Some transforms) info cb_Execute now breaker tctx actx w in
  (exists r, run = (r, breaker, w) /\
     (rep_Error r <> None \/ exists res, r = reply_ok res /\ res_IsError res = true)) \/
  tc_transformErr tctx = None /\ ac_Result actx = None /\
  exists envelope url body ri,
    tc_envelope tctx = Some envelope /\
    buildUpstreamURL order (up_BaseURL up) (re_PathTemplate entry) envelope = Ok url /\
    Marshal FormatFloat true (env_Body envelope) = Some body /\
    let req := requestFor envelope (ac_Headers actx) url body in
    (forall v, re_Validator entry = Some v -> vc_ValidateRequest (re_ValidationCfg entry) = true ->
       ValidateRequest v req = (ri, None)) /\
    run = dispatch order entry client info cb_Execute now breaker req ri transforms (re_Validator entry) w.
Proof.
  intros Hres. unfold ServeHTTP, ErrorFromContext, AuthResultFromContext, RequestEnvelopeFromContext.
  destruct (tc_transformErr tctx) as [tErr|]; [left; eauto 10|].
  destruct (ac_Result actx) as [res|]; [left; eexists; split; [done|right]; eauto|].
  destruct (tc_envelope tctx) as [envelope|]; [|left; eexists; split; [done|by left]].
  destruct (buildUpstreamURL _ _ _ _) as [url|] eqn:Eurl; [|left; eexists; split; [done|by left]].
  destruct (Marshal _ _ _) as [body|] eqn:Em; [|left; eexists; split; [done|by left]].
  destruct (NewHTTPRequest _ _); [left; eexists; split; [done|by left]|].
  fold (requestFor envelope (HeadersFromContext actx) url body).
  destruct (re_Validator entry) as [v|].
  - destruct (vc_ValidateRequest _) eqn:Evr.
    + destruct (ValidateRequest v _) as [ri [valErr|]] eqn:Ev; [left; eauto 10|].
      right. split_and!; [done..|]. exists envelope, url, body, ri. split_and!; [done..| |done].
      by intros ? [= <-].
    + right. split_and!; [done..|]. exists envelope, url, body. eexists.
      split_and!; [done..| |done]. done.
  - right. split_and!; [done..|]. exists envelope, url, body, None. by split_and!.
Qed.

(** C4: A tool call fails closed. Either the upstream is not contacted: the reply is
    an error, the breaker is as before, and nothing but the token provider has run.
    Or all of these hold, and the reply is the dispatch of that one request: the
    request transform gave an envelope, authentication gave no early result, the URL
    was built from the entry's template, and the request passed validation where
    validation is on. *)
Theorem Execute_fails_closed {P : Type} `{!TokenProvider P W} (provider : P) (now : Z)
    (breaker : option (Breaker CB)) (transforms : CompiledTransforms) (a : args) w :
  let run := Execute order entry up client (Some transforms) info cb_Execute provider now breaker
               transforms a w in
  let '(actx, w1) := authContext provider info w in
  (exists r w', run = (r, breaker, w') /\ (w' = w \/ w' = w1) /\
     (rep_Error r <> None \/ exists res, r = reply_ok res /\ res_IsError res = true)) \/
  exists envelope url body ri,
    RunRequest transforms a = Ok envelope /\ ac_Result actx = None /\
    buildUpstreamURL order (up_BaseURL up) (re_PathTemplate entry) envelope = Ok url /\
    Marshal FormatFloat true (env_Body envelope) = Some body /\
    let req := requestFor envelope (ac_Headers actx) url body in
    (forall v, re_Validator entry = Some v -> vc_ValidateRequest (re_ValidationCfg entry) = true ->
       ValidateRequest v req = (ri, None)) /\
    run = dispatch order entry client info cb_Execute now breaker req ri transforms (re_Validator entry) w1.
Proof.
  cbn zeta. unfold Execute. destruct (NewHTTPRequest "POST" _) as [err|].
  { destruct (authContext provider info w) as [actx w1]. left. do 2 eexists. split; [done|].
    split; [by left|by left]. }
  unfold RequestMiddleware, MCPArgsFromContext. cbn [tc_mcpArgs default from_option id].
  destruct (authContext_exclusive provider info w) as [Hex|(_ & res & Hex & Herr)].
  all: destruct (RunRequest transforms a) as [envelope|tErr]; rewrite Middleware_context.
  all: destruct (authContext provider info w) as [actx w1]; cbn [fst snd] in *.
  all: match goal with |- context [ServeHTTP _ _ _ _ _ _ _ _ _ ?tctx _ _] =>
         destruct (ServeHTTP_contacts transforms now breaker tctx actx w1)
           as [(r & -> & Hr)|(Ht & Ha & env & url & body & ri & He & Hu & Hm & Hv & Hd)] end;
       try (intros res'; rewrite Hex; congruence);
       try (left; do 2 eexists; split; [done|]; split; [by right|exact Hr]); try done.
  - injection He as ->. right. exists env, url, body, ri. split_and!; done.
  - congruence.
Qed.
End Theorems.

(** ** A sample call *)
Module SampleCall.
#[local] Existing Instances SampleEngine.engine SampleEngine.numbers SampleBodies.json
  SampleRequest.urls SampleValidation.unicode.
#[local] Instance texts : AuthTexts := {| errorText _ := "failed" |}.
(** The world is the list of the requests sent; the server always answers 503. *)
#[local] Instance exec : ExecEnv (list HttpRequest) := {|
  NewHTTPRequest _ _ := None;
  transportRoundTrip _ req w :=
    (Ok {| ur_StatusCode := 503; ur_ContentType := "text/plain"; ur_Body := Ok "down" |}, req :: w);
  ReqInput := unit;
  FindRoute _ _ := Ok tt;
  filterRequest _ := None;
  filterResponse _ _ _ := None;
  transformErrorText _ := "failed";
  FormatRFC3339 _ := "1970-01-01T00:00:00Z" |}.
Definition entry : RegistryEntry :=
  builtEntry (H := SampleBuild.httpEnv) zero_UpstreamConfig
    (newUpstream zero_UpstreamConfig 1 12) (fun h => h) SampleBuild.validated.
Definition up : Upstream := newUpstream zero_UpstreamConfig 1 12.
(** A breaker that is open or not. *)
Definition cb_Execute (s : CBState) (f : list HttpRequest -> Reply * list HttpRequest)
    (w : list HttpRequest) : Reply * list HttpRequest * CBState * list CBState :=
  if decide (s = StateOpen) then (reply_err ErrOpenState, w, s, [])
  else let '(r, w') := f w in (r, w', s, []).
Definition breaker (s : CBState) : Breaker CBState :=
  {| br_cb := s; br_upstreamName := "pets"; br_fallbackDuration := 30; br_openedAt := Some 0 |}.
Definition run (s : CBState) : Reply * option (Breaker CBState) * list HttpRequest :=
  Execute SampleRequest.order entry up SampleRequest.client (Some SampleEngine.transforms) None
    cb_Execute tt 10 (Some (breaker s)) SampleEngine.transforms [] [].
End SampleCall.

(** A closed circuit lets the 503 through, an open one sends nothing. *)
Example Execute_ex :
  (rep_Result (SampleCall.run StateClosed).1.1, length (SampleCall.run StateClosed).2) =
    (Some (errorResult "unexpected HTTP 503"), 1%nat) /\
  length (SampleCall.run StateOpen).2 = 0%nat.
Proof. split; vm_compute; reflexivity. Qed.

Lemma dispatch_transparent_witness :
  let '(r, _, w') := @dispatch _ SampleCall.exec SampleEngine.engine SampleEngine.numbers
      SampleBodies.json SampleValidation.unicode SampleRequest.order SampleCall.entry
      SampleRequest.client None _ SampleCall.cb_Execute 10 (Some (SampleCall.breaker StateOpen))
      SampleRequest.req None SampleEngine.transforms None [] in
  exists text, r = reply_ok (errorResult text) /\ w' = [].
Proof.
  assert (Hgb : gobreaker_contract SampleCall.cb_Execute).
  { intros s f w. unfold SampleCall.cb_Execute. case_decide; [right; by auto|].
    destruct (f w). by left. }
  pose proof (@dispatch_transparent _ SampleCall.exec SampleEngine.engine SampleEngine.numbers
    SampleBodies.json SampleValidation.unicode SampleRequest.order SampleCall.entry
    SampleRequest.client None _ SampleCall.cb_Execute Hgb 10 (SampleCall.breaker StateOpen)
    SampleRequest.req None SampleEngine.transforms None []) as H.
  destruct (httpDispatchWithStatus _ _ _ _ _ _ _ _ _) as [[r0 code] w0] eqn:E0.
  destruct (dispatch _ _ _ _ _ _ _ _ _ _ _ _) as [[r b] w'] eqn:E1.
  destruct H as [[Hsame|(-> & text & ->)] _]; [|by exists text].
  exfalso. injection Hsame as -> ->. vm_compute in E0, E1. simplify_eq.
Defined.
