(* ===== verification/OAuth.v ===== *)
(** * User authorization (pkg/session: encrypt.go, memory; pkg/oauth/callbackmux;
    pkg/auth/outbound/oauth2usersession)

    A user authorizes an upstream once: the provider hands out a URL with a signed
    state, the callback verifies the state and stores the user's token, and later
    calls read, refresh and send it.  AES-GCM, HMAC-SHA256, the random source and
    golang.org/x/oauth2 are parameters; base64 and the state's format are not. *)
From S2P Require Export Outbound Content.
Open Scope Z_scope.

(** ** base64.RawURLEncoding *)
Section Base64.
Open Scope N_scope.

Definition b64_char (n : N) : ascii :=
  if n <? 26 then byte_of (65 + n)
  else if n <? 52 then byte_of (71 + n)
  else if n <? 62 then byte_of (n - 4)
  else if n =? 62 then "-"%char else "_"%char.

Definition b64_value (c : ascii) : option N :=
  let n := of_byte c in
  if is_upper c then Some (n - 65)
  else if is_lower c then Some (n - 71)
  else if is_digit c then Some (n + 4)
  else if bool_decide (c = "-"%char) then Some 62
  else if bool_decide (c = "_"%char) then Some 63
  else None.

Fixpoint b64_encode (l : list ascii) : list ascii :=
  match l with
  | [] => []
  | [a] => let a := of_byte a in [b64_char (a / 4); b64_char (a mod 4 * 16)]
  | [a; b] =>
    let a := of_byte a in let b := of_byte b in
    [b64_char (a / 4); b64_char (a mod 4 * 16 + b / 16); b64_char (b mod 16 * 4)]
  | a :: b :: c :: l' =>
    let a := of_byte a in let b := of_byte b in let c := of_byte c in
    b64_char (a / 4) :: b64_char (a mod 4 * 16 + b / 16)
      :: b64_char (b mod 16 * 4 + c / 64) :: b64_char (c mod 64) :: b64_encode l'
  end.

(** The decoder skips line breaks, wherever they are, and ignores the unused low
    bits of the last character. *)
Fixpoint b64_decode (l : list ascii) : option (list ascii) :=
  match l with
  | [] => Some []
  | [_] => None
  | [w; x] => w ← b64_value w; x ← b64_value x; Some [byte_of (w * 4 + x / 16)]
  | [w; x; y] =>
    w ← b64_value w; x ← b64_value x; y ← b64_value y;
    Some [byte_of (w * 4 + x / 16); byte_of (x mod 16 * 16 + y / 4)]
  | w :: x :: y :: z :: l' =>
    w ← b64_value w; x ← b64_value x; y ← b64_value y; z ← b64_value z;
    (fun r => byte_of (w * 4 + x / 16) :: byte_of (x mod 16 * 16 + y / 4)
                :: byte_of (y mod 4 * 64 + z) :: r) <$> b64_decode l'
  end.

Definition is_newline (c : ascii) : bool := (of_byte c =? 10) || (of_byte c =? 13).

Definition EncodeToString (s : string) : string := implode (b64_encode (explode s)).
Definition DecodeString (s : string) : option string :=
  implode <$> b64_decode (filter (fun c => is_newline c = false) (explode s)).

Lemma b64_all : Forall (fun n => b64_value (b64_char n) = Some n /\
    is_newline (b64_char n) = false /\ b64_char n <> "."%char /\ lead (b64_char n) = 1%nat) (N.of_nat <$> seq 0 64).
Proof. repeat (apply Forall_cons; split; [split_and!; (reflexivity || discriminate)|]). apply Forall_nil. done. Qed.

Lemma b64_char_ok n : n < 64 -> b64_value (b64_char n) = Some n /\
  is_newline (b64_char n) = false /\ b64_char n <> "."%char /\ lead (b64_char n) = 1%nat.
Proof.
  intros Hn. pose proof b64_all as Hall. rewrite Forall_forall in Hall. apply Hall.
  apply list_elem_of_fmap. exists (N.to_nat n). split; [by rewrite N2Nat.id|].
  apply elem_of_seq. lia.
Qed.

Lemma byte_of_of_byte c : byte_of (of_byte c) = c.
Proof. apply ascii_N_embedding. Qed.

(** The six-bit groups of three bytes, and the bytes they give back. *)
Lemma b64_groups a b c : a < 256 -> b < 256 -> c < 256 ->
  let w := a / 4 in let x := a mod 4 * 16 + b / 16 in
  let y := b mod 16 * 4 + c / 64 in let z := c mod 64 in
  (w < 64 /\ x < 64 /\ y < 64 /\ z < 64) /\
  w * 4 + x / 16 = a /\ x mod 16 * 16 + y / 4 = b /\ y mod 4 * 64 + z = c.
Proof.
  intros Ha Hb Hc w x y z.
  pose proof (N.div_mod a 4 ltac:(done)). pose proof (N.mod_lt a 4 ltac:(done)).
  pose proof (N.div_mod b 16 ltac:(done)). pose proof (N.mod_lt b 16 ltac:(done)).
  pose proof (N.div_mod c 64 ltac:(done)). pose proof (N.mod_lt c 64 ltac:(done)).
  assert (Hb16 : b / 16 < 16) by (apply N.Div0.div_lt_upper_bound; lia).
  assert (Hc64 : c / 64 < 4) by (apply N.Div0.div_lt_upper_bound; lia).
  assert (Hx : x / 16 = a mod 4 /\ x mod 16 = b / 16).
  { unfold x. rewrite (N.add_comm _ (b / 16)), N.div_add, N.Div0.mod_add by done.
    rewrite (N.div_small (b / 16) 16), (N.mod_small (b / 16) 16) by done. split; [lia|done]. }
  assert (Hy : y / 4 = b mod 16 /\ y mod 4 = c / 64).
  { unfold y. rewrite (N.add_comm _ (c / 64)), N.div_add, N.Div0.mod_add by done.
    rewrite (N.div_small (c / 64) 4), (N.mod_small (c / 64) 4) by done. split; [lia|done]. }
  destruct Hx as [-> ->], Hy as [-> ->]. unfold w, x, y, z.
  assert (a / 4 < 64) by (apply N.Div0.div_lt_upper_bound; lia). lia.
Qed.

Lemma b64_decode_encode l : b64_decode (b64_encode l) = Some l.
Proof.
  induction l as [l IH] using (induction_ltof1 _ (@length ascii)).
  destruct l as [|a [|b [|c l]]]; [done| | |].
  - destruct (b64_groups (of_byte a) 0 0 (of_byte_lt a) ltac:(lia) ltac:(lia)) as ((H1 & H2 & _) & Ha & _).
    cbn [b64_encode b64_decode]. rewrite N.div_0_l, N.add_0_r in H2, Ha by done.
    rewrite !(fun n H => proj1 (b64_char_ok n H)) by done. cbn. by rewrite Ha, byte_of_of_byte.
  - destruct (b64_groups (of_byte a) (of_byte b) 0 (of_byte_lt a) (of_byte_lt b) ltac:(lia))
      as ((H1 & H2 & H3 & _) & Ha & Hb & _).
    cbn [b64_encode b64_decode]. rewrite N.div_0_l, N.add_0_r in H3, Hb by done.
    rewrite !(fun n H => proj1 (b64_char_ok n H)) by done. cbn.
    by rewrite Ha, Hb, !byte_of_of_byte.
  - destruct (b64_groups (of_byte a) (of_byte b) (of_byte c) (of_byte_lt a) (of_byte_lt b) (of_byte_lt c))
      as ((H1 & H2 & H3 & H4) & Ha & Hb & Hc).
    cbn [b64_encode b64_decode].
    rewrite !(fun n H => proj1 (b64_char_ok n H)) by done. cbn [mbind option_bind].
    rewrite (IH l) by (unfold ltof; cbn; lia). cbn [fmap option_fmap option_map].
    by rewrite Ha, Hb, Hc, !byte_of_of_byte.
Qed.

Lemma b64_encode_chars l c : c ∈ b64_encode l -> is_newline c = false /\ c <> "."%char /\ lead c = 1%nat.
Proof.
  induction l as [l IH] using (induction_ltof1 _ (@length ascii)).
  destruct l as [|a [|b [|x l]]]; cbn [b64_encode]; [by intros ?%not_elem_of_nil| | |].
  - destruct (b64_groups (of_byte a) 0 0 (of_byte_lt a) ltac:(lia) ltac:(lia)) as ((H1 & H2 & _) & _).
    rewrite N.div_0_l, N.add_0_r in H2 by done. rewrite !elem_of_cons.
    intros [->|[->|?%not_elem_of_nil]]; [by apply b64_char_ok..|done].
  - destruct (b64_groups (of_byte a) (of_byte b) 0 (of_byte_lt a) (of_byte_lt b) ltac:(lia))
      as ((H1 & H2 & H3 & _) & _).
    rewrite N.div_0_l, N.add_0_r in H3 by done. rewrite !elem_of_cons.
    intros [->|[->|[->|?%not_elem_of_nil]]]; [by apply b64_char_ok..|done].
  - destruct (b64_groups (of_byte a) (of_byte b) (of_byte x) (of_byte_lt a) (of_byte_lt b) (of_byte_lt x))
      as ((H1 & H2 & H3 & H4) & _).
    rewrite !elem_of_cons. intros [->|[->|[->|[->|Hin]]]]; [by apply b64_char_ok..|].
    apply (IH l); [unfold ltof; cbn; lia|done].
Qed.

Lemma DecodeString_EncodeToString s : DecodeString (EncodeToString s) = Some s.
Proof.
  unfold DecodeString, EncodeToString. rewrite explode_implode.
  rewrite (filter_congr _ (fun _ => True)).
  - replace (filter (fun _ => True) (b64_encode (explode s))) with (b64_encode (explode s)).
    + rewrite b64_decode_encode. cbn. by rewrite implode_explode.
    + induction (b64_encode (explode s)) as [|c l IH]; [done|]. rewrite filter_cons. cbn. by rewrite <-IH.
  - intros c Hc%b64_encode_chars. naive_solver.
Qed.

Lemma EncodeToString_no_dot s : "."%char ∉ explode (EncodeToString s).
Proof. unfold EncodeToString. rewrite explode_implode. intros (_ & H & _)%b64_encode_chars. done. Qed.

(** An encoded text is ASCII. *)
Definition valid_utf8 (s : string) : Prop := of_runes (runes s) = s.

Lemma EncodeToString_valid s : valid_utf8 (EncodeToString s).
Proof.
  unfold valid_utf8, of_runes, runes, EncodeToString. rewrite explode_implode. f_equal.
  assert (Hl : Forall (fun c => lead c = 1%nat) (b64_encode (explode s)))
    by (apply Forall_forall; by intros c (_ & _ & ?)%b64_encode_chars).
  induction Hl as [|c l Hc Hl IH]; [done|]. rewrite decode_lead1 by done. cbn [fmap list_fmap mbind list_bind fst].
  rewrite IH. unfold encode_rune. unfold lead in Hc.
  destruct (of_byte c <? 128) eqn:E; [by rewrite byte_of_of_byte|]. by repeat case_match.
Qed.
End Base64.

(** ** Token stores *)

(** [config.OAuthTokenStore] *)
Class TokenStore (S : Type) := {
  Save : S -> string -> string -> OAuthToken -> S * option string;
  Load : S -> string -> string -> result string (option OAuthToken);
  Delete : S -> string -> string -> S * option string;
  (** the upstream names the store keeps apart, and the tokens it gives back as
      they are *)
  upstream_ok : string -> Prop;
  token_ok : S -> OAuthToken -> Prop
}.

Class TokenStoreLaws (S : Type) `{TokenStore S} := {
  Load_Save s sub up tok s' : token_ok s tok -> Save s sub up tok = (s', None) ->
    Load s' sub up = Ok (Some tok);
  Load_Save_other s sub up tok sub' up' : upstream_ok up -> upstream_ok up' ->
    (sub', up') <> (sub, up) -> Load (Save s sub up tok).1 sub' up' = Load s sub' up'
}.

Definition nul : ascii := "000"%char.
Definition storeKey (userSubject upstreamName : string) : string :=
  userSubject +:+ String nul "" +:+ upstreamName.

(** The in-memory store: [tokens]. *)
Abbreviation MemoryStore := (gmap string OAuthToken).
#[export] Instance memory_store : TokenStore MemoryStore := {|
  Save tokens userSubject upstreamName token :=
    (<[storeKey userSubject upstreamName := token]> tokens, None);
  Load tokens userSubject upstreamName := Ok (tokens !! storeKey userSubject upstreamName);
  Delete tokens userSubject upstreamName :=
    (delete (storeKey userSubject upstreamName) tokens, None);
  upstream_ok upstreamName := nul ∉ explode upstreamName;
  token_ok _ _ := True |}.

(** Two lists that agree up to the last occurrence of a byte. *)
Lemma app_last_inj {A} (c : A) l1 l2 k1 k2 :
  c ∉ k1 -> c ∉ k2 -> l1 ++ c :: k1 = l2 ++ c :: k2 -> l1 = l2 /\ k1 = k2.
Proof.
  intros Hc1 Hc2. revert l2. induction l1 as [|x l1 IH]; intros [|y l2]; cbn; intros Heq.
  - by injection Heq as ->.
  - injection Heq as _ ->. destruct Hc1. set_solver.
  - injection Heq as _ <-. destruct Hc2. set_solver.
  - injection Heq as -> Heq. by destruct (IH l2 Heq) as [-> ->].
Qed.

(** Users and upstreams cannot take each other's key, whatever the subject. *)
Lemma storeKey_inj sub up sub' up' : nul ∉ explode up -> nul ∉ explode up' ->
  storeKey sub up = storeKey sub' up' -> sub = sub' /\ up = up'.
Proof.
  intros H1 H2 Heq%(f_equal explode). unfold storeKey in Heq. rewrite !explode_app in Heq.
  cbn in Heq. apply app_last_inj in Heq as [Hs Hu]; [|done..].
  split; by apply explode_inj.
Qed.

#[export] Instance memory_store_laws : TokenStoreLaws MemoryStore.
Proof.
  split; cbn.
  - intros s sub up tok s' _ [= <-]. by rewrite lookup_insert_eq.
  - intros s sub up tok sub' up' H1 H2 Hne. rewrite lookup_insert_ne; [done|].
    intros Hk%storeKey_inj; [|done..]. destruct Hk as [-> ->]. done.
Qed.

(** ** Encryption (session/encrypt.go) *)
Section Encryption.
(** AES-256-GCM: [Seal key nonce plaintext] and [Open key nonce ciphertext], and the
    key sizes AES accepts. *)
Context (Seal : string -> string -> string -> string).
Context (Open : string -> string -> string -> option string).

Inductive CipherError := CreatingCipher | GeneratingNonce | CiphertextTooShort | Decrypting.

Definition NonceSize : nat := 12.
Definition aes_key (key : string) : bool :=
  bool_decide (String.length key ∈ [16; 24; 32])%nat.

(** [nonce] is what the random source gave. *)
Definition Encrypt (nonce : option string) (key plaintext : string) : result CipherError string :=
  if negb (aes_key key) then Err CreatingCipher
  else match nonce with
       | None => Err GeneratingNonce
       | Some nonce => Ok (nonce +:+ Seal key nonce plaintext)
       end.

Definition Decrypt (key ciphertext : string) : result CipherError string :=
  if negb (aes_key key) then Err CreatingCipher
  else if (String.length ciphertext <? NonceSize)%nat then Err CiphertextTooShort
  else
    let nonce := implode (take NonceSize (explode ciphertext)) in
    let ct := implode (drop NonceSize (explode ciphertext)) in
    match Open key nonce ct with
    | None => Err Decrypting
    | Some plaintext => Ok plaintext
    end.

Lemma Decrypt_Encrypt nonce key plaintext ciphertext :
  (forall k n p, Open k n (Seal k n p) = Some p) ->
  String.length nonce = NonceSize ->
  Encrypt (Some nonce) key plaintext = Ok ciphertext -> Decrypt key ciphertext = Ok plaintext.
Proof.
  intros Haead Hn. unfold Encrypt, Decrypt. destruct (aes_key key); [|done]. cbn [negb].
  intros [= <-].
  assert (Hlen : length (explode nonce) = NonceSize).
  { rewrite <-Hn. clear. by induction nonce as [|c s IH]; cbn; [|rewrite IH]. }
  assert (Hl : forall s t, String.length (s +:+ t) = (String.length s + String.length t)%nat).
  { induction s as [|c s IH]; intros t; [done|]. rewrite string_app_cons. cbn. by rewrite IH. }
  rewrite Hl, Hn. rewrite (proj2 (Nat.ltb_ge _ _)) by lia.
  rewrite explode_app, take_app_length', drop_app_length' by done.
  rewrite !implode_explode. by rewrite Haead.
Qed.
End Encryption.

(** ** The callback mux *)
Record OAuth2Config := {
  o2_ClientID : string;
  o2_ClientSecret : string;
  o2_AuthURL : string;
  o2_TokenURL : string;
  o2_RedirectURL : string;
  o2_Scopes : list string
}.

(** [mux_store] is [None] for a nil store. *)
Record Mux (S : Type) := {
  mux_store : option S;
  mux_hmacKey : string;
  mux_providers : gmap string OAuth2Config
}.
Arguments mux_store {S}. Arguments mux_hmacKey {S}. Arguments mux_providers {S}.

Class OAuthEnv := {
  HMAC : string -> string -> string;
  AuthCodeURL : OAuth2Config -> string -> string;
  (** the token endpoint's answer to a code *)
  Exchange : OAuth2Config -> string -> result string OAuthToken
}.

Inductive StateError :=
  | NoProvider (upstream : string)
  | MalformedState
  | DecodingSignature
  | InvalidSignature
  | DecodingPayload
  | ParsingPayload
  | UpstreamMismatch (payload upstream : string).

Record statePayload := { st_Upstream : string; st_Subject : string; st_Nonce : string }.

Section Mux.
Context {S : Type} `{TokenStore S, OAuthEnv, JsonText}.
Implicit Types (m : Mux S).

Definition New (store : option S) (hmacKey : string) : Mux S :=
  {| mux_store := store; mux_hmacKey := hmacKey; mux_providers := ∅ |}.

Definition RegisterProvider m (upstreamName authURL tokenURL clientID clientSecret : string)
    (scopes : list string) (redirectURL : string) : Mux S :=
  {| mux_store := mux_store m; mux_hmacKey := mux_hmacKey m;
     mux_providers :=
       <[upstreamName := {| o2_ClientID := clientID; o2_ClientSecret := clientSecret;
                            o2_AuthURL := authURL; o2_TokenURL := tokenURL;
                            o2_RedirectURL := redirectURL; o2_Scopes := scopes |}]>
         (mux_providers m) |}.

(** [json.Marshal] of a [statePayload] *)
Definition marshalPayload (p : statePayload) : string :=
  let field name v := quote true name +:+ ":" +:+ quote true v in
  "{" +:+ field "u" (st_Upstream p) +:+ "," +:+ field "s" (st_Subject p) +:+ ","
      +:+ field "n" (st_Nonce p) +:+ "}".

Definition payloadField (p : statePayload) (kv : string * value) : option statePayload :=
  let '(k, v) := kv in
  if is_field "u" k then
    x ← decodeString (st_Upstream p) v;
    Some {| st_Upstream := x; st_Subject := st_Subject p; st_Nonce := st_Nonce p |}
  else if is_field "s" k then
    x ← decodeString (st_Subject p) v;
    Some {| st_Upstream := st_Upstream p; st_Subject := x; st_Nonce := st_Nonce p |}
  else if is_field "n" k then
    x ← decodeString (st_Nonce p) v;
    Some {| st_Upstream := st_Upstream p; st_Subject := st_Subject p; st_Nonce := x |}
  else Some p.

Fixpoint payloadFields (p : statePayload) (kvs : list (string * value)) : option statePayload :=
  match kvs with
  | [] => Some p
  | kv :: kvs' => p' ← payloadField p kv; payloadFields p' kvs'
  end.

Definition unmarshalPayload (data : string) : option statePayload :=
  let zero := {| st_Upstream := ""; st_Subject := ""; st_Nonce := "" |} in
  match ParseJSON data with
  | Some VNull => Some zero
  | Some (VObject kvs) => payloadFields zero kvs
  | _ => None
  end.

Definition computeHMAC m (data : string) : string := HMAC (mux_hmacKey m) data.

(** [nonce] is what the random source gave. *)
Definition signedState m (nonce upstreamName userSubject : string) : string :=
  let payload := {| st_Upstream := upstreamName; st_Subject := userSubject;
                    st_Nonce := EncodeToString nonce |} in
  let encoded := EncodeToString (marshalPayload payload) in
  encoded +:+ "." +:+ EncodeToString (computeHMAC m encoded).

Definition AuthURL m (nonce upstreamName userSubject : string) : result StateError string :=
  match mux_providers m !! upstreamName with
  | None => Err (NoProvider upstreamName)
  | Some cfg => Ok (AuthCodeURL cfg (signedState m nonce upstreamName userSubject))
  end.

Definition verifyState m (upstreamName state : string) : result StateError string :=
  match cut_byte "."%char state with
  | None => Err MalformedState
  | Some (encoded, sigEncoded) =>
    match DecodeString sigEncoded with
    | None => Err DecodingSignature
    | Some sig =>
      if negb (bool_decide (sig = computeHMAC m encoded)) then Err InvalidSignature
      else
        match DecodeString encoded with
        | None => Err DecodingPayload
        | Some data =>
          match unmarshalPayload data with
          | None => Err ParsingPayload
          | Some payload =>
            if bool_decide (st_Upstream payload <> upstreamName) then
              Err (UpstreamMismatch (st_Upstream payload) upstreamName)
            else Ok (st_Subject payload)
          end
        end
    end
  end.

(** The status of the reply, and the mux with its store afterwards; [code] and
    [state] are the query parameters. *)
Definition HandleCallback m (code state upstreamName : string) : Z * Mux S :=
  match mux_store m with
  | None => (503, m)
  | Some store =>
    if bool_decide (code = "") || bool_decide (state = "") then (400, m)
    else
      match verifyState m upstreamName state with
      | Err _ => (400, m)
      | Ok userSubject =>
        match mux_providers m !! upstreamName with
        | None => (404, m)
        | Some cfg =>
          match Exchange cfg code with
          | Err _ => (502, m)
          | Ok tok =>
            let '(store', err) := Save store userSubject upstreamName tok in
            (match err with Some _ => 500 | None => 200 end,
             {| mux_store := Some store'; mux_hmacKey := mux_hmacKey m;
                mux_providers := mux_providers m |})
          end
        end
      end
  end.
End Mux.

(** ** The oauth2_user_session provider *)
Inductive DiscoveryError :=
  | FetchingDiscovery (url err : string)
  | DiscoveryStatus (url : string) (code : Z)
  | ParsingDiscovery
  | MissingEndpoints.

Record oidcDiscovery := { AuthorizationEndpoint : string; TokenEndpoint : string }.

Section Discovery.
(** The GET request, and the first JSON value of a body. *)
Context (Get : string -> result string (Z * string)) (DecodeFirst : string -> option value).

Definition discoveryField (doc : oidcDiscovery) (kv : string * value) : option oidcDiscovery :=
  let '(k, v) := kv in
  if is_field "authorization_endpoint" k then
    x ← decodeString (AuthorizationEndpoint doc) v;
    Some {| AuthorizationEndpoint := x; TokenEndpoint := TokenEndpoint doc |}
  else if is_field "token_endpoint" k then
    x ← decodeString (TokenEndpoint doc) v;
    Some {| AuthorizationEndpoint := AuthorizationEndpoint doc; TokenEndpoint := x |}
  else Some doc.

Fixpoint discoveryFields (doc : oidcDiscovery) (kvs : list (string * value)) : option oidcDiscovery :=
  match kvs with
  | [] => Some doc
  | kv :: kvs' => doc' ← discoveryField doc kv; discoveryFields doc' kvs'
  end.

Definition discoverOIDCEndpoints (issuerURL : string) : result DiscoveryError (string * string) :=
  let discoveryURL := TrimRight issuerURL "/" +:+ "/.well-known/openid-configuration" in
  let zero := {| AuthorizationEndpoint := ""; TokenEndpoint := "" |} in
  match Get discoveryURL with
  | Err err => Err (FetchingDiscovery discoveryURL err)
  | Ok (code, body) =>
    if bool_decide (code <> 200) then Err (DiscoveryStatus discoveryURL code)
    else
      match match DecodeFirst body with
            | Some VNull => Some zero
            | Some (VObject kvs) => discoveryFields zero kvs
            | _ => None
            end with
      | None => Err ParsingDiscovery
      | Some doc =>
        if bool_decide (AuthorizationEndpoint doc = "") || bool_decide (TokenEndpoint doc = "")
        then Err MissingEndpoints
        else Ok (AuthorizationEndpoint doc, TokenEndpoint doc)
      end
  end.
End Discovery.

Inductive ProviderError :=
  | NoTokenStore
  | NoCallbackReg
  | NoUpstreamName
  | NoClientID
  | NoCallbackURL
  | MissingField (provider field : string)
  | NoProviderName
  | UnknownProvider (provider : string)
  | Discovery (err : DiscoveryError).

Section Endpoints.
Context (Get : string -> result string (Z * string)) (DecodeFirst : string -> option value).

Definition resolveEndpoints (cfg : OAuth2UserSessionConfig) : result ProviderError (string * string) :=
  let provider := o2u_Provider cfg in
  if bool_decide (provider = "github") then
    Ok ("https://github.com/login/oauth/authorize", "https://github.com/login/oauth/access_token")
  else if bool_decide (provider = "google") then
    Ok ("https://accounts.google.com/o/oauth2/auth", "https://oauth2.googleapis.com/token")
  else if bool_decide (provider = "gitlab") then
    Ok ("https://gitlab.com/oauth/authorize", "https://gitlab.com/oauth/token")
  else if bool_decide (provider = "slack") then
    Ok ("https://slack.com/oauth/v2/authorize", "https://slack.com/api/oauth.v2.access")
  else if bool_decide (provider = "oidc") then
    if bool_decide (o2u_IssuerURL cfg = "") then Err (MissingField provider "issuer_url")
    else match discoverOIDCEndpoints Get DecodeFirst (o2u_IssuerURL cfg) with
         | Err err => Err (Discovery err)
         | Ok urls => Ok urls
         end
  else if bool_decide (provider = "oauth2") then
    if bool_decide (o2u_AuthURL cfg = "") then Err (MissingField provider "auth_url")
    else if bool_decide (o2u_TokenURL cfg = "") then Err (MissingField provider "token_url")
    else Ok (o2u_AuthURL cfg, o2u_TokenURL cfg)
  else if bool_decide (provider = "") then Err NoProviderName
  else Err (UnknownProvider provider).

Record Provider := { pv_upstream : string; pv_oauth2Cfg : OAuth2Config }.

Context {S : Type} (ExpandEnv : string -> string).

(** The provider, and the mux after its registration. *)
Definition newProvider (cfg : OutboundAuthConfig) (m : Mux S)
    : result ProviderError (Provider * Mux S) :=
  match ouc_OAuthTokenStore cfg, ouc_OAuthCallbackReg cfg with
  | None, _ => Err NoTokenStore
  | Some _, None => Err NoCallbackReg
  | Some _, Some _ =>
    if bool_decide (ouc_Upstream cfg = "") then Err NoUpstreamName
    else
      let ocfg := ouc_OAuth2UserSession cfg in
      if bool_decide (o2u_ClientID ocfg = "") then Err NoClientID
      else if bool_decide (o2u_CallbackURL ocfg = "") then Err NoCallbackURL
      else
        let clientSecret := ExpandEnv (o2u_ClientSecret ocfg) in
        match resolveEndpoints ocfg with
        | Err err => Err err
        | Ok (authURL, tokenURL) =>
          Ok ({| pv_upstream := ouc_Upstream cfg;
                 pv_oauth2Cfg := {| o2_ClientID := o2u_ClientID ocfg; o2_ClientSecret := clientSecret;
                                    o2_AuthURL := authURL; o2_TokenURL := tokenURL;
                                    o2_RedirectURL := o2u_CallbackURL ocfg;
                                    o2_Scopes := o2u_Scopes ocfg |} |},
              RegisterProvider m (ouc_Upstream cfg) authURL tokenURL (o2u_ClientID ocfg)
                clientSecret (o2u_Scopes ocfg) (o2u_CallbackURL ocfg))
        end
  end.
End Endpoints.

Section Provider.
Context {S : Type} `{TokenStore S}.
(** [TokenSource(ctx, existing).Token()] of golang.org/x/oauth2, the registrar's
    [AuthURL], and the time. *)
Context (TokenSource : OAuth2Config -> OAuthToken -> result string OAuthToken).
Context (authURL : string -> string -> result string string).
Context (now : Z).
Context (p : Provider).
Implicit Types (s : S) (tok : OAuthToken).

Definition subjectFromContext (info : option TokenInfo) : string :=
  match info with Some info => ti_Subject info | None => "" end.

(** A save that fails is only logged. *)
Definition doRefresh (subject : string) tok s : result string OAuthToken * S :=
  match TokenSource (pv_oauth2Cfg p) tok with
  | Err err => (Err ("token refresh: " +:+ err), s)
  | Ok new =>
    let newTok := {| tok_AccessToken := tok_AccessToken new;
                     tok_RefreshToken := if bool_decide (tok_RefreshToken new = "")
                                         then tok_RefreshToken tok else tok_RefreshToken new;
                     tok_Expiry := tok_Expiry new; tok_TokenType := tok_TokenType new |} in
    (Ok newTok, (Save s subject (pv_upstream p) newTok).1)
  end.

Definition minute : Z := 60 * 10 ^ 9.

Definition authorize (subject : string) : AuthError :=
  match authURL (pv_upstream p) subject with
  | Err err => GeneratingAuthURL (pv_upstream p) err
  | Ok url => AuthRequiredError url
  end.

(** The token, the store, and the token a goroutine was started to refresh. *)
Definition sessionToken (info : option TokenInfo) s
    : result AuthError string * S * option OAuthToken :=
  let subject := subjectFromContext info in
  match Load s subject (pv_upstream p) with
  | Err err => (Err (LoadingToken (pv_upstream p) err), s, None)
  | Ok None => (Err (authorize subject), s, None)
  | Ok (Some tok) =>
    match tok_Expiry tok with
    | None => (Ok (tok_AccessToken tok), s, None)
    | Some expiry =>
      if now + 5 * minute <? expiry then (Ok (tok_AccessToken tok), s, None)
      else if now <? expiry then
        (Ok (tok_AccessToken tok), s,
         if bool_decide (tok_RefreshToken tok <> "") then Some tok else None)
      else if bool_decide (tok_RefreshToken tok = "") then (Err (authorize subject), s, None)
      else
        match doRefresh subject tok s with
        | (Err err, s) => (Err (RefreshingToken (pv_upstream p) err), s, None)
        | (Ok newTok, s) => (Ok (tok_AccessToken newTok), s, None)
        end
    end
  end.

(** The goroutine, whenever it runs. *)
Definition backgroundRefresh (info : option TokenInfo) (job : option OAuthToken) s : S :=
  match job with
  | None => s
  | Some tok => (doRefresh (subjectFromContext info) tok s).2
  end.
End Provider.

(** ** Signed states *)
Section StateFacts.
Context {S : Type} `{TokenStore S, OAuthEnv, JsonText}.
Implicit Types (m : Mux S).

(** What the state of a user carries, and that [json.Unmarshal] reads what
    [json.Marshal] wrote. *)
Definition payloadOf (nonce upstream subject : string) : statePayload :=
  {| st_Upstream := upstream; st_Subject := subject; st_Nonce := EncodeToString nonce |}.
Definition payload_json (p : statePayload) : Prop :=
  ParseJSON (marshalPayload p) =
    Some (VObject [("u", VString (st_Upstream p)); ("s", VString (st_Subject p));
                   ("n", VString (st_Nonce p))]).

Lemma payloadFields_known p : valid_utf8 (st_Upstream p) -> valid_utf8 (st_Subject p) ->
  valid_utf8 (st_Nonce p) ->
  payloadFields {| st_Upstream := ""; st_Subject := ""; st_Nonce := "" |}
    [("u", VString (st_Upstream p)); ("s", VString (st_Subject p)); ("n", VString (st_Nonce p))] = Some p.
Proof.
  intros Hu Hs Hn. destruct p as [u s n]. unfold valid_utf8 in *. cbn [st_Upstream st_Subject st_Nonce] in *.
  cbn [payloadFields payloadField decodeString].
  change (is_field "u" "u") with true. change (is_field "u" "s") with false.
  change (is_field "s" "s") with true. change (is_field "u" "n") with false.
  change (is_field "s" "n") with false. change (is_field "n" "n") with true.
  cbn. by rewrite Hu, Hs, Hn.
Qed.

(** C26: A signed state is bound to its user and its upstream. Verified with the key
    that signed it, it gives the subject back when it comes to the callback of the
    upstream it was made for and is refused at any other upstream's; a text that
    verifies at all carries the HMAC of its payload under the mux's key. *)
Theorem verifyState_signedState m (nonce upstream subject callback : string)
    (Hjson : payload_json (payloadOf nonce upstream subject))
    (Hup : valid_utf8 upstream) (Hsub : valid_utf8 subject) :
  verifyState m callback (signedState m nonce upstream subject) =
    (if decide (upstream = callback) then Ok subject else Err (UpstreamMismatch upstream callback)) /\
  forall state sub, verifyState m callback state = Ok sub ->
    exists encoded sig, state = encoded +:+ "." +:+ sig /\
      DecodeString sig = Some (computeHMAC m encoded).
Proof.
  split.
  - unfold verifyState, signedState.
    fold (payloadOf nonce upstream subject). set (payload := payloadOf nonce upstream subject).
    set (encoded := EncodeToString (marshalPayload payload)).
    change ("." +:+ ?x) with (String "."%char x).
    rewrite cut_byte_app by apply EncodeToString_no_dot.
    rewrite DecodeString_EncodeToString, bool_decide_true by done. cbn [negb].
    unfold encoded. rewrite DecodeString_EncodeToString. unfold unmarshalPayload.
    unfold payload at 1. rewrite Hjson.
    rewrite payloadFields_known by (done || apply EncodeToString_valid). cbn.
    case_bool_decide; case_decide; congruence.
  - intros state sub Hv. unfold verifyState in Hv.
    destruct (cut_byte _ state) as [[encoded sig]|] eqn:Ecut; [|done].
    apply cut_byte_Some in Ecut. destruct (DecodeString sig) as [raw|] eqn:Esig; [|done].
    case_bool_decide as Hmac; [|done]. subst raw. by exists encoded, sig.
Qed.

(** C27: What a callback may write. It changes nothing unless the state verifies for
    the upstream in its path and the code exchange succeeds; then it saves exactly
    the exchanged token, for the subject the state was signed for, and tokens of
    other users and upstreams stay as they are. *)
Theorem HandleCallback_saves `{!TokenStoreLaws S} m (code state upstream : string)
    (status : Z) (m' : Mux S)
    (Hrun : HandleCallback m code state upstream = (status, m')) :
  m' = m \/
  exists store cfg subject tok,
    mux_store m = Some store /\ verifyState m upstream state = Ok subject /\
    mux_providers m !! upstream = Some cfg /\ Exchange cfg code = Ok tok /\
    mux_store m' = Some (Save store subject upstream tok).1 /\
    (status = 200 -> token_ok store tok -> Load (default store (mux_store m')) subject upstream = Ok (Some tok)) /\
    forall sub up, upstream_ok up -> upstream_ok upstream -> (sub, up) <> (subject, upstream) ->
      Load (default store (mux_store m')) sub up = Load store sub up.
Proof.
  unfold HandleCallback in Hrun. destruct (mux_store m) as [store|] eqn:Es; [|left; congruence].
  destruct (bool_decide _ || _); [left; congruence|].
  destruct (verifyState m upstream state) as [subject|] eqn:Ev; [|left; congruence].
  destruct (mux_providers m !! upstream) as [cfg|] eqn:Ep; [|left; congruence].
  destruct (Exchange cfg code) as [tok|] eqn:Ex; [|left; congruence].
  destruct (Save store subject upstream tok) as [store' err] eqn:Esave. injection Hrun as <- <-.
  right. exists store, cfg, subject, tok. cbn. rewrite Esave. split_and!; [done..| |].
  - destruct err; [done|]. intros _ Hok. by eapply Load_Save.
  - intros sub up Hok1 Hok2 Hne. change store' with ((store', err).1). rewrite <-Esave.
    by apply Load_Save_other.
Qed.
End StateFacts.

(** ** Session tokens *)
Section SessionFacts.
Context {S : Type} `{TokenStoreLaws S}.
Context (TokenSource : OAuth2Config -> OAuthToken -> result string OAuthToken).
Context (authURL : string -> string -> result string string).
Implicit Types (s : S) (tok : OAuthToken).

Lemma doRefresh_other p subject tok s sub up :
  upstream_ok up -> upstream_ok (pv_upstream p) -> (sub, up) <> (subject, pv_upstream p) ->
  Load (doRefresh TokenSource p subject tok s).2 sub up = Load s sub up.
Proof.
  intros Hok1 Hok2 Hne. unfold doRefresh. destruct (TokenSource _ _) as [new|]; [|done]. cbn.
  by apply Load_Save_other.
Qed.

(** C28: Whose token a call gets, and when. An access token that is handed out is
    the one stored for this user and this upstream, and not expired, or the one
    its refresh gave; without either the answer is an error. Neither the call nor
    the refresh it may leave running touches what is stored for any other user or
    upstream. *)
Theorem sessionToken_owner (now : Z) (p : Provider) (info : option TokenInfo) s
    (access : result AuthError string) (s' : S) (job : option OAuthToken)
    (Hrun : sessionToken TokenSource authURL now p info s = (access, s', job)) :
  let subject := subjectFromContext info in
  (forall text, access = Ok text ->
     exists tok, Load s subject (pv_upstream p) = Ok (Some tok) /\
       ((text = tok_AccessToken tok /\ (forall e, tok_Expiry tok = Some e -> now < e)) \/
        exists new, TokenSource (pv_oauth2Cfg p) tok = Ok new /\ text = tok_AccessToken new)) /\
  (forall sub up, upstream_ok up -> upstream_ok (pv_upstream p) -> (sub, up) <> (subject, pv_upstream p) ->
     Load s' sub up = Load s sub up /\
     Load (backgroundRefresh TokenSource p info job s') sub up = Load s sub up).
Proof.
  cbn. unfold sessionToken in Hrun. split.
  - intros text ->. destruct (Load s _ _) as [[tok|]|] eqn:El; [|done..].
    exists tok. split; [done|]. destruct (tok_Expiry tok) as [e|]; [|left; simplify_eq; by split].
    destruct (Z.ltb_spec (now + 5 * minute) e).
    { left. simplify_eq. split; [done|]. intros ? [= <-]. unfold minute in *. lia. }
    destruct (Z.ltb_spec now e).
    { left. simplify_eq. split; [done|]. by intros ? [= <-]. }
    case_bool_decide; [done|]. right. unfold doRefresh in Hrun.
    destruct (TokenSource _ tok) as [new|]; [|done]. exists new. split; [done|].
    by simplify_eq/=.
  - intros sub up Hok1 Hok2 Hne.
    assert (Hs' : Load s' sub up = Load s sub up).
    { destruct (Load s _ (pv_upstream p)) as [[tok|]|]; [|by simplify_eq..].
      destruct (tok_Expiry tok) as [e|]; [|by simplify_eq].
      destruct (now + 5 * minute <? e); [by simplify_eq|]. destruct (now <? e); [by simplify_eq|].
      case_bool_decide; [by simplify_eq|].
      pose proof (doRefresh_other p (subjectFromContext info) tok s sub up Hok1 Hok2 Hne) as Ho.
      by destruct (doRefresh _ _ _ tok s) as [[new|] s2]; simplify_eq/=. }
    split; [done|]. destruct job as [tok|]; [|done]. cbn. by rewrite doRefresh_other.
Qed.

(** The refresh ahead of expiry refreshes nothing. The token source is made from
    the stored token, and golang.org/x/oauth2 answers with that token for as long as
    it is valid, which it is until ten seconds before its expiry. Between five
    minutes and ten seconds before expiry the goroutine therefore stores the old
    token again. *)
Theorem early_refresh_keeps_token (now e : Z) (p : Provider) (info : option TokenInfo) s tok
    (Hreuse : forall cfg t x, tok_AccessToken t <> "" -> tok_Expiry t = Some x ->
       now + 10 * 10 ^ 9 <= x -> TokenSource cfg t = Ok t)
    (Hload : Load s (subjectFromContext info) (pv_upstream p) = Ok (Some tok))
    (Hacc : tok_AccessToken tok <> "") (Href : tok_RefreshToken tok <> "")
    (Hexp : tok_Expiry tok = Some e) (Hok : token_ok s tok) (Hnear : now + 10 * 10 ^ 9 <= e <= now + 5 * minute)
    (Hsave : forall s2 t, (Save s2 (subjectFromContext info) (pv_upstream p) t).2 = None) :
  let '(access, s', job) := sessionToken TokenSource authURL now p info s in
  access = Ok (tok_AccessToken tok) /\ job = Some tok /\
  Load (backgroundRefresh TokenSource p info job s') (subjectFromContext info) (pv_upstream p)
    = Ok (Some tok).
Proof.
  unfold sessionToken. rewrite Hload, Hexp.
  rewrite (proj2 (Z.ltb_ge _ _)) by lia. rewrite (proj2 (Z.ltb_lt _ _)) by lia.
  rewrite bool_decide_true by done. split_and!; [done..|]. cbn. unfold doRefresh.
  rewrite (Hreuse _ tok e Hacc Hexp (proj1 Hnear)). rewrite bool_decide_false by done. cbn.
  replace {| tok_AccessToken := _ |} with tok by (by destruct tok).
  destruct (Save s _ _ tok) as [s2 err] eqn:Es. specialize (Hsave s tok). rewrite Es in Hsave.
  cbn in Hsave |- *. subst err. by eapply Load_Save.
Qed.
End SessionFacts.

(** ** A sample session *)
Module SampleSession.
Definition cfg : OAuth2Config :=
  {| o2_ClientID := "id"; o2_ClientSecret := "s"; o2_AuthURL := "a"; o2_TokenURL := "t";
     o2_RedirectURL := "r"; o2_Scopes := [] |}.
Definition token : OAuthToken :=
  {| tok_AccessToken := "access"; tok_RefreshToken := "refresh";
     tok_Expiry := Some (60 * 10 ^ 9); tok_TokenType := "Bearer" |}.
#[local] Instance env : OAuthEnv := {|
  HMAC k d := k +:+ d;
  AuthCodeURL _ st := "https://auth?state=" +:+ st;
  Exchange _ code := if decide (code = "good") then Ok token else Err "denied" |}.
(** A parser of the payload of one user of one upstream. *)
Definition payload : statePayload :=
  {| st_Upstream := "github"; st_Subject := "ann"; st_Nonce := EncodeToString "0123" |}.
Definition mux : Mux MemoryStore :=
  RegisterProvider (New (Some ∅) "key") "github" "a" "t" "id" "s" [] "r".
Definition provider : Provider := {| pv_upstream := "github"; pv_oauth2Cfg := cfg |}.
Definition ann : option TokenInfo :=
  Some {| ti_Subject := "ann"; ti_Scopes := []; ti_Audience := []; ti_Extra := [] |}.
Definition stored : MemoryStore := {[storeKey "ann" "github" := token]}.
(** The mux once the token of a callback is saved. *)
Definition served : Mux MemoryStore :=
  RegisterProvider (New (Some stored) "key") "github" "a" "t" "id" "s" [] "r".
(** golang.org/x/oauth2 at time 0: valid tokens are reused. *)
Definition source (_ : OAuth2Config) (t : OAuthToken) : result string OAuthToken :=
  match tok_Expiry t with
  | Some x => if 10 * 10 ^ 9 <=? x then Ok t else Err "expired"
  | None => Ok t
  end.
Definition authURL (_ _ : string) : result string string := Ok "https://auth".
End SampleSession.

#[local] Existing Instance SampleSession.env.
#[local] Instance SampleSession_json : JsonText := {|
  ParseJSON d := if decide (d = marshalPayload SampleSession.payload) then
      Some (VObject [("u", VString "github"); ("s", VString "ann");
                     ("n", VString (EncodeToString "0123"))])
    else None |}.

Lemma verifyState_signedState_witness :
  let st := signedState SampleSession.mux "0123" "github" "ann" in
  verifyState SampleSession.mux "github" st = Ok "ann" /\
  verifyState SampleSession.mux "slack" st = Err (UpstreamMismatch "github" "slack").
Proof.
  cbn zeta. split.
  - refine (eq_trans (proj1 (verifyState_signedState SampleSession.mux "0123" "github" "ann" "github" _ _ _)) _);
      reflexivity.
  - refine (eq_trans (proj1 (verifyState_signedState SampleSession.mux "0123" "github" "ann" "slack" _ _ _)) _);
      reflexivity.
Defined.

Lemma HandleCallback_saves_witness :
  let st := signedState SampleSession.mux "0123" "github" "ann" in
  exists m', HandleCallback SampleSession.mux "good" st "github" = (200, m') /\
    Load (default ∅ (mux_store m')) "ann" "github" = Ok (Some SampleSession.token).
Proof.
  cbn zeta. set (st := signedState SampleSession.mux "0123" "github" "ann").
  assert (Hrun : HandleCallback SampleSession.mux "good" st "github" = (200, SampleSession.served))
    by (vm_compute; reflexivity).
  assert (Hann : verifyState SampleSession.mux "github" st = Ok "ann") by (vm_compute; reflexivity).
  exists SampleSession.served. split; [exact Hrun|].
  destruct (HandleCallback_saves _ _ _ _ _ _ Hrun)
    as [Heq|(store & cfg & subject & tok & Hs & Hv & _ & Hx & _ & Hload & _)].
  - exfalso. apply (f_equal (fun m => default ∅ (mux_store m) !! storeKey "ann" "github")) in Heq.
    vm_compute in Heq. discriminate.
  - injection Hs as <-. rewrite Hann in Hv. injection Hv as <-.
    vm_compute in Hx. injection Hx as <-. exact (Hload eq_refl I).
Defined.

Lemma sessionToken_owner_witness :
  sessionToken SampleSession.source SampleSession.authURL 0 SampleSession.provider
      SampleSession.ann SampleSession.stored
    = (Ok "access", SampleSession.stored, Some SampleSession.token) /\
  exists tok, Load SampleSession.stored "ann" "github" = Ok (Some tok) /\ tok_AccessToken tok = "access".
Proof.
  assert (E : sessionToken SampleSession.source SampleSession.authURL 0 SampleSession.provider
      SampleSession.ann SampleSession.stored
    = (Ok "access", SampleSession.stored, Some SampleSession.token)) by (vm_compute; reflexivity).
  split; [exact E|].
  destruct (proj1 (sessionToken_owner _ _ _ _ _ _ _ _ _ E) "access" eq_refl)
    as (tok & Hl & [[Ht _]|(new & Hn & Ht)]); exists tok; (split; [exact Hl|]); [symmetry; exact Ht|].
  rewrite Ht. vm_compute in Hl. injection Hl as <-. vm_compute in Hn. by injection Hn as <-.
Defined.

Lemma early_refresh_keeps_token_witness :
  let '(access, s', job) := sessionToken SampleSession.source SampleSession.authURL 0
      SampleSession.provider SampleSession.ann SampleSession.stored in
  access = Ok "access" /\ job = Some SampleSession.token /\
  Load (backgroundRefresh SampleSession.source SampleSession.provider SampleSession.ann job s') "ann" "github"
    = Ok (Some SampleSession.token).
Proof.
  apply (early_refresh_keeps_token SampleSession.source SampleSession.authURL 0 (60 * 10 ^ 9)
    SampleSession.provider SampleSession.ann SampleSession.stored SampleSession.token).
  - intros cfg t x _ Hx Hle. unfold SampleSession.source. rewrite Hx.
    rewrite (proj2 (Z.leb_le _ _)) by lia. done.
  - vm_compute. reflexivity.
  - discriminate.
  - discriminate.
  - reflexivity.
  - exact I.
  - vm_compute. split; discriminate.
  - done.
Defined.
