(* ===== verification/Backends.v ===== *)
(** * Storage backends (pkg/session: session.go, encrypt.go, redis, postgres;
    pkg/cache/memory, pkg/cache/redis; pkg/ratelimit/memory, pkg/ratelimit/redis)

    The stores behind the interfaces [TokenStore] and [CacheStore], and the
    factories that connect to them.  Redis, Postgres, Ristretto and the limiter's
    stores are parameters: what the program relies on of Redis and Postgres are
    the laws [RedisLaws] and [PostgresLaws]. *)
From S2P Require Export OAuth RateLimit Cache.
Open Scope Z_scope.

Definition millisecond : Z := 10 ^ 6.

(** A Redis server as a client sees it: connecting (with the PING), [SET] with a
    time to live (0 is none), [GET] (a missing key is [None]), [DEL], the time,
    and the server after some time without a command. *)
Class RedisService (R : Type) := {
  rd_Connect : string -> string -> R -> option string;
  rd_Instrument : option string;
  rd_Set : R -> string -> string -> Z -> R * option string;
  rd_Get : R -> string -> result string (option string);
  rd_Del : R -> string -> R * option string;
  rd_Now : R -> Z;
  rd_After : R -> Z -> R
}.

(** A server that stays reachable and does not evict keys on its own. *)
Class RedisLaws (R : Type) `{RedisService R} := {
  rd_Set_kept r k v r' d : rd_Set r k v 0 = (r', None) -> 0 <= d ->
    rd_Get (rd_After r' d) k = Ok (Some v);
  rd_Set_lives r k v ttl r' d : rd_Set r k v ttl = (r', None) -> 0 <= d -> d + millisecond <= ttl ->
    rd_Get (rd_After r' d) k = Ok (Some v);
  rd_Set_expires r k v ttl r' d : rd_Set r k v ttl = (r', None) -> 0 < ttl <= d ->
    rd_Get (rd_After r' d) k = Ok None;
  rd_Set_other r k v ttl k' : k' <> k -> rd_Get (rd_Set r k v ttl).1 k' = rd_Get r k';
  rd_After_0 r : rd_After r 0 = r
}.

(** ** Tokens at rest *)

(** The text of a [time.Time] in JSON (RFC 3339); the zero time is [None]. *)
Class TimeText := {
  FormatTime : option Z -> option string;
  ParseTime : string -> option (option Z)
}.

(** hex.DecodeString *)
Definition hex_value (c : ascii) : option N :=
  let n := of_byte c in
  if is_digit c then Some (n - 48)%N
  else if ((97 <=? n) && (n <=? 102))%N then Some (n - 87)%N
  else if ((65 <=? n) && (n <=? 70))%N then Some (n - 55)%N
  else None.
Fixpoint hex_decode (l : list ascii) : option (list ascii) :=
  match l with
  | [] => Some []
  | [_] => None
  | a :: b :: l' =>
    x ← hex_value a; y ← hex_value b; r ← hex_decode l'; Some (byte_of (x * 16 + y)%N :: r)
  end.
Definition HexDecodeString (s : string) : option string := implode <$> hex_decode (explode s).

Definition ParseKey (ExpandEnv : string -> string) (hexKey : string) : result string string :=
  match HexDecodeString (ExpandEnv hexKey) with
  | None => Err "decoding encryption key"
  | Some key =>
    if negb (String.length key =? 32)%nat
    then Err "encryption key must be 32 bytes (64 hex chars)" else Ok key
  end.

Section TokenText.
Context `{JsonText, TimeText}.

(** [json.Marshal] of [tokenData], and of [tokenRow], which has the same fields. *)
Definition marshalToken (tok : OAuthToken) : option string :=
  expiry ← FormatTime (tok_Expiry tok);
  let field name v := quote true name +:+ ":" +:+ quote true v in
  Some ("{" +:+ field "access_token" (tok_AccessToken tok) +:+ ","
            +:+ field "refresh_token" (tok_RefreshToken tok) +:+ ","
            +:+ field "expiry" expiry +:+ "," +:+ field "token_type" (tok_TokenType tok) +:+ "}").

Definition decodeTime (old : option Z) (v : value) : option (option Z) :=
  match v with VNull => Some old | VString s => ParseTime s | _ => None end.

Definition tokenField (t : OAuthToken) (kv : string * value) : option OAuthToken :=
  let '(k, v) := kv in
  if is_field "access_token" k then
    x ← decodeString (tok_AccessToken t) v;
    Some {| tok_AccessToken := x; tok_RefreshToken := tok_RefreshToken t;
            tok_Expiry := tok_Expiry t; tok_TokenType := tok_TokenType t |}
  else if is_field "refresh_token" k then
    x ← decodeString (tok_RefreshToken t) v;
    Some {| tok_AccessToken := tok_AccessToken t; tok_RefreshToken := x;
            tok_Expiry := tok_Expiry t; tok_TokenType := tok_TokenType t |}
  else if is_field "expiry" k then
    x ← decodeTime (tok_Expiry t) v;
    Some {| tok_AccessToken := tok_AccessToken t; tok_RefreshToken := tok_RefreshToken t;
            tok_Expiry := x; tok_TokenType := tok_TokenType t |}
  else if is_field "token_type" k then
    x ← decodeString (tok_TokenType t) v;
    Some {| tok_AccessToken := tok_AccessToken t; tok_RefreshToken := tok_RefreshToken t;
            tok_Expiry := tok_Expiry t; tok_TokenType := x |}
  else Some t.

Fixpoint tokenFields (t : OAuthToken) (kvs : list (string * value)) : option OAuthToken :=
  match kvs with
  | [] => Some t
  | kv :: kvs' => t' ← tokenField t kv; tokenFields t' kvs'
  end.

Definition zero_OAuthToken : OAuthToken :=
  {| tok_AccessToken := ""; tok_RefreshToken := ""; tok_Expiry := None; tok_TokenType := "" |}.

Definition unmarshalToken (data : string) : option OAuthToken :=
  match ParseJSON data with
  | Some VNull => Some zero_OAuthToken
  | Some (VObject kvs) => tokenFields zero_OAuthToken kvs
  | _ => None
  end.

(** The token survives its text. *)
Definition token_survives (tok : OAuthToken) : Prop :=
  forall text, marshalToken tok = Some text -> unmarshalToken text = Some tok.

(** It does when its strings are UTF-8 and the parsers read what was written. *)
Lemma token_survives_utf8 tok :
  valid_utf8 (tok_AccessToken tok) -> valid_utf8 (tok_RefreshToken tok) -> valid_utf8 (tok_TokenType tok) ->
  (forall e t, FormatTime e = Some t -> ParseTime t = Some e) ->
  (forall e text, FormatTime (tok_Expiry tok) = Some e -> marshalToken tok = Some text ->
     ParseJSON text = Some (VObject
       [("access_token", VString (tok_AccessToken tok)); ("refresh_token", VString (tok_RefreshToken tok));
        ("expiry", VString e); ("token_type", VString (tok_TokenType tok))])) ->
  token_survives tok.
Proof.
  intros Ha Hr Ht Htime Hjson text Htext. unfold unmarshalToken.
  destruct (FormatTime (tok_Expiry tok)) as [e|] eqn:Ee.
  2:{ unfold marshalToken in Htext. by rewrite Ee in Htext. }
  rewrite (Hjson e text eq_refl Htext). destruct tok as [a r x t].
  unfold valid_utf8 in *. cbn [tok_AccessToken tok_RefreshToken tok_TokenType tok_Expiry] in *.
  cbn [tokenFields tokenField decodeString decodeTime zero_OAuthToken].
  change (is_field "access_token" "access_token") with true.
  change (is_field "access_token" "refresh_token") with false.
  change (is_field "refresh_token" "refresh_token") with true.
  change (is_field "access_token" "expiry") with false.
  change (is_field "refresh_token" "expiry") with false.
  change (is_field "expiry" "expiry") with true.
  change (is_field "access_token" "token_type") with false.
  change (is_field "refresh_token" "token_type") with false.
  change (is_field "expiry" "token_type") with false.
  change (is_field "token_type" "token_type") with true.
  cbn. rewrite Ha, Hr, Ht. cbn. by rewrite (Htime _ _ Ee).
Qed.
End TokenText.

(** ** Sessions in Redis (session/redis/redis.go) *)
Definition redisKey (userSubject upstreamName : string) : string :=
  "mcp_session:" +:+ userSubject +:+ ":" +:+ upstreamName.

(** [time.Until]: a duration saturates. *)
Definition until (t now : Z) : Z := Z.max (- 2 ^ 63) (Z.min (2 ^ 63 - 1) (t - now)).

Section Encrypted.
Context (Seal : string -> string -> string -> string).
Context (Open : string -> string -> string -> option string).
Context `{JsonText, TimeText}.
Context (encKey : string).

(** The record of a token, encrypted; [nonce] is what the random source gives. *)
Definition encryptToken (nonce : option string) (tok : OAuthToken) : result string string :=
  match marshalToken tok with
  | None => Err "marshalling token"
  | Some plaintext =>
    match Encrypt Seal nonce encKey plaintext with
    | Err _ => Err "encrypting token"
    | Ok encrypted => Ok encrypted
    end
  end.

Definition decryptToken (encrypted : string) : result string OAuthToken :=
  match Decrypt Open encKey encrypted with
  | Err _ => Err "decrypting token"
  | Ok plaintext =>
    match unmarshalToken plaintext with
    | None => Err "unmarshalling token"
    | Some tok => Ok tok
    end
  end.

Section RedisSessions.
Context {R : Type} `{RedisService R} (nonce : R -> option string).

Definition sessionTTL (r : R) (tok : OAuthToken) : Z :=
  match tok_Expiry tok with
  | None => 0
  | Some e => let ttl := until e (rd_Now r) in if ttl <? 0 then 0 else ttl
  end.

Definition redisSave (r : R) (userSubject upstreamName : string) (tok : OAuthToken) : R * option string :=
  match encryptToken (nonce r) tok with
  | Err err => (r, Some err)
  | Ok encrypted =>
    match rd_Set r (redisKey userSubject upstreamName) encrypted (sessionTTL r tok) with
    | (r, Some err) => (r, Some ("saving session to redis: " +:+ err))
    | (r, None) => (r, None)
    end
  end.

Definition redisLoad (r : R) (userSubject upstreamName : string) : result string (option OAuthToken) :=
  match rd_Get r (redisKey userSubject upstreamName) with
  | Err err => Err ("loading session from redis: " +:+ err)
  | Ok None => Ok None
  | Ok (Some val) => Some <$> decryptToken val
  end.

Definition redisDelete (r : R) (userSubject upstreamName : string) : R * option string :=
  match rd_Del r (redisKey userSubject upstreamName) with
  | (r, Some err) => (r, Some ("deleting session from redis: " +:+ err))
  | (r, None) => (r, None)
  end.

(** A token that is kept long enough to be read back. *)
Definition lives (r : R) (tok : OAuthToken) : Prop :=
  match tok_Expiry tok with
  | None => True
  | Some e => e <= rd_Now r \/ rd_Now r + millisecond <= e
  end.

#[export] Instance redis_store : TokenStore R := {|
  OAuth.Save := redisSave;
  OAuth.Load := redisLoad;
  OAuth.Delete := redisDelete;
  upstream_ok upstreamName := ":"%char ∉ explode upstreamName;
  token_ok r tok := token_survives tok /\ lives r tok |}.
End RedisSessions.

Definition newRedisSession `{RedisService R} (ExpandEnv : string -> string) (cfg : RedisSessionConfig) (r : R)
    : result string string :=
  match ParseKey ExpandEnv (rds_EncryptionKey cfg) with
  | Err err => Err ("redis session store encryption key: " +:+ err)
  | Ok encKey =>
    match rd_Connect (rds_Addr cfg) (ExpandEnv (rds_Password cfg)) r with
    | Some err => Err ("connecting to redis: " +:+ err)
    | None =>
      match rd_Instrument with
      | Some err => Err ("instrumenting redis session store tracing: " +:+ err)
      | None => Ok encKey
      end
    end
  end.

(** ** Sessions in Postgres (session/postgres/postgres.go)

    The table [mcp_sessions]: its upsert, select and delete, keyed by user and
    upstream; no row is [None]. *)
Class PostgresService (P : Type) := {
  pg_ParseConfig : string -> option string;
  pg_Connect : string -> P -> option string;
  pg_CreateTable : P -> P * option string;
  pg_Upsert : P -> string -> string -> string -> P * option string;
  pg_Select : P -> string -> string -> result string (option string);
  pg_Delete : P -> string -> string -> P * option string
}.

Class PostgresLaws (P : Type) `{PostgresService P} := {
  pg_Upsert_Select p sub up data p' : pg_Upsert p sub up data = (p', None) ->
    pg_Select p' sub up = Ok (Some data);
  pg_Upsert_other p sub up data sub' up' : (sub', up') <> (sub, up) ->
    pg_Select (pg_Upsert p sub up data).1 sub' up' = pg_Select p sub' up'
}.

Section PostgresSessions.
Context {P : Type} `{PostgresService P} (nonce : P -> option string).

Definition postgresSave (p : P) (userSubject upstreamName : string) (tok : OAuthToken)
    : P * option string :=
  match encryptToken (nonce p) tok with
  | Err err => (p, Some err)
  | Ok encrypted =>
    match pg_Upsert p userSubject upstreamName encrypted with
    | (p, Some err) => (p, Some ("saving session to postgres: " +:+ err))
    | (p, None) => (p, None)
    end
  end.

Definition postgresLoad (p : P) (userSubject upstreamName : string)
    : result string (option OAuthToken) :=
  match pg_Select p userSubject upstreamName with
  | Err err => Err ("loading session from postgres: " +:+ err)
  | Ok None => Ok None
  | Ok (Some encrypted) => Some <$> decryptToken encrypted
  end.

Definition postgresDelete (p : P) (userSubject upstreamName : string) : P * option string :=
  match pg_Delete p userSubject upstreamName with
  | (p, Some err) => (p, Some ("deleting session from postgres: " +:+ err))
  | (p, None) => (p, None)
  end.

#[export] Instance postgres_store : TokenStore P := {|
  OAuth.Save := postgresSave;
  OAuth.Load := postgresLoad;
  OAuth.Delete := postgresDelete;
  upstream_ok _ := True;
  token_ok _ tok := token_survives tok |}.

(** The connection's key and the database with its table. *)
Definition newPostgresSession (ExpandEnv : string -> string) (cfg : PostgresSessionConfig) (p : P)
    : result string string * P :=
  match ParseKey ExpandEnv (pgs_EncryptionKey cfg) with
  | Err err => (Err ("postgres session store encryption key: " +:+ err), p)
  | Ok encKey =>
    let dsn := ExpandEnv (pgs_DSN cfg) in
    match pg_ParseConfig dsn with
    | Some err => (Err ("parsing postgres DSN: " +:+ err), p)
    | None =>
      match pg_Connect dsn p with
      | Some err => (Err ("connecting to postgres: " +:+ err), p)
      | None =>
        match pg_CreateTable p with
        | (p, Some err) => (Err ("creating mcp_sessions table: " +:+ err), p)
        | (p, None) => (Ok encKey, p)
        end
      end
    end
  end.
End PostgresSessions.

(** ** Both keep the promise of a token store *)
Context (Haead : forall k n p, Open k n (Seal k n p) = Some p).

Lemma decryptToken_encryptToken nonce tok text :
  (forall n, nonce = Some n -> String.length n = NonceSize) -> token_survives tok ->
  encryptToken nonce tok = Ok text -> decryptToken text = Ok tok.
Proof.
  intros Hn Hs. unfold encryptToken, decryptToken.
  destruct (marshalToken tok) as [plain|] eqn:Em; [|done].
  destruct (Encrypt Seal nonce encKey plain) as [enc|] eqn:Ee; [|done]. intros [= <-].
  destruct nonce as [n|]; [|unfold Encrypt in Ee; by destruct (aes_key encKey)].
  rewrite (Decrypt_Encrypt _ _ _ _ _ _ Haead (Hn n eq_refl) Ee). by rewrite (Hs _ Em).
Qed.

Lemma redisKey_inj sub up sub' up' : ":"%char ∉ explode up -> ":"%char ∉ explode up' ->
  redisKey sub up = redisKey sub' up' -> sub = sub' /\ up = up'.
Proof.
  intros H1 H2 Heq%(f_equal explode). unfold redisKey in Heq. rewrite !explode_app in Heq.
  apply app_inv_head in Heq. cbn in Heq. apply app_last_inj in Heq as [Hs Hu]; [|done..].
  split; by apply explode_inj.
Qed.

Section RedisFacts.
Context {R : Type} `{RedisLaws R} (nonce : R -> option string).
Context (Hnonce : forall r n, nonce r = Some n -> String.length n = NonceSize).
#[local] Hint Extern 0 (TokenStore R) => exact (redis_store nonce) : typeclass_instances.

(** What a successful [Save] did. *)
Lemma redisSave_Ok r sub up tok r' : redisSave nonce r sub up tok = (r', None) ->
  exists text, encryptToken (nonce r) tok = Ok text /\
    rd_Set r (redisKey sub up) text (sessionTTL r tok) = (r', None).
Proof.
  unfold redisSave. destruct (encryptToken _ tok) as [text|]; [|done].
  destruct (rd_Set _ _ _ _) as [r1 [err|]] eqn:Es; [done|]. intros [= <-]. eauto.
Qed.

Lemma redisLoad_kept r sub up text tok : rd_Get r (redisKey sub up) = Ok (Some text) ->
  decryptToken text = Ok tok -> redisLoad r sub up = Ok (Some tok).
Proof. unfold redisLoad. intros -> Hd. cbn. by rewrite Hd. Qed.

#[export] Instance redis_store_laws : @TokenStoreLaws R (redis_store nonce).
Proof.
  split; cbn.
  - intros r sub up tok r' [Hs Hl] (text & He & Hset)%redisSave_Ok.
    eapply redisLoad_kept; [|by eapply decryptToken_encryptToken; [apply Hnonce|..]].
    rewrite <-(rd_After_0 r'). unfold sessionTTL, lives in *.
    destruct (tok_Expiry tok) as [e|]; [|by eapply rd_Set_kept].
    unfold until in Hset. destruct (Z.ltb_spec (Z.max (- 2 ^ 63) (Z.min (2 ^ 63 - 1) (e - rd_Now r))) 0);
      [by eapply rd_Set_kept|].
    destruct (decide (e = rd_Now r)) as [->|Hne].
    { rewrite Z.sub_diag in Hset. by eapply rd_Set_kept. }
    eapply rd_Set_lives; [exact Hset|done|]. unfold millisecond in *. lia.
  - intros r sub up tok sub' up' Hu1 Hu2 Hne. unfold redisSave, redisLoad.
    destruct (encryptToken _ tok) as [text|]; [|done].
    destruct (rd_Set _ _ _ _) as [r1 err] eqn:Es.
    assert (Hg : rd_Get r1 (redisKey sub' up') = rd_Get r (redisKey sub' up')).
    { change r1 with ((r1, err).1). rewrite <-Es. apply rd_Set_other.
      intros [-> ->]%redisKey_inj; done. }
    destruct err; cbn; by rewrite Hg.
Qed.

(** Redis forgets the refresh token together with the access token.  Once the access
    token has expired the user has to authorize again, even though the store was
    given a refresh token; with the in-memory store the same call refreshes. *)
Theorem redis_forgets_refresh_token (TokenSource : OAuth2Config -> OAuthToken -> result string OAuthToken)
    (authURL : string -> string -> result string string) (p : OAuth.Provider) (info : option TokenInfo)
    (r : R) (tok : OAuthToken) (r' : R) (e now d : Z)
    (Hsave : redisSave nonce r (subjectFromContext info) (pv_upstream p) tok = (r', None))
    (Hexp : tok_Expiry tok = Some e) (Hfuture : rd_Now r < e) (Hlong : e - rd_Now r < 2 ^ 63)
    (Hpast : e <= rd_Now r + d) (Hnow : e <= now) (Hrefresh : tok_RefreshToken tok <> "") :
  let subject := subjectFromContext info in
  sessionToken TokenSource authURL now p info (rd_After r' d) =
    (Err (authorize authURL p subject), rd_After r' d, None) /\
  forall tokens : MemoryStore,
    sessionToken TokenSource authURL now p info
        (Save tokens subject (pv_upstream p) tok).1 =
      match doRefresh TokenSource p subject tok (Save tokens subject (pv_upstream p) tok).1 with
      | (Err err, s) => (Err (RefreshingToken (pv_upstream p) err), s, None)
      | (Ok newTok, s) => (Ok (tok_AccessToken newTok), s, None)
      end.
Proof.
  intros subject. split.
  - apply redisSave_Ok in Hsave as (text & _ & Hset). unfold sessionTTL, until in Hset.
    rewrite Hexp in Hset. rewrite Z.min_r, Z.max_r in Hset by lia.
    rewrite (proj2 (Z.ltb_ge _ _)) in Hset by lia.
    unfold sessionToken. cbn [Load redis_store]. unfold redisLoad. fold subject.
    by rewrite (rd_Set_expires _ _ _ _ _ _ Hset) by lia.
  - intros tokens. unfold sessionToken. cbn [Load Save memory_store fst]. fold subject.
    rewrite lookup_insert_eq, Hexp.
    rewrite (proj2 (Z.ltb_ge _ _)) by (unfold minute; lia). rewrite (proj2 (Z.ltb_ge _ _)) by lia.
    by rewrite bool_decide_false by done.
Qed.

(** A token that is already expired when it is saved gets no time to live at all:
    Redis keeps it until it is deleted. *)
Theorem redis_keeps_expired (r : R) sub up (tok : OAuthToken) (r' : R) (e d : Z)
    (Hsave : redisSave nonce r sub up tok = (r', None)) (Hs : token_survives tok)
    (Hexp : tok_Expiry tok = Some e) (Hpast : e <= rd_Now r) (Hd : 0 <= d) :
  Load (rd_After r' d) sub up = Ok (Some tok).
Proof.
  apply redisSave_Ok in Hsave as (text & He & Hset). cbn.
  eapply redisLoad_kept; [|by eapply decryptToken_encryptToken; [apply Hnonce|..]].
  unfold sessionTTL in Hset. rewrite Hexp in Hset. unfold until in Hset.
  destruct (Z.ltb_spec (Z.max (- 2 ^ 63) (Z.min (2 ^ 63 - 1) (e - rd_Now r))) 0);
    [by eapply rd_Set_kept|].
  replace (Z.max _ _) with 0 in Hset by lia. by eapply rd_Set_kept.
Qed.

(** The keys join subject and upstream with a colon, which both may contain: two
    users can share a session.  The in-memory store keeps these two apart. *)
Theorem redis_users_collide (r : R) (a b c : string) (tok : OAuthToken) (r' : R)
    (Hsave : redisSave nonce r (a +:+ ":" +:+ b) c tok = (r', None))
    (Hok : token_survives tok) (Hlives : lives r tok) :
  Load r' a (b +:+ ":" +:+ c) = Ok (Some tok) /\
  forall tokens : MemoryStore, nul ∉ explode c -> nul ∉ explode (b +:+ ":" +:+ c) ->
    Load (Save tokens (a +:+ ":" +:+ b) c tok).1 a (b +:+ ":" +:+ c) = Load tokens a (b +:+ ":" +:+ c).
Proof.
  split.
  - pose proof (Load_Save r (a +:+ ":" +:+ b) c tok r' (conj Hok Hlives) Hsave) as Hload.
    cbn in Hload |- *. unfold redisLoad, redisKey in *.
    rewrite !string_app_assoc in *. exact Hload.
  - intros tokens H1' H2'. apply (Load_Save_other tokens (a +:+ ":" +:+ b) c tok a (b +:+ ":" +:+ c)); [done..|].
    intros [= Heq _]. apply (f_equal (fun s => length (explode s))) in Heq. clear -Heq.
    rewrite !explode_app, !length_app in Heq. cbn in Heq. lia.
Qed.
End RedisFacts.

Section PostgresFacts.
Context {P : Type} `{PostgresLaws P} (nonce : P -> option string).
Context (Hnonce : forall p n, nonce p = Some n -> String.length n = NonceSize).

#[export] Instance postgres_store_laws : @TokenStoreLaws P (postgres_store nonce).
Proof.
  split; cbn.
  - intros p sub up tok p' Hs. unfold postgresSave, postgresLoad.
    destruct (encryptToken _ tok) as [text|] eqn:Ee; [|done].
    destruct (pg_Upsert p sub up text) as [p1 [err|]] eqn:Eu; [done|]. intros [= <-].
    rewrite (pg_Upsert_Select _ _ _ _ _ Eu). cbn.
    by rewrite (decryptToken_encryptToken _ _ _ (Hnonce p) Hs Ee).
  - intros p sub up tok sub' up' _ _ Hne. unfold postgresSave, postgresLoad.
    destruct (encryptToken _ tok) as [text|]; [|done].
    destruct (pg_Upsert p sub up text) as [p1 err] eqn:Eu.
    assert (Hg : pg_Select p1 sub' up' = pg_Select p sub' up').
    { change p1 with ((p1, err).1). rewrite <-Eu. by apply pg_Upsert_other. }
    destruct err; cbn; by rewrite Hg.
Qed.
End PostgresFacts.
End Encrypted.

(** ** session.New *)
Inductive SessionError :=
  | ProviderRequired
  | UnknownSessionProvider (provider : string)
  | SessionFactory (err : string).

Definition newSession {Store} (reg : Generic.Registry (SessionStoreConfig -> result string Store))
    (cfg : SessionStoreConfig) : result SessionError Store :=
  if bool_decide (ssc_Provider cfg = "") then Err ProviderRequired
  else
    match Generic.Get reg (ssc_Provider cfg) with
    | None => Err (UnknownSessionProvider (ssc_Provider cfg))
    | Some f => match f cfg with Err err => Err (SessionFactory err) | Ok store => Ok store end
    end.

(** ** The caches of results *)

(** JSON of a tool result (the MCP SDK's). *)
Class ResultText := {
  MarshalResult : CallToolResult -> option string;
  UnmarshalResult : string -> option CallToolResult;
  UnmarshalResult_Marshal r t : MarshalResult r = Some t -> UnmarshalResult t = Some r
}.

Definition newRedisCache {R} `{RedisService R} (cfg : CacheStoreConfig) (r : R) : result string unit :=
  match csc_Redis cfg with
  | None => Err "cache_store.redis config is required for provider redis"
  | Some redis =>
    match rd_Connect (rcc_Addr redis) (rcc_Password redis) r with
    | Some err => Err ("connecting to Redis: " +:+ err)
    | None =>
      match rd_Instrument with
      | Some err => Err ("instrumenting redis cache store tracing: " +:+ err)
      | None => Ok tt
      end
    end
  end.

Section RedisCache.
Context {R : Type} `{RedisService R, ResultText}.

Definition redisCacheGet (r : R) (key : string) : option CallToolResult :=
  match rd_Get r key with
  | Ok (Some data) => UnmarshalResult data
  | _ => None
  end.

Definition redisCacheSet (r : R) (key : string) (v : CallToolResult) (ttl : Z) : R * option string :=
  match MarshalResult v with
  | None => (r, Some "marshalling cache value")
  | Some data => rd_Set r key data ttl
  end.

#[export] Instance redis_cache : CacheStore R := {
  cache_Get r key := (redisCacheGet r key, r);
  cache_Set r key v ttl := (redisCacheSet r key v ttl).1;
  cache_holds := redisCacheGet
}.

(** What the store needs besides the laws: a [SET] that fails changes nothing, and
    one that succeeds leaves its value or, with a short time to live, nothing. *)
Class RedisSetLaws := {
  rd_Set_fails r k v ttl r' err : rd_Set r k v ttl = (r', Some err) -> rd_Get r' k = rd_Get r k;
  rd_Set_own r k v ttl r' data : rd_Set r k v ttl = (r', None) -> rd_Get r' k = Ok (Some data) ->
    data = v
}.

#[export] Instance redis_cache_laws `{!RedisLaws R, !RedisSetLaws} : CacheStoreLaws R.
Proof.
  split; cbn.
  - by intros s k r s' [= -> _].
  - by intros s k r s' k' v [= _ <-].
  - intros s k v ttl k' r Hget. unfold redisCacheSet in Hget.
    destruct (MarshalResult v) as [data|] eqn:Em; [|by right].
    destruct (decide (k' = k)) as [->|Hne].
    + destruct (rd_Set s k data ttl) as [s1 [err|]] eqn:Es; cbn in Hget.
      * right. unfold redisCacheGet in *. by rewrite (rd_Set_fails _ _ _ _ _ _ Es) in Hget.
      * left. split; [done|]. unfold redisCacheGet in Hget.
        destruct (rd_Get s1 k) as [[d|]|] eqn:Eg; [|done..].
        rewrite (rd_Set_own _ _ _ _ _ _ Es Eg), (UnmarshalResult_Marshal _ _ Em) in Hget. congruence.
    + right. unfold redisCacheGet in *. by rewrite rd_Set_other in Hget.
Qed.
End RedisCache.

(** Ristretto, behind the in-memory cache: [Get], and [SetWithTTL] with cost 1
    followed by [Wait]. *)
Class Ristretto (S : Type) := {
  rist_Get : S -> string -> option CallToolResult * S;
  rist_SetWithTTL : S -> string -> CallToolResult -> Z -> Z -> S;
  rist_Wait : S -> S;
  rist_holds : S -> string -> option CallToolResult
}.

Section MemoryCache.
Context {S : Type} `{Ristretto S}.

Definition memoryCacheGet (s : S) (key : string) : option CallToolResult * S :=
  match rist_Get s key with
  | (None, s) => (None, s)
  | (Some result, s) => (Some result, s)
  end.
Definition memoryCacheSet (s : S) (key : string) (v : CallToolResult) (ttl : Z) : S :=
  rist_Wait (rist_SetWithTTL s key v 1 ttl).

#[export] Instance memory_cache : CacheStore S := {
  cache_Get := memoryCacheGet;
  cache_Set := memoryCacheSet;
  cache_holds := rist_holds
}.
End MemoryCache.

(** ** The stores of the rate limiter *)
Section LimiterStores.
Context {R Store : Type} `{RedisService R}.
Context (memoryStore : Store) (redisStore : R -> result string Store).

Definition memoryLimiterStore (_ : ProxyConfig) : result string Store := Ok memoryStore.

Definition redisLimiterStore (r : R) (cfg : ProxyConfig) : result string Store :=
  match rls_Redis (pc_RateLimitStore cfg) with
  | None => Err "rate_limit_store.redis is required for the redis store"
  | Some redis =>
    match rd_Connect (rsc_Addr redis) (rsc_Password redis) r with
    | Some err => Err ("connecting to Redis: " +:+ err)
    | None =>
      match rd_Instrument with
      | Some err => Err ("instrumenting redis rate limit store tracing: " +:+ err)
      | None =>
        match redisStore r with
        | Err err => Err ("creating Redis rate limit store: " +:+ err)
        | Ok store => Ok store
        end
      end
    end
  end.
End LimiterStores.

(** A session's password is expanded from the environment, and a cache's is not:
    a server that asks for the value of the variable accepts the one and refuses
    the other, for the same text in the configuration. *)
Theorem cache_password_unexpanded {R} `{RedisService R} (ExpandEnv : string -> string) (r : R)
    (addr password key secret refused : string)
    (Hkey : is_ok (ParseKey ExpandEnv key) = true) (Hsecret : ExpandEnv password = secret)
    (Hserver : forall pw, rd_Connect addr pw r = if decide (pw = secret) then None else Some refused)
    (Hdiff : password <> secret) (Htracing : rd_Instrument = None) :
  is_ok (newRedisSession ExpandEnv
    {| rds_Addr := addr; rds_Password := password; rds_EncryptionKey := key |} r) = true /\
  newRedisCache {| csc_Provider := "redis";
    csc_Redis := Some {| rcc_Addr := addr; rcc_Password := password |} |} r =
    Err ("connecting to Redis: " +:+ refused).
Proof.
  apply is_ok_true in Hkey as [k Hk]. unfold newRedisSession, newRedisCache. cbn. rewrite Hk, Hsecret.
  rewrite !Hserver, Htracing. rewrite decide_True by done. by rewrite decide_False by done.
Qed.

(** ** A sample server: keys with values and deadlines, and a clock *)
Module SampleRedis.
Abbreviation Server := (gmap string (string * option Z) * Z)%type.
#[local] Instance server : RedisService Server := {|
  rd_Connect _ pw _ := if decide (pw = "hunter2") then None else Some "WRONGPASS";
  rd_Instrument := None;
  rd_Set r k v ttl := ((<[k := (v, if ttl =? 0 then None else Some (r.2 + ttl))]> r.1, r.2), None);
  rd_Get r k :=
    Ok (match r.1 !! k with
        | None => None
        | Some (v, None) => Some v
        | Some (v, Some t) => if r.2 <? t then Some v else None
        end);
  rd_Del r k := ((delete k r.1, r.2), None);
  rd_Now := snd;
  rd_After r d := (r.1, r.2 + d) |}.
#[local] Instance server_laws : RedisLaws Server.
Proof.
  split; cbn.
  - intros r k v r' d [= <-] _. cbn. by rewrite lookup_insert_eq.
  - intros r k v ttl r' d [= <-] Hd Hl. cbn. rewrite lookup_insert_eq. unfold millisecond in Hl.
    rewrite (proj2 (Z.eqb_neq ttl 0)) by lia. by rewrite (proj2 (Z.ltb_lt _ _)) by lia.
  - intros r k v ttl r' d [= <-] Hl. cbn. rewrite lookup_insert_eq.
    rewrite (proj2 (Z.eqb_neq ttl 0)) by lia. by rewrite (proj2 (Z.ltb_ge _ _)) by lia.
  - intros r k v ttl k' Hne. cbn. by rewrite lookup_insert_ne.
  - intros [m t]. cbn. by rewrite Z.add_0_r.
Qed.

(** A cipher that only marks, and times as decimal numbers. *)
Definition Seal (_ _ plaintext : string) : string := "x" +:+ plaintext.
Definition Open (_ _ ciphertext : string) : option string :=
  match ciphertext with String _ plaintext => Some plaintext | _ => None end.
Lemma Open_Seal k n p : Open k n (Seal k n p) = Some p.
Proof. done. Qed.
Definition nonce (_ : Server) : option string := Some "abcdefghijkl".
#[local] Instance times : TimeText := {|
  FormatTime t := Some (match t with Some t => pretty t | None => "0001-01-01T00:00:00Z" end);
  ParseTime s := if decide (s = "100") then Some (Some 100) else Some None |}.
Definition token : OAuthToken :=
  {| tok_AccessToken := "access"; tok_RefreshToken := "refresh"; tok_Expiry := Some (10 ^ 10);
     tok_TokenType := "Bearer" |}.
Definition lasting : OAuthToken :=
  {| tok_AccessToken := "access"; tok_RefreshToken := ""; tok_Expiry := None; tok_TokenType := "Bearer" |}.
Definition expired : OAuthToken :=
  {| tok_AccessToken := "access"; tok_RefreshToken := ""; tok_Expiry := Some 100; tok_TokenType := "Bearer" |}.
#[local] Instance json : JsonText := {|
  ParseJSON t := Some (VObject
    [("access_token", VString "access"); ("refresh_token", VString "");
     ("expiry", VString (if decide (Some t = marshalToken expired) then "100" else "0001-01-01T00:00:00Z"));
     ("token_type", VString "Bearer")]) |}.
Definition key : string := "0123456789abcdef0123456789abcdef".
Definition hexKey : string := "000102030405060708090a0b0c0d0e0f101112131415161718191a1b1c1d1e1f".
Definition ann (subject : string) : option TokenInfo :=
  Some {| ti_Subject := subject; ti_Scopes := []; ti_Audience := []; ti_Extra := [] |}.
End SampleRedis.

Section BackendWitnesses.
#[local] Existing Instances SampleRedis.server SampleRedis.server_laws SampleRedis.times SampleRedis.json.
Import SampleRedis.

Lemma redis_forgets_refresh_token_witness : exists r',
  redisSave Seal key nonce (∅, 0) "ann" "github" token = (r', None) /\
  sessionToken (H := redis_store Seal Open key nonce) SampleSession.source SampleSession.authURL (11 * 10 ^ 9)
    SampleSession.provider (ann "ann") (rd_After r' (10 ^ 10)) =
    (Err (AuthRequiredError "https://auth"), rd_After r' (10 ^ 10), None).
Proof.
  set (r' := (redisSave Seal key nonce (∅, 0) "ann" "github" token).1). exists r'.
  assert (Hs : redisSave Seal key nonce (∅, 0) "ann" "github" token = (r', None)) by reflexivity. split; [exact Hs|].
  destruct (redis_forgets_refresh_token Seal Open key nonce SampleSession.source SampleSession.authURL
              SampleSession.provider (ann "ann") (∅, 0) token r' (10 ^ 10) (11 * 10 ^ 9) (10 ^ 10)
              Hs eq_refl ltac:(done) ltac:(done) ltac:(done) ltac:(done) ltac:(done)) as [-> _].
  reflexivity.
Defined.

Lemma redis_users_collide_witness : exists r',
  redisSave Seal key nonce (∅, 0) "tenant:ann" "github" lasting = (r', None) /\
  Load (TokenStore := redis_store Seal Open key nonce) r' "tenant" "ann:github" = Ok (Some lasting).
Proof.
  set (r' := (redisSave Seal key nonce (∅, 0) "tenant:ann" "github" lasting).1). exists r'.
  assert (Hs : redisSave Seal key nonce (∅, 0) "tenant:ann" "github" lasting = (r', None)) by reflexivity. split; [exact Hs|].
  refine (proj1 (redis_users_collide Seal Open key Open_Seal nonce _ (∅, 0) "tenant" "ann" "github" lasting r'
                   Hs _ I)).
  - intros r n [= <-]. reflexivity.
  - intros text [= <-]. vm_compute. reflexivity.
Defined.

Lemma redis_keeps_expired_witness : exists r',
  redisSave Seal key nonce (∅, 200) "ann" "github" expired = (r', None) /\
  Load (TokenStore := redis_store Seal Open key nonce) (rd_After r' (10 ^ 18)) "ann" "github" =
    Ok (Some expired).
Proof.
  set (r' := (redisSave Seal key nonce (∅, 200) "ann" "github" expired).1). exists r'.
  assert (Hs : redisSave Seal key nonce (∅, 200) "ann" "github" expired = (r', None)) by reflexivity. split; [exact Hs|].
  refine (redis_keeps_expired Seal Open key Open_Seal nonce _ (∅, 200) "ann" "github" expired r' 100 (10 ^ 18)
            Hs _ eq_refl _ _); [|intros text [= <-]; vm_compute; reflexivity|done|done].
  intros r n [= <-]. reflexivity.
Defined.

Lemma cache_password_unexpanded_witness :
  newRedisCache {| csc_Provider := "redis";
    csc_Redis := Some {| rcc_Addr := "r:6379"; rcc_Password := "${REDIS}" |} |} (∅ : gmap string _, 0) =
    Err ("connecting to Redis: " +:+ "WRONGPASS").
Proof.
  apply (cache_password_unexpanded (fun s => if decide (s = "${REDIS}") then "hunter2" else s) (∅, 0)
           "r:6379" "${REDIS}" hexKey "hunter2" "WRONGPASS"); [reflexivity|reflexivity| |discriminate|reflexivity].
  intros pw. reflexivity.
Defined.
End BackendWitnesses.
