(* ===== verification/Telemetry.v ===== *)
(** * Telemetry and token counting (pkg/telemetry: metrics.go, provider.go,
    attributes.go; pkg/tokencounter)

    The metric instruments, which are package variables that stay nil until
    [InitMetrics] runs, the providers [Init] sets up and their shutdown, and the
    tokens counted in a tool's result.  The OpenTelemetry SDK and the tokenizer are
    parameters; what is recorded is a list of measurements. *)
From S2P Require Export Config OAuth.
From stdpp Require Import functions.
From Stdlib Require QArith_base.
Open Scope Z_scope.

(** ** pkg/telemetry/metrics.go *)
#[local] Notation Q := QArith_base.Q.
#[local] Notation "n // d" := (QArith_base.Qmake n d) (at level 40).
Definition histogramBoundaries : list Q :=
  [5 // 1000; 1 // 100; 25 // 1000; 5 // 100; 75 // 1000; 1 // 10; 25 // 100; 5 // 10; 75 // 100; 1 // 1; 25 // 10;
   5 // 1; 75 // 10; 10 // 1].
Definition tokenBuckets : list Q :=
  [100 // 1; 500 // 1; 1000 // 1; 2000 // 1; 5000 // 1; 10000 // 1; 50000 // 1].

Inductive Shape :=
  | Float64Histogram (boundaries : list Q)
  | Int64Histogram (boundaries : list Q)
  | Int64Counter.

(** An instrument as it is asked for. *)
Record InstrumentSpec := {
  is_name : string;
  is_unit : string;
  is_description : string;
  is_shape : Shape
}.

(** The package variables. *)
Inductive Instrument :=
  | ToolCallDuration
  | ToolCallErrors
  | TransformDuration
  | ConfigReloadCounter
  | SpecRefreshCounter
  | ToolResultTokens.
#[export] Instance Instrument_eq_dec : EqDecision Instrument.
Proof. solve_decision. Defined.

(** What each variable holds; all are nil when the program starts. *)
Abbreviation Instruments := (Instrument -> option handle).
Definition zero_Instruments : Instruments := fun _ => None.

Definition instrumentSpec (i : Instrument) : InstrumentSpec :=
  match i with
  | ToolCallDuration =>
    {| is_name := "mcp.tool.call.duration"; is_unit := "s"; is_description := "Duration of MCP tool calls in seconds";
       is_shape := Float64Histogram histogramBoundaries |}
  | ToolCallErrors =>
    {| is_name := "mcp.tool.call.errors.total"; is_unit := "{call}"; is_description := "Number of failed MCP tool calls";
       is_shape := Int64Counter |}
  | TransformDuration =>
    {| is_name := "mcp_anything.transform.duration"; is_unit := "s";
       is_description := "Duration of jq transform stages in seconds";
       is_shape := Float64Histogram histogramBoundaries |}
  | ConfigReloadCounter =>
    {| is_name := "mcp_anything.config_reload"; is_unit := "{reload}";
       is_description := "Total number of config reload attempts by status"; is_shape := Int64Counter |}
  | SpecRefreshCounter =>
    {| is_name := "mcp_anything.spec_refresh"; is_unit := "{refresh}";
       is_description := "Total number of spec refresh attempts by upstream and status"; is_shape := Int64Counter |}
  | ToolResultTokens =>
    {| is_name := "mcp_tool_result_tokens"; is_unit := "{token}"; is_description := "Token count of tool result content";
       is_shape := Int64Histogram tokenBuckets |}
  end.

(** The order [InitMetrics] makes them in. *)
Definition instruments : list Instrument :=
  [ToolCallDuration; ToolCallErrors; TransformDuration; ConfigReloadCounter; SpecRefreshCounter; ToolResultTokens].

(** A value recorded on an instrument. *)
Record Measurement := {
  ms_instrument : handle;
  ms_value : Z;
  ms_attributes : list (string * string)
}.

Section Metrics.
(** The meter: what an instrument's constructor returns, both results. *)
Context (create : InstrumentSpec -> option handle * option string).

(** Each variable is assigned what its constructor returned, error or not, and the
    first error ends the function. *)
Fixpoint initInstruments (todo : list Instrument) (vars : Instruments) : option string * Instruments :=
  match todo with
  | [] => (None, vars)
  | i :: rest =>
    let '(inst, err) := create (instrumentSpec i) in
    let vars := <[i := inst]> vars in
    match err with
    | Some err => (Some ("creating " +:+ is_name (instrumentSpec i) +:+ ": " +:+ err), vars)
    | None => initInstruments rest vars
    end
  end.

Definition InitMetrics (vars : Instruments) : option string * Instruments := initInstruments instruments vars.
End Metrics.

Definition statusOf (success : bool) : string := if success then "success" else "failure".

Definition RecordConfigReload (i : Instruments) (success : bool) : list Measurement :=
  match i ConfigReloadCounter with
  | None => []
  | Some c => [{| ms_instrument := c; ms_value := 1; ms_attributes := [("status", statusOf success)] |}]
  end.

Definition RecordSpecRefresh (i : Instruments) (upstreamName : string) (success : bool) : list Measurement :=
  match i SpecRefreshCounter with
  | None => []
  | Some c => [{| ms_instrument := c; ms_value := 1;
                  ms_attributes := [("upstream", upstreamName); ("status", statusOf success)] |}]
  end.

(** ** pkg/telemetry/attributes.go *)
Definition ToolCallAttributes (toolName method sessionID : string) : list (string * string) :=
  [("mcp.tool.name", toolName); ("mcp.method", method)] ++
  (if bool_decide (sessionID = "") then [] else [("mcp.session.id", sessionID)]).
Definition UpstreamAttributes (upstreamName : string) : list (string * string) := [("upstream.name", upstreamName)].

(** ** pkg/telemetry/provider.go *)
Record Settings := {
  ServiceName : string;
  ServiceVersion : string;
  OTLPEndpoint : string;
  Insecure : bool
}.

Inductive Creds := InsecureCreds | TLSCreds.

(** The OpenTelemetry SDK: constructors and a provider's shutdown. *)
Class OtelSdk (W : Type) := {
  NewResource : string -> string -> W -> result string handle * W;
  NewPrometheus : W -> result string handle * W;
  NewMeterProvider : handle -> handle -> handle;
  CreateInstrument : handle -> InstrumentSpec -> option handle * option string;
  NewTraceExporter : string -> Creds -> W -> result string handle * W;
  NewTracerProvider : handle -> handle -> handle;
  ShutdownProvider : handle -> W -> option string * W
}.

(** What the process shares: the propagator, the two providers, the instruments. *)
Record Globals := {
  gl_propagators : list string;
  gl_meter : option handle;
  gl_tracer : option handle;
  gl_instruments : Instruments
}.

Section Init.
Context {W : Type} `{OtelSdk W}.

(** The providers to shut down, in order. *)
Definition Init (cfg : Settings) (g : Globals) (w : W) : result string (list handle) * Globals * W :=
  let g := {| gl_propagators := ["tracecontext"; "baggage"]; gl_meter := gl_meter g; gl_tracer := gl_tracer g;
              gl_instruments := gl_instruments g |} in
  match NewResource (ServiceName cfg) (ServiceVersion cfg) w with
  | (Err err, w) => (Err ("creating OTel resource: " +:+ err), g, w)
  | (Ok res, w) =>
    match NewPrometheus w with
    | (Err err, w) => (Err ("creating Prometheus exporter: " +:+ err), g, w)
    | (Ok promExp, w) =>
      let mp := NewMeterProvider promExp res in
      let '(err, i) := InitMetrics (CreateInstrument mp) (gl_instruments g) in
      let g := {| gl_propagators := gl_propagators g; gl_meter := Some mp; gl_tracer := gl_tracer g;
                  gl_instruments := i |} in
      match err with
      | Some err => (Err ("initialising metrics: " +:+ err), g, w)
      | None =>
        if bool_decide (OTLPEndpoint cfg = "") then (Ok [mp], g, w)
        else
          let creds := if Insecure cfg then InsecureCreds else TLSCreds in
          match NewTraceExporter (OTLPEndpoint cfg) creds w with
          | (Err err, w) => (Err ("creating OTLP gRPC trace exporter: " +:+ err), g, w)
          | (Ok traceExp, w) =>
            let tp := NewTracerProvider traceExp res in
            let g := {| gl_propagators := gl_propagators g; gl_meter := gl_meter g; gl_tracer := Some tp;
                        gl_instruments := gl_instruments g |} in
            (Ok [mp; tp], g, w)
          end
      end
    end
  end.

(** The function [Init] returns. *)
Fixpoint shutdownAll (shutdownFuncs : list handle) (firstErr : option string) (w : W) : option string * W :=
  match shutdownFuncs with
  | [] => (firstErr, w)
  | fn :: rest =>
    let '(err, w) := ShutdownProvider fn w in
    shutdownAll rest (match err, firstErr with Some e, None => Some e | _, _ => firstErr end) w
  end.
End Init.

(** ** pkg/tokencounter *)
(** base64.StdEncoding: the other alphabet, and padding. *)
Definition std_char (c : ascii) : ascii :=
  if bool_decide (c = "-"%char) then "+"%char else if bool_decide (c = "_"%char) then "/"%char else c.
Definition StdEncodeToString (s : string) : string :=
  let body := std_char <$> b64_encode (explode s) in
  implode (body ++ match (length body mod 4)%nat with
                   | 2%nat => ["="; "="]%char
                   | 3%nat => ["="]%char
                   | _ => []
                   end).

(** tiktoken-go: the encodings it loads and what they make of a text. *)
Class Tokenizer (Enc : Type) := {
  GetEncoding : string -> result string Enc;
  Encode : Enc -> string -> list Z
}.

Section TokenCounter.
Context {Enc : Type} `{Tokenizer Enc}.

Definition defaultEncoding : string := "cl100k_base".

Record Counter := { enc : Enc }.

Definition New (encoding : string) : result string Counter :=
  let encoding := if bool_decide (encoding = "") then defaultEncoding else encoding in
  match GetEncoding encoding with
  | Err err => Err ("loading tiktoken encoding " +:+ encoding +:+ ": " +:+ err)
  | Ok e => Ok {| enc := e |}
  end.

Definition countString (c : Counter) (text : string) : Z := Z.of_nat (length (Encode (enc c) text)).

Definition countItem (c : Counter) (item : Content) : Z :=
  match item with
  | TextContent text => countString c text
  | ImageContent data _ => countString c (StdEncodeToString data)
  | AudioContent data _ => countString c (StdEncodeToString data)
  | EmbeddedResource _ _ => 0
  end.

Definition countContent (c : Counter) (content : list Content) : Z :=
  foldl (fun total item => total + countItem c item) 0 content.

Definition RecordTokens (c : option Counter) (i : Instruments) (toolName upstreamName : string)
    (result : option CallToolResult) : list Measurement :=
  match c, result with
  | Some c, Some result =>
    if res_IsError result then []
    else
      match i ToolResultTokens with
      | None => []
      | Some h =>
        [{| ms_instrument := h; ms_value := countContent c (res_Content result);
            ms_attributes := [("tool_name", toolName); ("upstream_name", upstreamName)] |}]
      end
  | _, _ => []
  end.
End TokenCounter.
Arguments Counter : clear implicits.

(** ** Facts *)

Lemma initInstruments_keeps create todo vars i : i ∉ todo -> (initInstruments create todo vars).2 i = vars i.
Proof.
  revert vars. induction todo as [|j todo IH]; intros vars Hi; [done|]. apply not_elem_of_cons in Hi as [Hne Hi]. cbn.
  destruct (create (instrumentSpec j)) as [inst [err|]]; cbn; [|rewrite IH by done]; by rewrite fn_lookup_insert_ne.
Qed.

Lemma initInstruments_ok create todo vars : (initInstruments create todo vars).1 = None <->
  forall i, i ∈ todo -> (create (instrumentSpec i)).2 = None.
Proof.
  revert vars. induction todo as [|j todo IH]; intros vars; cbn; [split; [by intros _ i ?%not_elem_of_nil|done]|].
  destruct (create (instrumentSpec j)) as [inst [err|]] eqn:Ej; cbn.
  - split; [done|]. intros Hall. pose proof (Hall j ltac:(by left)) as Hj. by rewrite Ej in Hj.
  - rewrite IH. split; [|set_solver]. intros Hall i [->|Hi]%elem_of_cons; [by rewrite Ej|auto].
Qed.

Lemma initInstruments_sets create todo vars i : NoDup todo -> (initInstruments create todo vars).1 = None -> i ∈ todo ->
  (initInstruments create todo vars).2 i = (create (instrumentSpec i)).1.
Proof.
  revert vars. induction todo as [|j todo IH]; intros vars Hnd; [by intros _ ?%not_elem_of_nil|].
  apply list.NoDup_cons in Hnd as [Hj Hnd]. cbn.
  destruct (create (instrumentSpec j)) as [inst [err|]] eqn:Ej; [done|]. cbn. intros Hok [->|Hi]%elem_of_cons.
  - rewrite initInstruments_keeps by done. by rewrite fn_lookup_insert, Ej.
  - by apply IH.
Qed.

Lemma initInstruments_stops create before i after vars err :
  (forall j, j ∈ before -> (create (instrumentSpec j)).2 = None) -> (create (instrumentSpec i)).2 = Some err ->
  exists vars', initInstruments create (before ++ i :: after) vars
    = (Some ("creating " +:+ is_name (instrumentSpec i) +:+ ": " +:+ err), vars') /\
    forall j, j ∉ before -> j <> i -> vars' j = vars j.
Proof.
  revert vars. induction before as [|k before IH]; intros vars Hbefore Hi; cbn.
  - destruct (create (instrumentSpec i)) as [inst e]; cbn in Hi; subst e. eexists. split; [done|].
    intros j _ Hne. by rewrite fn_lookup_insert_ne.
  - pose proof (Hbefore k ltac:(by left)) as Hk. destruct (create (instrumentSpec k)) as [inst e]. cbn in Hk. subst e.
    destruct (IH (<[k := inst]> vars)) as (vars' & -> & Hkeep); [set_solver|done|]. exists vars'. split; [done|].
    intros j [Hjk Hj]%not_elem_of_cons Hne. rewrite Hkeep by done. by rewrite fn_lookup_insert_ne.
Qed.

Lemma instruments_all i : i ∈ instruments.
Proof. destruct i; unfold instruments; rewrite !elem_of_cons; tauto. Qed.
Lemma instruments_NoDup : NoDup instruments.
Proof. by apply (bool_decide_unpack _). Qed.

(** [InitMetrics] succeeds exactly when the meter makes all six instruments, and
    then every package variable holds its own; the first one that fails is the one
    reported, and the variables after it keep what they held. *)
Theorem InitMetrics_outcome create vars :
  ((InitMetrics create vars).1 = None <-> forall i, (create (instrumentSpec i)).2 = None) /\
  ((InitMetrics create vars).1 = None -> forall i, (InitMetrics create vars).2 i = (create (instrumentSpec i)).1) /\
  (forall before i after err, instruments = before ++ i :: after ->
     (forall j, j ∈ before -> (create (instrumentSpec j)).2 = None) -> (create (instrumentSpec i)).2 = Some err ->
     (InitMetrics create vars).1 = Some ("creating " +:+ is_name (instrumentSpec i) +:+ ": " +:+ err) /\
     forall j, j ∈ after -> (InitMetrics create vars).2 j = vars j).
Proof.
  unfold InitMetrics. split_and!.
  - rewrite initInstruments_ok. split; [|naive_solver]. intros Hall i. apply Hall, instruments_all.
  - intros Hok i. apply initInstruments_sets; [apply instruments_NoDup|done|apply instruments_all].
  - intros before i after err Heq Hbefore Hi. rewrite Heq.
    destruct (initInstruments_stops create before i after vars err Hbefore Hi) as (vars' & -> & Hkeep).
    split; [done|]. intros j Hj. cbn. pose proof instruments_NoDup as Hnd. rewrite Heq in Hnd.
    apply list.NoDup_app in Hnd as (_ & Hdisj & Hnd). apply list.NoDup_cons in Hnd as [Hia _].
    apply Hkeep; [|by intros ->]. intros Hb. apply (Hdisj j Hb). by right.
Qed.

Section Shutdown.
Context {W : Type} `{OtelSdk W}.

(** Every provider's shutdown, one after the other. *)
Fixpoint runShutdowns (fns : list handle) (w : W) : list (option string) * W :=
  match fns with
  | [] => ([], w)
  | fn :: rest =>
    let '(err, w) := ShutdownProvider fn w in let '(errs, w) := runShutdowns rest w in (err :: errs, w)
  end.

Lemma shutdownAll_run fns err w : shutdownAll fns err w =
  (match err with Some e => Some e | None => head (omap id (runShutdowns fns w).1) end, (runShutdowns fns w).2).
Proof.
  revert err w. induction fns as [|fn fns IH]; intros err w; cbn; [by destruct err|].
  destruct (ShutdownProvider fn w) as [e w1]. rewrite IH. destruct (runShutdowns fns w1) as [errs w2].
  by destruct e, err.
Qed.

(** Once telemetry is up, shutting it down shuts down each provider that was set
    up, the tracer only when there is an OTLP endpoint, and reports the first
    failure without stopping at it. *)
Theorem Init_shutdown cfg g w fns g' w' (Hok : Init cfg g w = (Ok fns, g', w')) :
  fns = omap id [gl_meter g'; if bool_decide (OTLPEndpoint cfg = "") then None else gl_tracer g'] /\
  (forall i, gl_instruments g' i = (match gl_meter g' with Some mp => (CreateInstrument mp (instrumentSpec i)).1
                                                        | None => None end)) /\
  forall w0, shutdownAll fns None w0 = (head (omap id (runShutdowns fns w0).1), (runShutdowns fns w0).2) /\
    length (runShutdowns fns w0).1 = length fns.
Proof.
  assert (Hlen : forall l w0, length (runShutdowns l w0).1 = length l).
  { induction l as [|fn l IH]; intros w0; [done|]. cbn. destruct (ShutdownProvider fn w0) as [e w1].
    specialize (IH w1). destruct (runShutdowns l w1). cbn in *. by rewrite IH. }
  unfold Init in Hok. destruct (NewResource _ _ w) as [[res|err] w1]; [|done].
  destruct (NewPrometheus w1) as [[promExp|err] w2]; [|done]. cbn zeta in Hok.
  set (mp := NewMeterProvider promExp res) in *. cbn [gl_instruments] in Hok.
  destruct (InitMetrics (CreateInstrument mp) (gl_instruments g)) as [[err|] vars] eqn:Ei; [done|].
  assert (Hvars : forall i, vars i = (CreateInstrument mp (instrumentSpec i)).1).
  { intros i. unfold InitMetrics in Ei.
    pose proof (initInstruments_sets (CreateInstrument mp) instruments (gl_instruments g) i instruments_NoDup) as Hs.
    rewrite Ei in Hs. apply Hs; [done|apply instruments_all]. }
  case_bool_decide as He.
  - injection Hok as <- <- <-. split_and!; [done|exact Hvars|]. intros w0.
    split; [by rewrite shutdownAll_run|apply Hlen].
  - destruct (NewTraceExporter _ _ w2) as [[traceExp|err] w3]; [|done]. injection Hok as <- <- <-.
    split_and!; [done|exact Hvars|]. intros w0. split; [by rewrite shutdownAll_run|apply Hlen].
Qed.
End Shutdown.

Section TokenFacts.
Context {Enc : Type} `{Tokenizer Enc}.

(** The text of an item that is tokenized. *)
Definition countedText (item : Content) : option string :=
  match item with
  | TextContent text => Some text
  | ImageContent data _ | AudioContent data _ => Some (StdEncodeToString data)
  | EmbeddedResource _ _ => None
  end.

Lemma countContent_sum c content :
  countContent c content = foldr Z.add 0 (countString c <$> omap countedText content).
Proof.
  assert (Hacc : forall acc, foldl (fun total item => total + countItem c item) acc content
    = acc + foldr Z.add 0 (countString c <$> omap countedText content)).
  { induction content as [|item content IH]; intros acc; cbn; [lia|]. rewrite IH.
    destruct item; cbn; lia. }
  apply Hacc.
Qed.

(** A call's tokens are recorded once, under the tool's and the upstream's names,
    and only when there is a counter, the metrics are set up and the call returned
    a result that is not an error.  The value is the sum over the texts of the
    result, binary images and audio in base64; embedded resources add nothing, so
    a binary response of any size is recorded as zero tokens. *)
Theorem RecordTokens_outcome (c : Counter Enc) vars h tool upstream result
    (Hmetrics : vars ToolResultTokens = Some h) (Hok : res_IsError result = false) :
  let total := foldr Z.add 0 (countString c <$> omap countedText (res_Content result)) in
  RecordTokens (Some c) vars tool upstream (Some result)
    = [{| ms_instrument := h; ms_value := total;
          ms_attributes := [("tool_name", tool); ("upstream_name", upstream)] |}] /\
  0 <= total /\
  (Forall (fun item => countedText item = None) (res_Content result) -> total = 0) /\
  RecordTokens (Enc := Enc) None vars tool upstream (Some result) = [] /\
  RecordTokens (Some c) vars tool upstream None = [] /\
  RecordTokens (Some c) zero_Instruments tool upstream (Some result) = [] /\
  RecordTokens (Some c) vars tool upstream (Some {| res_IsError := true; res_Content := res_Content result |}) = [].
Proof.
  cbn zeta. unfold RecordTokens. rewrite Hok, Hmetrics, countContent_sum. split_and!; try done.
  - induction (omap countedText (res_Content result)) as [|t l IH]; cbn; [done|]. unfold countString at 1. lia.
  - intros Hall. replace (omap countedText (res_Content result)) with (@nil string); [done|].
    induction Hall as [|item l Hitem _ IH]; [done|]. cbn. by rewrite Hitem, <-IH.
Qed.
End TokenFacts.

(** ** Samples *)
Module SampleTelemetry.
(** A meter that makes everything, and a world that lists what was shut down. *)
#[local] Instance sdk : OtelSdk (list handle) := {|
  NewResource _ _ w := (Ok 1%positive, w);
  NewPrometheus w := (Ok 2%positive, w);
  NewMeterProvider _ _ := 3%positive;
  CreateInstrument _ spec := (Some 4%positive, None);
  NewTraceExporter _ _ w := (Ok 5%positive, w);
  NewTracerProvider _ _ := 6%positive;
  ShutdownProvider h w := (Some ("closing " +:+ match h with 3%positive => "meter" | _ => "tracer" end), h :: w) |}.

Definition cfg : Settings := {|
  ServiceName := "mcp"; ServiceVersion := "1"; OTLPEndpoint := "localhost:4317"; Insecure := true |}.
Definition globals : Globals := {|
  gl_propagators := []; gl_meter := None; gl_tracer := None; gl_instruments := zero_Instruments |}.

(** One token per byte. *)
#[local] Instance bytes : Tokenizer unit := {|
  GetEncoding name := if bool_decide (name = "cl100k_base") then Ok tt else Err "unknown encoding";
  Encode _ text := Z.of_N ∘ of_byte <$> explode text |}.
Definition metrics : Instruments := <[ToolResultTokens := Some 7%positive]> zero_Instruments.
Definition broken (spec : InstrumentSpec) : option handle * option string :=
  if bool_decide (is_name spec = "mcp_anything.config_reload") then (None, Some "no memory") else (Some 1%positive, None).
End SampleTelemetry.

Section TelemetryWitnesses.
#[local] Existing Instances SampleTelemetry.sdk SampleTelemetry.bytes.

Lemma Init_shutdown_witness :
  shutdownAll [3; 6]%positive None [] = (Some "closing meter", [6; 3]%positive) /\
  exists g' w', Init SampleTelemetry.cfg SampleTelemetry.globals [] = (Ok [3; 6]%positive, g', w') /\
    gl_instruments g' ToolResultTokens = Some 4%positive.
Proof.
  split; [reflexivity|]. destruct (Init SampleTelemetry.cfg SampleTelemetry.globals []) as [[r g'] w'] eqn:Hi.
  assert (r = Ok [3; 6]%positive) as -> by (injection Hi as <- _ _; reflexivity).
  exists g', w'. split; [done|].
  destruct (Init_shutdown SampleTelemetry.cfg SampleTelemetry.globals [] _ g' w' Hi) as (_ & Hvars & _).
  rewrite Hvars. injection Hi as <- _. reflexivity.
Defined.

Lemma RecordTokens_outcome_witness :
  RecordTokens (Some {| enc := tt |}) SampleTelemetry.metrics "get" "api"
    (Some {| res_IsError := false;
             res_Content := [TextContent "abc"; ImageContent "Ma" "image/png"; EmbeddedResource "application/pdf" "%PDF"] |})
  = [{| ms_instrument := 7%positive; ms_value := 7; ms_attributes := [("tool_name", "get"); ("upstream_name", "api")] |}].
Proof.
  exact (proj1 (RecordTokens_outcome {| enc := tt |} SampleTelemetry.metrics 7%positive "get" "api"
    {| res_IsError := false;
       res_Content := [TextContent "abc"; ImageContent "Ma" "image/png"; EmbeddedResource "application/pdf" "%PDF"] |}
    eq_refl eq_refl)).
Defined.

Example StdEncodeToString_ex : StdEncodeToString "Ma" = "TWE=" /\ StdEncodeToString "Man" = "TWFu".
Proof. split; reflexivity. Qed.
Example New_default : New (Enc := unit) "" = Ok {| enc := tt |}.
Proof. reflexivity. Qed.
Example InitMetrics_broken :
  (InitMetrics SampleTelemetry.broken zero_Instruments).1 = Some "creating mcp_anything.config_reload: no memory".
Proof. reflexivity. Qed.
End TelemetryWitnesses.
