(* ===== verification/Command.v ===== *)
(** * Command upstreams (pkg/upstream/command: command.go, builder.go, executor.go)

    Tools that run a command line: the validation of the configured commands, the
    rendering of their templates, shell quoting, the environment, the capped
    capture of the output and the results.  text/template, the process and the
    environment are parameters. *)
From S2P Require Export Content OpenApi ToolRegistry.
Open Scope Z_scope.

Definition DefaultMaxOutputBytes : Z := 2 ^ 20.

Record Def := {
  def_Command : string;
  def_Env : gmap string string;
  def_WorkingDir : string;
  def_Timeout : Z;
  def_MaxOutput : Z;
  def_Shell : bool
}.

(** ** Template data

    [TSafe s] is a [shellSafeString]: a template prints it as [shellQuote s]. *)
Inductive tvalue :=
  | TNull
  | TBool (b : bool)
  | TInt (n : Z)
  | TFloat (f : float64)
  | TString (s : string)
  | TSafe (s : string)
  | TArray (vs : list tvalue)
  | TObject (kvs : list (string * tvalue)).

Fixpoint toTemplate (str : string -> tvalue) (v : value) : tvalue :=
  match v with
  | VNull => TNull
  | VBool b => TBool b
  | VInt n => TInt n
  | VFloat f => TFloat f
  | VString s => str s
  | VArray vs => TArray (toTemplate str <$> vs)
  | VObject kvs => TObject ((fun kv => (kv.1, toTemplate str kv.2)) <$> kvs)
  end.

Definition shellSafeValue : value -> tvalue := toTemplate TSafe.

(** [ReplaceAll(s, ', '\'')] between two quotes *)
Definition quotedQuote : string := "'\''".
Definition shellQuote (s : string) : string := "'" +:+ ReplaceAll s "'" quotedQuote +:+ "'".

(** text/template *)
Class Templates := {
  Template : Type;
  ParseTemplate : string -> result string Template;
  ExecuteTemplate : Template -> list (string * tvalue) -> result string string
}.

Inductive ExpandError := UnbracedVar | UnclosedVar | EmptyVarName | UnsetVar (name : string).

Inductive CommandError :=
  | EmptyCommand
  | ParsingTemplate (err : string)
  | ExecutingTemplate (err : string)
  | ExpandingEnvVar (name : string) (err : ExpandError)
  | RunError (err : string).

Definition renderTemplate `{Templates} (tmplStr : string) (data : list (string * tvalue))
    : result CommandError string :=
  match ParseTemplate tmplStr with
  | Err err => Err (ParsingTemplate err)
  | Ok tmpl =>
    match ExecuteTemplate tmpl data with
    | Err err => Err (ExecutingTemplate err)
    | Ok s => Ok s
    end
  end.

Definition renderToken `{Templates} (tmplStr : string) (a : args) : result CommandError string :=
  renderTemplate tmplStr ((fun kv => (kv.1, toTemplate TString kv.2)) <$> a).

Definition renderShellTemplate `{Templates} (tmplStr : string) (a : args)
    : result CommandError string :=
  renderTemplate tmplStr ((fun kv => (kv.1, shellSafeValue kv.2)) <$> a).

(** ** The environment *)
Section Expand.
Context (LookupEnv : string -> option string).

(** [var] is the name read so far, inside [${...}]. *)
Fixpoint expand_go (var : option string) (s : string) : result ExpandError string :=
  match var, s with
  | None, "" => Ok ""
  | None, String c s' =>
    if bool_decide (c = "$"%char) then
      match s' with
      | "" => Ok "$"
      | String d s'' => if bool_decide (d = "{"%char) then expand_go (Some "") s'' else Err UnbracedVar
      end
    else String c <$> expand_go None s'
  | Some _, "" => Err UnclosedVar
  | Some name, String c s' =>
    if bool_decide (c = "}"%char) then
      if bool_decide (name = "") then Err EmptyVarName
      else match LookupEnv name with
           | None => Err (UnsetVar name)
           | Some expanded => (fun r => expanded +:+ r) <$> expand_go None s'
           end
    else expand_go (Some (name +:+ String c "")) s'
  end.

Definition expandBraced (value : string) : result ExpandError string :=
  if bool_decide ("$"%char ∈ explode value) then expand_go None value else Ok value.
End Expand.

(** ** Output capture *)
Record limitWriter := { lw_w : string; lw_remaining : Z }.

(** The writer afterwards, and the length reported to the caller. *)
Definition Write (lw : limitWriter) (p : string) : limitWriter * Z :=
  let origLen := Z.of_nat (String.length p) in
  if lw_remaining lw <=? 0 then (lw, origLen)
  else
    let p := if lw_remaining lw <? origLen
             then implode (take (Z.to_nat (lw_remaining lw)) (explode p)) else p in
    ({| lw_w := lw_w lw +:+ p; lw_remaining := lw_remaining lw - Z.of_nat (String.length p) |},
     origLen).

(** ** Execution *)
Record Cmd := {
  proc_Args : list string;
  proc_Env : list string;
  proc_Dir : string;
  proc_Timeout : option Z
}.

Class ProcEnv (W : Type) := {
  LookupEnv : string -> option string;
  Environ : list string;
  (** the chunks written to stdout and stderr, and the error of [cmd.Run] *)
  RunCmd : Cmd -> W -> list string * list string * option string * W;
  (** the texts of the errors before the process starts *)
  commandErrorText : CommandError -> string
}.

Section Execution.
Context {W : Type} `{Templates, ProcEnv W}.

Fixpoint renderTokens (tokens : list string) (a : args) : result CommandError (list string) :=
  match tokens with
  | [] => Ok []
  | tok :: rest =>
    r ← renderToken tok a;
    rs ← renderTokens rest a;
    Ok (r :: rs)
  end.

(** The command line: [sh -c rendered], or one argument per token. *)
Definition buildCmd (d : Def) (a : args) : result CommandError (list string) :=
  if def_Shell d then
    rendered ← renderShellTemplate (def_Command d) a;
    Ok ["sh"; "-c"; rendered]
  else
    let tokens := Fields (def_Command d) in
    if bool_decide (tokens = []) then Err EmptyCommand
    else renderTokens tokens a.

Fixpoint expandEnv (env : list (string * string)) : result CommandError (list string) :=
  match env with
  | [] => Ok []
  | (k, v) :: rest =>
    match expandBraced LookupEnv v with
    | Err err => Err (ExpandingEnvVar k err)
    | Ok expanded => cons (k +:+ "=" +:+ expanded) <$> expandEnv rest
    end
  end.

Definition capture (limit : Z) (chunks : list string) : string :=
  lw_w (foldl (fun lw p => (Write lw p).1) {| lw_w := ""; lw_remaining := limit |} chunks).

(** [order] is the iteration order of [d.Env]. *)
Definition Execute (order : gmap string string -> list (string * string)) (d : Def) (a : args) (w : W)
    : string * string * option CommandError * W :=
  match buildCmd d a with
  | Err err => ("", "", Some err, w)
  | Ok cmdArgs =>
    match expandEnv (order (def_Env d)) with
    | Err err => ("", "", Some err, w)
    | Ok extra =>
      let maxOut := if def_MaxOutput d <=? 0 then DefaultMaxOutputBytes else def_MaxOutput d in
      let cmd := {| proc_Args := cmdArgs; proc_Env := Environ ++ extra; proc_Dir := def_WorkingDir d;
                    proc_Timeout := if 0 <? def_Timeout d then Some (def_Timeout d) else None |} in
      let '(out, err, runErr, w) := RunCmd cmd w in
      (capture maxOut out, capture maxOut err, RunError <$> runErr, w)
    end
  end.
End Execution.

(** ** Results *)
Section Results.
Context `{Numbers, JsonText}.

Definition lf : ascii := ascii_of_N 10.

(** JSON output is decoded and encoded again. *)
Definition ToTextResult (stdout : string) : CallToolResult :=
  let text := TrimRight stdout lf in
  let text := if bool_decide (text = "") then stdout else text in
  let text := match Unmarshal stdout with
              | Some v => match Marshal FormatFloat true v with Some b => b | None => text end
              | None => text
              end in
  textResult text.

Definition ToErrorResult (stderr execErr : string) : CallToolResult :=
  let msg := TrimRight stderr lf in
  errorResult (if bool_decide (msg = "") then execErr else msg).
End Results.

(** ** The executor *)
Definition ExecuteTool {W} `{Templates, ProcEnv W, Numbers, JsonText}
    (order : gmap string string -> list (string * string)) (d : Def) (a : args) (w : W) : Reply * W :=
  let '(stdout, stderr, err, w) := Execute order d a w in
  match err with
  | Some (RunError msg) => (reply_ok (ToErrorResult stderr msg), w)
  | Some err => (reply_ok (ToErrorResult stderr (commandErrorText err)), w)
  | None => (reply_ok (ToTextResult stdout), w)
  end.

(** ** The loop over configured tools

    Command and script upstreams check their entries in the same way: each entry
    is checked on its own, then its prefixed name against the names seen so far,
    and then the tool is made from what the check returned. *)
Section Collect.
Context {Cfg Checked Tool E : Type}.
Context (check : nat -> Cfg -> result E Checked) (name : Cfg -> string).
Context (duplicate : Cfg -> E) (make : Cfg -> Checked -> result E Tool).

(** The loop from entry [i] on, with the names seen so far. *)
Fixpoint collectTools (i : nat) (seenNames : gset string) (cfgs : list Cfg) : result E (list Tool) :=
  match cfgs with
  | [] => Ok []
  | cfg :: rest =>
    checked ← check i cfg;
    if bool_decide (name cfg ∈ seenNames) then Err (duplicate cfg)
    else
      tool ← make cfg checked;
      cons tool <$> collectTools (S i) ({[name cfg]} ∪ seenNames) rest
  end.

(** The tool of an entry, whatever its index. *)
Definition makes (cfg : Cfg) (tool : Tool) : Prop :=
  exists i checked, check i cfg = Ok checked /\ make cfg checked = Ok tool.

Lemma collectTools_spec i seen cfgs :
  match collectTools i seen cfgs with
  | Ok tools => Forall2 makes cfgs tools /\ NoDup (name <$> cfgs) /\
      Forall (fun cfg => name cfg ∉ seen) cfgs
  | Err _ => exists before cfg after, cfgs = before ++ cfg :: after /\
      (name cfg ∈ seen \/ name cfg ∈ name <$> before \/
       exists j, is_ok (checked ← check j cfg; make cfg checked) = false)
  end.
Proof.
  revert i seen. induction cfgs as [|cfg cfgs IH]; intros i seen; cbn [collectTools].
  { split_and!; constructor. }
  destruct (check i cfg) as [checked|err] eqn:Ec; cbn [mbind result_bind].
  2:{ exists [], cfg, cfgs. split; [done|]. do 2 right. exists i. by rewrite Ec. }
  case_bool_decide as Hseen; [exists [], cfg, cfgs; by auto|].
  destruct (make cfg checked) as [tool|err] eqn:Em; cbn [mbind result_bind].
  2:{ exists [], cfg, cfgs. split; [done|]. do 2 right. exists i. rewrite Ec. cbn. by rewrite Em. }
  specialize (IH (S i) ({[name cfg]} ∪ seen)).
  destruct (collectTools _ _ _) as [tools|err]; cbn.
  - destruct IH as (Hf & Hnd & Hall). rewrite Forall_forall in Hall. split_and!.
    + constructor; [by exists i, checked|done].
    + constructor; [|done]. intros (cfg' & Heq & Hin)%list_elem_of_fmap.
      apply Hall in Hin. rewrite Heq in Hin. set_solver.
    + constructor; [done|]. apply Forall_forall. intros cfg' Hin%Hall. set_solver.
  - destruct IH as (before & cfg' & after & -> & Hwhy). exists (cfg :: before), cfg', after.
    split; [done|]. rewrite elem_of_union, elem_of_singleton in Hwhy. rewrite fmap_cons, elem_of_cons.
    destruct Hwhy as [[?|?]|[?|?]]; auto.
Qed.
End Collect.

(** ** Building the tools *)
Inductive TokenError := DelimiterFragment (tok : string) | DanglingDelimiter (tok : string).

Inductive BuildToolsError :=
  | ToolNameRequired (i : nat)
  | CommandRequired (tool : string)
  | InvalidTemplate (tool err : string)
  | InvalidToken (tool : string) (err : TokenError)
  | DuplicateToolName (tool upstream : string)
  | CompilingTransforms (tool : string) (err : TransformError).

Definition zero_PropSchema : PropSchema :=
  {| js_Type := ""; js_Description := ""; js_Format := ""; js_Minimum := None; js_Maximum := None;
     js_MinLength := None; js_MaxLength := None; js_Pattern := ""; js_Enum := [] |}.

Definition buildJSONSchema (s : CommandInputSchema) : InputSchema :=
  let property (prop : CommandSchemaProperty) : PropSchema :=
    {| js_Type := csp_Type prop; js_Description := csp_Description prop; js_Format := "";
       js_Minimum := None; js_Maximum := None; js_MinLength := None; js_MaxLength := None;
       js_Pattern := ""; js_Enum := [] |} in
  {| is_Type := if bool_decide (cis_Type s = "") then "object" else cis_Type s;
     is_Properties := property <$> cis_Properties s;
     is_Required := cis_Required s |}.

Definition validateTemplate `{Templates} (tmplStr : string) : result string unit :=
  match ParseTemplate tmplStr with Err err => Err err | Ok _ => Ok tt end.

Definition checkToken (tok : string) : result TokenError unit :=
  let hasOpen := HasPrefix tok "{{" in
  let hasClose := HasSuffix tok "}}" in
  if bool_decide (tok = "{{") || (hasOpen && negb hasClose) then Err (DelimiterFragment tok)
  else if hasClose && negb hasOpen then Err (DanglingDelimiter tok)
  else Ok tt.

Fixpoint checkTokens (toks : list string) : result TokenError unit :=
  match toks with
  | [] => Ok tt
  | tok :: rest => _ ← checkToken tok; checkTokens rest
  end.

Definition validateNonShellTokens (command : string) : result TokenError unit :=
  checkTokens (Fields command).

(** [command.Tool] *)
Record CommandTool := {
  ct_PrefixedName : string;
  ct_OriginalName : string;
  ct_MCPTool : Tool;
  ct_Def : Def;
  ct_Transforms : handle
}.

(** The addresses of new objects. *)
Class BuildEnv `{Gojq} := {
  allocSchema : InputSchema -> handle;
  allocTransforms : CompiledTransforms -> handle;
  newCommandExecutor : string -> Def -> handle
}.

(** The identity response and error transforms. *)
Definition compileIdentity `{BuildEnv} : result TransformError handle :=
  allocTransforms <$> Compile DefaultResponseExpr DefaultResponseExpr DefaultErrorExpr.

Section Build.
Context `{Templates, BuildEnv}.
Context (upstreamCfg : UpstreamConfig) (namingCfg : NamingConfig).

Definition prefixedName (toolName : string) : string :=
  uc_ToolPrefix upstreamCfg +:+ nc_Separator namingCfg +:+ toolName.

(** The checks of one entry before its name is looked at. *)
Definition checkCommand (i : nat) (cfg : CommandConfig) : result BuildToolsError unit :=
  if bool_decide (cmd_ToolName cfg = "") then Err (ToolNameRequired i)
  else if bool_decide (cmd_Command cfg = "") then Err (CommandRequired (cmd_ToolName cfg))
  else match validateTemplate (cmd_Command cfg) with
       | Err err => Err (InvalidTemplate (cmd_ToolName cfg) err)
       | Ok _ =>
         if cmd_Shell cfg then Ok tt
         else match validateNonShellTokens (cmd_Command cfg) with
              | Err err => Err (InvalidToken (cmd_ToolName cfg) err)
              | Ok _ => Ok tt
              end
       end.

Definition commandDef (cfg : CommandConfig) : Def :=
  {| def_Command := cmd_Command cfg; def_Env := cmd_Env cfg; def_WorkingDir := cmd_WorkingDir cfg;
     def_Timeout := cmd_Timeout cfg; def_MaxOutput := cmd_MaxOutput cfg;
     def_Shell := cmd_Shell cfg |}.

Definition commandTool (cfg : CommandConfig) (transforms : handle) : CommandTool :=
  let name := prefixedName (cmd_ToolName cfg) in
  {| ct_PrefixedName := name;
     ct_OriginalName := cmd_ToolName cfg;
     ct_MCPTool := {| tool_Name := name; tool_Description := cmd_Description cfg;
                      tool_InputSchema := Some (allocSchema (buildJSONSchema (cmd_InputSchema cfg)));
                      tool_ResourceUri := None |};
     ct_Def := commandDef cfg;
     ct_Transforms := transforms |}.

Definition makeCommand (cfg : CommandConfig) (_ : unit) : result BuildToolsError CommandTool :=
  match compileIdentity with
  | Err err => Err (CompilingTransforms (cmd_ToolName cfg) err)
  | Ok compiled => Ok (commandTool cfg compiled)
  end.

Definition BuildTools (cfgs : list CommandConfig) : result BuildToolsError (list CommandTool) :=
  collectTools checkCommand (fun cfg => prefixedName (cmd_ToolName cfg))
    (fun cfg => DuplicateToolName (cmd_ToolName cfg) (uc_Name upstreamCfg)) makeCommand 0 ∅ cfgs.

Definition commandEntry (up : Upstream) (ct : CommandTool) : RegistryEntry :=
  {| re_PrefixedName := ct_PrefixedName ct; re_OriginalName := ct_OriginalName ct;
     re_Upstream := Some up; re_MCPTool := Some (ct_MCPTool ct);
     re_Transforms := Some (ct_Transforms ct); re_ResponseFormat := "";
     re_AuthRequired := true; re_Method := ""; re_PathTemplate := ""; re_Validator := None;
     re_ValidationCfg := zero_ValidationConfig; re_OperationNode := None;
     re_Executor := newCommandExecutor (ct_PrefixedName ct) (ct_Def ct); re_Handler := None;
     re_RateLimit := uc_RateLimit upstreamCfg; re_UIHandler := None; re_CacheName := "" |}.

(** [ref] is the identity of the new [Upstream]. *)
Definition Build (ref : positive) : result BuildToolsError ValidatedUpstream :=
  cmdTools ← BuildTools (uc_Commands upstreamCfg);
  let up := {| up_ref := ref; up_Name := uc_Name upstreamCfg;
               up_ToolPrefix := uc_ToolPrefix upstreamCfg; up_BaseURL := ""; up_Client := None |} in
  Ok {| vu_Config := upstreamCfg; vu_Entries := commandEntry up <$> cmdTools;
        vu_SpecYAMLRoot := None |}.
End Build.

(** ** What the shell reads

    How sh tells quoted characters from those it interprets: the state before a
    character, and what the character becomes.  In [Plain start], [start] tells
    whether a word starts here, where [#] begins a comment.  Here-documents are
    not covered. *)
Inductive sh_mode := Plain (start : bool) | PlainEsc (start : bool) | Single | Double | DoubleEsc | Comment.
Inductive sh_item := Literal (c : ascii) | Active (c : ascii).
#[export] Instance sh_mode_eq_dec : EqDecision sh_mode.
Proof. solve_decision. Defined.
#[export] Instance sh_item_eq_dec : EqDecision sh_item.
Proof. solve_decision. Defined.

Definition quote1 : ascii := "'"%char.
Definition isMetachar (c : ascii) : bool := bool_decide (c ∈ explode " ;&|<>()" ++ [lf; ascii_of_N 9]).

Definition sh_step (m : sh_mode) (c : ascii) : sh_mode * list sh_item :=
  match m with
  | Plain start =>
    if bool_decide (c = quote1) then (Single, [])
    else if bool_decide (c = dquote) then (Double, [])
    else if bool_decide (c = backslash) then (PlainEsc start, [])
    else if start && bool_decide (c = "#"%char) then (Comment, [])
    else (Plain (isMetachar c), [Active c])
  | PlainEsc start => if bool_decide (c = lf) then (Plain start, []) else (Plain false, [Literal c])
  | Single => if bool_decide (c = quote1) then (Plain false, []) else (Single, [Literal c])
  | Double =>
    if bool_decide (c = dquote) then (Plain false, [])
    else if bool_decide (c = backslash) then (DoubleEsc, [])
    else (Double, [if bool_decide (c ∈ explode "$`") then Active c else Literal c])
  | DoubleEsc =>
    (Double, if bool_decide (c = lf) then []
             else if bool_decide (c ∈ dquote :: backslash :: explode "$`") then [Literal c]
             else [Literal backslash; Literal c])
  | Comment => if bool_decide (c = lf) then (Plain true, [Active c]) else (Comment, [])
  end.

Fixpoint sh_lex (m : sh_mode) (s : list ascii) : list sh_item :=
  match s with
  | [] => []
  | c :: s' => (sh_step m c).2 ++ sh_lex (sh_step m c).1 s'
  end.
Definition sh_after (m : sh_mode) (s : list ascii) : sh_mode := foldl (fun m c => (sh_step m c).1) m s.

(** Reading [s] with sh. *)
Definition sh_read (m : sh_mode) (s : string) : list sh_item := sh_lex m (explode s).
Definition sh_mode_after (m : sh_mode) (s : string) : sh_mode := sh_after m (explode s).

Lemma sh_lex_app m s t : sh_lex m (s ++ t) = sh_lex m s ++ sh_lex (sh_after m s) t.
Proof. revert m. induction s as [|c s IH]; intros m; [done|]. cbn. by rewrite IH, app_assoc. Qed.

Lemma sh_read_app m s t : sh_read m (s +:+ t) = sh_read m s ++ sh_read (sh_mode_after m s) t.
Proof. unfold sh_read, sh_mode_after. by rewrite explode_app, sh_lex_app. Qed.

(** ReplaceAll of the single quotes, byte by byte *)
Lemma ReplaceAll_quote_cons c s :
  ReplaceAll (String c s) "'" quotedQuote =
  (if bool_decide (c = quote1) then quotedQuote else String c "") +:+ ReplaceAll s "'" quotedQuote.
Proof.
  unfold ReplaceAll. case_bool_decide as Hc.
  - subst c. apply (replace_go_hit quote1 "" quotedQuote s).
  - rewrite replace_go_miss; [done|]. unfold HasPrefix. cbn [String.prefix].
    destruct (ascii_dec _ c) as [E|]; [by destruct Hc|done].
Qed.

(** Inside single quotes the replaced text reads as the literal characters of [s]. *)
Lemma sh_read_replaced s t :
  sh_read Single (ReplaceAll s "'" quotedQuote +:+ String quote1 t) =
  (Literal <$> explode s) ++ sh_read (Plain false) t.
Proof.
  induction s as [|c s IH]; [done|]. rewrite ReplaceAll_quote_cons, string_app_assoc, sh_read_app.
  case_bool_decide as Hc.
  - subst c. change (sh_mode_after Single quotedQuote) with Single. rewrite IH. done.
  - unfold sh_mode_after, sh_after, sh_read at 1. cbn.
    rewrite bool_decide_false by done. cbn. by rewrite IH.
Qed.

(** Where quoting is off, a quoted value reads as its own characters, all literal. *)
Lemma sh_read_shellQuote start s t :
  sh_read (Plain start) (shellQuote s +:+ t) = (Literal <$> explode s) ++ sh_read (Plain false) t.
Proof.
  unfold shellQuote. rewrite !string_app_assoc. rewrite (sh_read_app _ "'").
  change (sh_mode_after (Plain start) "'") with Single. apply sh_read_replaced.
Qed.

(** ** Argument values on the command line *)
Section Injection.
Context `{Templates}.

(** text/template copies the text around a field reference and prints the field
    there: a string as it is, a [Stringer] by its [String]. *)
Definition prints_field (pre k post : string) : Prop :=
  exists tmpl, ParseTemplate (pre +:+ "{{." +:+ k +:+ "}}" +:+ post) = Ok tmpl /\
    forall data s,
      (assoc k data = Some (TString s) -> ExecuteTemplate tmpl data = Ok (pre +:+ s +:+ post)) /\
      (assoc k data = Some (TSafe s) ->
       ExecuteTemplate tmpl data = Ok (pre +:+ shellQuote s +:+ post)).

Lemma assoc_map {A B} (f : A -> B) k (kvs : list (string * A)) :
  assoc k ((fun kv => (kv.1, f kv.2)) <$> kvs) = f <$> assoc k kvs.
Proof. induction kvs as [|[k' v] kvs IH]; [done|]. cbn. by case_decide. Qed.

(** The line given to the shell for a command with one field reference. *)
Lemma buildCmd_shell (d : Def) (a : args) pre k post s :
  def_Shell d = true ->
  def_Command d = pre +:+ "{{." +:+ k +:+ "}}" +:+ post -> prints_field pre k post ->
  assoc k a = Some (VString s) ->
  buildCmd d a = Ok ["sh"; "-c"; pre +:+ shellQuote s +:+ post].
Proof.
  intros Hsh Hcmd (tmpl & Hp & Hx) Ha.
  unfold buildCmd, renderShellTemplate, renderTemplate. rewrite Hsh, Hcmd, Hp.
  destruct (Hx ((fun kv => (kv.1, shellSafeValue kv.2)) <$> a) s) as [_ ->]; [done|].
  by rewrite assoc_map, Ha.
Qed.


(** A field reference inside double quotes is not protected: a value that begins
    with [$] is expanded by the shell, so [$(...)] in an argument runs. *)
Theorem double_quoted_injection (d : Def) (a : args) (pre k post s : string)
    (Hshell : def_Shell d = true)
    (Hcmd : def_Command d = pre +:+ "{{." +:+ k +:+ "}}" +:+ post)
    (Hfield : prints_field pre k post)
    (Harg : assoc k a = Some (VString (String "$" s)))
    (Hpos : sh_mode_after (Plain true) pre = Double) :
  exists line, buildCmd d a = Ok ["sh"; "-c"; line] /\
    sh_read (Plain true) line =
      sh_read (Plain true) pre ++ Literal quote1 :: Active "$" ::
      sh_read Double (ReplaceAll s "'" quotedQuote +:+ String quote1 post).
Proof.
  eexists. split; [by eapply buildCmd_shell|].
  rewrite sh_read_app, Hpos. f_equal. unfold shellQuote.
  rewrite ReplaceAll_quote_cons. by rewrite !string_app_assoc.
Qed.

Lemma renderTokens_Forall2 toks a argv :
  renderTokens toks a = Ok argv -> Forall2 (fun tok arg => renderToken tok a = Ok arg) toks argv.
Proof.
  revert argv. induction toks as [|tok toks IH]; intros argv; cbn; [intros [= <-]; constructor|].
  intros (r & Hr & Hrest)%bind_Ok. apply bind_Ok in Hrest as (rs & Hrs & [= <-]).
  constructor; auto.
Qed.

(** Without a shell the arguments of the process are the command's tokens, each
    rendered on its own: no argument value changes how many there are, and a
    token that is one field reference becomes the value. *)
Theorem direct_arguments (d : Def) (a : args) (argv : list string)
    (Hshell : def_Shell d = false) (Hcmd : buildCmd d a = Ok argv) :
  Forall2 (fun tok arg => renderToken tok a = Ok arg) (Fields (def_Command d)) argv /\
  forall i k s, Fields (def_Command d) !! i = Some ("{{." +:+ k +:+ "}}") ->
    prints_field "" k "" -> assoc k a = Some (VString s) -> argv !! i = Some s.
Proof.
  unfold buildCmd in Hcmd. rewrite Hshell in Hcmd. case_bool_decide; [done|].
  apply renderTokens_Forall2 in Hcmd. split; [done|]. intros i k s Htok (tmpl & Hp & Hx) Ha.
  destruct (Forall2_lookup_l _ _ _ _ _ Hcmd Htok) as (arg & -> & Harg). f_equal.
  revert Harg. unfold renderToken, renderTemplate.
  rewrite !string_app_nil_r in Hp. change ("" +:+ ?x) with x in Hp. rewrite Hp.
  destruct (Hx ((fun kv => (kv.1, toTemplate TString kv.2)) <$> a) s) as [-> _].
  - rewrite (string_app_nil_r s). by intros [= <-].
  - by rewrite assoc_map, Ha.
Qed.
End Injection.

(** ** Output capture *)
Definition limited (limit : Z) (s : string) : string := implode (take (Z.to_nat limit) (explode s)).

Lemma explode_length s : length (explode s) = String.length s.
Proof. by induction s as [|c s IH]; cbn; [|rewrite IH]. Qed.

Lemma limited_all limit s : Z.of_nat (String.length s) <= limit -> limited limit s = s.
Proof.
  intros Hl. unfold limited. rewrite take_ge; [apply implode_explode|]. rewrite explode_length. lia.
Qed.

(** The writer that has received [s]. *)
Definition received (limit : Z) (s : string) : limitWriter :=
  {| lw_w := limited limit s;
     lw_remaining := limit - Z.of_nat (Nat.min (Z.to_nat limit) (String.length s)) |}.

Lemma Write_received limit s p :
  0 <= limit ->
  Write (received limit s) p = (received limit (s +:+ p), Z.of_nat (String.length p)).
Proof.
  intros Hl. unfold Write, received. cbn [lw_w lw_remaining].
  rewrite <-!explode_length, explode_app, length_app.
  destruct (Z.leb_spec (limit - Z.of_nat (Nat.min (Z.to_nat limit) (length (explode s)))) 0) as [Hr|Hr].
  - f_equal. f_equal; [|lia]. unfold limited. rewrite explode_app, take_app_le by lia. done.
  - f_equal. assert (Hs : limited limit s = s) by (apply limited_all; rewrite <-explode_length; lia).
    rewrite Hs. replace (limited limit (s +:+ p)) with
      (s +:+ implode (take (Z.to_nat limit - length (explode s)) (explode p))).
    2:{ unfold limited. rewrite explode_app, take_app, (take_ge (explode s)) by lia.
        by rewrite implode_app, implode_explode. }
    destruct (Z.ltb_spec (limit - Z.of_nat (Nat.min (Z.to_nat limit) (length (explode s))))
                         (Z.of_nat (length (explode p)))) as [Hp|Hp].
    + f_equal; [do 3 f_equal; lia|]. rewrite explode_implode, length_take. lia.
    + rewrite take_ge, implode_explode by lia. f_equal. lia.
Qed.

Lemma capture_limited limit chunks : 0 <= limit -> capture limit chunks = limited limit (String.concat "" chunks).
Proof.
  intros Hl. unfold capture.
  replace {| lw_w := ""; lw_remaining := limit |} with (received limit "").
  2:{ unfold received, limited. cbn. rewrite take_nil. f_equal. lia. }
  assert (Hgen : forall s, foldl (fun lw p => (Write lw p).1) (received limit s) chunks =
                           received limit (s +:+ String.concat "" chunks)).
  2:{ by rewrite Hgen. }
  induction chunks as [|p chunks IH]; intros s; [cbn; by rewrite string_app_nil_r|].
  cbn [foldl]. rewrite Write_received by done. cbn [fst]. rewrite IH. f_equal.
  rewrite string_app_assoc. f_equal. destruct chunks; cbn; by rewrite ?string_app_nil_r.
Qed.

(** C39: What an execution returns is bounded: each stream is the first [MaxOutput]
    bytes (1 MiB by default) of what the process wrote to it, however the writes
    were cut, and every write reports its full length, so the process never sees
    a short write. *)
Theorem Execute_output_bounded {W} `{Templates, ProcEnv W} order (d : Def) (a : args) (w : W)
    (argv extra : list string)
    (Hargv : buildCmd d a = Ok argv) (Henv : expandEnv (order (def_Env d)) = Ok extra) :
  let limit := if def_MaxOutput d <=? 0 then DefaultMaxOutputBytes else def_MaxOutput d in
  let cmd := {| proc_Args := argv; proc_Env := Environ ++ extra; proc_Dir := def_WorkingDir d;
                proc_Timeout := if 0 <? def_Timeout d then Some (def_Timeout d) else None |} in
  let '(out, err, runErr, w') := RunCmd cmd w in
  Execute order d a w =
    (limited limit (String.concat "" out), limited limit (String.concat "" err),
     RunError <$> runErr, w') /\
  (Z.of_nat (String.length (limited limit (String.concat "" out))) <= limit /\
   Z.of_nat (String.length (limited limit (String.concat "" err))) <= limit) /\
  forall written p, Write (received limit written) p =
    (received limit (written +:+ p), Z.of_nat (String.length p)).
Proof.
  cbv zeta. unfold Execute. rewrite Hargv, Henv.
  assert (Hl : 0 <= if def_MaxOutput d <=? 0 then DefaultMaxOutputBytes else def_MaxOutput d).
  { destruct (Z.leb_spec (def_MaxOutput d) 0); [done|lia]. }
  assert (Hb : forall l s, 0 <= l -> Z.of_nat (String.length (limited l s)) <= l).
  { intros l s Hl'. unfold limited. rewrite <-explode_length, explode_implode, length_take. lia. }
  destruct (RunCmd _ w) as [[[out err] runErr] w']. rewrite !capture_limited by done.
  split_and!; [done|by apply Hb..|]. intros. by apply Write_received.
Qed.

(** When the command line or an environment value cannot be rendered, no process
    is started and the caller gets an error result, never a Go error. *)
Theorem ExecuteTool_errors {W} `{Templates, ProcEnv W, Numbers, JsonText} order (d : Def) (a : args) (w : W) :
  exists res, (ExecuteTool order d a w).1 = reply_ok res /\
    (is_ok (buildCmd d a) && is_ok (expandEnv (order (def_Env d))) = false ->
     res_IsError res = true /\ (ExecuteTool order d a w).2 = w) /\
    (res_IsError res = false <-> (Execute order d a w).1.2 = None).
Proof.
  unfold ExecuteTool. destruct (Execute order d a w) as [[[out err] e] w'] eqn:E. cbn [fst snd].
  destruct e as [e|].
  - assert (Hres : exists msg, (match e with
        | RunError msg => (reply_ok (ToErrorResult err msg), w')
        | _ => (reply_ok (ToErrorResult err (commandErrorText e)), w')
        end) = (reply_ok (errorResult msg), w')) by (destruct e; by eexists).
    destruct Hres as (msg & ->). eexists. split; [done|]. split; [|done].
    intros Hno. split; [done|]. revert Hno E. unfold Execute.
    destruct (buildCmd d a); [|by intros _ [= _ _ _ ->]].
    destruct (expandEnv _); [done|by intros _ [= _ _ _ ->]].
  - eexists. split; [done|]. split; [|done]. intros Hno. revert Hno E. unfold Execute.
    destruct (buildCmd d a); [|done]. by destruct (expandEnv _).
Qed.

(** ** Environment values *)
Section Expansion.
Context (env : string -> option string).

(** A value as the text between its references. *)
Inductive segment := Text (s : string) | Var (name : string).
Definition segment_ok (seg : segment) : Prop :=
  match seg with
  | Text s => "$"%char ∉ explode s
  | Var name => name <> "" /\ "}"%char ∉ explode name
  end.
Definition segment_text (seg : segment) : string :=
  match seg with Text s => s | Var name => "${" +:+ name +:+ "}" end.
Definition segments_text (segs : list segment) : string := String.concat "" (segment_text <$> segs).

(** The values in order, or the first variable that is not set. *)
Fixpoint segments_value (segs : list segment) : result ExpandError string :=
  match segs with
  | [] => Ok ""
  | Text s :: rest => (fun r => s +:+ r) <$> segments_value rest
  | Var name :: rest =>
    match env name with
    | None => Err (UnsetVar name)
    | Some v => (fun r => v +:+ r) <$> segments_value rest
    end
  end.

Lemma expand_text s t : "$"%char ∉ explode s ->
  expand_go env None (s +:+ t) = (fun r => s +:+ r) <$> expand_go env None t.
Proof.
  induction s as [|c s IH]; intros Hs; [change ("" +:+ t) with t; by destruct (expand_go env None t)|].
  rewrite string_app_cons. cbn in Hs |- *. rewrite bool_decide_false by set_solver.
  rewrite IH by set_solver. by destruct (expand_go env None t).
Qed.

Lemma expand_name acc name t : "}"%char ∉ explode name ->
  expand_go env (Some acc) (name +:+ String "}" t) =
  expand_go env (Some (acc +:+ name)) (String "}" t).
Proof.
  revert acc. induction name as [|c name IH]; intros acc Hn; [by rewrite string_app_nil_r|].
  rewrite string_app_cons. cbn in Hn. cbn [expand_go]. rewrite bool_decide_false by set_solver.
  rewrite IH by set_solver. by rewrite string_app_assoc.
Qed.

Lemma concat_cons s (ss : list string) : String.concat "" (s :: ss) = s +:+ String.concat "" ss.
Proof. destruct ss; cbn; by rewrite ?string_app_nil_r. Qed.

Lemma shift s (m : result ExpandError string) (n : result ExpandError string) :
  (fun r => s +:+ r) <$> (v ← m; (fun r => v +:+ r) <$> n) =
  (v ← ((fun r => s +:+ r) <$> m); (fun r => v +:+ r) <$> n).
Proof. destruct m, n; cbn; by rewrite ?string_app_assoc. Qed.

(** Reading on after the segments. *)
Lemma expand_app segs t : Forall segment_ok segs ->
  expand_go env None (segments_text segs +:+ t) =
  (v ← segments_value segs; (fun r => v +:+ r) <$> expand_go env None t).
Proof.
  unfold segments_text. induction 1 as [|seg segs Hok _ IH]; [cbn; change ("" +:+ t) with t; by destruct (expand_go env None t)|].
  rewrite fmap_cons, concat_cons, string_app_assoc. destruct seg as [s|name]; cbn [segment_text segments_value].
  - rewrite expand_text, IH by done. apply shift.
  - destruct Hok as [Hne Hn]. rewrite !string_app_assoc.
    change (expand_go env None ("${" +:+ ?x)) with (expand_go env (Some "") x).
    change ("}" +:+ ?x) with (String "}" x).
    rewrite (expand_name "" name) by done. cbn [expand_go]. rewrite bool_decide_true by done.
    change ("" +:+ name) with name. rewrite bool_decide_false by done.
    destruct (env name); [|done]. rewrite IH. apply shift.
Qed.

Lemma expand_segments segs : Forall segment_ok segs ->
  expand_go env None (segments_text segs) = segments_value segs.
Proof.
  intros Hok. rewrite <-(string_app_nil_r (segments_text segs)), expand_app by done.
  destruct (segments_value segs) as [v|err]; [|done]. cbn. by rewrite string_app_nil_r.
Qed.
End Expansion.

(** An environment value is expanded reference by reference: the text between
    references is kept, each [${NAME}] becomes the variable's value, which is not
    expanded again, the first unset variable is the error, and a [$] that begins
    no reference is refused. *)
Theorem expandBraced_segments (env : string -> option string) (segs : list segment)
    (Hok : Forall segment_ok segs) :
  expandBraced env (segments_text segs) = segments_value env segs /\
  forall v c t, segments_value env segs = Ok v -> c <> "{"%char ->
    expandBraced env (segments_text segs +:+ String "$" (String c t)) = Err UnbracedVar.
Proof.
  split.
  - unfold expandBraced. case_bool_decide as Hd; [by apply expand_segments|].
    rewrite <-expand_segments by done. rewrite <-(string_app_nil_r (segments_text segs)) at 2.
    rewrite expand_text by done. cbn. by rewrite string_app_nil_r.
  - intros v c t Hv Hc. unfold expandBraced.
    rewrite bool_decide_true by (rewrite explode_app; cbn; set_solver).
    rewrite expand_app, Hv by done. cbn [expand_go]. by rewrite bool_decide_true, bool_decide_false.
Qed.

(** ** Templates and tokens *)
Lemma checkTokens_Ok toks : checkTokens toks = Ok tt <-> Forall (fun tok => checkToken tok = Ok tt) toks.
Proof.
  induction toks as [|tok toks IH]; cbn; [done|]. rewrite Forall_cons, <-IH.
  destruct (checkToken tok) as [[]|]; cbn; intuition congruence.
Qed.

(** The token check of commands that run without a shell looks at the ends of the
    tokens only.  It refuses every token that puts text before a template
    reference, such as [--name={{.name}}], although the reference is complete; and
    it accepts a reference that is split over several tokens when text is attached
    to both ends. *)
Theorem validateNonShellTokens_edges (command p k : string)
    (Hp : HasPrefix (p +:+ "{{." +:+ k +:+ "}}") "{{" = false)
    (Htok : p +:+ "{{." +:+ k +:+ "}}" ∈ Fields command) :
  (exists err, validateNonShellTokens command = Err err) /\
  validateNonShellTokens "echo a{{ .x }}b" = Ok tt.
Proof.
  split; [|by vm_compute].
  destruct (validateNonShellTokens command) as [[]|err] eqn:E; [|by eexists]. exfalso.
  apply checkTokens_Ok in E. rewrite Forall_forall in E. specialize (E _ Htok). revert E.
  unfold checkToken. rewrite Hp.
  replace (HasSuffix (p +:+ "{{." +:+ k +:+ "}}") "}}") with true.
  - rewrite bool_decide_false; [done|]. intros E. by rewrite E in Hp.
  - symmetry. apply HasSuffix_spec. exists (p +:+ "{{." +:+ k). by rewrite !string_app_assoc.
Qed.

(** ** The entries of a command upstream *)
Section BuildSpec.
Context `{Templates, BuildEnv}.
Context (upstreamCfg : UpstreamConfig) (namingCfg : NamingConfig).
Context (transforms : handle) (Hcompile : compileIdentity = Ok transforms).
Local Abbreviation name := (prefixedName upstreamCfg namingCfg).
Local Abbreviation tool := (fun cfg => commandTool upstreamCfg namingCfg cfg transforms).

#[local] Instance prefixedName_inj : Inj (=) (=) name.
Proof. intros n1 n2 Hn. unfold prefixedName in Hn. by do 2 apply string_app_inj_r in Hn. Qed.

Lemma checkCommand_index i j cfg : is_ok (checkCommand i cfg) = is_ok (checkCommand j cfg).
Proof.
  unfold checkCommand. case_bool_decide; [done|]. by case_bool_decide.
Qed.

(** A command upstream is built exactly when every command has a name, a text, a
    template that parses and, without a shell, complete tokens, and no name is
    used twice.  Its entries then follow the configuration one by one under
    distinct tool names; all require authentication and have the upstream's rate
    limit, and none is cached, whatever [cache] the upstream configures. *)
Theorem Build_commands (ref : positive) :
  match Build upstreamCfg namingCfg ref with
  | Ok vu =>
    Forall2 (fun cfg e =>
      re_PrefixedName e = name (cmd_ToolName cfg) /\ re_OriginalName e = cmd_ToolName cfg /\
      re_Executor e = newCommandExecutor (re_PrefixedName e) (commandDef cfg) /\
      (tool_Name <$> re_MCPTool e) = Some (re_PrefixedName e) /\
      re_AuthRequired e = true /\ re_RateLimit e = uc_RateLimit upstreamCfg /\
      re_CacheName e = "" /\ is_ok (checkCommand 0 cfg) = true)
      (uc_Commands upstreamCfg) (vu_Entries vu) /\
    NoDup (re_PrefixedName <$> vu_Entries vu)
  | Err _ => exists before cfg after, uc_Commands upstreamCfg = before ++ cfg :: after /\
      (is_ok (checkCommand 0 cfg) = false \/ cmd_ToolName cfg ∈ cmd_ToolName <$> before)
  end.
Proof.
  unfold Build, BuildTools.
  pose proof (collectTools_spec checkCommand (fun cfg => name (cmd_ToolName cfg))
    (fun cfg => DuplicateToolName (cmd_ToolName cfg) (uc_Name upstreamCfg))
    (makeCommand upstreamCfg namingCfg) 0 ∅ (uc_Commands upstreamCfg)) as Hspec.
  destruct (collectTools _ _ _ _ _ _) as [tools|err]; cbn [mbind result_bind].
  - destruct Hspec as (Hf & Hnd & _). cbn [vu_Entries].
    assert (Hf' : Forall2 (fun cfg t => t = tool cfg /\ is_ok (checkCommand 0 cfg) = true)
      (uc_Commands upstreamCfg) tools).
    { eapply Forall2_impl; [exact Hf|]. intros cfg t (i & [] & Hc & Hm). unfold makeCommand in Hm.
      rewrite Hcompile in Hm. injection Hm as <-. by rewrite (checkCommand_index 0 i), Hc. }
    split.
    + apply Forall2_fmap_r. eapply Forall2_impl; [exact Hf'|]. by intros cfg t [-> Hc].
    + replace (re_PrefixedName <$> (commandEntry upstreamCfg _ <$> tools))
        with ((fun cfg => name (cmd_ToolName cfg)) <$> uc_Commands upstreamCfg); [done|].
      clear -Hf'. induction Hf' as [|cfg t cfgs tools [-> _] _ IH]; [done|].
      cbn. f_equal. exact IH.
  - destruct Hspec as (before & cfg & after & -> & Hwhy). exists before, cfg, after.
    split; [done|]. destruct Hwhy as [?|[(cfg' & Heq & Hin)%list_elem_of_fmap|(j & Hj)]].
    + set_solver.
    + right. apply (inj name) in Heq. rewrite Heq. by apply list_elem_of_fmap_2.
    + left. rewrite (checkCommand_index 0 j). destruct (checkCommand j cfg); [|done].
      cbn [mbind result_bind] in Hj. unfold makeCommand in Hj. by rewrite Hcompile in Hj.
Qed.
End BuildSpec.

(** ** Numbers in the output *)

(** JSON output is decoded into floats before it is encoded again, so two
    identifiers above 2^53 give the same text: the caller is told of a resource
    that the command did not print. *)
Theorem large_integers_collide `{Numbers, JsonText} (out1 out2 k t : string)
    (Hout1 : ParseJSON out1 = Some (VObject [(k, VInt (2 ^ 53 + 1))]))
    (Hout2 : ParseJSON out2 = Some (VObject [(k, VInt (2 ^ 53))]))
    (Hformat : FormatFloat (S754_finite false (2 ^ 52) 1) = Some t) :
  ToTextResult out1 = ToTextResult out2 /\
  ToTextResult out1 = textResult ("{" +:+ quote true (of_runes (runes k)) +:+ ":" +:+ t +:+ "}").
Proof.
  assert (Hr : forall n, float_of_int n = Some (S754_finite false (2 ^ 52) 1) ->
    (reparse (VObject [(k, VInt n)])) =
    Some (VObject [(of_runes (runes k), VFloat (S754_finite false (2 ^ 52) 1))])).
  { intros n Hn. cbn [reparse mapM fst snd]. by rewrite Hn. }
  assert (Hm : Marshal FormatFloat true
      (VObject [(of_runes (runes k), VFloat (S754_finite false (2 ^ 52) 1))]) =
    Some ("{" +:+ (quote true (of_runes (runes k)) +:+ ":" +:+ t) +:+ "}")).
  { cbn. rewrite Hformat. cbn. by rewrite decide_True. }
  unfold ToTextResult, Unmarshal. rewrite Hout1, Hout2. cbn [mbind option_bind].
  rewrite !Hr by (by vm_compute). rewrite Hm. by rewrite !string_app_assoc.
Qed.

(** ** A sample upstream *)
Module SampleCommands.
(** [strings.Cut] *)
Fixpoint cut (sub s : string) : option (string * string) :=
  match CutPrefix s sub with
  | Some rest => Some ("", rest)
  | None => match s with
            | "" => None
            | String c s' => (fun pq => (String c pq.1, pq.2)) <$> cut sub s'
            end
  end.
(** Templates with at most one field reference. *)
#[local] Instance templates : Templates := {|
  Template := string * option (string * string);
  ParseTemplate s :=
    match cut "{{" s with
    | None => Ok (s, None)
    | Some (pre, rest) =>
      match cut "}}" rest with
      | Some (String "." k, post) => Ok (pre, Some (k, post))
      | _ => Err "unclosed action"
      end
    end;
  ExecuteTemplate t data :=
    match t with
    | (pre, None) => Ok pre
    | (pre, Some (k, post)) =>
      match assoc k data with
      | Some (TString s) => Ok (pre +:+ s +:+ post)
      | Some (TSafe s) => Ok (pre +:+ shellQuote s +:+ post)
      | _ => Ok (pre +:+ "<no value>" +:+ post)
      end
    end |}.
Definition dq : string := String dquote "".
Definition grep : Def :=
  {| def_Command := "grep {{.q}} log"; def_Env := ∅; def_WorkingDir := ""; def_Timeout := 0;
     def_MaxOutput := 4; def_Shell := true |}.
Definition echo : Def :=
  {| def_Command := "echo " +:+ dq +:+ "{{.q}}" +:+ dq; def_Env := ∅; def_WorkingDir := "";
     def_Timeout := 0; def_MaxOutput := 0; def_Shell := true |}.
Definition direct : Def :=
  {| def_Command := "grep {{.q}} log"; def_Env := ∅; def_WorkingDir := ""; def_Timeout := 0;
     def_MaxOutput := 0; def_Shell := false |}.
Definition unset : Def :=
  {| def_Command := "grep {{.q}} log"; def_Env := {["TOKEN" := "${NOT_SET}"]}; def_WorkingDir := "";
     def_Timeout := 0; def_MaxOutput := 0; def_Shell := false |}.
(** The world counts the processes started. *)
#[local] Instance proc : ProcEnv nat := {|
  LookupEnv name := if decide (name = "HOME") then Some "/root" else None;
  Environ := [];
  RunCmd _ w := (["out"; "put"], [], None, S w);
  commandErrorText _ := "failed" |}.
#[local] Existing Instances SampleEngine.engine SampleEngine.numbers.
#[local] Instance build : BuildEnv :=
  {| allocSchema _ := 1%positive; allocTransforms _ := 2%positive;
     newCommandExecutor _ _ := 3%positive |}.
Definition json : JsonText :=
  {| ParseJSON s := Some (VObject [("id", VInt (if decide (s = "odd") then 2 ^ 53 + 1 else 2 ^ 53))]) |}.
Definition commands : list CommandConfig :=
  [ {| cmd_ToolName := "grep"; cmd_Description := "search"; cmd_Command := "grep {{.q}} log";
       cmd_InputSchema := zero_CommandInputSchema; cmd_Timeout := 0; cmd_Env := ∅;
       cmd_WorkingDir := ""; cmd_Shell := false; cmd_MaxOutput := 0 |} ].
Definition naming : NamingConfig := SampleDoc.naming "error".
Definition upstream : UpstreamConfig := {|
  uc_Name := "logs";
  uc_Enabled := false;
  uc_ToolPrefix := "log";
  uc_Type := "";
  uc_BaseURL := "";
  uc_Cache := "short";
  uc_Timeout := 0;
  uc_TLSSkipVerify := false;
  uc_Headers := ∅;
  uc_Transport := zero_TransportConfig;
  uc_OpenAPI := zero_OpenAPISourceConfig;
  uc_Overlay := None;
  uc_StartupValidationTimeout := 0;
  uc_Validation := zero_ValidationConfig;
  uc_InboundAuthOverride := None;
  uc_OutboundAuth := zero_OutboundAuthConfig;
  uc_Commands := commands;
  uc_Scripts := [];
  uc_RateLimit := "";
  uc_CircuitBreaker := "";
  uc_AppUI := None;
  uc_JSScriptPool := None |}.
End SampleCommands.

Section Witnesses.
#[local] Existing Instances SampleCommands.templates SampleCommands.proc SampleCommands.json
  SampleCommands.build SampleEngine.engine SampleEngine.numbers.
Import SampleCommands.


Lemma double_quoted_injection_witness :
  exists line, buildCmd echo [("q", VString "$(reboot)")] = Ok ["sh"; "-c"; line] /\
    sh_read (Plain true) line =
      (Active <$> explode "echo ") ++ [Literal quote1; Active "$"] ++
      (Literal <$> explode "(reboot)'").
Proof.
  apply (double_quoted_injection echo _ ("echo " +:+ dq) "q" dq "(reboot)").
  - reflexivity.
  - reflexivity.
  - exists ("echo " +:+ dq, Some ("q", dq)). split; [reflexivity|].
    intros data s. split; intros Hs; cbn [ExecuteTemplate templates]; rewrite Hs; reflexivity.
  - reflexivity.
  - reflexivity.
Defined.

Lemma direct_arguments_witness :
  exists argv, buildCmd direct [("q", VString "a b; c")] = Ok argv /\ length argv = 3%nat /\
    argv !! 1%nat = Some "a b; c".
Proof.
  exists ["grep"; "a b; c"; "log"].
  assert (Hcmd : buildCmd direct [("q", VString "a b; c")] = Ok ["grep"; "a b; c"; "log"])
    by (vm_compute; reflexivity).
  split; [exact Hcmd|]. split; [reflexivity|].
  destruct (direct_arguments direct _ _ eq_refl Hcmd) as [_ Hi].
  apply (Hi _ "q"); [vm_compute; reflexivity| |reflexivity].
  exists ("", Some ("q", "")). split; [reflexivity|].
  intros data s. split; intros Hs; cbn [ExecuteTemplate templates]; rewrite Hs; reflexivity.
Defined.

Lemma Execute_output_bounded_witness :
  Execute map_to_list grep [("q", VString "x")] 0%nat = ("outp", "", None, 1%nat).
Proof.
  exact (proj1 (Execute_output_bounded map_to_list grep [("q", VString "x")] 0%nat
    ["sh"; "-c"; "grep 'x' log"] [] eq_refl eq_refl)).
Defined.

Lemma ExecuteTool_errors_witness :
  exists res, (ExecuteTool map_to_list unset [("q", VString "x")] 0%nat).1 = reply_ok res /\
    res_IsError res = true /\ (ExecuteTool map_to_list unset [("q", VString "x")] 0%nat).2 = 0%nat.
Proof.
  destruct (ExecuteTool_errors map_to_list unset [("q", VString "x")] 0%nat) as (res & Hres & He & _).
  exists res. split; [exact Hres|]. apply He. reflexivity.
Defined.

Lemma expandBraced_segments_witness :
  expandBraced LookupEnv "${HOME}/bin" = Ok "/root/bin" /\
  expandBraced LookupEnv "${HOME}/$bin" = Err UnbracedVar.
Proof.
  split.
  - refine (proj1 (expandBraced_segments LookupEnv [Var "HOME"; Text "/bin"] _)).
    repeat constructor; vm_compute; set_solver.
  - destruct (expandBraced_segments LookupEnv [Var "HOME"; Text "/"]) as [_ H].
    { repeat constructor; vm_compute; set_solver. }
    apply (H "/root/" "b"%char "in"); [reflexivity|discriminate].
Defined.

Lemma validateNonShellTokens_edges_witness :
  exists err, validateNonShellTokens "greet --name={{.name}}" = Err err.
Proof.
  apply (validateNonShellTokens_edges "greet --name={{.name}}" "--name=" "name"); [reflexivity|].
  vm_compute. set_solver.
Defined.

Lemma Build_commands_witness :
  exists vu, Command.Build upstream naming 1 = Ok vu /\
    Forall (fun e => re_CacheName e = "" /\ re_AuthRequired e = true) (vu_Entries vu) /\
    (re_PrefixedName <$> vu_Entries vu) = ["log__grep"].
Proof.
  eexists. split; [reflexivity|].
  pose proof (Build_commands upstream naming 2 eq_refl 1) as [Hf _].
  split; [|reflexivity]. apply Forall_forall. intros e He.
  apply list_elem_of_lookup in He as [i He].
  destruct (Forall2_lookup_r _ _ _ _ _ Hf He) as (cfg & _ & _ & _ & _ & _ & Ha & _ & Hc & _).
  split; [exact Hc|exact Ha].
Defined.

Lemma large_integers_collide_witness : ToTextResult "odd" = ToTextResult "even".
Proof.
  exact (proj1 (large_integers_collide "odd" "even" "id" "1" eq_refl eq_refl eq_refl)).
Defined.
End Witnesses.
