(* ===== verification/Script.v ===== *)
(** * Script upstreams and runtime pools (pkg/upstream/script: script.go,
    builder.go, executor.go; pkg/runtime/pool.go)

    Tools written in JavaScript: compiling and building them, the sandbox they
    run in with its [ctx.fetch], their execution and results, and the pool that
    bounds how many run at the same time.  The JavaScript engine, the network
    and the semaphore are parameters. *)
From S2P Require Export Command HttpRequest.
Open Scope Z_scope.

(** ** Compiling *)

(** Text with the newlines of a Go raw string. *)
Definition wrapPrefix : string :=
  newline +:+ "var __mcp_default__;" +:+ newline +:+ "var exports = {};" +:+ newline +:+
  "var module = {exports: exports};" +:+ newline.
Definition wrapSuffix : string :=
  newline +:+ "if (typeof __mcp_default__ === 'undefined' && typeof module.exports === 'function') {"
  +:+ newline +:+ "    __mcp_default__ = module.exports;" +:+ newline +:+ "}" +:+ newline.

Definition wrapScript (src : string) : string :=
  let processed := ReplaceAll src "export default " "__mcp_default__ = " in
  wrapPrefix +:+ processed +:+ wrapSuffix.

(** A call of [ctx.fetch], its JavaScript arguments converted: no URL means no
    argument, and an option that is null or undefined is absent. *)
Record FetchCall := {
  fc_URL : option string;
  fc_Method : option string;
  fc_Headers : gmap string string;
  fc_Body : option string
}.

(** What a script sees as [ctx]. *)
Record Sandbox (W : Type) := {
  sb_env : gmap string string;
  sb_fetch : FetchCall -> W -> result string value * W
}.
Arguments sb_env {W}. Arguments sb_fetch {W}.

Class ScriptEngine (W : Type) := {
  Program : Type;
  Runtime : Type;
  (** [sobek.Compile] *)
  CompileProgram : string -> string -> result string Program;
  ReadFile : string -> result string string;
  ExpandEnvVar : string -> string;
  RunProgram : Program -> Sandbox W -> W -> result string Runtime * W;
  (** whether [__mcp_default__] is a function, and its call, exported *)
  hasDefault : Runtime -> bool;
  CallDefault : Runtime -> Sandbox W -> args -> W -> result string value * W;
  (** a pool's slots *)
  AcquireSlot : handle -> W -> result string unit * W;
  ReleaseSlot : handle -> W -> W;
  (** requests over a client: the status, and the body or the error of reading it *)
  newRequestError : string -> string -> option string;
  DoRequest : handle -> string -> string -> gmap string string -> option string -> W ->
              result string (Z * result string string) * W;
  allocHTTPClient : Z -> handle
}.

Definition defaultFetchTimeout : Z := 30 * 10 ^ 9.

Section Script.
Context {W : Type} `{ScriptEngine W}.

Definition CompileScript (name src : string) : result string Program :=
  match CompileProgram (name +:+ ".js") (wrapScript src) with
  | Err err => Err ("parse error: " +:+ err)
  | Ok prog => Ok prog
  end.

Record ScriptDef := {
  sd_Program : Program;
  sd_Timeout : Z;
  sd_Env : gmap string string;
  sd_HTTPClient : handle;
  sd_Pool : handle
}.

(** ** The sandbox *)
Section Fetch.
Context `{JsonText}.
(** the iteration order of the headers *)
Context (order : gmap string string -> list (string * string)).

(** An exception is an error. *)
Definition jsFetch (client : handle) (call : FetchCall) (w : W) : result string value * W :=
  match fc_URL call with
  | None => (Err "ctx.fetch requires a URL argument", w)
  | Some rawURL =>
    let method := match fc_Method call with Some m => ToUpper m | None => "GET" end in
    match newRequestError method rawURL with
    | Some err => (Err ("ctx.fetch: creating request: " +:+ err), w)
    | None =>
      match DoRequest client method rawURL (setHeaders ∅ (order (fc_Headers call))) (fc_Body call) w with
      | (Err err, w) => (Err ("ctx.fetch: " +:+ err), w)
      | (Ok (_, Err err), w) => (Err ("ctx.fetch: reading response body: " +:+ err), w)
      | (Ok (code, Ok body), w) =>
        if 400 <=? code
        then (Err ("ctx.fetch: HTTP " +:+ pretty code +:+ ": " +:+ TrimSpace body), w)
        else match Unmarshal body with
             | Some parsed => (Ok parsed, w)
             | None => (Ok (VString body), w)
             end
      end
    end
  end.

Definition buildContextObject (d : ScriptDef) : Sandbox W :=
  {| sb_env := ExpandEnvVar <$> sd_Env d; sb_fetch := jsFetch (sd_HTTPClient d) |}.

(** ** Execution *)
Inductive ScriptError :=
  | NoSlot (err : string)
  | RunningScript (err : string)
  | NoDefaultExport
  | ScriptFailed (err : string)
  | MarshallingResult.

Context `{Numbers}.

(** From the acquired slot on. *)
Definition runScript (d : ScriptDef) (a : args) (w : W) : result ScriptError string * W :=
  let ctx := buildContextObject d in
  match RunProgram (sd_Program d) ctx w with
  | (Err err, w) => (Err (RunningScript err), w)
  | (Ok rt, w) =>
    if negb (hasDefault rt) then (Err NoDefaultExport, w)
    else
      match CallDefault rt ctx a w with
      | (Err err, w) => (Err (ScriptFailed err), w)
      | (Ok exported, w) =>
        match Marshal FormatFloat true exported with
        | None => (Err MarshallingResult, w)
        | Some out => (Ok out, w)
        end
      end
  end.

(** The slot is given back by a deferred call. *)
Definition ExecuteScript (d : ScriptDef) (a : args) (w : W) : result ScriptError string * W :=
  match AcquireSlot (sd_Pool d) w with
  | (Err err, w) => (Err (NoSlot err), w)
  | (Ok _, w) =>
    let '(r, w) := runScript d a w in
    (r, ReleaseSlot (sd_Pool d) w)
  end.

(** script.go has its own copies of the command package's text of a result, schema
    of an input, and error result, the last one without standard error. *)
Definition scriptTextResult (out : string) : CallToolResult := ToTextResult out.
Definition scriptErrorResult (execErr : string) : CallToolResult := errorResult execErr.

(** The executor; [errText] is the text of an error. *)
Definition ExecuteScriptTool (errText : ScriptError -> string) (d : ScriptDef) (a : args) (w : W)
    : Reply * W :=
  match ExecuteScript d a w with
  | (Err err, w) => (reply_ok (scriptErrorResult (errText err)), w)
  | (Ok out, w) => (reply_ok (scriptTextResult out), w)
  end.
End Fetch.

(** ** Building the tools *)
Inductive ScriptBuildError :=
  | PoolRequired (upstream : string)
  | ScriptNameRequired (i : nat)
  | ScriptPathRequired (tool : string)
  | ReadingScript (tool path err : string)
  | CompilingScript (tool err : string)
  | DuplicateScriptName (tool upstream : string)
  | CompilingScriptTransforms (tool : string) (err : TransformError).

Record ScriptTool := {
  st_PrefixedName : string;
  st_OriginalName : string;
  st_MCPTool : Tool;
  st_Def : ScriptDef;
  st_Transforms : handle
}.

Context `{BuildEnv}.
Context (newScriptExecutor : string -> ScriptDef -> handle).
Context (upstreamCfg : UpstreamConfig) (namingCfg : NamingConfig).

Definition scriptName (cfg : ScriptConfig) : string :=
  uc_ToolPrefix upstreamCfg +:+ nc_Separator namingCfg +:+ scr_ToolName cfg.

Definition checkScript (i : nat) (cfg : ScriptConfig) : result ScriptBuildError Program :=
  if bool_decide (scr_ToolName cfg = "") then Err (ScriptNameRequired i)
  else if bool_decide (scr_ScriptPath cfg = "") then Err (ScriptPathRequired (scr_ToolName cfg))
  else match ReadFile (scr_ScriptPath cfg) with
       | Err err => Err (ReadingScript (scr_ToolName cfg) (scr_ScriptPath cfg) err)
       | Ok src =>
         match CompileScript (scr_ToolName cfg) src with
         | Err err => Err (CompilingScript (scr_ToolName cfg) err)
         | Ok prog => Ok prog
         end
       end.

(** [script.buildJSONSchema] *)
Definition scriptJSONSchema (s : CommandInputSchema) : InputSchema := buildJSONSchema s.

Definition scriptTool (httpClient : option handle) (pool : handle) (cfg : ScriptConfig)
    (prog : Program) (transforms : handle) : ScriptTool :=
  let client :=
    match httpClient with
    | Some client => client
    | None => allocHTTPClient (if 0 <? scr_Timeout cfg then scr_Timeout cfg else defaultFetchTimeout)
    end in
  {| st_PrefixedName := scriptName cfg;
     st_OriginalName := scr_ToolName cfg;
     st_MCPTool := {| tool_Name := scriptName cfg; tool_Description := scr_Description cfg;
                      tool_InputSchema := Some (allocSchema (scriptJSONSchema (scr_InputSchema cfg)));
                      tool_ResourceUri := None |};
     st_Def := {| sd_Program := prog; sd_Timeout := scr_Timeout cfg; sd_Env := scr_Env cfg;
                  sd_HTTPClient := client; sd_Pool := pool |};
     st_Transforms := transforms |}.

Definition makeScript (httpClient : option handle) (pool : handle) (cfg : ScriptConfig) (prog : Program)
    : result ScriptBuildError ScriptTool :=
  match compileIdentity with
  | Err err => Err (CompilingScriptTransforms (scr_ToolName cfg) err)
  | Ok compiled => Ok (scriptTool httpClient pool cfg prog compiled)
  end.

Definition BuildScripts (cfgs : list ScriptConfig) (httpClient : option handle) (pool : handle)
    : result ScriptBuildError (list ScriptTool) :=
  collectTools checkScript scriptName
    (fun cfg => DuplicateScriptName (scr_ToolName cfg) (uc_Name upstreamCfg))
    (makeScript httpClient pool) 0 ∅ cfgs.

Definition scriptEntry (up : Upstream) (st : ScriptTool) : RegistryEntry :=
  {| re_PrefixedName := st_PrefixedName st; re_OriginalName := st_OriginalName st;
     re_Upstream := Some up; re_MCPTool := Some (st_MCPTool st);
     re_Transforms := Some (st_Transforms st); re_ResponseFormat := "";
     re_AuthRequired := true; re_Method := ""; re_PathTemplate := ""; re_Validator := None;
     re_ValidationCfg := zero_ValidationConfig; re_OperationNode := None;
     re_Executor := newScriptExecutor (st_PrefixedName st) (st_Def st); re_Handler := None;
     re_RateLimit := uc_RateLimit upstreamCfg; re_UIHandler := None; re_CacheName := "" |}.

Definition BuildScriptUpstream (ref : positive) : result ScriptBuildError ValidatedUpstream :=
  match uc_JSScriptPool upstreamCfg with
  | None => Err (PoolRequired (uc_Name upstreamCfg))
  | Some pool =>
    let fetchTimeout := if uc_Timeout upstreamCfg <=? 0 then 30 * 10 ^ 9 else uc_Timeout upstreamCfg in
    let httpClient := allocHTTPClient fetchTimeout in
    scriptTools ← BuildScripts (uc_Scripts upstreamCfg) (Some httpClient) pool;
    let up := {| up_ref := ref; up_Name := uc_Name upstreamCfg;
                 up_ToolPrefix := uc_ToolPrefix upstreamCfg; up_BaseURL := ""; up_Client := None |} in
    Ok {| vu_Config := upstreamCfg; vu_Entries := scriptEntry up <$> scriptTools;
          vu_SpecYAMLRoot := None |}
  end.
End Script.

(** ** Pools (runtime/pool.go) *)

(** golang.org/x/sync/semaphore with requests of weight 1: [None] while no slot
    is free. *)
Class Semaphore := {
  Sem : Type;
  NewWeighted : Z -> Sem;
  sem_Acquire : Sem -> option Sem;
  sem_Release : Sem -> Sem;
  sem_size : Sem -> Z;
  sem_held : Sem -> Z
}.

Class SemaphoreLaws `{Semaphore} := {
  NewWeighted_spec n : sem_size (NewWeighted n) = n /\ sem_held (NewWeighted n) = 0;
  Acquire_spec s : match sem_Acquire s with
                   | Some s' => sem_held s < sem_size s /\ sem_held s' = sem_held s + 1 /\
                                sem_size s' = sem_size s
                   | None => sem_size s <= sem_held s
                   end;
  Release_spec s : 0 < sem_held s ->
    sem_held (sem_Release s) = sem_held s - 1 /\ sem_size (sem_Release s) = sem_size s
}.

Section Pool.
Context `{Semaphore}.

Record Pool := { pool_sem : Sem; pool_cap : Z }.

Definition NewPool (max : Z) : result string Pool :=
  if max <=? 0 then Err ("runtime.NewPool: max must be > 0, got " +:+ pretty max)
  else Ok {| pool_sem := NewWeighted max; pool_cap := max |}.

(** [Acquire] once it does not wait, and the function it returns. *)
Definition Acquire (p : Pool) : option Pool :=
  s ← sem_Acquire (pool_sem p); Some {| pool_sem := s; pool_cap := pool_cap p |}.
Definition Release (p : Pool) : Pool :=
  {| pool_sem := sem_Release (pool_sem p); pool_cap := pool_cap p |}.
Definition Cap (p : Pool) : Z := pool_cap p.

(** Executions that share a pool: each waits for a slot, runs a runtime in it,
    and gives the slot back, however the script ends; a waiting one may give up
    when its context expires. *)
Inductive phase := Waiting | Running | Finished.

Inductive pool_step : Pool * gmap nat phase -> Pool * gmap nat phase -> Prop :=
  | step_call p calls i : calls !! i = None -> pool_step (p, calls) (p, <[i := Waiting]> calls)
  | step_acquire p p' calls i : calls !! i = Some Waiting -> Acquire p = Some p' ->
      pool_step (p, calls) (p', <[i := Running]> calls)
  | step_expire p calls i : calls !! i = Some Waiting ->
      pool_step (p, calls) (p, <[i := Finished]> calls)
  | step_end p calls i : calls !! i = Some Running ->
      pool_step (p, calls) (Release p, <[i := Finished]> calls).
End Pool.

(** ** The bound of a pool *)
#[export] Instance phase_eq_dec : EqDecision phase.
Proof. solve_decision. Defined.

Definition isRunning (ph : option phase) : Z := if decide (ph = Some Running) then 1 else 0.

(** How many runtimes exist. *)
Definition running (calls : gmap nat phase) : Z :=
  Z.of_nat (size (filter (fun kv => kv.2 = Running) calls)).
Arguments running : simpl never.

Lemma running_fresh calls i ph :
  calls !! i = None -> running (<[i := ph]> calls) = running calls + isRunning (Some ph).
Proof.
  intros Hi. unfold running, isRunning. case_decide as Hr.
  - injection Hr as ->. rewrite map_filter_insert_True by done.
    rewrite map_size_insert_None by (rewrite map_lookup_filter_None; by left). lia.
  - rewrite map_filter_insert_not'; [lia|cbn; congruence|by rewrite Hi].
Qed.

Lemma running_insert calls i ph :
  running (<[i := ph]> calls) = running calls - isRunning (calls !! i) + isRunning (Some ph).
Proof.
  rewrite <-insert_delete_eq, running_fresh by apply lookup_delete_eq.
  destruct (calls !! i) as [ph'|] eqn:E.
  - rewrite <-(insert_delete_id _ _ _ E) at 2. rewrite running_fresh by apply lookup_delete_eq. lia.
  - rewrite delete_id by done. change (isRunning None) with 0. lia.
Qed.

Section PoolFacts.
Context `{SemaphoreLaws}.

(** The slots held are the runtimes that run. *)
Definition pool_inv (max : Z) (w : Pool * gmap nat phase) : Prop :=
  sem_size (pool_sem w.1) = max /\ Cap w.1 = max /\
  sem_held (pool_sem w.1) = running w.2 /\ running w.2 <= max.

Lemma pool_step_inv max w w' : pool_inv max w -> pool_step w w' -> pool_inv max w'.
Proof.
  intros (Hsz & Hcap & Hheld & Hle) Hstep.
  inversion Hstep as [p calls i Hi|p p' calls i Hi Ha|p calls i Hi|p calls i Hi]; subst;
    unfold pool_inv, Cap in *; cbn [fst snd] in *; rewrite running_insert, Hi; unfold isRunning;
    repeat (case_decide; try congruence).
  - by split_and!; [| |lia|lia].
  - unfold Acquire in Ha. pose proof (Acquire_spec (pool_sem p)) as Hspec.
    destruct (sem_Acquire (pool_sem p)) as [s|]; [|done]. cbn in Ha. injection Ha as <-.
    destruct Hspec as (Hlt & Hh & Hs). cbn in *. split_and!; lia.
  - by split_and!; [| |lia|lia].
  - assert (Hpos : 0 < sem_held (pool_sem p)).
    { rewrite Hheld. pose proof (running_insert calls i Finished) as Hr. rewrite Hi in Hr.
      unfold isRunning in Hr. repeat (case_decide; try congruence). unfold running in *. lia. }
    destruct (Release_spec _ Hpos) as [Hh Hs]. cbn in *. split_and!; lia.
Qed.

(** C20: However the executions of an upstream's scripts interleave, and however they
    end, at most [max] runtimes exist at any time, no slot is lost, and while one
    is free every waiting execution can take it. *)
Theorem pool_bounded (max : Z) (p0 : Pool) (w : Pool * gmap nat phase)
    (Hnew : NewPool max = Ok p0) (Hreach : rtc pool_step (p0, ∅) w) :
  sem_held (pool_sem w.1) = running w.2 /\ running w.2 <= Cap w.1 /\ Cap w.1 = max /\
  (forall i, w.2 !! i = Some Waiting -> running w.2 < max ->
     exists p', Acquire w.1 = Some p' /\ pool_step w (p', <[i := Running]> w.2)).
Proof.
  assert (Hinv : pool_inv max w).
  { unfold NewPool in Hnew. destruct (Z.leb_spec max 0); [done|]. injection Hnew as <-.
    destruct (NewWeighted_spec max) as [Hs Hh].
    assert (Hi0 : pool_inv max ({| pool_sem := NewWeighted max; pool_cap := max |}, ∅)).
    { split_and!; cbn; [done|done|by rewrite Hh|change (running ∅) with 0; lia]. }
    clear Hs Hh. revert Hi0. induction Hreach as [|? ? ? Hstep _ IH]; [done|].
    intros Hi0. apply IH. by eapply pool_step_inv. }
  destruct Hinv as (Hsz & Hcap & Hheld & Hle). split_and!; [done|lia|done|].
  intros i Hi Hlt. unfold Acquire. pose proof (Acquire_spec (pool_sem w.1)) as Hspec.
  destruct (sem_Acquire (pool_sem w.1)) as [s|] eqn:Es; [|lia].
  eexists. split; [done|]. destruct w as [p calls]. constructor; [done|].
  unfold Acquire. cbn in Es. by rewrite Es.
Qed.
End PoolFacts.

(** ** What an execution does *)
Section ExecutionFacts.
Context {W : Type} `{ScriptEngine W, JsonText, Numbers}.
Context (order : gmap string string -> list (string * string)).

(** A call of a script tool always gets a reply, an error result whenever the
    script did not end with a value; the slot it took is given back in every
    case, after the script's last effect, and without a slot nothing runs. *)
Theorem ExecuteScriptTool_slot (errText : ScriptError -> string) (d : ScriptDef) (a : args) (w : W) :
  let '(r, w') := ExecuteScriptTool order errText d a w in
  exists res, r = reply_ok res /\
    match AcquireSlot (sd_Pool d) w with
    | (Err err, w1) => w' = w1 /\ res = errorResult (errText (NoSlot err))
    | (Ok _, w1) =>
        w' = ReleaseSlot (sd_Pool d) (runScript order d a w1).2 /\
        (res_IsError res = false <-> is_ok (runScript order d a w1).1 = true)
    end.
Proof.
  unfold ExecuteScriptTool, ExecuteScript.
  destruct (AcquireSlot (sd_Pool d) w) as [[_|err] w1]; [|eexists; split; [done|by split]].
  destruct (runScript order d a w1) as [[out|err] w2]; eexists; (split; [done|]); split; done.
Qed.
End ExecutionFacts.

(** ** The entries of a script upstream *)
Section ScriptBuildFacts.
Context {W : Type} `{ScriptEngine W, BuildEnv}.
Context (newScriptExecutor : string -> ScriptDef -> handle).
Context (upstreamCfg : UpstreamConfig) (namingCfg : NamingConfig).

(** The script of an entry, if it is there and compiles. *)
Definition compiledScript (cfg : ScriptConfig) (prog : Program) : Prop :=
  scr_ToolName cfg <> "" /\ scr_ScriptPath cfg <> "" /\
  exists src, ReadFile (scr_ScriptPath cfg) = Ok src /\ CompileScript (scr_ToolName cfg) src = Ok prog.

Lemma checkScript_Ok i cfg prog : checkScript i cfg = Ok prog <-> compiledScript cfg prog.
Proof.
  unfold checkScript, compiledScript. case_bool_decide; [by split; [|intros (? & ? & _)]|].
  case_bool_decide; [by split; [|intros (? & ? & _)]|].
  destruct (ReadFile _) as [src|err]; [|by split; [|intros (_ & _ & src & ? & _)]].
  destruct (CompileScript _ src) as [prog'|err] eqn:E.
  - split; [intros [= <-]; split_and!; [done..|by exists src]|].
    intros (_ & _ & src' & [= <-] & Hc). congruence.
  - split; [done|]. intros (_ & _ & src' & [= <-] & Hc). congruence.
Qed.

(** A script upstream that is built has one entry per configured script, in order
    and under distinct names; each runs the program compiled from its own file in
    the upstream's pool, requires authentication, has the upstream's rate limit and
    is not cached. Without a pool, or with a script that cannot be read or
    compiled, nothing is built. *)
Theorem BuildScriptUpstream_entries (ref : positive) (vu : ValidatedUpstream)
    (Hbuild : BuildScriptUpstream newScriptExecutor upstreamCfg namingCfg ref = Ok vu) :
  exists pool, uc_JSScriptPool upstreamCfg = Some pool /\
  NoDup (re_PrefixedName <$> vu_Entries vu) /\
  Forall2 (fun cfg e => exists prog d,
    compiledScript cfg prog /\ sd_Program d = prog /\ sd_Pool d = pool /\ sd_Env d = scr_Env cfg /\
    re_PrefixedName e = scriptName upstreamCfg namingCfg cfg /\
    re_Executor e = newScriptExecutor (re_PrefixedName e) d /\
    re_AuthRequired e = true /\ re_RateLimit e = uc_RateLimit upstreamCfg /\ re_CacheName e = "")
    (uc_Scripts upstreamCfg) (vu_Entries vu).
Proof.
  unfold BuildScriptUpstream in Hbuild. destruct (uc_JSScriptPool upstreamCfg) as [pool|]; [|done].
  exists pool. split; [done|]. apply bind_Ok in Hbuild as (tools & Ht & [= <-]).
  unfold BuildScripts in Ht.
  match type of Ht with collectTools ?c ?n ?d ?m ?i ?s ?l = _ =>
    pose proof (collectTools_spec c n d m i s l) as Hspec end.
  rewrite Ht in Hspec. destruct Hspec as (Hf & Hnd & _). cbn [vu_Entries].
  assert (Hf' : Forall2 (fun cfg t => exists prog tr client, compiledScript cfg prog /\
    t = scriptTool upstreamCfg namingCfg client pool cfg prog tr) (uc_Scripts upstreamCfg) tools).
  { eapply Forall2_impl; [exact Hf|]. intros cfg t (i & prog & Hc%checkScript_Ok & Hm).
    unfold makeScript in Hm. destruct compileIdentity as [tr|]; [|done].
    injection Hm as <-. by eexists prog, tr, _. }
  split.
  - replace (re_PrefixedName <$> (_ <$> tools))
      with (scriptName upstreamCfg namingCfg <$> uc_Scripts upstreamCfg); [done|].
    clear -Hf'. induction Hf' as [|cfg t cfgs tools (prog & tr & client & _ & ->) _ IH]; [done|].
    cbn. f_equal. exact IH.
  - apply Forall2_fmap_r. eapply Forall2_impl; [exact Hf'|].
    intros cfg t (prog & tr & client & Hc & ->).
    exists prog, (st_Def (scriptTool upstreamCfg namingCfg client pool cfg prog tr)). by split_and!.
Qed.
End ScriptBuildFacts.

(** ** A sample pool and a sample script *)
Module SampleScript.
(** A semaphore as its size and the slots held. *)
#[local] Instance semaphore : Semaphore := {|
  Sem := Z * Z;
  NewWeighted n := (n, 0);
  sem_Acquire s := if s.2 <? s.1 then Some (s.1, s.2 + 1) else None;
  sem_Release s := (s.1, s.2 - 1);
  sem_size := fst;
  sem_held := snd |}.
#[local] Instance semaphore_laws : SemaphoreLaws.
Proof.
  split; [done| |done]. intros s. cbn. destruct (Z.ltb_spec s.2 s.1); cbn; lia.
Qed.
Definition one : Pool := {| pool_sem := (1, 0); pool_cap := 1 |}.
Definition full : Pool := {| pool_sem := (1, 1); pool_cap := 1 |}.

(** An engine whose programs are their source; the world counts the slots in use. *)
#[local] Instance engine : ScriptEngine Z := {|
  Program := string;
  Runtime := string;
  CompileProgram _ src := if decide (src = wrapScript "syntax error") then Err "unexpected token" else Ok src;
  ReadFile path := if decide (path = "/tools/hello.js") then Ok "hello" else Err "no such file";
  ExpandEnvVar s := s;
  RunProgram prog _ w := (Ok prog, w);
  hasDefault rt := bool_decide (rt = wrapScript "hello");
  CallDefault _ _ _ w := (Ok (VString "hi"), w);
  AcquireSlot _ w := if w <? 1 then (Ok tt, w + 1) else (Err "context deadline exceeded", w);
  ReleaseSlot _ w := w - 1;
  newRequestError _ _ := None;
  DoRequest _ _ _ _ _ w := (Err "offline", w);
  allocHTTPClient _ := 4%positive |}.
Definition scripts : list ScriptConfig :=
  [ {| scr_ToolName := "hello"; scr_Description := "greets"; scr_ScriptPath := "/tools/hello.js";
       scr_InputSchema := zero_CommandInputSchema; scr_Timeout := 0; scr_Env := ∅ |} ].
Definition upstream : UpstreamConfig := {|
  uc_Name := "js";
  uc_Enabled := false;
  uc_ToolPrefix := "js";
  uc_Type := "";
  uc_BaseURL := "";
  uc_Cache := "";
  uc_Timeout := 0;
  uc_TLSSkipVerify := false;
  uc_Headers := ∅;
  uc_Transport := zero_TransportConfig;
  uc_OpenAPI := zero_OpenAPISourceConfig;
  uc_Overlay := None;
  uc_StartupValidationTimeout := 0;
  uc_Validation := zero_ValidationConfig;
  uc_InboundAuthOverride := None;
  uc_OutboundAuth := zero_OutboundAuthConfig;
  uc_Commands := [];
  uc_Scripts := scripts;
  uc_RateLimit := "";
  uc_CircuitBreaker := "";
  uc_AppUI := None;
  uc_JSScriptPool := Some 8%positive |}.
Definition def : ScriptDef :=
  {| sd_Program := wrapScript "hello"; sd_Timeout := 0; sd_Env := ∅; sd_HTTPClient := 4%positive;
     sd_Pool := 8%positive |}.
End SampleScript.

Section ScriptWitnesses.
#[local] Existing Instances SampleScript.semaphore SampleScript.semaphore_laws SampleScript.engine
  SampleCommands.build SampleCommands.json SampleEngine.engine SampleEngine.numbers.
Import SampleScript.

Lemma pool_bounded_witness :
  exists w, rtc pool_step (one, ∅) w /\ running w.2 = 1 /\ Acquire w.1 = None /\
    w.2 !! 1%nat = Some Waiting.
Proof.
  set (w := (full, <[0%nat := Running]> (<[1%nat := Waiting]> (<[0%nat := Waiting]> (∅ : gmap nat phase))))).
  assert (Hreach : rtc pool_step (one, ∅) w).
  { eapply rtc_l; [by apply (step_call _ _ 0%nat)|]. eapply rtc_l; [by apply (step_call _ _ 1%nat)|].
    eapply rtc_once. by apply (step_acquire one). }
  exists w. split; [exact Hreach|].
  destruct (pool_bounded 1 one w eq_refl Hreach) as (Hheld & _ & _ & _).
  split; [symmetry; exact Hheld|]. split; reflexivity.
Defined.

Lemma ExecuteScriptTool_slot_witness :
  ExecuteScriptTool map_to_list (fun _ => "failed") def [] 1 = (reply_ok (errorResult "failed"), 1) /\
  (ExecuteScriptTool map_to_list (fun _ => "failed") def [] 0).2 = 0.
Proof.
  pose proof (ExecuteScriptTool_slot map_to_list (fun _ => "failed") def [] 1) as H1.
  pose proof (ExecuteScriptTool_slot map_to_list (fun _ => "failed") def [] 0) as H2.
  split.
  - destruct (ExecuteScriptTool map_to_list (fun _ => "failed") def [] 1) as [r w'].
    destruct H1 as (res & -> & -> & ->). reflexivity.
  - destruct (ExecuteScriptTool map_to_list (fun _ => "failed") def [] 0) as [r w'].
    destruct H2 as (res & _ & -> & _). vm_compute. reflexivity.
Defined.

Lemma BuildScriptUpstream_entries_witness :
  exists vu, BuildScriptUpstream (fun _ _ => 9%positive) upstream SampleCommands.naming 1 = Ok vu /\
    Forall (fun e => re_AuthRequired e = true) (vu_Entries vu) /\ length (vu_Entries vu) = 1%nat.
Proof.
  destruct (BuildScriptUpstream (fun _ _ => 9%positive) upstream SampleCommands.naming 1)
    as [vu|err] eqn:E; [|vm_compute in E; discriminate].
  exists vu. split; [reflexivity|].
  destruct (BuildScriptUpstream_entries _ upstream SampleCommands.naming 1 vu E)
    as (pool & _ & _ & Hf).
  split; [|symmetry; exact (Forall2_length _ _ _ Hf)].
  apply Forall_forall. intros e He. apply list_elem_of_lookup in He as [i He].
  destruct (Forall2_lookup_r _ _ _ _ _ Hf He) as (cfg & _ & prog & d & _ & _ & _ & _ & _ & _ & Ha & _).
  exact Ha.
Defined.
End ScriptWitnesses.
