(* ===== verification/Ui.v ===== *)
(** * Tool pages (pkg/ui/ui.go, pkg/upstream/http/withui)

    The HTML a tool shows in MCP Apps: a file served as it is, or a JavaScript
    function that renders the page when it is read.  Engine, pool and network are
    those of [Script]; a run of a render script is a parameter of its own. *)
From S2P Require Export Script.
Open Scope Z_scope.

(** What a render script sees as [ctx]; logging is left out. *)
Record UiSandbox (W : Type) := {
  us_toolName : string;
  us_description : string;
  us_schema : value;
  us_env : gmap string string;
  us_fetch : FetchCall -> W -> result string value * W
}.
Arguments us_toolName {W}. Arguments us_description {W}. Arguments us_schema {W}.
Arguments us_env {W}. Arguments us_fetch {W}.

(** Setting [__mcp_ui_ctx__], running the program, and calling [__mcp_render__]
    when it is a function; a nil export is [VNull]. *)
Class UiEngine (W : Type) `{ScriptEngine W} := {
  SetUiCtx : UiSandbox W -> option string;
  RunRender : Program -> UiSandbox W -> W -> result string Runtime * W;
  hasRender : Runtime -> bool;
  CallRender : Runtime -> UiSandbox W -> W -> result string value * W
}.

Definition renderPrefix : string :=
  newline +:+ "var __mcp_render__;" +:+ newline +:+ "var exports = {};" +:+ newline +:+
  "var module = {exports: exports};" +:+ newline.
Definition renderSuffix : string :=
  newline +:+ "if (typeof __mcp_render__ === 'undefined' && typeof module.exports === 'function') {"
  +:+ newline +:+ "    __mcp_render__ = module.exports;" +:+ newline +:+ "}" +:+ newline.
Definition wrapRenderScript (src : string) : string :=
  renderPrefix +:+ ReplaceAll src "export default " "__mcp_render__ = " +:+ renderSuffix.

Section Ui.
Context {W : Type} `{UiEngine W, JsonText, Numbers}.
Context (order : gmap string string -> list (string * string)).

(** [staticHTML] is "" in script mode, whose fields are set then. *)
Record UiScript := {
  ur_program : Program;
  ur_env : gmap string string;
  ur_httpClient : handle;
  ur_pool : handle
}.
Record Loader := {
  ui_staticHTML : string;
  ui_script : option UiScript
}.

Inductive UiError :=
  | PoolNotSet
  | NoSource
  | ReadingStatic (path err : string)
  | EmptyStatic (path : string)
  | ReadingRender (path err : string)
  | CompilingRender (path err : string).

Definition compileRenderScript (name src : string) : result string Program :=
  match CompileProgram name (wrapRenderScript src) with
  | Err err => Err ("parse error: " +:+ err)
  | Ok prog => Ok prog
  end.

Definition NewStaticLoader (path : string) : result UiError Loader :=
  match ReadFile path with
  | Err err => Err (ReadingStatic path err)
  | Ok content =>
    if bool_decide (TrimSpace content = "") then Err (EmptyStatic path)
    else Ok {| ui_staticHTML := content; ui_script := None |}
  end.

Definition NewScriptLoader (path : string) (env : gmap string string) (httpClient : option handle)
    (pool : handle) : result UiError Loader :=
  match ReadFile path with
  | Err err => Err (ReadingRender path err)
  | Ok src =>
    match compileRenderScript path src with
    | Err err => Err (CompilingRender path err)
    | Ok prog =>
      let client := match httpClient with
                    | None => allocHTTPClient defaultFetchTimeout
                    | Some client => client
                    end in
      Ok {| ui_staticHTML := "";
            ui_script := Some {| ur_program := prog; ur_env := env; ur_httpClient := client;
                                 ur_pool := pool |} |}
    end
  end.

Definition New (cfg : ToolUIConfig) (env : gmap string string) (httpClient pool : option handle)
    : result UiError Loader :=
  if bool_decide (tui_Script cfg <> "") then
    match pool with
    | None => Err PoolNotSet
    | Some pool => NewScriptLoader (tui_Script cfg) env httpClient pool
    end
  else if bool_decide (tui_Static cfg <> "") then NewStaticLoader (tui_Static cfg)
  else Err NoSource.

(** ** Rendering *)

(** ui.go has the text of script.go's fetch. *)
Definition jsFetch (client : handle) (call : FetchCall) (w : W) : result string value * W :=
  Script.jsFetch order client call w.

Definition buildCtxObject (l : UiScript) (toolName description : string) (schema : value) : UiSandbox W :=
  {| us_toolName := toolName; us_description := description; us_schema := schema;
     us_env := ExpandEnvVar <$> ur_env l; us_fetch := jsFetch (ur_httpClient l) |}.

(** [None] for an error. *)
Definition toJSONValue (v : value) : value :=
  match v with
  | VNull => VNull
  | _ =>
    match Marshal FormatFloat true v with
    | None => v
    | Some b => match Unmarshal b with None => v | Some result => result end
    end
  end.

Definition renderInSlot (l : UiScript) (ctx : UiSandbox W) (w : W) : result string string * W :=
  match SetUiCtx ctx with
  | Some err => (Err ("setting context object: " +:+ err), w)
  | None =>
    match RunRender (ur_program l) ctx w with
    | (Err err, w) => (Err ("running render script: " +:+ err), w)
    | (Ok rt, w) =>
      if negb (hasRender rt) then (Err "render script does not export a callable default function", w)
      else
        match CallRender rt ctx w with
        | (Err err, w) => (Err ("render script execution failed: " +:+ err), w)
        | (Ok VNull, w) => (Err "render script returned nil; it must return an HTML string", w)
        | (Ok (VString s), w) => (Ok s, w)
        | (Ok _, w) => (Err "render script must return a string", w)
        end
    end
  end.

Definition renderScript (l : UiScript) (toolName description : string) (schema : value) (w : W)
    : result string string * W :=
  match AcquireSlot (ur_pool l) w with
  | (Err err, w) => (Err ("acquiring render script pool slot: " +:+ err), w)
  | (Ok _, w) =>
    let '(r, w) := renderInSlot l (buildCtxObject l toolName description schema) w in
    (r, ReleaseSlot (ur_pool l) w)
  end.

(** A loader without a page and without a script has a nil pool, and panics;
    [New] makes none. *)
Definition RenderHTML (l : Loader) (toolName description : string) (schema : value) (w : W)
    : result string string * W :=
  if bool_decide (ui_staticHTML l <> "") then (Ok (ui_staticHTML l), w)
  else
    match ui_script l with
    | Some s => renderScript s toolName description schema w
    | None => (Err "nil pointer dereference", w)
    end.

Record ResourceContents := { rc_URI : string; rc_MIMEType : string; rc_Text : string }.

Definition ResourceHandler (l : Loader) (toolName description : string) (schema : value)
    (resourceURI : string) : W -> result string (list ResourceContents) * W :=
  let schemaVal := toJSONValue schema in
  fun w =>
    match RenderHTML l toolName description schemaVal w with
    | (Err err, w) => (Err ("rendering UI for " +:+ toolName +:+ ": " +:+ err), w)
    | (Ok html, w) =>
      (Ok [{| rc_URI := resourceURI; rc_MIMEType := "text/html"; rc_Text := html |}], w)
    end.

(** The builder withui registers. *)
Definition withUI (cfg : ToolUIConfig) (fetchClient pool : option handle) (toolName description : string)
    (schema : value) (resourceURI : string)
    : result UiError (W -> result string (list ResourceContents) * W) :=
  match New cfg ∅ fetchClient pool with
  | Err err => Err err
  | Ok loader => Ok (ResourceHandler loader toolName description schema resourceURI)
  end.

(** ** Facts *)

(** A page is built from what is configured, the script before the file. *)
Lemma New_source cfg env client pool l : New cfg env client pool = Ok l ->
  (tui_Script cfg <> "" /\ ui_staticHTML l = "" /\ exists s, ui_script l = Some s /\
     ur_env s = env /\ pool = Some (ur_pool s)) \/
  (tui_Script cfg = "" /\ tui_Static cfg <> "" /\ ui_script l = None /\
     TrimSpace (ui_staticHTML l) <> "" /\ ReadFile (tui_Static cfg) = Ok (ui_staticHTML l)).
Proof.
  unfold New, NewScriptLoader, NewStaticLoader. case_bool_decide as Hs.
  - destruct pool as [pool|]; [|done]. destruct (ReadFile _) as [src|]; [|done].
    destruct (compileRenderScript _ _) as [prog|]; [|done]. intros [= <-]. left. cbn. eauto 6.
  - assert (tui_Script cfg = "") as -> by (destruct (decide (tui_Script cfg = "")); [done|by destruct Hs]).
    case_bool_decide; [|done]. destruct (ReadFile _) as [src|]; [|done].
    case_bool_decide; [done|]. intros [= <-]. by right.
Qed.

(** Reading a tool's page gives one HTML document under the tool's URI.  A static
    page is the file that was read at the start and needs neither pool nor engine;
    a script's is the string it returned, and its slot is given back however the
    script ends. *)
Theorem page_outcome cfg client pool toolName description schema uri handler w
    (Hok : withUI cfg client pool toolName description schema uri = Ok handler) :
  (tui_Script cfg = "" /\ exists html, ReadFile (tui_Static cfg) = Ok html /\ TrimSpace html <> "" /\
     handler w = (Ok [{| rc_URI := uri; rc_MIMEType := "text/html"; rc_Text := html |}], w)) \/
  (exists slots, pool = Some slots /\
     match AcquireSlot slots w with
     | (Err _, w1) => exists err, handler w = (Err err, w1)
     | (Ok _, w1) => exists w2, (handler w).2 = ReleaseSlot slots w2 /\
         forall contents, (handler w).1 = Ok contents -> exists ctx rt w3,
           CallRender rt ctx w3 = (Ok (VString (default "" (rc_Text <$> head contents))), w2) /\
           us_toolName ctx = toolName /\
           contents = [{| rc_URI := uri; rc_MIMEType := "text/html";
                          rc_Text := default "" (rc_Text <$> head contents) |}]
     end).
Proof.
  unfold withUI in Hok. destruct (New cfg ∅ client pool) as [l|] eqn:El; [|done]. injection Hok as <-.
  apply New_source in El as [(Hscript & Hstatic & s & Hs & _ & Hpool)|(Hscript & _ & Hs & Htrim & Hread)].
  2:{ left. split; [done|]. exists (ui_staticHTML l). split_and!; [done..|].
      unfold ResourceHandler, RenderHTML. rewrite bool_decide_true; [done|]. intros Hempty.
      by rewrite Hempty in Htrim. }
  right. exists (ur_pool s). split; [done|]. unfold ResourceHandler, RenderHTML.
  rewrite Hstatic, Hs. rewrite bool_decide_false by naive_solver. unfold renderScript.
  destruct (AcquireSlot (ur_pool s) w) as [[u|err] w1]; [|by eexists].
  set (ctx := buildCtxObject s toolName description (toJSONValue schema)).
  destruct (renderInSlot s ctx w1) as [r w2] eqn:Er. exists w2. cbn.
  split; [by destruct r|]. intros contents Hc. destruct r as [html|err]; [|done]. cbn in Hc.
  injection Hc as <-. cbn. unfold renderInSlot in Er.
  destruct (SetUiCtx ctx); [done|]. destruct (RunRender _ _ _) as [[rt|] w3]; [|done].
  destruct (negb (hasRender rt)); [done|].
  destruct (CallRender rt ctx w3) as [[v|] w4] eqn:Ecall; [|done].
  exists ctx, rt, w3. destruct v; try done. injection Er as -> ->. done.
Qed.
End Ui.

(** ** A sample page *)
Module SampleUi.
#[local] Existing Instance SampleScript.engine.
#[local] Instance ui : UiEngine Z := {|
  SetUiCtx _ := None;
  RunRender prog _ w := (Ok prog, w);
  hasRender _ := true;
  CallRender _ ctx w := (Ok (VString ("<h1>" +:+ us_toolName ctx +:+ "</h1>")), w) |}.
Definition cfg : ToolUIConfig := {| tui_Static := ""; tui_Script := "/tools/hello.js" |}.
End SampleUi.

Section UiWitnesses.
#[local] Existing Instances SampleScript.engine SampleUi.ui SampleCommands.json SampleEngine.numbers.

Lemma page_outcome_witness : exists handler,
  withUI map_to_list SampleUi.cfg None (Some 8%positive) "hello" "greets" VNull "ui://hello/app" = Ok handler /\
  (handler 0).1 = Ok [{| rc_URI := "ui://hello/app"; rc_MIMEType := "text/html"; rc_Text := "<h1>hello</h1>" |}] /\
  exists w2, (handler 0).2 = ReleaseSlot 8%positive w2.
Proof.
  destruct (withUI map_to_list SampleUi.cfg None (Some 8%positive) "hello" "greets" VNull "ui://hello/app")
    as [handler|e] eqn:Hui; [|discriminate Hui].
  exists handler. split; [reflexivity|].
  assert (Hpage : (handler 0).1
    = Ok [{| rc_URI := "ui://hello/app"; rc_MIMEType := "text/html"; rc_Text := "<h1>hello</h1>" |}]).
  { injection Hui as <-. reflexivity. }
  split; [exact Hpage|].
  destruct (page_outcome map_to_list SampleUi.cfg None (Some 8%positive) "hello" "greets" VNull "ui://hello/app"
    handler 0 Hui) as [[Hs _]|(slots & Hp & Hrun)]; [discriminate Hs|]. injection Hp as <-.
  destruct Hrun as (w2 & Hw & _). by exists w2.
Defined.
End UiWitnesses.
