(* ===== verification/Inbound.v ===== *)
(** * Inbound authentication (pkg/auth/inbound: middleware.go, inbound.go,
    wellknown.go, apikey/apikey.go, jwt/jwt.go, introspection/introspection.go)

    Which requests reach the MCP handlers: the token middleware, the dispatch
    between the global strategy, the strategies of single upstreams and the tools
    that need no token, the refusals, and the token validators.  JWT verification
    and the introspection call are parameters. *)
From S2P Require Export Validator HttpRequest OAuth.
Open Scope Z_scope.

(** An incoming request: [irq_Body] is what reading the body yields and whether
    the read failed, [irq_Info] the token information in its context. *)
Record InboundRequest := {
  irq_Header : gmap string string;
  irq_TLS : bool;
  irq_Host : string;
  irq_URLHost : string;
  irq_Body : option (string * bool);
  irq_Info : option TokenInfo
}.

Record HttpReply := {
  hrp_Status : Z;
  hrp_Header : gmap string string;
  hrp_Body : string
}.

Record DeniedError := { denied_Status : Z; denied_Message : string }.

(** An error of a validator, as [errors.As] sees it. *)
Inductive AuthFailure :=
  | Denied (denied : DeniedError)
  | Invalid (err : string).

Definition set_Body (r : InboundRequest) (body : option (string * bool)) : InboundRequest :=
  {| irq_Header := irq_Header r; irq_TLS := irq_TLS r; irq_Host := irq_Host r;
     irq_URLHost := irq_URLHost r; irq_Body := body; irq_Info := irq_Info r |}.
Definition set_Info (r : InboundRequest) (info : TokenInfo) : InboundRequest :=
  {| irq_Header := irq_Header r; irq_TLS := irq_TLS r; irq_Host := irq_Host r;
     irq_URLHost := irq_URLHost r; irq_Body := irq_Body r; irq_Info := Some info |}.

(** ** Refusals *)
Section Refusals.
Context `{Unicode, Numbers}.

(** The base URL the client used. *)
Definition requestScheme (r : InboundRequest) : string :=
  let proto := Header_Get (irq_Header r) "X-Forwarded-Proto" in
  if bool_decide (proto <> "") then proto
  else if irq_TLS r then "https" else "http".
Definition requestHost (r : InboundRequest) : string :=
  if bool_decide (irq_Host r = "") then irq_URLHost r else irq_Host r.

Definition resourceMetadataURL (r : InboundRequest) : string :=
  requestScheme r +:+ "://" +:+ requestHost r +:+ "/.well-known/oauth-protected-resource".

Definition errorBody (errCode : string) : string :=
  match Marshal FormatFloat true (VObject [("error", VString errCode)]) with
  | None => "{" +:+ jqLit "error" +:+ ":" +:+ jqLit "internal_error" +:+ "}"
  | Some resp => resp
  end.

Definition writeUnauthorized (r : InboundRequest) (errCode : string) : HttpReply :=
  let wwwAuth := "Bearer realm=" +:+ jqLit "mcp-auto" +:+ ", error=" +:+ Quote errCode +:+
                 ", resource_metadata=" +:+ Quote (resourceMetadataURL r) in
  {| hrp_Status := 401;
     hrp_Header := Header_Set (Header_Set ∅ "WWW-Authenticate" wwwAuth)
                     "Content-Type" "application/json";
     hrp_Body := errorBody errCode |}.

Definition writeDenied (r : InboundRequest) (denied : DeniedError) : HttpReply :=
  let errCode := if bool_decide (denied_Message denied = "") then "access_denied"
                 else denied_Message denied in
  if bool_decide (denied_Status denied = 0) || bool_decide (denied_Status denied = 401)
  then writeUnauthorized r errCode
  else {| hrp_Status := denied_Status denied;
          hrp_Header := Header_Set ∅ "Content-Type" "application/json";
          hrp_Body := errorBody errCode |}.

(** [WellKnownHandler] *)
Definition WellKnownHandler (cfg : ProxyConfig) (r : InboundRequest) : HttpReply :=
  let auth := pc_InboundAuth cfg in
  let issuer := if bool_decide (iac_Strategy auth = "jwt") then jwt_Issuer (iac_JWT auth)
                else if bool_decide (iac_Strategy auth = "introspection")
                then isp_Issuer (iac_Introspection auth) else "" in
  let resource := requestScheme r +:+ "://" +:+ requestHost r in
  let payload := VObject
    [("resource", VString resource);
     ("authorization_servers",
      VArray (if bool_decide (issuer <> "") then [VString issuer] else []));
     ("scopes_supported", VArray []);
     ("bearer_methods_supported", VArray [VString "header"])] in
  {| hrp_Status := 200; hrp_Header := Header_Set ∅ "Content-Type" "application/json";
     hrp_Body := match Marshal FormatFloat true payload with
                 | None => "" | Some text => text +:+ newline end |}.
End Refusals.

(** ** The middlewares *)
Section Middlewares.
Context {W : Type} `{Unicode, Numbers, JsonText}.

Abbreviation HTTPHandler := (InboundRequest -> W -> HttpReply * W).
Abbreviation TokenValidator := (string -> W -> result AuthFailure TokenInfo * W).

Definition requestToken (apiKeyHeader : string) (r : InboundRequest) : string :=
  if bool_decide (apiKeyHeader <> "") then Header_Get (irq_Header r) apiKeyHeader
  else match CutPrefix (Header_Get (irq_Header r) "Authorization") "Bearer " with
       | Some after => TrimSpace after
       | None => ""
       end.

Definition ValidatorMiddleware (ValidateToken : TokenValidator) (apiKeyHeader : string)
    (next : HTTPHandler) : HTTPHandler := fun r w =>
  let token := requestToken apiKeyHeader r in
  if bool_decide (token = "") then (writeUnauthorized r "missing_token", w)
  else
    match ValidateToken token w with
    | (Err (Denied denied), w) => (writeDenied r denied, w)
    | (Err (Invalid _), w) => (writeUnauthorized r "invalid_token", w)
    | (Ok info, w) => next (set_Info r info) w
    end.

(** The message [peekToolCallName] decodes: method and params.name. *)
Definition nameField (name : string) (kv : string * value) : option string :=
  if is_field "name" kv.1 then decodeString name kv.2 else Some name.

Fixpoint nameFields (name : string) (kvs : list (string * value)) : option string :=
  match kvs with
  | [] => Some name
  | kv :: kvs' => name' ← nameField name kv; nameFields name' kvs'
  end.

Definition messageField (msg : string * string) (kv : string * value) : option (string * string) :=
  let '(method, name) := msg in
  if is_field "method" kv.1 then
    m ← decodeString method kv.2; Some (m, name)
  else if is_field "params" kv.1 then
    match kv.2 with
    | VNull => Some msg
    | VObject params => n ← nameFields name params; Some (method, n)
    | _ => None
    end
  else Some msg.

Fixpoint messageFields (msg : string * string) (kvs : list (string * value)) : option (string * string) :=
  match kvs with
  | [] => Some msg
  | kv :: kvs' => msg' ← messageField msg kv; messageFields msg' kvs'
  end.

Definition decodeMessage (body : string) : option (string * string) :=
  match ParseJSON body with
  | Some VNull => Some ("", "")
  | Some (VObject kvs) => messageFields ("", "") kvs
  | _ => None
  end.

(** The tool name, whether the request is a tool call, and the bytes read. *)
Definition peekToolCallName (r : InboundRequest) : string * bool * option string :=
  match irq_Body r with
  | None => ("", false, None)
  | Some (body, failed) =>
    if failed || bool_decide (body = "") then ("", false, Some body)
    else
      match decodeMessage body with
      | None => ("", false, Some body)
      | Some (method, name) =>
        if bool_decide (method <> "tools/call") then ("", false, Some body)
        else (name, true, Some body)
      end
  end.

(** The body is put back as it was read, without the read's error. *)
Definition restoreBody (r : InboundRequest) (body : option string) : InboundRequest :=
  match body with
  | None => r
  | Some body => set_Body r (Some (body, false))
  end.

Definition DispatchMiddleware (globalMW : HTTPHandler -> HTTPHandler)
    (overrides : gmap string (HTTPHandler -> HTTPHandler)) (AuthRequired : string -> bool)
    (upstreamLookup : option (string -> string)) (next : HTTPHandler) : HTTPHandler := fun r w =>
  let globalH := globalMW next in
  let overrideHandlers := (fun mw => mw next) <$> overrides in
  let '(toolName, isToolCall, body) := peekToolCallName r in
  let r := restoreBody r body in
  if isToolCall && negb (AuthRequired toolName) then next r w
  else
    match upstreamLookup with
    | Some lookup =>
      if bool_decide (toolName <> "") && bool_decide (0 < size overrideHandlers)%nat then
        match overrideHandlers !! lookup toolName with
        | Some h => h r w
        | None => globalH r w
        end
      else globalH r w
    | None => globalH r w
    end.
End Middlewares.

(** ** Validators *)

(** [apikey.NewValidator]: the allowed keys, [None] when there are none. *)
Definition apiKeys (Getenv : string -> string) (cfg : APIKeyAuthConfig) : option (gset string) :=
  let raw := Getenv (aka_KeysEnv cfg) in
  let keys := set_of_names (filter (fun k => k <> "") (TrimSpace <$> split_byte "," raw)) in
  if bool_decide (size keys = 0%nat) then None else Some keys.

Definition zero_TokenInfo : TokenInfo :=
  {| ti_Subject := ""; ti_Scopes := []; ti_Audience := []; ti_Extra := [] |}.

Definition apikeyValidate {W} (keys : gset string) (token : string) (w : W)
    : result AuthFailure TokenInfo * W :=
  (if bool_decide (token ∈ keys) then Ok zero_TokenInfo else Err (Invalid "invalid API key"), w).

(** A verified JWT: its subject, its audiences, and its [scope] claim when the
    claims decode. *)
Record IDToken := { idt_Subject : string; idt_Audience : list string; idt_Scope : result string string }.

(** A verifier of the configured issuer and audience, with the keys of a fixed
    address or of the issuer's discovery document; the OIDC library is a parameter. *)
Definition newJWTValidator {KeySet Verifier} (NewRemoteKeySet : string -> KeySet)
    (NewVerifier : string -> KeySet -> string -> Verifier)
    (NewProvider : string -> result string (string -> Verifier)) (cfg : JWTAuthConfig) : result string Verifier :=
  if bool_decide (jwt_JWKSURL cfg <> "")
  then Ok (NewVerifier (jwt_Issuer cfg) (NewRemoteKeySet (jwt_JWKSURL cfg)) (jwt_Audience cfg))
  else
    match NewProvider (jwt_Issuer cfg) with
    | Err err => Err ("creating OIDC provider: " +:+ err)
    | Ok provider => Ok (provider (jwt_Audience cfg))
    end.

Definition jwtValidate {W} (Verify : string -> W -> result string IDToken * W) (raw : string) (w : W)
    : result AuthFailure TokenInfo * W :=
  match Verify raw w with
  | (Err err, w) => (Err (Invalid ("verifying JWT: " +:+ err)), w)
  | (Ok token, w) =>
    (match idt_Scope token with
     | Err err => Err (Invalid ("extracting JWT claims: " +:+ err))
     | Ok scope => Ok {| ti_Subject := idt_Subject token; ti_Scopes := Fields scope;
                         ti_Audience := idt_Audience token; ti_Extra := [] |}
     end, w)
  end.

Record IntrospectionResponse := { ir_Active : bool; ir_Subject : string; ir_Audience : list string }.

(** The server to ask, with the secret's variables expanded, and the audience. *)
Definition newIntrospectionValidator {Server} (ExpandEnv : string -> string)
    (NewResourceServer : string -> string -> string -> result string Server) (cfg : IntrospectionConfig)
    : result string (Server * string) :=
  match NewResourceServer (isp_Issuer cfg) (isp_ClientID cfg) (ExpandEnv (isp_ClientSecret cfg)) with
  | Err err => Err ("creating introspection resource server: " +:+ err)
  | Ok server => Ok (server, isp_Audience cfg)
  end.

Definition introspectionValidate {W} (Introspect : string -> W -> result string IntrospectionResponse * W)
    (aud : string) (raw : string) (w : W) : result AuthFailure TokenInfo * W :=
  match Introspect raw w with
  | (Err err, w) => (Err (Invalid ("introspecting token: " +:+ err)), w)
  | (Ok resp, w) =>
    (if negb (ir_Active resp) then Err (Invalid "token inactive")
     else if bool_decide (aud <> "") && negb (bool_decide (aud ∈ ir_Audience resp))
     then Err (Invalid "invalid audience")
     else Ok {| ti_Subject := ir_Subject resp; ti_Scopes := []; ti_Audience := ir_Audience resp;
                ti_Extra := [] |}, w)
  end.

(** ** Who gets through *)
Section Admission.
Context {W : Type} `{Unicode, Numbers, JsonText}.
Local Abbreviation validator := ((string -> W -> result AuthFailure TokenInfo * W) * string)%type.
Local Abbreviation HTTPHandler := (InboundRequest -> W -> HttpReply * W).
Context (global : validator) (overrides : gmap string validator).
Context (AuthRequired : string -> bool) (upstreamLookup : option (string -> string)).
Implicit Types (next : HTTPHandler) (r : InboundRequest) (w : W).

Definition middlewareOf (v : validator) : HTTPHandler -> HTTPHandler := ValidatorMiddleware v.1 v.2.
Local Abbreviation dispatch :=
  (DispatchMiddleware (middlewareOf global) (middlewareOf <$> overrides) AuthRequired upstreamLookup).

(** The validator in charge of a tool: its upstream's own, or the global one. *)
Definition inCharge (toolName : string) : validator :=
  match upstreamLookup with
  | Some lookup => if bool_decide (toolName = "") then global
                   else default global (overrides !! lookup toolName)
  | None => global
  end.

Lemma dispatch_inCharge next r w :
  let '(toolName, isToolCall, body) := peekToolCallName r in
  dispatch next r w =
    if isToolCall && negb (AuthRequired toolName) then next (restoreBody r body) w
    else middlewareOf (inCharge toolName) next (restoreBody r body) w.
Proof.
  unfold DispatchMiddleware. destruct (peekToolCallName r) as [[toolName isToolCall] body].
  destruct (isToolCall && negb (AuthRequired toolName)); [done|]. unfold inCharge.
  destruct upstreamLookup as [lookup|]; [|done].
  case_bool_decide as Hne; cbn [andb].
  - rewrite (bool_decide_false (toolName = "")) by done.
    case_bool_decide as Hsz; rewrite ?lookup_fmap.
    + by destruct (overrides !! lookup toolName).
    + assert (Hemp : overrides = ∅).
      { apply map_size_empty_inv. rewrite !map_size_fmap in Hsz. lia. }
      by rewrite Hemp, lookup_empty.
  - destruct (decide (toolName = "")) as [->|Hn]; [done|by destruct Hne].
Qed.

Lemma requestToken_restoreBody h r body :
  requestToken h (restoreBody r body) = requestToken h r.
Proof. by destruct body. Qed.

(** The request a handler gets has the body that was sent. *)
Lemma restoreBody_read r body :
  (peekToolCallName r).2 = body ->
  irq_Body (restoreBody r body) = (fun b => (b.1, false)) <$> irq_Body r /\
  irq_Info (restoreBody r body) = irq_Info r.
Proof.
  intros <-. unfold peekToolCallName. destruct (irq_Body r) as [[b failed]|] eqn:E.
  - repeat case_match; simplify_eq; by split.
  - cbn. by rewrite E.
Qed.

(** C2: No request gets to the MCP handlers unauthenticated, except a call of a tool
    that is declared public. Every other request that gets there carries a token
    that the validator in charge accepted, the override of the tool's upstream or
    else the global one, and runs with the identity that validator returned; the
    body it gets is the body that was sent. All other requests are refused without
    a look at the handler: with 401, or with the status a validator's denial gives. *)
Theorem dispatch_admits (next : HTTPHandler) (r : InboundRequest) (w : W) :
  let '(toolName, isToolCall, body) := peekToolCallName r in
  let r' := restoreBody r body in
  let v := inCharge toolName in
  irq_Body r' = (fun b => (b.1, false)) <$> irq_Body r /\
  ((isToolCall = true /\ AuthRequired toolName = false /\ irq_Info r' = irq_Info r /\
    dispatch next r w = next r' w) \/
   (exists info w', requestToken v.2 r <> "" /\ v.1 (requestToken v.2 r) w = (Ok info, w') /\
      dispatch next r w = next (set_Info r' info) w') \/
   (exists reply w', (forall next', dispatch next' r w = (reply, w')) /\
      (hrp_Status reply = 401 \/
       exists denied, v.1 (requestToken v.2 r) w = (Err (Denied denied), w') /\
         hrp_Status reply = denied_Status denied))).
Proof.
  pose proof (fun next => dispatch_inCharge next r w) as Hd.
  destruct (peekToolCallName r) as [[toolName isToolCall] body] eqn:Ep.
  destruct (restoreBody_read r body) as [Hbody Hinfo]; [by rewrite Ep|]. split; [done|].
  destruct (isToolCall && negb (AuthRequired toolName)) eqn:Epub.
  { apply andb_true_iff in Epub as [-> ?%negb_true_iff]. left. by rewrite Hd. }
  right. unfold middlewareOf, ValidatorMiddleware in Hd.
  rewrite <-(requestToken_restoreBody _ r body).
  case_bool_decide as Htok.
  { right. do 2 eexists. split; [exact Hd|]. by left. }
  destruct ((inCharge toolName).1 _ w) as [[info|[denied|err]] w'] eqn:Ev.
  - left. exists info, w'. by rewrite Hd.
  - right. do 2 eexists. split; [exact Hd|]. unfold writeDenied.
    destruct (bool_decide (denied_Status denied = 0) || _); [by left|]. right. by exists denied.
  - right. do 2 eexists. split; [exact Hd|]. by left.
Qed.

(** A JSON-RPC batch is no tool call for the dispatch: whatever tools it calls,
    only the global validator looks at it, and the override of a tool's upstream
    is not consulted. *)
Theorem batch_skips_override (next : HTTPHandler) (r : InboundRequest) (w : W)
    (body : string) (messages : list value)
    (Hbody : irq_Body r = Some (body, false)) (Hbatch : ParseJSON body = Some (VArray messages)) :
  dispatch next r w = middlewareOf global next r w.
Proof.
  pose proof (dispatch_inCharge next r w) as Hd.
  assert (Hp : peekToolCallName r = ("", false, Some body)).
  { unfold peekToolCallName, decodeMessage. rewrite Hbody, Hbatch. by destruct (false || _). }
  rewrite Hp in Hd. rewrite Hd. cbn [andb]. unfold inCharge.
  replace (restoreBody r (Some body)) with r; [by destruct upstreamLookup|].
  destruct r. cbn in *. by rewrite Hbody.
Qed.
End Admission.

(** ** The challenge header *)
Definition control_free (l : list ascii) : Prop := Forall (fun c => (32 <= of_byte c)%N) l.

Lemma hex_digits_control_free width n : control_free (hex_digits width n).
Proof.
  unfold hex_digits. apply Forall_fmap, Forall_forall. intros i _. cbn.
  set (m := (N.shiftr n (4 * N.of_nat i) mod 16)%N).
  assert (Hm : (m < 16)%N) by (by apply N.mod_lt).
  unfold hex_digit. destruct (m <? 10)%N; rewrite of_byte_of by lia; lia.
Qed.

Lemma quoteRune_control_free `{Unicode} s r bs :
  (r, bs) ∈ decode s -> control_free (quoteRune (r, bs)).
Proof.
  intros Hin%decode_piece.
  assert (Hesc : forall c k n, (32 <= of_byte c)%N -> control_free (backslash :: c :: hex_digits k n)).
  { intros c k n Hc. apply Forall_cons. split; [by vm_compute|].
    apply Forall_cons. split; [done|apply hex_digits_control_free]. }
  assert (Htwo : forall c, (32 <= of_byte c)%N -> control_free [backslash; c]) by (intros; by apply (Hesc _ 0%nat 0%N)).
  assert (Hmulti : Forall (fun b => (128 <= of_byte b)%N) bs -> control_free bs).
  { intros Hf. eapply Forall_impl; [exact Hf|]. intros c Hc. cbn in *. lia. }
  unfold quoteRune. destruct bs as [|b [|b' bs]].
  - repeat case_match; [constructor|by apply Hesc..].
  - destruct (N.leb_spec 128 (of_byte b)) as [Hb|Hb]; [by apply Hesc|].
    destruct Hin as [(? & [= <-] & _ & ->)|Hf%Forall_inv]; [|cbn in Hf; lia].
    destruct (bool_decide (b = dquote) || bool_decide (b = backslash)) eqn:Eq.
    { apply Htwo. apply orb_true_iff in Eq. rewrite !bool_decide_eq_true in Eq.
      destruct Eq as [->| ->]; by vm_compute. }
    destruct ((32 <=? of_byte b)%N && (of_byte b <=? 126)%N) eqn:Ep.
    { apply andb_true_iff in Ep as [Ep%N.leb_le _]. by repeat constructor. }
    repeat (destruct (_ =? _)%N; [by apply Htwo|]). by apply Hesc.
  - destruct Hin as [(? & ? & _)|Hf]; [done|]. repeat case_match; [by apply Hmulti|by apply Hesc..].
Qed.

Lemma Quote_control_free `{Unicode} s : control_free (explode (Quote s)).
Proof.
  unfold Quote. cbn. rewrite explode_app, explode_implode. apply Forall_cons. split; [done|].
  apply Forall_app. split; [|by repeat constructor].
  apply Forall_forall. intros c (p & Hp & Hin)%list_elem_of_bind.
  destruct p as [r bs]. apply quoteRune_control_free in Hin. unfold control_free in Hin.
  rewrite Forall_forall in Hin. by apply Hin.
Qed.

(** The challenge of a 401 is one line, whatever a validator's message and the
    request's headers hold: no value of theirs can end the header and begin
    another one. *)
Theorem challenge_single_line `{Unicode, Numbers} (r : InboundRequest) (errCode : string) :
  exists v, hrp_Header (writeUnauthorized r errCode) !! "Www-Authenticate" = Some v /\
    control_free (explode v) /\
    v = "Bearer realm=" +:+ jqLit "mcp-auto" +:+ ", error=" +:+ Quote errCode +:+
        ", resource_metadata=" +:+ Quote (resourceMetadataURL r).
Proof.
  eexists. split; [cbn; unfold Header_Set; by simplify_map_eq|]. split; [|done].
  unfold control_free. rewrite !explode_app, !Forall_app.
  split_and!; try apply Quote_control_free; by repeat constructor.
Qed.

(** ** API keys *)

(** The keys of the environment variable are the list that was joined with commas
    into it, so a request passes exactly with one of them, and never with the empty
    key; and all keys give the same identity, one without a subject. *)
Theorem apiKeys_roundtrip {W} (Getenv : string -> string) (cfg : APIKeyAuthConfig)
    (keys : list string) (token : string) (w : W)
    (Henv : Getenv (aka_KeysEnv cfg) = Join keys ",")
    (Hkeys : Forall (fun k => k <> "" /\ ","%char ∉ explode k /\ TrimSpace k = k) keys)
    (Hne : keys <> []) :
  exists allowed, apiKeys Getenv cfg = Some allowed /\
    apikeyValidate allowed token w =
      (if decide (token ∈ keys) then Ok zero_TokenInfo else Err (Invalid "invalid API key"), w) /\
    apikeyValidate allowed "" w = (Err (Invalid "invalid API key"), w).
Proof.
  unfold apiKeys. rewrite Henv. change "," with (String ","%char "").
  rewrite split_byte_Join; [|eapply Forall_impl; [exact Hkeys|]; by intros k (_ & ? & _)|done].
  assert (Hf : filter (fun k => k <> "") (TrimSpace <$> keys) = keys).
  { clear Hne Henv. induction Hkeys as [|k keys (Hk & _ & Ht) _ IH]; [done|].
    rewrite fmap_cons, filter_cons, Ht, IH. by rewrite decide_True. }
  rewrite Hf. set (allowed := set_of_names keys).
  assert (Hin : forall k, k ∈ allowed <-> k ∈ keys) by (intros; apply elem_of_set_of_names).
  assert (Hsz : size allowed <> 0%nat).
  { destruct keys as [|k keys]; [done|]. intros Hz%size_empty_inv.
    apply (not_elem_of_empty (C := gset string) k), Hz, Hin. by left. }
  rewrite bool_decide_false by done. exists allowed. split; [done|].
  unfold apikeyValidate. split.
  - f_equal. case_decide as Hd; case_bool_decide as Hb; naive_solver.
  - rewrite bool_decide_false; [done|]. intros He%Hin. rewrite Forall_forall in Hkeys.
    by apply Hkeys in He as [? _].
Qed.

(** Callers with different API keys are one user to the stores that keep data by
    user: any two of them are handed the same OAuth session token. *)
Theorem api_keys_share_session {W S} `{TokenStore S} TokenSource authURL (now : Z) (p : Provider)
    (allowed : gset string) (key1 key2 : string) (w : W) (s : S) (info1 info2 : TokenInfo)
    (Hkey1 : apikeyValidate allowed key1 w = (Ok info1, w))
    (Hkey2 : apikeyValidate allowed key2 w = (Ok info2, w)) :
  sessionToken TokenSource authURL now p (Some info1) s =
    sessionToken TokenSource authURL now p (Some info2) s /\
  sessionToken TokenSource authURL now p (Some info1) s =
    sessionToken TokenSource authURL now p None s.
Proof.
  unfold apikeyValidate in *. repeat case_bool_decide; simplify_eq. done.
Qed.

(** ** Sample requests *)
Module SampleInbound.
Definition call (name : string) : value :=
  VObject [("method", VString "tools/call"); ("params", VObject [("name", VString name)])].
#[local] Instance json : JsonText := {|
  ParseJSON s := if decide (s = "[]") then Some (VArray [call "admin"]) else Some (call s) |}.
(** The world lists the requests that reached the handlers. *)
Definition next (r : InboundRequest) (w : list InboundRequest) : HttpReply * list InboundRequest :=
  ({| hrp_Status := 200; hrp_Header := ∅; hrp_Body := "ok" |}, r :: w).
Definition accepts (key : string) (token : string) (w : list InboundRequest)
    : result AuthFailure TokenInfo * list InboundRequest :=
  (if decide (token = key) then Ok zero_TokenInfo
   else if decide (token = "blocked") then Err (Denied {| denied_Status := 403; denied_Message := "" |})
   else Err (Invalid "unknown"), w).
Definition global : (string -> list InboundRequest -> result AuthFailure TokenInfo * list InboundRequest) * string :=
  (accepts "user", "").
Definition overrides : gmap string
    ((string -> list InboundRequest -> result AuthFailure TokenInfo * list InboundRequest) * string) :=
  {["ops" := (accepts "root", "")]}.
Definition AuthRequired (tool : string) : bool := negb (bool_decide (tool = "status")).
Definition lookup (tool : string) : string := if decide (tool = "admin") then "ops" else "web".
Definition request (token body : string) : InboundRequest :=
  {| irq_Header := Header_Set ∅ "Authorization" ("Bearer " +:+ token); irq_TLS := true;
     irq_Host := "mcp.example"; irq_URLHost := ""; irq_Body := Some (body, false); irq_Info := None |}.
Definition keysCfg : APIKeyAuthConfig := {| aka_Header := "X-Api-Key"; aka_KeysEnv := "KEYS" |}.
Definition getenv (_ : string) : string := Join ["alpha"; "beta"] ",".
End SampleInbound.

Section InboundWitnesses.
#[local] Existing Instances SampleInbound.json SampleEngine.numbers SampleValidation.unicode.
Import SampleInbound.

Lemma batch_skips_override_witness :
  DispatchMiddleware (middlewareOf global) (middlewareOf <$> overrides) AuthRequired (Some lookup)
    next (request "user" "[]") [] =
  middlewareOf global next (request "user" "[]") [].
Proof.
  exact (batch_skips_override global overrides AuthRequired (Some lookup) next
    (request "user" "[]") [] "[]" [call "admin"] eq_refl eq_refl).
Defined.

(** Without the batch the same token is refused: the tool's upstream has its own
    validator. *)
Lemma dispatch_admits_witness :
  exists reply w', (forall next', DispatchMiddleware (middlewareOf global) (middlewareOf <$> overrides)
      AuthRequired (Some lookup) next' (request "user" "admin") [] = (reply, w')).
Proof.
  pose proof (dispatch_admits global overrides AuthRequired (Some lookup) next
    (request "user" "admin") []) as Hd.
  cbv zeta in Hd.
  assert (Hp : peekToolCallName (request "user" "admin") = ("admin", true, Some "admin"))
    by (vm_compute; reflexivity).
  rewrite Hp in Hd. destruct Hd as (_ & [(_ & Ha & _)|[(info & w' & _ & Hv & _)|(reply & w' & Hr & _)]]).
  - vm_compute in Ha. discriminate.
  - vm_compute in Hv. discriminate.
  - exists reply, w'. exact Hr.
Defined.

Lemma apiKeys_roundtrip_witness :
  exists allowed, apiKeys getenv keysCfg = Some allowed /\
    apikeyValidate allowed "beta" tt = (Ok zero_TokenInfo, tt).
Proof.
  destruct (apiKeys_roundtrip getenv keysCfg ["alpha"; "beta"] "beta" tt) as (allowed & H1 & H2 & _).
  - reflexivity.
  - repeat constructor; vm_compute; set_solver.
  - discriminate.
  - exists allowed. split; [exact H1|]. rewrite H2. vm_compute. reflexivity.
Defined.

Lemma api_keys_share_session_witness :
  sessionToken SampleSession.source SampleSession.authURL 0 SampleSession.provider
    (Some zero_TokenInfo) ({[storeKey "" "github" := SampleSession.token]} : MemoryStore) =
  sessionToken SampleSession.source SampleSession.authURL 0 SampleSession.provider
    None ({[storeKey "" "github" := SampleSession.token]} : MemoryStore).
Proof.
  exact (proj2 (api_keys_share_session SampleSession.source SampleSession.authURL 0
    SampleSession.provider (set_of_names ["alpha"; "beta"]) "alpha" "beta" tt
    ({[storeKey "" "github" := SampleSession.token]} : MemoryStore)
    zero_TokenInfo zero_TokenInfo eq_refl eq_refl)).
Defined.
End InboundWitnesses.
