(* ===== verification/ScriptCredentials.v ===== *)
(** * Credentials that scripts supply (pkg/runtime/js/js.go, pkg/runtime/lua/lua.go:
    the providers' caches)

    A JavaScript or Lua provider keeps the last answer of its script until the
    answer expires.  Both packages have the same cache with the same tests around
    it; only the call of the script differs, so it is a parameter here: [JsAuth]
    and [LuaAuth] supply it.  Each use of a provider holds its lock, so the
    operations are whole steps. *)
From S2P Require Export Inbound Script.
Open Scope Z_scope.

Record credentialCache := {
  cc_token : string;
  cc_expiry : Z;
  cc_rawHeaders : gmap string string
}.
Definition zero_credentialCache : credentialCache :=
  {| cc_token := ""; cc_expiry := 0; cc_rawHeaders := ∅ |}.

(** A script's answer: token, expiry, headers. *)
Abbreviation answer := (string * Z * gmap string string)%type.

Definition noCacheExpiry : Z := 1.

(** What a script's answer leaves in the cache. *)
Definition stored (now : Z) (a : answer) : credentialCache :=
  let '(token, expiry, rawHeaders) := a in
  {| cc_token := token;
     cc_expiry := if expiry =? 0 then now + noCacheExpiry else expiry;
     cc_rawHeaders := rawHeaders |}.

(** The answer is still good. *)
Definition unexpired (now : Z) (c : credentialCache) : bool :=
  negb (cc_expiry c =? 0) && (now <? cc_expiry c).

Section Credentials.
Context {W : Type}.
(** [time.Now().Unix()], and the call of the script with what is cached *)
Context (unixNow : W -> Z).
Context (callScript : credentialCache -> W -> result AuthError answer * W).
Implicit Types (c : credentialCache) (w : W) (st : credentialCache * W).

Definition ensure st : result AuthError unit * (credentialCache * W) :=
  let '(c, w) := st in
  let now := unixNow w in
  if unexpired now c then (Ok tt, (c, w))
  else
    match callScript c w with
    | (Err err, w) => (Err err, (c, w))
    | (Ok a, w) => (Ok tt, (stored now a, w))
    end.

Definition scriptToken st : result AuthError string * (credentialCache * W) :=
  match ensure st with
  | (Err err, st) => (Err err, st)
  | (Ok _, st) =>
    (Ok (if (0 <? size (cc_rawHeaders st.1))%nat then "" else cc_token st.1), st)
  end.

Definition scriptHeaders st : result AuthError (gmap string string) * (credentialCache * W) :=
  match ensure st with
  | (Err err, st) => (Err err, st)
  | (Ok _, st) => (Ok (if (size (cc_rawHeaders st.1) =? 0)%nat then ∅ else cc_rawHeaders st.1), st)
  end.

(** Either package's [Provider] as a [TokenProvider]. *)
Record ScriptProvider := {}.
#[export] Instance script_provider : TokenProvider ScriptProvider (credentialCache * W) := {|
  Token _ _ st := scriptToken st;
  RawHeaders _ _ st := scriptHeaders st |}.

(** ** Facts *)
Lemma headers_empty (h : gmap string string) : (size h =? 0)%nat = bool_decide (h = ∅).
Proof.
  case_bool_decide as Hh; [subst; by rewrite map_size_empty|].
  apply Nat.eqb_neq. by intros ?%map_size_empty_inv.
Qed.
Lemma headers_present (h : gmap string string) : (0 <? size h)%nat = negb (bool_decide (h = ∅)).
Proof. rewrite <-headers_empty. by destruct (size h). Qed.

Lemma headers_or_empty (h : gmap string string) : (if (size h =? 0)%nat then ∅ else h) = h.
Proof. rewrite headers_empty. by case_bool_decide. Qed.

(** One request through the middleware: the headers are asked for first, the token
    only when there are none. *)
Lemma script_context `{AuthTexts} p info st :
  authContext p info st =
    match ensure st with
    | (Err err, st1) => (withAuthResult zero_AuthContext (authErrResult err), st1)
    | (Ok _, st1) =>
      if bool_decide (cc_rawHeaders st1.1 = ∅) then
        match ensure st1 with
        | (Err err, st2) => (withAuthResult zero_AuthContext (authErrResult err), st2)
        | (Ok _, st2) =>
          (if negb (bool_decide (cc_rawHeaders st2.1 = ∅)) || bool_decide (cc_token st2.1 = "")
           then zero_AuthContext
           else withHeaders zero_AuthContext {["Authorization" := "Bearer " +:+ cc_token st2.1]}, st2)
        end
      else (withHeaders zero_AuthContext (cc_rawHeaders st1.1), st1)
    end.
Proof.
  unfold authContext, Outbound.Middleware. cbn [RawHeaders Token script_provider].
  unfold scriptHeaders, scriptToken. destruct (ensure st) as [[[]|err] [c1 w1]]; cbn [fst snd]; [|done].
  rewrite headers_or_empty. case_bool_decide as Hh; cbn [negb]; [|done].
  destruct (ensure (c1, w1)) as [[[]|err] [c2 w2]]; cbn [fst snd]; [|done].
  rewrite headers_present. destruct (bool_decide (cc_rawHeaders c2 = ∅)); cbn [negb orb]; [|done]. by case_bool_decide.
Qed.

(** A cached answer has something to send, when the script's answers do. *)
Definition useful (a : answer) : Prop := a.1.1 <> "" \/ a.2 <> ∅.
Definition filled c : Prop := cc_expiry c = 0 \/ cc_token c <> "" \/ cc_rawHeaders c <> ∅.

Lemma ensure_Ok st st' : ensure st = (Ok tt, st') ->
  (st' = st /\ unexpired (unixNow st.2) st.1 = true) \/
  exists a w', callScript st.1 st.2 = (Ok a, w') /\ st' = (stored (unixNow st.2) a, w').
Proof.
  destruct st as [c w]. cbn. destruct (unexpired _ c) eqn:Ef; [intros [= <-]; by left|].
  destruct (callScript c w) as [[a|err] w'] eqn:Ec; [|done]. intros [= <-]. right. eauto.
Qed.

Lemma ensure_filled st st' : (forall c w a w', callScript c w = (Ok a, w') -> useful a) ->
  filled st.1 -> ensure st = (Ok tt, st') ->
  filled st'.1 /\ (cc_token st'.1 <> "" \/ cc_rawHeaders st'.1 <> ∅).
Proof.
  intros Hcall Hf [[-> Hfresh]|(a & w' & Hc & ->)]%ensure_Ok.
  - split; [done|]. destruct Hf as [Hz|?]; [|done]. unfold unexpired in Hfresh. by rewrite Hz in Hfresh.
  - apply Hcall in Hc. destruct a as [[tok e] h]. unfold useful in Hc. cbn in *. split; [by right|done].
Qed.

Lemma ensure_error_keeps st err st' : ensure st = (Err err, st') -> st'.1 = st.1.
Proof.
  destruct st as [c w]. cbn. destruct (unexpired _ c); [done|].
  by destruct (callScript c w) as [[a|e] w']; intros [= _ <-].
Qed.
(** Why a request may go out without credentials: the first run gave a token, the
    answer had expired when the token was asked for, and the second run gave
    headers. *)
Definition switched st : Prop :=
  exists st1 a w2, ensure st = (Ok tt, st1) /\ cc_rawHeaders st1.1 = ∅ /\
    unexpired (unixNow st1.2) st1.1 = false /\ callScript st1.1 st1.2 = (Ok a, w2) /\ a.2 <> ∅.

Lemma ensure_stale st a w' : unexpired (unixNow st.2) st.1 = false -> callScript st.1 st.2 = (Ok a, w') ->
  ensure st = (Ok tt, (stored (unixNow st.2) a, w')).
Proof. destruct st as [c w]. cbn. by intros -> ->. Qed.

Lemma request_credentials `{AuthTexts} p info st :
  (forall c w a w', callScript c w = (Ok a, w') -> useful a) -> filled st.1 ->
  let '(ctx, st') := authContext p info st in
  filled st'.1 /\
  ((exists err, ctx = withAuthResult zero_AuthContext (authErrResult err)) \/
   (ac_Result ctx = None /\ ac_Headers ctx <> ∅) \/
   (ctx = zero_AuthContext /\ switched st)).
Proof.
  intros Hcall Hf. rewrite script_context. destruct (ensure st) as [[[]|err] st1] eqn:E1.
  2:{ split; [|left; eauto]. apply ensure_error_keeps in E1. by rewrite E1. }
  destruct (ensure_filled _ _ Hcall Hf E1) as [Hf1 Hne1].
  case_bool_decide as Hh1; [|by split; [done|right; left]].
  destruct (ensure st1) as [[[]|err] st2] eqn:E2.
  2:{ split; [|left; eauto]. apply ensure_error_keeps in E2. by rewrite E2. }
  destruct (ensure_filled _ _ Hcall Hf1 E2) as [Hf2 Hne2]. split; [done|].
  case_bool_decide as Hh2; cbn [negb orb].
  - rewrite bool_decide_false by naive_solver. right; left. split; [done|].
    cbn. apply insert_non_empty.
  - right; right. split; [done|].
    destruct (ensure_Ok _ _ E2) as [[-> _]|(a & w2 & Hc & ->)]; [done|].
    exists st1, a, w2. split_and!; [done..| |done|].
    + destruct (unexpired (unixNow st1.2) st1.1) eqn:Ef; [|done]. exfalso.
      destruct st1 as [c1 w1]. cbn in E2, Ef. rewrite Ef in E2. by injection E2 as -> ->.
    + by destruct a as [[tok e] h].
Qed.

(** A script that gives a token without an expiry is meant to run once for a
    request.  It runs again unless it comes back within the second it started in. *)
Lemma request_runs `{AuthTexts} p info st tok w1 :
  unexpired (unixNow st.2) st.1 = false -> callScript st.1 st.2 = (Ok (tok, 0, ∅), w1) -> tok <> "" ->
  let now := unixNow st.2 in
  let st1 := (stored now (tok, 0, ∅), w1) in
  0 <= now ->
  authContext p info st =
    if unixNow w1 <=? now
    then (withHeaders zero_AuthContext {["Authorization" := "Bearer " +:+ tok]}, st1)
    else
      match callScript st1.1 w1 with
      | (Err err, w2) => (withAuthResult zero_AuthContext (authErrResult err), (st1.1, w2))
      | (Ok a, w2) =>
        (if negb (bool_decide (a.2 = ∅)) || bool_decide (a.1.1 = "") then zero_AuthContext
         else withHeaders zero_AuthContext {["Authorization" := "Bearer " +:+ a.1.1]},
         (stored (unixNow w1) a, w2))
      end.
Proof.
  intros Hstale Hcall Htok now st1 Hnow. rewrite script_context, (ensure_stale _ _ _ Hstale Hcall).
  cbn [fst snd]. rewrite bool_decide_true by done. unfold ensure.
  assert (Hf : unexpired (unixNow w1) (stored (unixNow st.2) (tok, 0, ∅)) = (unixNow w1 <=? now)).
  { unfold unexpired, noCacheExpiry. cbn [stored cc_expiry]. unfold noCacheExpiry.
    replace (0 =? 0) with true by done. fold now.
    rewrite (proj2 (Z.eqb_neq (now + 1) 0)) by lia. cbn [negb andb].
    destruct (Z.leb_spec (unixNow w1) now); [apply Z.ltb_lt|apply Z.ltb_ge]; lia. }
  rewrite Hf. destruct (unixNow w1 <=? now); cbn [fst snd stored cc_rawHeaders cc_token].
  - by rewrite bool_decide_true, bool_decide_false by done.
  - subst st1. cbn [fst snd]. destruct (callScript _ w1) as [[[[tok2 e2] h2]|err] w2]; [|done].
    done.
Qed.

End Credentials.
