(* ===== verification/JsAuth.v ===== *)
(** * JavaScript authentication (pkg/runtime/js/js.go)

    Inbound tokens validated and outbound credentials supplied by JavaScript: the
    sandbox of these scripts with its shared cache, the runs of a script in a
    pooled runtime, how its answer is read, and the registered factories.  The
    engine is a parameter ([ScriptEngine] for files, programs, pools and the
    network; [AuthEngine] for runs and the clock), and a JavaScript value that
    crosses the border is a [value]. *)
From S2P Require Export ScriptCredentials Synthetic.
Open Scope Z_scope.

Definition defaultTimeout : Z := 500 * 10 ^ 6.

(** ** [ctx.cache] *)
Record scriptCacheItem := {
  sci_value : value;
  sci_expiresAt : option Z
}.
Abbreviation scriptCache := (gmap string scriptCacheItem).
Definition newScriptCache : scriptCache := ∅.

(** [now] is [time.Now()], in nanoseconds; a nil value is [VNull]. *)
Definition cacheGet (now : Z) (c : scriptCache) (key : string) : value * scriptCache :=
  match c !! key with
  | None => (VNull, c)
  | Some item =>
    match sci_expiresAt item with
    | Some t => if t <? now then (VNull, delete key c) else (sci_value item, c)
    | None => (sci_value item, c)
    end
  end.

Definition second : float64 := S754_finite false 8388608000000000 (-23).
Definition cacheSet (now : Z) (c : scriptCache) (key : string) (v : value) (ttlSeconds : float64)
    : scriptCache :=
  let exp := if SFltb (S754_zero false) ttlSeconds
             then Some (now + int_of_float (SFmul 53 1024 ttlSeconds second)) else None in
  <[key := {| sci_value := v; sci_expiresAt := exp |}]> c.

(** ** The sandbox *)

(** What an authentication script sees as [ctx]; [St] is what its calls may
    change.  Arguments are converted, an absent one is [None], and an exception
    is an error.  [ctx.log] only logs. *)
Record AuthSandbox (St : Type) := {
  as_env : gmap string string;
  as_jwtDecode : option string -> result string value;
  as_cacheGet : option string -> St -> value * St;
  as_cacheSet : option (string * value * option float64) -> St -> St;
  as_fetch : FetchCall -> St -> result string value * St
}.
Arguments as_env {St}. Arguments as_jwtDecode {St}. Arguments as_cacheGet {St}.
Arguments as_cacheSet {St}. Arguments as_fetch {St}.

(** Runs of a program within a timeout, after which it is interrupted, in a
    runtime that has [ctx] as the global [__mcp_ctx__]. *)
Class AuthEngine (W : Type) `{ScriptEngine W} := {
  clock : W -> Z;
  SetCtx : AuthSandbox (scriptCache * W) -> option string;
  RunAuth : Program -> AuthSandbox (scriptCache * W) -> Z -> scriptCache * W ->
            result string Runtime * (scriptCache * W);
  CallAuth : Runtime -> string -> AuthSandbox (scriptCache * W) -> Z -> scriptCache * W ->
             result string value * (scriptCache * W)
}.

Section Js.
Context {W : Type} `{AuthEngine W, JsonText}.
Context (order : gmap string string -> list (string * string)).
Local Abbreviation St := (scriptCache * W)%type.
Implicit Types (st : St).

(** js.go has the text of the functions of script.go. *)
Definition wrapScript : string -> string := Script.wrapScript.
Definition compileScript (name src : string) : result string Program := CompileScript name src.
Definition jsFetch (client : handle) (call : FetchCall) st : result string value * St :=
  let '(r, w) := Script.jsFetch order client call st.2 in (r, (st.1, w)).

Definition jwtDecode (arg : option string) : result string value :=
  match arg with
  | None => Err "ctx.jwt.decode requires a token argument"
  | Some tok =>
    match split_byte "." tok with
    | _ :: part :: _ =>
      match DecodeString part with
      | None => Err "ctx.jwt.decode: decoding payload"
      | Some payload =>
        match Unmarshal payload with
        | None => Err "ctx.jwt.decode: parsing claims"
        | Some claims => Ok claims
        end
      end
    | _ => Err "ctx.jwt.decode: invalid JWT format"
    end
  end.

Definition buildCtxObject (env : gmap string string) (client : handle) : AuthSandbox St :=
  {| as_env := ExpandEnvVar <$> env;
     as_jwtDecode := jwtDecode;
     as_cacheGet arg st :=
       match arg with
       | None => (VNull, st)
       | Some key => let '(v, c) := cacheGet (clock st.2) st.1 key in (v, (c, st.2))
       end;
     as_cacheSet arg st :=
       match arg with
       | None => st
       | Some (key, v, ttl) =>
         (cacheSet (clock st.2) st.1 key v (default (S754_zero false) ttl), st.2)
       end;
     as_fetch := jsFetch client |}.

(** ** Running a script *)

(** What [Validator] and [Provider] share: the compiled program and its setting;
    the cache and the credentials are the state. *)
Record AuthScript := {
  js_program : Program;
  js_timeout : Z;
  js_env : gmap string string;
  js_httpClient : handle;
  js_pool : handle
}.

Definition newAuthScript (kind path : string) (timeout : Z) (env : gmap string string) (pool : handle)
    : result string AuthScript :=
  match ReadFile path with
  | Err err => Err ("reading " +:+ kind +:+ " script " +:+ path +:+ ": " +:+ err)
  | Ok src =>
    match compileScript path src with
    | Err err => Err ("compiling " +:+ kind +:+ " script " +:+ path +:+ ": " +:+ err)
    | Ok prog =>
      Ok {| js_program := prog; js_timeout := if timeout <=? 0 then defaultTimeout else timeout;
            js_env := env; js_httpClient := allocHTTPClient defaultFetchTimeout; js_pool := pool |}
    end
  end.

(** A run in an acquired slot: the value the default export returns for [arg]. *)
Inductive RunFailure :=
  | SettingContext (err : string)
  | RunningProgram (err : string)
  | NotCallable
  | CallFailed (err : string).

Definition runAuthScript (p : AuthScript) (arg : string) st : result RunFailure value * St :=
  let ctx := buildCtxObject (js_env p) (js_httpClient p) in
  match SetCtx ctx with
  | Some err => (Err (SettingContext err), st)
  | None =>
    match RunAuth (js_program p) ctx (js_timeout p) st with
    | (Err err, st) => (Err (RunningProgram err), st)
    | (Ok rt, st) =>
      if negb (hasDefault rt) then (Err NotCallable, st)
      else
        match CallAuth rt arg ctx (js_timeout p) st with
        | (Err err, st) => (Err (CallFailed err), st)
        | (Ok result, st) => (Ok result, st)
        end
    end
  end.

(** With the slot, which a deferred call gives back: [noSlot] and [onRun] make the
    caller's result. *)
Definition inSlot {E A} (pool : handle) (noSlot : string -> E) (run : St -> result E A * St) st
    : result E A * St :=
  match AcquireSlot pool st.2 with
  | (Err err, w) => (Err (noSlot err), (st.1, w))
  | (Ok _, w) =>
    let '(r, st) := run (st.1, w) in (r, (st.1, ReleaseSlot pool st.2))
  end.

(** ** Inbound *)
Definition asString (v : option value) : option string :=
  match v with Some (VString s) => Some s | _ => None end.
Definition asMap (v : option value) : option (list (string * value)) :=
  match v with Some (VObject kvs) => Some kvs | _ => None end.
Definition asInt (v : option value) : option Z :=
  match v with Some (VInt n) => Some n | Some (VFloat f) => Some (int_of_float f) | _ => None end.

(** The entries of a map whose values are strings. *)
Definition stringEntries (kvs : list (string * value)) : list (string * string) :=
  omap (fun kv => pair kv.1 <$> asString (Some kv.2)) kvs.

Definition allowedOf (resMap : list (string * value)) : bool :=
  match assoc "allowed" resMap with Some (VBool b) => b | _ => false end.

Definition parseInboundResult (exported : value) : result AuthFailure TokenInfo :=
  match exported with
  | VObject resMap =>
    if negb (allowedOf resMap) then
      Err (Denied {| denied_Status := default 401 (asInt (assoc "status" resMap));
                     denied_Message := default "" (asString (assoc "error" resMap)) |})
    else
      let subject := default "" (asString (assoc "subject" resMap)) in
      Ok {| ti_Subject := if bool_decide (subject <> "") then subject else "js-authenticated";
            ti_Scopes := []; ti_Audience := [];
            ti_Extra := (fun kv => ("header:" +:+ kv.1, VString kv.2)) <$>
                        stringEntries (default [] (asMap (assoc "extra_headers" resMap))) |}
  | _ => Err (Invalid "js check_auth: return value must be an object")
  end.

Definition NewValidator (cfg : JSAuthConfig) (pool : handle) : result string AuthScript :=
  newAuthScript "js auth" (jac_ScriptPath cfg) (jac_Timeout cfg) (jac_Env cfg) pool.

Definition checkAuthError (err : RunFailure) : string :=
  match err with
  | SettingContext err => "setting js auth ctx: " +:+ err
  | RunningProgram err => "running js auth script: " +:+ err
  | NotCallable => "js auth script does not export a callable default function"
  | CallFailed err => "js check_auth: " +:+ err
  end.

Definition ValidateToken (v : AuthScript) (token : string) : St -> result AuthFailure TokenInfo * St :=
  inSlot (js_pool v) (fun err => Invalid ("js auth: " +:+ err)) (fun st =>
    match runAuthScript v token st with
    | (Err err, st) => (Err (Invalid (checkAuthError err)), st)
    | (Ok result, st) => (parseInboundResult result, st)
    end).

(** ** Outbound *)
Definition parseOutboundResult (exported : value) : result AuthError answer :=
  match exported with
  | VObject resMap =>
    let errMsg := default "" (asString (assoc "error" resMap)) in
    if bool_decide (errMsg <> "") then Err (ScriptAuth ("js get_upstream_token error: " +:+ errMsg))
    else
      let token := default "" (asString (assoc "token" resMap)) in
      let expiry := default 0 (asInt (assoc "expiry" resMap)) in
      let rawHeaders : gmap string string :=
        list_to_map (stringEntries (default [] (asMap (assoc "raw_headers" resMap)))) in
      if bool_decide (token = "") && (size rawHeaders =? 0)%nat
      then Err (ScriptAuth "js get_upstream_token: script must return token or raw_headers")
      else Ok (token, expiry, rawHeaders)
  | _ => Err (ScriptAuth "js get_upstream_token: return value must be an object")
  end.

Definition NewProvider (cfg : JSOutboundConfig) (pool : handle) : result string AuthScript :=
  newAuthScript "js outbound" (joc_ScriptPath cfg) (joc_Timeout cfg) (joc_Env cfg) pool.

Definition upstreamTokenError (err : RunFailure) : string :=
  match err with
  | SettingContext err => "setting js outbound ctx: " +:+ err
  | RunningProgram err => "running js outbound auth script: " +:+ err
  | NotCallable => "js outbound auth script does not export a callable default function"
  | CallFailed err => "js get_upstream_token: " +:+ err
  end.

Definition callScript (p : AuthScript) (upstreamName : string) : St -> result AuthError answer * St :=
  inSlot (js_pool p) (fun err => ScriptAuth ("js outbound auth: " +:+ err)) (fun st =>
    match runAuthScript p upstreamName st with
    | (Err err, st) => (Err (ScriptAuth (upstreamTokenError err)), st)
    | (Ok result, st) => (parseOutboundResult result, st)
    end).

Definition unixNow st : Z := clock st.2 / 10 ^ 9.

(** The provider's operations, on its credentials and the rest. *)
Section Provider.
Context (p : AuthScript) (upstreamName : string).
Definition ensureCredentials := ensure unixNow (fun _ => callScript p upstreamName).
Definition jsToken := scriptToken unixNow (fun _ => callScript p upstreamName).
Definition jsRawHeaders := scriptHeaders unixNow (fun _ => callScript p upstreamName).
End Provider.

(** ** Registration *)
Section Registration.
Context `{Semaphore}.
Definition DefaultMaxAuthVMs : Z := 10.
Definition DefaultMaxScriptVMs : Z := 20.

Definition jsPool (name : string) (dflt configured : Z) : result string Pool :=
  let max := if configured =? 0 then dflt else configured in
  if max <? 0 then Err ("runtime.js." +:+ name +:+ " must be > 0, got " +:+ pretty max)
  else NewPool max.
Definition jsAuthRuntime (cfg : RuntimeConfig) : result string Pool :=
  jsPool "max_auth_vms" DefaultMaxAuthVMs (jrc_MaxAuthVMs (rtc_JS cfg)).
Definition jsScriptRuntime (cfg : RuntimeConfig) : result string Pool :=
  jsPool "max_script_vms" DefaultMaxScriptVMs (jrc_MaxScriptVMs (rtc_JS cfg)).
End Registration.

(** The middleware the inbound strategy registers. *)
Definition jsInbound `{Unicode, Numbers} (ic : InboundAuthConfig)
    : result string ((InboundRequest -> St -> HttpReply * St) -> InboundRequest -> St -> HttpReply * St) :=
  match iac_JSAuthPool ic with
  | None => Err "js inbound auth requires runtime pools; set InboundAuthConfig.JSAuthPool"
  | Some pool =>
    match NewValidator (iac_JS ic) pool with
    | Err err => Err err
    | Ok v => Ok (ValidatorMiddleware (ValidateToken v) "")
    end
  end.

(** The provider the outbound strategy registers, with its upstream's name. *)
Definition jsOutbound (oc : OutboundAuthConfig) : result string (AuthScript * string) :=
  match ouc_JSAuthPool oc with
  | None => Err "js outbound auth requires runtime pools; set OutboundAuthConfig.JSAuthPool"
  | Some pool =>
    match NewProvider (ouc_JS oc) pool with
    | Err err => Err err
    | Ok p => Ok (p, ouc_Upstream oc)
    end
  end.
End Js.

(** ** What the scripts guarantee *)
Section JsFacts.
Context {W : Type} `{AuthEngine W, JsonText}.
Context (order : gmap string string -> list (string * string)).
Local Abbreviation St := (scriptCache * W)%type.
Implicit Types (st : St).

Lemma parseOutboundResult_useful exported a : parseOutboundResult exported = Ok a -> useful a.
Proof.
  destruct exported as [| | | | | |kvs]; try done. cbn. case_bool_decide; [done|].
  destruct (bool_decide (_ = "") && _) eqn:Eb; [done|]. intros [= <-].
  apply andb_false_iff in Eb as [Eb|Eb].
  - left. by apply bool_decide_eq_false in Eb.
  - right. intros Hh. cbn in Hh. by rewrite Hh, map_size_empty in Eb.
Qed.

Lemma inSlot_Ok {E A} pool (noSlot : string -> E) (run : St -> result E A * St) st a st' :
  inSlot pool noSlot run st = (Ok a, st') ->
  exists w1 st2, AcquireSlot pool st.2 = (Ok tt, w1) /\ run (st.1, w1) = (Ok a, st2) /\
    st' = (st2.1, ReleaseSlot pool st2.2).
Proof.
  unfold inSlot. destruct (AcquireSlot pool st.2) as [[[]|err] w1]; [|done].
  destruct (run (st.1, w1)) as [r st2] eqn:Er. intros [= -> <-]. eauto.
Qed.

Lemma callScript_useful p upstreamName st a st' :
  callScript order p upstreamName st = (Ok a, st') -> useful a.
Proof.
  intros (w1 & st2 & _ & Hrun & _)%inSlot_Ok.
  destruct (runAuthScript order p upstreamName (st.1, w1)) as [[v|err] st3]; [|done].
  injection Hrun as Hrun _. by apply parseOutboundResult_useful in Hrun.
Qed.


(** A script that names no expiry is run again within the same request unless it
    comes back in the second of the clock it was started in: always, for instance,
    when it takes a second. *)
Theorem js_slow_script_runs_twice `{AuthTexts} (p : AuthScript) (upstreamName : string)
    (prov : ScriptProvider) (info : option TokenInfo) (st : credentialCache * St) tok st1
    (Hstale : unexpired (unixNow st.2) st.1 = false)
    (Hrun : callScript order p upstreamName st.2 = (Ok (tok, 0, ∅), st1)) (Htok : tok <> "")
    (Hpast : 0 <= unixNow st.2) (Hslow : clock st.2.2 + 10 ^ 9 <= clock st1.2) :
  let call := fun _ : credentialCache => callScript order p upstreamName in
  (authContext (H0 := script_provider unixNow call) prov info st).2.2 =
    (callScript order p upstreamName st1).2.
Proof.
  intros call.
  pose proof (request_runs unixNow call prov info st tok st1 Hstale Hrun Htok Hpast) as Hr.
  rewrite Hr. rewrite (proj2 (Z.leb_gt _ _)).
  2:{ unfold unixNow. pose proof (Z.div_le_mono _ _ (10 ^ 9) ltac:(lia) Hslow) as Hd.
      replace (clock st.2.2 + 10 ^ 9) with (clock st.2.2 + 1 * 10 ^ 9) in Hd by lia.
      rewrite Z.div_add in Hd by lia. lia. }
  subst call. cbn beta. destruct (callScript order p upstreamName st1) as [[a|err] w2]; [|done].
  destruct a as [[t e] h]. done.
Qed.

(** A token is accepted only when its script returned an object whose [allowed] is
    the boolean true; the caller then has a subject, and the slot is given back. *)
Theorem ValidateToken_admits (v : AuthScript) (token : string) st (info : TokenInfo) st'
    (Hok : ValidateToken order v token st = (Ok info, st')) :
  exists w1 kvs st2, AcquireSlot (js_pool v) st.2 = (Ok tt, w1) /\
    runAuthScript order v token (st.1, w1) = (Ok (VObject kvs), st2) /\
    assoc "allowed" kvs = Some (VBool true) /\ ti_Subject info <> "" /\
    st' = (st2.1, ReleaseSlot (js_pool v) st2.2).
Proof.
  apply inSlot_Ok in Hok as (w1 & st2 & Hacq & Hrun & ->).
  destruct (runAuthScript order v token (st.1, w1)) as [[r|err] st3] eqn:Er; [|done].
  injection Hrun as Hp <-. destruct r as [| | | | | |kvs]; try done. exists w1, kvs, st3.
  split_and!; [done..| | |done]; cbn in Hp; unfold allowedOf in Hp.
  - destruct (assoc "allowed" kvs) as [[|[]| | | | |]|]; done.
  - destruct (negb _); [done|]. injection Hp as <-. cbn. by case_bool_decide.
Qed.

(** [ctx.cache]: what is set is read until it expires, and nothing else changes. *)
Lemma cacheGet_cacheSet now now' c key v ttl key' :
  (cacheGet now' (cacheSet now c key v ttl) key').1 =
    if decide (key = key') then
      if SFltb (S754_zero false) ttl && (now + int_of_float (SFmul 53 1024 ttl second) <? now')
      then VNull else v
    else (cacheGet now' c key').1.
Proof.
  unfold cacheGet, cacheSet. destruct (decide (key = key')) as [<-|Hne].
  - rewrite lookup_insert_eq. cbn. destruct (SFltb _ ttl); cbn [andb]; [|done].
    by destruct (_ <? now').
  - rewrite lookup_insert_ne by done. by repeat case_match.
Qed.
End JsFacts.

(** ** A sample engine: a script that takes 1.2 seconds *)
Module SampleJsAuth.
(** The world: the clock, and the runs so far. *)
Abbreviation World := (Z * nat)%type.
#[local] Instance engine : ScriptEngine World := {|
  Program := string;
  Runtime := string;
  CompileProgram _ src := Ok src;
  ReadFile path := if decide (path = "/auth.js") then Ok "export default f" else Err "no such file";
  ExpandEnvVar s := s;
  RunProgram prog _ w := (Ok prog, w);
  hasDefault _ := true;
  CallDefault _ _ _ w := (Ok VNull, w);
  AcquireSlot _ w := (Ok tt, w);
  ReleaseSlot _ w := w;
  newRequestError _ _ := None;
  DoRequest _ _ _ _ _ w := (Err "offline", w);
  allocHTTPClient _ := 4%positive |}.
#[local] Instance auth : AuthEngine World := {|
  clock := fst;
  SetCtx _ := None;
  RunAuth prog _ _ st := (Ok prog, st);
  CallAuth _ arg _ _ st :=
    (if decide (arg = "secret") then Ok (VObject [("allowed", VBool true); ("subject", VString "ann")])
     else if decide (arg = "guess") then Ok (VObject [("allowed", VString "true")])
     else Ok (VObject [("token", VString "t")]),
     (st.1, (st.2.1 + 1200 * 10 ^ 6, S st.2.2))) |}.
Definition script : AuthScript :=
  {| js_program := "f"; js_timeout := 5 * 10 ^ 9; js_env := ∅; js_httpClient := 4%positive;
     js_pool := 8%positive |}.
Definition start : credentialCache * (scriptCache * World) := (zero_credentialCache, (∅, (10 ^ 9, 0%nat))).
End SampleJsAuth.

Section JsAuthWitnesses.
#[local] Existing Instances SampleJsAuth.engine SampleJsAuth.auth SampleCommands.json.
#[local] Instance JsAuth_texts : AuthTexts := {| errorText _ := "failed" |}.
Import SampleJsAuth.


Lemma js_slow_script_runs_twice_witness :
  (authContext (H0 := script_provider unixNow (fun _ => callScript map_to_list script "api"))
     Build_ScriptProvider None start).2.2 = (∅, (3400 * 10 ^ 6, 2%nat)).
Proof.
  rewrite (js_slow_script_runs_twice map_to_list script "api" Build_ScriptProvider None start "t"
             (∅, (2200 * 10 ^ 6, 1%nat))); [reflexivity|reflexivity|reflexivity|discriminate| |].
  - vm_compute. discriminate.
  - vm_compute. discriminate.
Defined.

Lemma ValidateToken_admits_witness : exists info st',
  ValidateToken map_to_list script "secret" start.2 = (Ok info, st') /\ ti_Subject info <> "" /\
  is_ok (ValidateToken map_to_list script "guess" start.2).1 = false.
Proof.
  do 2 eexists. split; [reflexivity|]. split; [|reflexivity].
  edestruct (ValidateToken_admits map_to_list script "secret" start.2) as (? & ? & ? & _ & _ & _ & Hs & _);
    [reflexivity|exact Hs].
Defined.
End JsAuthWitnesses.
