(* ===== verification/LuaAuth.v ===== *)
(** * Lua authentication (pkg/runtime/lua/lua.go)

    The counterpart of [JsAuth] in Lua.  The interpreter is a parameter: a call of
    a compiled script in a sandboxed machine gives its four results, and the
    conversions of gopher-lua read them. *)
From S2P Require Export ScriptCredentials JsAuth.
Open Scope Z_scope.

(** The types of a Lua value the code tells apart. *)
Inductive LuaType := LTNil | LTBool | LTNumber | LTString | LTTable | LTOther.
#[global] Instance LuaType_eq_dec : EqDecision LuaType.
Proof. solve_decision. Defined.

Class LuaEngine (W : Type) := {
  LValue : Type;
  Proto : Type;
  (** [os.ReadFile], and [parse.Parse] with [lua.Compile] *)
  LuaReadFile : string -> result string string;
  LuaParse : string -> string -> result string Proto;
  (** [L.PCall(n, 4, nil)] in a fresh machine, under a timeout *)
  PCall : Proto -> list LValue -> Z -> W -> result string (LValue * LValue * LValue * LValue) * W;
  LString : string -> LValue;
  LNumber : Z -> LValue;
  (** [Type], [ToString], [ToInt], [ToBool] *)
  LType : LValue -> LuaType;
  LToString : LValue -> string;
  LToInt : LValue -> Z;
  LToBool : LValue -> bool;
  (** [ToTable] with the entries in the order of [ForEach]; a string entry is a
      [lua.LString] *)
  LToTable : LValue -> option (list (LValue * LValue));
  LAsString : LValue -> option string;
  LuaAcquire : handle -> W -> result string unit * W;
  LuaRelease : handle -> W -> W;
  LuaClock : W -> Z
}.

Section Lua.
Context {W : Type} `{LuaEngine W}.
Implicit Types (w : W).

Definition compileLuaSource (src name : string) : result string Proto :=
  match LuaParse src name with
  | Err err => Err ("parsing lua source " +:+ name +:+ ": " +:+ err)
  | Ok proto => Ok proto
  end.

(** Entries whose key and value are strings; a later entry of a key wins. *)
Definition luaTableToMap (tbl : option (list (LValue * LValue))) : gmap string string :=
  match tbl with
  | None => ∅
  | Some entries =>
    foldl (fun m kv =>
             match LAsString kv.1, LAsString kv.2 with
             | Some k, Some v => <[k := v]> m
             | _, _ => m
             end) ∅ entries
  end.

(** What [Validator] and [Provider] share. *)
Record LuaScript := {
  lua_proto : Proto;
  lua_pool : handle;
  lua_timeout : Z
}.

Definition newLuaScript (kind path : string) (timeout : Z) (pool : handle) : result string LuaScript :=
  match LuaReadFile path with
  | Err err => Err ("reading " +:+ kind +:+ " script " +:+ path +:+ ": " +:+ err)
  | Ok src =>
    match compileLuaSource src path with
    | Err err => Err ("compiling " +:+ kind +:+ " script " +:+ path +:+ ": " +:+ err)
    | Ok proto =>
      Ok {| lua_proto := proto; lua_pool := pool;
            lua_timeout := if timeout <=? 0 then defaultTimeout else timeout |}
    end
  end.

Definition NewLuaValidator (cfg : LuaAuthConfig) (pool : handle) : result string LuaScript :=
  newLuaScript "lua auth" (lac_ScriptPath cfg) (lac_Timeout cfg) pool.
Definition NewLuaProvider (cfg : LuaOutboundConfig) (pool : handle) : result string LuaScript :=
  newLuaScript "lua outbound" (loc_ScriptPath cfg) (loc_Timeout cfg) pool.

(** ** Inbound *)

(** The results of an authentication script: allowed, status, headers, message.
    [order] is the iteration order of the headers. *)
Definition parseAuthResults (order : gmap string string -> list (string * string))
    (results : LValue * LValue * LValue * LValue) : result AuthFailure TokenInfo :=
  let '(r1, r2, r3, r4) := results in
  let errMsg := LToString r4 in
  let extraHeaders := luaTableToMap (LToTable r3) in
  let status := LToInt r2 in
  let allowed := LToBool r1 in
  if negb allowed then Err (Denied {| denied_Status := status; denied_Message := errMsg |})
  else Ok {| ti_Subject := "lua-authenticated"; ti_Scopes := []; ti_Audience := [];
             ti_Extra := (fun kv => ("header:" +:+ kv.1, VString kv.2)) <$> order extraHeaders |}.

Definition ValidateLuaToken (order : gmap string string -> list (string * string)) (v : LuaScript)
    (token : string) w : result AuthFailure TokenInfo * W :=
  match LuaAcquire (lua_pool v) w with
  | (Err err, w) => (Err (Invalid ("lua auth: " +:+ err)), w)
  | (Ok _, w) =>
    match PCall (lua_proto v) [LString token] (lua_timeout v) w with
    | (Err err, w) => (Err (Invalid ("lua check_auth: " +:+ err)), LuaRelease (lua_pool v) w)
    | (Ok results, w) => (parseAuthResults order results, LuaRelease (lua_pool v) w)
    end
  end.

(** ** Outbound *)

(** The results of a credential script: token, expiry, headers, message. *)
Definition parseTokenResults (results : LValue * LValue * LValue * LValue) : result AuthError answer :=
  let '(r1, r2, r3, r4) := results in
  if negb (bool_decide (LType r4 = LTString))
  then Err (ScriptAuth "lua get_upstream_token: error_msg (return 4) must be string")
  else
    let errMsg := LToString r4 in
    if negb (bool_decide (LType r3 = LTTable)) && negb (bool_decide (LType r3 = LTNil))
    then Err (ScriptAuth "lua get_upstream_token: raw_headers (return 3) must be table or nil")
    else
      let rawHeaders := luaTableToMap (LToTable r3) in
      if negb (bool_decide (LType r2 = LTNumber))
      then Err (ScriptAuth "lua get_upstream_token: expiry_unix (return 2) must be number")
      else
        let expiry := LToInt r2 in
        if negb (bool_decide (LType r1 = LTString))
        then Err (ScriptAuth "lua get_upstream_token: token (return 1) must be string")
        else
          let token := LToString r1 in
          if bool_decide (errMsg <> "")
          then Err (ScriptAuth ("lua get_upstream_token error: " +:+ errMsg))
          else Ok (token, expiry, rawHeaders).

(** The script is given what is cached. *)
Definition callLua (p : LuaScript) (upstreamName : string) (c : credentialCache) w
    : result AuthError answer * W :=
  match LuaAcquire (lua_pool p) w with
  | (Err err, w) => (Err (ScriptAuth ("lua outbound auth: " +:+ err)), w)
  | (Ok _, w) =>
    match PCall (lua_proto p) [LString upstreamName; LString (cc_token c); LNumber (cc_expiry c)]
            (lua_timeout p) w with
    | (Err err, w) =>
      (Err (ScriptAuth ("lua get_upstream_token: " +:+ err)), LuaRelease (lua_pool p) w)
    | (Ok results, w) => (parseTokenResults results, LuaRelease (lua_pool p) w)
    end
  end.

Definition luaUnixNow w : Z := LuaClock w / 10 ^ 9.

Section Provider.
Context (p : LuaScript) (upstreamName : string).
Definition ensureToken := ensure luaUnixNow (callLua p upstreamName).
Definition luaToken := scriptToken luaUnixNow (callLua p upstreamName).
Definition luaRawHeaders := scriptHeaders luaUnixNow (callLua p upstreamName).
End Provider.

(** ** Registration *)
Definition luaAuthRuntime `{Semaphore} (cfg : RuntimeConfig) : result string Pool :=
  let configured := lrc_MaxAuthVMs (rtc_Lua cfg) in
  let max := if configured =? 0 then DefaultMaxAuthVMs else configured in
  if max <? 0 then Err ("runtime.lua.max_auth_vms must be > 0, got " +:+ pretty max)
  else NewPool max.

Definition luaInbound `{Unicode, Numbers} (order : gmap string string -> list (string * string))
    (ic : InboundAuthConfig)
    : result string ((InboundRequest -> W -> HttpReply * W) -> InboundRequest -> W -> HttpReply * W) :=
  match iac_LuaAuthPool ic with
  | None => Err "lua inbound auth requires runtime pools; set InboundAuthConfig.LuaAuthPool"
  | Some pool =>
    match NewLuaValidator (iac_Lua ic) pool with
    | Err err => Err err
    | Ok v => Ok (ValidatorMiddleware (ValidateLuaToken order v) "")
    end
  end.

Definition luaOutbound (oc : OutboundAuthConfig) : result string (LuaScript * string) :=
  match ouc_LuaAuthPool oc with
  | None => Err "lua outbound auth requires runtime pools; set OutboundAuthConfig.LuaAuthPool"
  | Some pool =>
    match NewLuaProvider (ouc_Lua oc) pool with
    | Err err => Err err
    | Ok p => Ok (p, ouc_Upstream oc)
    end
  end.
End Lua.

(** ** Facts *)
Section LuaFacts.
Context {W : Type} `{LuaEngine W}.
Implicit Types (w : W).

Lemma callLua_answer p upstreamName c w results w1 w2 :
  LuaAcquire (lua_pool p) w = (Ok tt, w1) ->
  PCall (lua_proto p) [LString upstreamName; LString (cc_token c); LNumber (cc_expiry c)]
    (lua_timeout p) w1 = (Ok results, w2) ->
  callLua p upstreamName c w = (parseTokenResults results, LuaRelease (lua_pool p) w2).
Proof. unfold callLua. by intros -> ->. Qed.

(** A Lua script that answers an empty token, no headers and no error is taken at
    its word: the answer is cached and, while it is good, requests go to the
    upstream without credentials.  [JsAuth] refuses the same answer. *)
Theorem lua_empty_answer_goes_bare `{AuthTexts} (p : LuaScript) (upstreamName : string)
    (prov : ScriptProvider) (info : option TokenInfo) (st : credentialCache * W) e w1
    (Hstale : unexpired (luaUnixNow st.2) st.1 = false)
    (Hrun : callLua p upstreamName st.1 st.2 = (Ok ("", e, ∅), w1))
    (Hgood : luaUnixNow w1 < e) (Hpast : 0 <= luaUnixNow w1) :
  authContext (H0 := script_provider luaUnixNow (callLua p upstreamName)) prov info st =
    (zero_AuthContext, (stored (luaUnixNow st.2) ("", e, ∅), w1)) /\
  is_ok (parseOutboundResult (VObject [("token", VString ""); ("expiry", VInt e)])) = false.
Proof.
  split; [|done]. rewrite script_context, (ensure_stale _ _ _ _ _ Hstale Hrun). cbn [fst snd].
  rewrite bool_decide_true by done. unfold ensure.
  assert (Hf : unexpired (luaUnixNow w1) (stored (luaUnixNow st.2) ("", e, ∅)) = true).
  { unfold unexpired. cbn [stored cc_expiry]. assert (He : (e =? 0) = false) by (apply Z.eqb_neq; lia).
    rewrite He. cbv iota. rewrite He. by apply Z.ltb_lt. }
  rewrite Hf. done.
Qed.

(** Lua's truth is not JavaScript's: any result but nil and false admits. *)
Theorem ValidateLuaToken_admits order (v : LuaScript) (token : string) w (info : TokenInfo) w'
    (Hok : ValidateLuaToken order v token w = (Ok info, w')) :
  exists w1 r1 r2 r3 r4 w2, LuaAcquire (lua_pool v) w = (Ok tt, w1) /\
    PCall (lua_proto v) [LString token] (lua_timeout v) w1 = (Ok (r1, r2, r3, r4), w2) /\
    LToBool r1 = true /\ ti_Subject info = "lua-authenticated" /\ w' = LuaRelease (lua_pool v) w2.
Proof.
  unfold ValidateLuaToken in Hok. destruct (LuaAcquire (lua_pool v) w) as [[[]|err] w1]; [|done].
  destruct (PCall _ _ _ w1) as [[[[[r1 r2] r3] r4]|err] w2] eqn:Ep; [|done].
  injection Hok as Hp <-. exists w1, r1, r2, r3, r4, w2. unfold parseAuthResults in Hp.
  destruct (LToBool r1); [|done]. injection Hp as <-. by split_and!.
Qed.
End LuaFacts.

(** ** A sample interpreter *)
Module SampleLuaAuth.
Inductive lua := Nil | Bool (b : bool) | Num (n : Z) | Str (s : string).
(** The world: the clock, in nanoseconds.  The program is its results. *)
#[local] Instance engine : LuaEngine Z := {|
  LValue := lua;
  Proto := lua * lua * lua * lua;
  LuaReadFile _ := Ok "";
  LuaParse _ _ := Err "empty chunk";
  PCall prog _ _ w := (Ok prog, w + 10 ^ 6);
  LString := Str;
  LNumber := Num;
  LType v := match v with Nil => LTNil | Bool _ => LTBool | Num _ => LTNumber | Str _ => LTString end;
  LToString v := match v with Str s => s | _ => "" end;
  LToInt v := match v with Num n => n | _ => 0 end;
  LToBool v := match v with Nil | Bool false => false | _ => true end;
  LToTable _ := None;
  LAsString v := match v with Str s => Some s | _ => None end;
  LuaAcquire _ w := (Ok tt, w);
  LuaRelease _ w := w;
  LuaClock w := w |}.
Definition script (prog : lua * lua * lua * lua) : LuaScript :=
  {| lua_proto := prog; lua_pool := 8%positive; lua_timeout := defaultTimeout |}.
Definition silent : LuaScript := script (Str "", Num 100, Nil, Str "").
Definition lenient : LuaScript := script (Num 0, Nil, Nil, Nil).
End SampleLuaAuth.

Section LuaAuthWitnesses.
#[local] Existing Instances SampleLuaAuth.engine SampleCommands.json.
#[local] Instance LuaAuth_texts : AuthTexts := {| errorText _ := "failed" |}.
Import SampleLuaAuth.

Lemma lua_empty_answer_goes_bare_witness :
  (authContext (H0 := script_provider luaUnixNow (callLua silent "api"))
     Build_ScriptProvider None (zero_credentialCache, 0)).1 = zero_AuthContext.
Proof.
  destruct (lua_empty_answer_goes_bare silent "api" Build_ScriptProvider None
              (zero_credentialCache, 0) 100 (10 ^ 6)) as [-> _];
    [reflexivity|reflexivity|reflexivity|vm_compute; discriminate|reflexivity].
Defined.

Lemma ValidateLuaToken_admits_witness : exists info w',
  ValidateLuaToken map_to_list lenient "x" 0 = (Ok info, w') /\ ti_Subject info = "lua-authenticated".
Proof.
  do 2 eexists. split; [reflexivity|].
  edestruct (ValidateLuaToken_admits map_to_list lenient "x" 0)
    as (? & ? & ? & ? & ? & ? & _ & _ & _ & Hs & _); [reflexivity|exact Hs].
Defined.
End LuaAuthWitnesses.
