(* ===== verification/Refresher.v ===== *)
(** * Background refresh (pkg/upstream/http/refresh.go, pkg/upstream/refresher.go)

    One refresher per remote specification: the snapshot it serves from, its
    failure counter and its degraded flag, one refresh cycle, and the loop's
    reaction to the cycle's outcome.  The loop's goroutine is the only writer,
    but [IsHealthy] reads the fields at any time, so a cycle is modelled as the
    list of its writes in program order and theorems speak about the state after
    every prefix of them.  The manager is known by the [RegistryManager]
    interface; the fetches and the clock of a cycle are parameters of it. *)
From S2P Require Export HttpUpstream CircuitBreaker OAuth.
Open Scope Z_scope.

(** ** The entries of a refreshed specification *)
Section Entries.
Context `{HttpEnv, SpecLibs, Gojq, Numbers, Faker, Unicode}.
Context (range_order : list string -> list string).
Context (alloc : InputSchema -> handle) (allocTransforms : CompiledTransforms -> handle).
Context (ctxErr : nat -> option string).
(** the runtime pools, and the identity of the new [Upstream] *)
Context (pools : option (gmap string handle)) (ref : positive).

Definition refreshAuth (cfg : UpstreamConfig) : OutboundAuthConfig :=
  let c := set_Upstream (uc_OutboundAuth cfg) (uc_Name cfg) in
  {| ouc_Strategy := ouc_Strategy c; ouc_Bearer := ouc_Bearer c; ouc_APIKey := ouc_APIKey c;
     ouc_OAuth2ClientCredentials := ouc_OAuth2ClientCredentials c;
     ouc_OAuth2UserSession := ouc_OAuth2UserSession c; ouc_Lua := ouc_Lua c; ouc_JS := ouc_JS c;
     ouc_Upstream := ouc_Upstream c;
     ouc_JSAuthPool := GetRuntime pools "js/auth";
     ouc_LuaAuthPool := GetRuntime pools "lua/auth";
     ouc_OAuthTokenStore := ouc_OAuthTokenStore c;
     ouc_OAuthCallbackReg := ouc_OAuthCallbackReg c |}.

(** The entry literal of [buildEntriesFromBytes], with the fields it leaves out. *)
Definition refreshedEntry (cfg : UpstreamConfig) (up : Upstream) (outboundMW : HttpUpstream.Middleware)
    (vt : ValidatedTool) : RegistryEntry :=
  let gt := vt_GeneratedTool vt in
  let op := gt_Operation gt in
  let executor := newExecutor (gt_PrefixedName gt) in
  {| re_PrefixedName := gt_PrefixedName gt;
     re_OriginalName := gt_OriginalName gt;
     re_Upstream := Some up;
     re_MCPTool := Some (gt_MCPTool gt);
     re_Transforms := Some (vt_Transforms vt);
     re_ResponseFormat := extractResponseFormat op;
     re_AuthRequired := extractAuthRequired op;
     re_Method := gt_Method gt;
     re_PathTemplate := gt_PathTemplate gt;
     re_Validator := vt_Validator vt;
     re_ValidationCfg := uc_Validation cfg;
     re_OperationNode := gt_OperationNode gt;
     re_Executor := executor;
     re_Handler := Some (composeHandler outboundMW (vt_Transforms vt) executor);
     re_RateLimit := "";
     re_UIHandler := None;
     re_CacheName := "" |}.

Fixpoint refreshEntries (cfg : UpstreamConfig) (doc : Document) (router : handle) (up : Upstream)
    (outboundMW : HttpUpstream.Middleware) (tools : list GeneratedTool)
    : result BuildError (list RegistryEntry) :=
  match tools with
  | [] => Ok []
  | gt :: rest =>
    match ValidateTool range_order allocTransforms ctxErr gt doc with
    | Err err => Err (ValidatingEntry (gt_PrefixedName gt) err)
    | Ok vt =>
      cons (refreshedEntry cfg up outboundMW (set_Validator vt router)) <$>
        refreshEntries cfg doc router up outboundMW rest
    end
  end.

Definition buildEntriesFromBytes (cfg : UpstreamConfig) (naming : NamingConfig)
    (mergedBytes : string) : result BuildError (list RegistryEntry * Document * handle * Node) :=
  match LoadPipelineFromBytes mergedBytes (uc_OpenAPI cfg) with
  | Err err => Err (LoadingPipeline err)
  | Ok (doc, router, specYAMLRoot) =>
    match GenerateTools (doc_Heap doc) range_order alloc cfg naming (doc_Paths doc) with
    | Err err => Err (GeneratingToolList err)
    | Ok tools =>
      let outboundCfg := refreshAuth cfg in
      match newMiddleware middlewares ("outbound/" +:+ outboundStrategy outboundCfg) outboundCfg with
      | Err err => Err (BuildOutboundAuth (uc_Name cfg) err)
      | Ok outboundMW =>
        match NewHTTPClient cfg with
        | Err err => Err (BuildingClient (uc_Name cfg) err)
        | Ok client =>
          entries ← refreshEntries cfg doc router (newUpstream cfg ref client) outboundMW
                      (withOperationNode specYAMLRoot <$> tools);
          Ok (entries, doc, router, specYAMLRoot)
        end
      end
    end
  end.
End Entries.

(** ** State *)
Record Snapshot := {
  sn_Doc : Document;
  sn_Router : handle;
  sn_CompiledTools : list RegistryEntry;
  sn_SpecYAMLRoot : option node;
  sn_SpecETag : string;
  sn_OverlayETag : string;
  sn_FetchedAt : Z;
  sn_cachedSpecBytes : option string;
  sn_cachedOverlayBytes : option string
}.

(** The fields that change; [rf_lastOverlayFetch] is [None] for the zero time. *)
Record Refresher := {
  rf_current : Snapshot;
  rf_failures : Z;                        (* int32 *)
  rf_degraded : bool;
  rf_lastOverlayFetch : option Z
}.

(** What the manager promises the refresher.  [mgr_serves m name] says that the
    upstream's tools are in the live registry. *)
Class RegistryManager (M : Type) := {
  MgrError : Type;
  mgr_Update : M -> string -> list RegistryEntry -> option node -> M * option MgrError;
  mgr_Remove : M -> string -> M;
  mgr_serves : M -> string -> Prop
}.

Class RegistryManagerLaws (M : Type) `{RegistryManager M} := {
  Update_ok m name es root m' : mgr_Update m name es root = (m', None) -> mgr_serves m' name;
  Update_err m name es root m' err :
    mgr_Update m name es root = (m', Some err) -> mgr_serves m name -> mgr_serves m' name
}.

(** The outside world during one cycle: the two fetches, the build of the new
    entries, and the times the clock is read at. *)
Record Cycle := {
  cy_spec : Network;
  cy_overlay : Network;
  cy_build : string -> result BuildError (list RegistryEntry * Document * handle * Node);
  cy_checkedAt : Z;
  cy_overlayAt : Z;
  cy_storedAt : Z
}.

Section Refresher.
Context `{SpecLibs} {M : Type} `{RegistryManager M}.
Context (cfg : UpstreamConfig).

Inductive RefreshError :=
  | FetchingSpec (err : LoadError)
  | FetchingOverlay (err : LoadError)
  | ApplyingRefreshedOverlay (err : LoadError)
  | BuildingEntries (err : BuildError)
  | UpdatingRegistry (err : MgrError).

(** The writes of the loop, in program order. *)
Inductive Effect :=
  | UpdateUpstream (entries : list RegistryEntry) (root : option node)
  | RemoveUpstream
  | StoreDegraded (b : bool)
  | StoreFailures (n : Z)
  | StoreCurrent (snap : Snapshot)
  | StoreOverlayFetch (t : Z).

Abbreviation World := (Refresher * M)%type.

Definition perform (e : Effect) (w : World) : World :=
  let '(r, m) := w in
  match e with
  | UpdateUpstream entries root => (r, (mgr_Update m (uc_Name cfg) entries root).1)
  | RemoveUpstream => (r, mgr_Remove m (uc_Name cfg))
  | StoreDegraded b =>
    ({| rf_current := rf_current r; rf_failures := rf_failures r; rf_degraded := b;
        rf_lastOverlayFetch := rf_lastOverlayFetch r |}, m)
  | StoreFailures n =>
    ({| rf_current := rf_current r; rf_failures := n; rf_degraded := rf_degraded r;
        rf_lastOverlayFetch := rf_lastOverlayFetch r |}, m)
  | StoreCurrent snap =>
    ({| rf_current := snap; rf_failures := rf_failures r; rf_degraded := rf_degraded r;
        rf_lastOverlayFetch := rf_lastOverlayFetch r |}, m)
  | StoreOverlayFetch t =>
    ({| rf_current := rf_current r; rf_failures := rf_failures r; rf_degraded := rf_degraded r;
        rf_lastOverlayFetch := Some t |}, m)
  end.

Definition performAll (es : list Effect) (w : World) : World := foldl (fun w e => perform e w) w es.

(** ** One cycle *)
Definition IsHealthy (r : Refresher) : bool :=
  if rf_degraded r then false
  else
    let maxFail := oas_MaxRefreshFailures (uc_OpenAPI cfg) in
    if maxFail <=? 0 then true else rf_failures r <? maxFail.

(** [last] is [r.lastOverlayFetch]. *)
Definition shouldRefreshOverlay (last : option Z) (now : Z) : bool :=
  match uc_Overlay cfg with
  | None => false
  | Some o =>
    if ovl_RefreshInterval o <=? 0 then true
    else match last with
         | None => true
         | Some t => ovl_RefreshInterval o <=? now - t
         end
  end.

(** [data, etag, fetched]; [prev] is [None] for the empty snapshot of the initial
    load. *)
Definition fetchOverlay (last : option Z) (net : Network) (now : Z) (prev : option Snapshot)
    : result LoadError (option string * string * bool) :=
  match uc_Overlay cfg with
  | None => Ok (None, "", false)
  | Some _ =>
    let cachedBytes := prev ≫= sn_cachedOverlayBytes in
    let prevETag := from_option sn_OverlayETag "" prev in
    if negb (shouldRefreshOverlay last now) then Ok (cachedBytes, prevETag, false)
    else
      f ← FetchOverlayConditional net (uc_Overlay cfg) prevETag;
      if ft_notModified f then Ok (cachedBytes, prevETag, true)
      else Ok (ft_data f, ft_etag f, true)
  end.

Definition applyOverlay (specData overlayBytes : option string) : result LoadError (option string) :=
  match overlayBytes with
  | None => Ok specData
  | Some o => Some <$> ApplyOverlayBytes (default "" specData) o
  end.

Definition newSnapshot (built : list RegistryEntry * Document * handle * Node)
    (specETag overlayETag : string) (now : Z) (specData overlayBytes : option string) : Snapshot :=
  let '(entries, doc, router, root) := built in
  {| sn_Doc := doc; sn_Router := router; sn_CompiledTools := entries;
     sn_SpecYAMLRoot := Some (n_addr root); sn_SpecETag := specETag;
     sn_OverlayETag := overlayETag; sn_FetchedAt := now;
     sn_cachedSpecBytes := specData; sn_cachedOverlayBytes := overlayBytes |}.

(** The writes of [refresh] and its error. *)
Definition refresh (r : Refresher) (m : M) (cy : Cycle) : list Effect * option RefreshError :=
  let prev := rf_current r in
  match FetchSpecConditional (cy_spec cy) (uc_OpenAPI cfg) (sn_SpecETag prev) 1 with
  | Err err => ([], Some (FetchingSpec err))
  | Ok f =>
    if ft_notModified f && negb (shouldRefreshOverlay (rf_lastOverlayFetch r) (cy_checkedAt cy)) then ([], None)
    else
      let specData := if ft_notModified f then sn_cachedSpecBytes prev else ft_data f in
      let newSpecETag := if ft_notModified f then sn_SpecETag prev else ft_etag f in
      let newSpecETag := if bool_decide (newSpecETag = "") then sn_SpecETag prev else newSpecETag in
      match fetchOverlay (rf_lastOverlayFetch r) (cy_overlay cy) (cy_overlayAt cy) (Some prev) with
      | Err err => ([], Some (FetchingOverlay err))
      | Ok (overlayBytes, newOverlayETag, overlayFetched) =>
        match applyOverlay specData overlayBytes with
        | Err err => ([], Some (ApplyingRefreshedOverlay err))
        | Ok mergedBytes =>
          match cy_build cy (default "" mergedBytes) with
          | Err err => ([], Some (BuildingEntries err))
          | Ok built =>
            let snap := newSnapshot built newSpecETag newOverlayETag (cy_storedAt cy)
                          specData overlayBytes in
            let update := UpdateUpstream (sn_CompiledTools snap) (sn_SpecYAMLRoot snap) in
            match (mgr_Update m (uc_Name cfg) (sn_CompiledTools snap) (sn_SpecYAMLRoot snap)).2 with
            | Some err => ([update], Some (UpdatingRegistry err))
            | None =>
              ([update; StoreDegraded false; StoreCurrent snap] ++
                 (if overlayFetched then [StoreOverlayFetch (cy_storedAt cy)] else []), None)
            end
          end
        end
      end
  end.

(** [failures.Add(1)] *)
Definition wrap32 (z : Z) : Z := (z + 2 ^ 31) mod 2 ^ 32 - 2 ^ 31.

(** The writes of one tick of the loop. *)
Definition tick (r : Refresher) (m : M) (cy : Cycle) : list Effect :=
  match refresh r m cy with
  | (es, Some _) =>
    let count := wrap32 (rf_failures r + 1) in
    let maxFail := oas_MaxRefreshFailures (uc_OpenAPI cfg) in
    es ++ [StoreFailures count] ++
      (if (0 <? maxFail) && (maxFail <=? count)
       then [RemoveUpstream; StoreDegraded true; StoreFailures 0] else [])
  | (es, None) => es ++ [StoreFailures 0]
  end.

Definition afterTick (w : World) (cy : Cycle) : World := performAll (tick w.1 w.2 cy) w.

(** The initial load. *)
Definition buildSnapshot (cy : Cycle) : result RefreshError (Snapshot * option Z) :=
  match FetchSpecConditional (cy_spec cy) (uc_OpenAPI cfg) "" 5 with
  | Err err => Err (FetchingSpec err)
  | Ok f =>
    match fetchOverlay None (cy_overlay cy) (cy_overlayAt cy) None with
    | Err err => Err (FetchingOverlay err)
    | Ok (overlayBytes, overlayETag, overlayFetched) =>
      match applyOverlay (ft_data f) overlayBytes with
      | Err err => Err (ApplyingRefreshedOverlay err)
      | Ok mergedBytes =>
        match cy_build cy (default "" mergedBytes) with
        | Err err => Err (BuildingEntries err)
        | Ok built =>
          Ok (newSnapshot built (ft_etag f) overlayETag (cy_storedAt cy) (ft_data f) overlayBytes,
              if overlayFetched then Some (cy_storedAt cy) else None)
        end
      end
    end
  end.

Definition NewRefresher (cy : Cycle) : result RefreshError Refresher :=
  match buildSnapshot cy with
  | Err err => Err err
  | Ok (snap, lastOverlayFetch) =>
    Ok {| rf_current := snap; rf_failures := 0; rf_degraded := false;
          rf_lastOverlayFetch := lastOverlayFetch |}
  end.
End Refresher.

(** ** What a cycle writes *)
Section Shapes.
Context `{SpecLibs} {M : Type} `{RegistryManager M}.
Context (cfg : UpstreamConfig).
Implicit Types (r : Refresher) (m : M) (w : Refresher * M) (cy : Cycle).

(** The four ways [refresh] ends. *)
Inductive refresh_shape m : list (@Effect) -> option RefreshError -> Prop :=
  | shape_failed err : refresh_shape m [] (Some err)
  | shape_unchanged : refresh_shape m [] None
  | shape_rejected es root err :
      (mgr_Update m (uc_Name cfg) es root).2 = Some err ->
      refresh_shape m [UpdateUpstream es root] (Some (UpdatingRegistry err))
  | shape_published es root snap fetched :
      (mgr_Update m (uc_Name cfg) es root).2 = None ->
      sn_CompiledTools snap = es -> sn_SpecYAMLRoot snap = root ->
      Forall (fun e => exists t, e = StoreOverlayFetch t) fetched -> (length fetched <= 1)%nat ->
      refresh_shape m (UpdateUpstream es root :: StoreDegraded false :: StoreCurrent snap :: fetched)
        None.

Lemma refresh_cases r m cy : refresh_shape m (refresh cfg r m cy).1 (refresh cfg r m cy).2.
Proof.
  unfold refresh.
  destruct (FetchSpecConditional _ _ _ _) as [f|]; [|constructor].
  case_match; [constructor|].
  destruct (fetchOverlay _ _ _ _ _) as [[[overlayBytes etag] fetched]|]; [|constructor].
  destruct (applyOverlay _ _) as [merged|]; [|constructor].
  destruct (cy_build cy _) as [built|]; [|constructor].
  destruct ((mgr_Update m _ _ _).2) as [err|] eqn:Eu; [by constructor|].
  apply shape_published; [done..| |]; destruct fetched; cbn; try lia; repeat constructor.
  by eexists.
Qed.

Lemma performAll_app es1 es2 w :
  performAll cfg (es1 ++ es2) w = performAll cfg es2 (performAll cfg es1 w).
Proof. apply foldl_app. Qed.
End Shapes.

(** A failing cycle loses nothing: the snapshot, the degraded flag, the
    failure counter and the overlay's time stay as they were, and the manager
    is untouched unless it rejected the new entries itself. *)
Theorem refresh_error_preserves `{SpecLibs} {M : Type} `{RegistryManager M} (cfg : UpstreamConfig)
    (r : Refresher) (m : M) (cy : Cycle) (err : RefreshError)
    (Herr : (refresh cfg r m cy).2 = Some err) :
  (performAll cfg (refresh cfg r m cy).1 (r, m)).1 = r /\
  ((performAll cfg (refresh cfg r m cy).1 (r, m)).2 = m \/
   exists es root e, err = UpdatingRegistry e /\ (mgr_Update m (uc_Name cfg) es root).2 = Some e /\
     (performAll cfg (refresh cfg r m cy).1 (r, m)).2 = (mgr_Update m (uc_Name cfg) es root).1).
Proof.
  pose proof (refresh_cases cfg r m cy) as Hs. rewrite Herr in Hs.
  inversion Hs as [err' Hes He| |es root e Hu Hes He|]; subst; cbn.
  - split; [done|by left].
  - split; [done|right]. by exists es, root, e.
Qed.

(** ** Health *)
Section Health.
Context `{SpecLibs} {M : Type} `{RegistryManager M} `{!RegistryManagerLaws M}.
Context (cfg : UpstreamConfig).
Local Abbreviation maxFail := (oas_MaxRefreshFailures (uc_OpenAPI cfg)).
Local Abbreviation serves m := (mgr_serves m (uc_Name cfg)).

(** The loop ticks, and other refreshers change the manager in between without
    touching this upstream's tools. *)
Inductive loop_step : Refresher * M -> Refresher * M -> Prop :=
  | step_tick w cy : loop_step w (afterTick cfg w cy)
  | step_other r m m' : (serves m -> serves m') -> loop_step (r, m) (r, m').

(** Between two ticks: an upstream that is not degraded is served, and the
    counter is below the limit. *)
Definition settled (w : Refresher * M) : Prop :=
  (rf_degraded w.1 = false -> serves w.2) /\ (0 < maxFail -> rf_failures w.1 < maxFail).

Definition honest (w : Refresher * M) : Prop := IsHealthy cfg w.1 = true -> serves w.2.

Lemma settled_honest w : settled w -> honest w.
Proof. intros [Hd _]. unfold honest, IsHealthy. destruct (rf_degraded w.1); [done|]. auto. Qed.

Lemma settled_IsHealthy w : settled w -> IsHealthy cfg w.1 = negb (rf_degraded w.1).
Proof.
  intros [_ Hf]. unfold IsHealthy. destruct (rf_degraded w.1); [done|]. cbn.
  destruct (Z.leb_spec maxFail 0); [done|]. apply Z.ltb_lt. lia.
Qed.

(** The writes after a failed refresh. *)
Definition failureWrites (r : Refresher) : list Effect :=
  let count := wrap32 (rf_failures r + 1) in
  StoreFailures count ::
    (if (0 <? maxFail) && (maxFail <=? count) then [RemoveUpstream; StoreDegraded true; StoreFailures 0]
     else []).

Lemma failureWrites_ok (r : Refresher) m : settled (r, m) ->
  (forall k, honest (performAll cfg (take k (failureWrites r)) (r, m))) /\
  settled (performAll cfg (failureWrites r) (r, m)).
Proof.
  intros Hs. pose proof (settled_honest _ Hs) as Hh. destruct Hs as [Hd Hf]. unfold failureWrites.
  destruct (Z.ltb_spec 0 maxFail) as [Hmax|Hmax]; cbn [andb].
  - destruct (Z.leb_spec maxFail (wrap32 (rf_failures r + 1))) as [Hle|Hlt]; split.
    + intros [|[|[|[|[|k]]]]]; cbn; [done| | |by intros ?..].
      all: unfold honest, IsHealthy; cbn; destruct (rf_degraded r); [done|].
      all: rewrite (proj2 (Z.leb_gt _ _)) by lia; intros ?%Z.ltb_lt; lia.
    + split; cbn; [done|lia].
    + intros [|[|k]]; cbn; [done| |]; unfold honest; cbn; unfold IsHealthy; cbn;
        (destruct (rf_degraded r) eqn:E; [done|]); intros _; by apply Hd.
    + split; cbn; [done|lia].
  - split; [|split; cbn; [done|lia]].
    intros [|[|k]]; cbn; [done| |]; unfold honest; cbn; unfold IsHealthy; cbn;
      (destruct (rf_degraded r) eqn:E; [done|]); intros _; by apply Hd.
Qed.

(** Writes of the refresher's own fields leave the manager alone. *)
Definition own_write (e : Effect) : Prop :=
  match e with UpdateUpstream _ _ | RemoveUpstream => False | _ => True end.

Lemma own_writes es w : Forall own_write es -> (performAll cfg es w).2 = w.2.
Proof.
  revert w. induction es as [|e es IH]; intros [r m]; [done|].
  intros [He Hes]%Forall_cons. etransitivity; [apply (IH (perform cfg e (r, m)) Hes)|].
  by destruct e.
Qed.

(** Every prefix of a tick's writes is honest, and the tick ends settled. *)
Lemma tick_ok (r : Refresher) m cy : settled (r, m) ->
  (forall k, honest (performAll cfg (take k (tick cfg r m cy)) (r, m))) /\
  settled (afterTick cfg (r, m) cy).
Proof.
  intros Hs. pose proof (settled_honest _ Hs) as Hh. unfold afterTick, tick. cbn [fst snd].
  pose proof (refresh_cases cfg r m cy) as Hc.
  destruct (refresh cfg r m cy) as [effs res]. cbn [fst snd] in Hc.
  destruct Hc as [err| |es root err Hu|es root snap fetched Hu _ _ Hfet _].
  - by apply failureWrites_ok.
  - destruct Hs as [Hd Hf]. split; [|split; cbn; [done|lia]].
    intros [|k]; [done|]. unfold honest. cbn. rewrite take_nil. cbn.
    unfold IsHealthy. cbn. destruct (rf_degraded r) eqn:E; [done|]. intros _. by apply Hd.
  - set (m1 := (mgr_Update m (uc_Name cfg) es root).1).
    assert (Hs1 : settled (r, m1)).
    { destruct Hs as [Hd Hf]. split; [|done]. intros Hdeg. subst m1. cbn in *.
      destruct (mgr_Update m (uc_Name cfg) es root) as [m2 o] eqn:E. cbn in *. subst.
      by eapply Update_err; [|apply Hd]. }
    destruct (failureWrites_ok r m1 Hs1) as [Hp Hend]. split; [|exact Hend].
    intros [|k]; [done|]. apply (Hp k).
  - set (m1 := (mgr_Update m (uc_Name cfg) es root).1).
    assert (Hserves : serves m1).
    { subst m1. destruct (mgr_Update m (uc_Name cfg) es root) as [m2 o] eqn:E. cbn in *. subst.
      by eapply Update_ok. }
    set (rest := StoreDegraded false :: StoreCurrent snap :: fetched ++ [StoreFailures 0]).
    assert (Hown : Forall own_write rest).
    { subst rest. repeat (constructor; [done|]). apply Forall_app. split; [|by repeat constructor].
      eapply Forall_impl; [exact Hfet|]. by intros e [t ->]. }
    split.
    + intros [|k]; [done|]. intros _.
      change (serves (performAll cfg (take k rest) (r, m1)).2).
      rewrite own_writes; [done|]. by apply Forall_take.
    + change (settled (performAll cfg rest (r, m1))). split.
      * intros _. by rewrite own_writes.
      * subst rest. intros Hmax.
        change (StoreDegraded false :: StoreCurrent snap :: fetched ++ [StoreFailures 0])
          with ([StoreDegraded false; StoreCurrent snap] ++ fetched ++ [StoreFailures 0]).
        rewrite !performAll_app. by destruct (performAll cfg fetched _).
Qed.

Lemma loop_settled w w' : reachable loop_step w w' -> settled w -> settled w'.
Proof.
  apply reachable_invariant. clear w w'. intros w w' Hs Hstep.
  destruct Hstep as [[r m] cy|r m m' Hm]; [by apply tick_ok|].
  destruct Hs as [Hd Hf]. split; [|done]. auto.
Qed.
End Health.

(** The readiness of a refresher is honest at every instant. From a start
    where the upstream is served, in every run of the loop, interleaved with
    whatever other refreshers do to the manager, after any prefix of the writes
    of any tick: when [IsHealthy] answers true, the upstream's tools are in the
    registry. Between ticks it answers true exactly when the upstream is not
    marked degraded. *)
Theorem healthy_means_served `{SpecLibs} {M : Type} `{RegistryManager M} `{!RegistryManagerLaws M}
    (cfg : UpstreamConfig) (r0 : Refresher) (m0 : M) (w : Refresher * M)
    (Hfresh : rf_degraded r0 = false /\ rf_failures r0 = 0)
    (Hserved : mgr_serves m0 (uc_Name cfg))
    (Hreach : reachable (loop_step cfg) (r0, m0) w) :
  IsHealthy cfg w.1 = negb (rf_degraded w.1) /\
  forall cy k,
    let w' := performAll cfg (take k (tick cfg w.1 w.2 cy)) w in
    IsHealthy cfg w'.1 = true -> mgr_serves w'.2 (uc_Name cfg).
Proof.
  assert (Hs : settled cfg w).
  { eapply loop_settled; [done|]. destruct Hfresh as [_ Hf]. split; cbn; [done|lia]. }
  split; [by apply settled_IsHealthy|]. intros cy k. destruct w as [r m]. by apply tick_ok.
Qed.

(** ** The factory

    The HTTP package registers [NewRefresher] as the factory of refreshers, a
    variable that its importers share. *)
Definition RegisterRefresherFactory {A} (f : A) (refresherFactory : option A) : option A := Some f.
Definition makeRefresher {R} `{Unicode} (refresherFactory : option (UpstreamConfig -> result string R))
    (cfg : UpstreamConfig) : result string R :=
  match refresherFactory with
  | None => Err ("no refresher factory registered for upstream " +:+ Quote (uc_Name cfg) +:+
                 " — import pkg/upstream/http to enable background spec refresh")
  | Some f => f cfg
  end.

(** ** Losing the upstream and getting it back *)
Section Runs.
Context `{SpecLibs} {M : Type} `{RegistryManager M}.
Context (cfg : UpstreamConfig).
Local Abbreviation maxFail := (oas_MaxRefreshFailures (uc_OpenAPI cfg)).

(** The loop alone: a sequence of ticks, and its writes. *)
Definition runTicks (w : Refresher * M) (cys : list Cycle) : Refresher * M :=
  foldl (afterTick cfg) w cys.

(** [Start] with the cycles its ticker gives it until the context ends; without an
    interval there is no loop. *)
Definition Start (w : Refresher * M) (cys : list Cycle) : Refresher * M :=
  if oas_RefreshInterval (uc_OpenAPI cfg) <=? 0 then w else runTicks w cys.

Fixpoint runWrites (w : Refresher * M) (cys : list Cycle) : list Effect :=
  match cys with
  | [] => []
  | cy :: rest => tick cfg w.1 w.2 cy ++ runWrites (afterTick cfg w cy) rest
  end.

(** Every cycle of the run fails. *)
Fixpoint failing (w : Refresher * M) (cys : list Cycle) : bool :=
  match cys with
  | [] => true
  | cy :: rest =>
    match (refresh cfg w.1 w.2 cy).2 with
    | Some _ => failing (afterTick cfg w cy) rest
    | None => false
    end
  end.

Definition isRemove (e : Effect) : bool := match e with RemoveUpstream => true | _ => false end.
Definition removals (es : list Effect) : nat := length (filter isRemove es).

Lemma removals_app es1 es2 : removals (es1 ++ es2) = (removals es1 + removals es2)%nat.
Proof. unfold removals. by rewrite filter_app, length_app. Qed.

Lemma wrap32_small z : - 2 ^ 31 <= z < 2 ^ 31 -> wrap32 z = z.
Proof. intros Hz. unfold wrap32. rewrite Z.mod_small; lia. Qed.

Lemma failed_refresh w cy : (refresh cfg w.1 w.2 cy).2 <> None ->
  (performAll cfg (refresh cfg w.1 w.2 cy).1 w).1 = w.1 /\
  removals (refresh cfg w.1 w.2 cy).1 = 0%nat.
Proof.
  destruct w as [r m]. cbn [fst snd]. pose proof (refresh_cases cfg r m cy) as Hc.
  destruct Hc as [err| |es root err Hu|es root snap fetched Hu _ _ Hfet _]; done.
Qed.

Lemma failing_tick w cy : (refresh cfg w.1 w.2 cy).2 <> None ->
  0 < maxFail < 2 ^ 31 -> 0 <= rf_failures w.1 < maxFail ->
  let last := bool_decide (rf_failures w.1 + 1 = maxFail) in
  rf_current (afterTick cfg w cy).1 = rf_current w.1 /\
  rf_failures (afterTick cfg w cy).1 = (if last then 0 else rf_failures w.1 + 1) /\
  rf_degraded (afterTick cfg w cy).1 = rf_degraded w.1 || last /\
  removals (tick cfg w.1 w.2 cy) = Nat.b2n last.
Proof.
  intros Herr Hmax Hf. destruct (failed_refresh w cy Herr) as [Hr Hrem].
  destruct w as [r m]. cbn [fst snd] in *. unfold afterTick, tick. cbn [fst snd].
  destruct (refresh cfg r m cy) as [es [err|]]; [|done]. cbn [fst snd] in *.
  rewrite wrap32_small by lia. rewrite performAll_app, !removals_app, Hrem.
  destruct (performAll cfg es (r, m)) as [r' m']. cbn in Hr. subst r'.
  rewrite (proj2 (Z.ltb_lt 0 maxFail)) by lia. cbn [andb].
  case_bool_decide as Hlast.
  - rewrite (proj2 (Z.leb_le _ _)) by lia. cbn. by rewrite orb_true_r.
  - rewrite (proj2 (Z.leb_gt _ _)) by lia. cbn. by rewrite orb_false_r.
Qed.

Lemma wrap_counter (f n max : Z) : 0 < max -> 0 <= f < max -> 0 <= n ->
  let last := bool_decide (f + 1 = max) in
  let f' := if last then 0 else f + 1 in
  (f' + n) mod max = (f + (n + 1)) mod max /\
  Z.b2z last + (f' + n) / max = (f + (n + 1)) / max.
Proof.
  intros Hmax Hf Hn. cbn. case_bool_decide as Hlast.
  - replace (f + (n + 1)) with (n + 1 * max) by lia. replace (0 + n) with n by lia.
    rewrite Z.mod_add, Z.div_add by lia. cbn. split; [done|lia].
  - replace (f + (n + 1)) with (f + 1 + n) by lia. split; [done|]. cbn. lia.
Qed.

(** One tick that finds nothing new: a 304 answer and no overlay to poll. *)
Definition unchanged (r : Refresher) (cy : Cycle) : Prop :=
  exists f, FetchSpecConditional (cy_spec cy) (uc_OpenAPI cfg) (sn_SpecETag (rf_current r)) 1 = Ok f /\
    ft_notModified f = true.

Lemma unchanged_tick w cy : uc_Overlay cfg = None -> unchanged w.1 cy ->
  afterTick cfg w cy =
    ({| rf_current := rf_current w.1; rf_failures := 0; rf_degraded := rf_degraded w.1;
        rf_lastOverlayFetch := rf_lastOverlayFetch w.1 |}, w.2).
Proof.
  destruct w as [r m]. intros Hov (f & Hf & Hn). unfold afterTick, tick, refresh. cbn [fst snd] in *.
  rewrite Hf, Hn. unfold shouldRefreshOverlay. by rewrite Hov.
Qed.

Lemma unchanged_run w cys : uc_Overlay cfg = None -> Forall (unchanged w.1) cys ->
  rf_current (runTicks w cys).1 = rf_current w.1 /\
  rf_degraded (runTicks w cys).1 = rf_degraded w.1 /\ (runTicks w cys).2 = w.2.
Proof.
  intros Hov. revert w. induction cys as [|cy cys IH]; intros w; [done|].
  intros [Hcy Hcys]%Forall_cons. unfold runTicks in *. cbn [foldl].
  specialize (IH (afterTick cfg w cy)). rewrite (unchanged_tick w cy Hov Hcy) in IH |- *.
  by apply IH.
Qed.
End Runs.

(** Ticks that fail, one after the other. *)
Lemma failing_ticks `{SpecLibs} {M : Type} `{RegistryManager M} (cfg : UpstreamConfig)
    (w : Refresher * M) (cys : list Cycle)
    (Hmax : 0 < oas_MaxRefreshFailures (uc_OpenAPI cfg) < 2 ^ 31)
    (Hf : 0 <= rf_failures w.1 < oas_MaxRefreshFailures (uc_OpenAPI cfg))
    (Hfail : failing cfg w cys = true) :
  let max := oas_MaxRefreshFailures (uc_OpenAPI cfg) in
  let total := rf_failures w.1 + Z.of_nat (length cys) in
  rf_current (runTicks cfg w cys).1 = rf_current w.1 /\
  rf_failures (runTicks cfg w cys).1 = total mod max /\
  Z.of_nat (removals (runWrites cfg w cys)) = total / max /\
  rf_degraded (runTicks cfg w cys).1 = rf_degraded w.1 || (max <=? total).
Proof.
  cbn. revert w Hf Hfail. induction cys as [|cy cys IH]; intros w Hf Hfail.
  - cbn. rewrite Z.add_0_r, Z.mod_small, Z.div_small by done.
    rewrite (proj2 (Z.leb_gt _ _)) by lia. by rewrite orb_false_r.
  - cbn [failing] in Hfail.
    assert (Herr : (refresh cfg w.1 w.2 cy).2 <> None /\ failing cfg (afterTick cfg w cy) cys = true)
      by (destruct (refresh cfg w.1 w.2 cy) as [? []]; done).
    clear Hfail. destruct Herr as [Herr Hfail].
    destruct (failing_tick cfg w cy Herr Hmax Hf) as (Hcur & Hcnt & Hdeg & Hrem).
    assert (Hf' : 0 <= rf_failures (afterTick cfg w cy).1 < oas_MaxRefreshFailures (uc_OpenAPI cfg)).
    { rewrite Hcnt. case_bool_decide; lia. }
    destruct (IH (afterTick cfg w cy) Hf' Hfail) as (IHcur & IHcnt & IHrem & IHdeg).
    destruct (wrap_counter (rf_failures w.1) (Z.of_nat (length cys)) _ (proj1 Hmax) Hf (Nat2Z.is_nonneg _))
      as [Hmod Hdiv].
    change (runTicks cfg w (cy :: cys)) with (runTicks cfg (afterTick cfg w cy) cys).
    cbn [runWrites length]. rewrite removals_app, Hrem, Nat2Z.inj_add, Nat2Z.inj_succ, IHcur, IHcnt, IHrem, IHdeg.
    unfold Z.succ. rewrite <- Hmod, <- Hdiv, Hcnt, Hdeg, Hcur. split_and!; [done..| |].
    + by case_bool_decide.
    + rewrite <- orb_assoc. f_equal. case_bool_decide; cbn [orb].
      * symmetry. apply Z.leb_le. lia.
      * f_equal. lia.
Qed.

(** The counter over any run of failing cycles. Starting with [f] failures,
    [n] failing cycles in a row leave [(f + n) mod max] failures counted, have
    called [RemoveUpstream] [(f + n) / max] times, once every [max] failures,
    and have marked the upstream degraded exactly when the limit was reached;
    the snapshot is still the one from before; so a refresher
    that calls itself healthy has not reached the limit. *)
Theorem failing_run `{SpecLibs} {M : Type} `{RegistryManager M} (cfg : UpstreamConfig)
    (w : Refresher * M) (cys : list Cycle)
    (Hmax : 0 < oas_MaxRefreshFailures (uc_OpenAPI cfg) < 2 ^ 31)
    (Hf : 0 <= rf_failures w.1 < oas_MaxRefreshFailures (uc_OpenAPI cfg))
    (Hfail : failing cfg w cys = true) :
  let max := oas_MaxRefreshFailures (uc_OpenAPI cfg) in
  let total := rf_failures w.1 + Z.of_nat (length cys) in
  rf_current (runTicks cfg w cys).1 = rf_current w.1 /\
  rf_failures (runTicks cfg w cys).1 = total mod max /\
  Z.of_nat (removals (runWrites cfg w cys)) = total / max /\
  rf_degraded (runTicks cfg w cys).1 = rf_degraded w.1 || (max <=? total) /\
  (IsHealthy cfg (runTicks cfg w cys).1 = true -> total < max /\ removals (runWrites cfg w cys) = 0%nat).
Proof.
  destruct (failing_ticks cfg w cys Hmax Hf Hfail) as (Hcur & Hcnt & Hrem & Hdeg). cbn.
  split_and!; [done..|]. unfold IsHealthy. rewrite Hdeg. intros Hh.
  assert (Hlt : rf_failures w.1 + Z.of_nat (length cys) < oas_MaxRefreshFailures (uc_OpenAPI cfg)).
  { destruct (Z.leb_spec (oas_MaxRefreshFailures (uc_OpenAPI cfg)) (rf_failures w.1 + Z.of_nat (length cys)));
      [by rewrite orb_true_r in Hh|done]. }
  split; [done|]. rewrite Z.div_small in Hrem by lia. lia.
Qed.

(** The 304 answer hides a lost upstream. After an outage of [max] cycles has
    removed a healthy upstream from the registry, every later cycle that finds
    the specification unchanged succeeds without publishing anything: the
    upstream stays degraded and unserved for as long as the specification does
    not change. *)
Theorem unchanged_never_recovers `{SpecLibs} {M : Type} `{RegistryManager M} (cfg : UpstreamConfig)
    (w : Refresher * M) (outage quiet : list Cycle)
    (Hmax : 0 < oas_MaxRefreshFailures (uc_OpenAPI cfg) < 2 ^ 31)
    (Hov : uc_Overlay cfg = None)
    (Hfresh : rf_failures w.1 = 0)
    (Hfail : failing cfg w outage = true)
    (Hlen : Z.of_nat (length outage) = oas_MaxRefreshFailures (uc_OpenAPI cfg))
    (Hquiet : Forall (unchanged cfg w.1) quiet) :
  removals (runWrites cfg w outage) = 1%nat /\
  IsHealthy cfg (runTicks cfg w (outage ++ quiet)).1 = false /\
  (runTicks cfg w (outage ++ quiet)).2 = (runTicks cfg w outage).2.
Proof.
  destruct (failing_ticks cfg w outage Hmax ltac:(lia) Hfail) as (Hcur & _ & Hrem & Hdeg).
  rewrite Hfresh, Hlen, Z.add_0_l in Hrem, Hdeg. rewrite Z.leb_refl, orb_true_r in Hdeg.
  rewrite Z.div_same in Hrem by lia.
  assert (Hq : Forall (unchanged cfg (runTicks cfg w outage).1) quiet).
  { eapply Forall_impl; [exact Hquiet|]. unfold unchanged. by rewrite Hcur. }
  destruct (unchanged_run cfg _ _ Hov Hq) as (_ & Hd & Hm).
  unfold runTicks in *. rewrite foldl_app. unfold IsHealthy. rewrite Hd, Hdeg, Hm.
  split_and!; [lia|done..].
Qed.

(** ** The refreshed entries and the built ones *)

(** The entry of the builder without its limit, cache and UI handler. *)
Definition unlimited (e : RegistryEntry) : RegistryEntry :=
  {| re_PrefixedName := re_PrefixedName e; re_OriginalName := re_OriginalName e;
     re_Upstream := re_Upstream e; re_MCPTool := re_MCPTool e; re_Transforms := re_Transforms e;
     re_ResponseFormat := re_ResponseFormat e; re_AuthRequired := re_AuthRequired e;
     re_Method := re_Method e; re_PathTemplate := re_PathTemplate e;
     re_Validator := re_Validator e; re_ValidationCfg := re_ValidationCfg e;
     re_OperationNode := re_OperationNode e; re_Executor := re_Executor e;
     re_Handler := re_Handler e; re_RateLimit := ""; re_UIHandler := None; re_CacheName := "" |}.

Lemma refreshEntries_spec `{HttpEnv, SpecLibs, Gojq, Numbers, Faker, Unicode}
    range_order allocTransforms ctxErr cfg doc router up mw tools entries :
  refreshEntries range_order allocTransforms ctxErr cfg doc router up mw tools = Ok entries ->
  Forall2 (fun gt e => exists vt, ValidateTool range_order allocTransforms ctxErr gt doc = Ok vt /\
             e = unlimited (builtEntry cfg up mw (set_Validator vt router))) tools entries.
Proof.
  revert entries. induction tools as [|gt tools IH]; intros entries; cbn; [intros [= <-]; constructor|].
  destruct (ValidateTool _ _ _ gt doc) as [vt|] eqn:Ev; [|done].
  intros (rest & Hrest & <-)%fmap_Ok. constructor; [|by apply IH]. by exists vt.
Qed.

(** A refresh rebuilds, for every tool of the new specification, the entry
    the builder would build over the same client, with three fields lost: the rate limit,
    the cache and the UI handler. Once published, a tool that was limited or
    cached at startup is neither. *)
Theorem refreshed_entries_unlimited `{HttpEnv, SpecLibs, Gojq, Numbers, Faker, Unicode}
    (range_order : list string -> list string)
    (alloc : InputSchema -> handle) (allocTransforms : CompiledTransforms -> handle)
    (ctxErr : nat -> option string) (pools : option (gmap string handle)) (ref : positive)
    (cfg : UpstreamConfig) (naming : NamingConfig) (bytes : string)
    (entries : list RegistryEntry) (doc : Document) (router : handle) (root : Node)
    (Hok : buildEntriesFromBytes range_order alloc allocTransforms ctxErr pools ref cfg naming bytes
             = Ok (entries, doc, router, root)) :
  Forall (fun e => re_RateLimit e = "" /\ re_CacheName e = "" /\ re_UIHandler e = None) entries /\
  exists tools client mw,
    GenerateTools (doc_Heap doc) range_order alloc cfg naming (doc_Paths doc) = Ok tools /\
    Forall2 (fun gt e => exists vt,
        ValidateTool range_order allocTransforms ctxErr gt doc = Ok vt /\
        e = unlimited (builtEntry cfg (newUpstream cfg ref client) mw (set_Validator vt router)))
      (withOperationNode root <$> tools) entries.
Proof.
  unfold buildEntriesFromBytes in Hok.
  destruct (LoadPipelineFromBytes _ _) as [[[doc' router'] root']|]; [|done].
  destruct (GenerateTools _ _ _ _ _ _) as [tools|] eqn:Egen; [|done].
  destruct (newMiddleware _ _ _) as [mw|]; [|done].
  destruct (NewHTTPClient cfg) as [client|]; [|done].
  apply bind_Ok in Hok as (es & He & [= -> -> -> ->]).
  apply refreshEntries_spec in He. split.
  - eapply Forall2_Forall_r; [exact He|]. apply Forall_true. by intros gt e (vt & _ & ->).
  - by exists tools, client, mw.
Qed.

(** ** A sample refresher *)
Module SampleRefresh.
#[local] Existing Instances SampleBuild.httpEnv SampleLibs.libs SampleEngine.engine
  SampleEngine.numbers SampleSchemas.faker SampleValidation.unicode.
Definition cfg : UpstreamConfig := {|
  uc_Name := "pets"; uc_Enabled := true; uc_ToolPrefix := "p"; uc_Type := "http"; uc_BaseURL := "";
  uc_Cache := "short"; uc_Timeout := 0; uc_TLSSkipVerify := false; uc_Headers := ∅;
  uc_Transport := zero_TransportConfig; uc_OpenAPI := SampleLibs.source; uc_Overlay := None;
  uc_StartupValidationTimeout := 0; uc_Validation := zero_ValidationConfig;
  uc_InboundAuthOverride := None; uc_OutboundAuth := zero_OutboundAuthConfig; uc_Commands := [];
  uc_Scripts := []; uc_RateLimit := "burst"; uc_CircuitBreaker := ""; uc_AppUI := None;
  uc_JSScriptPool := None |}.
Definition build (bytes : string)
    : result BuildError (list RegistryEntry * Document * handle * Node) :=
  buildEntriesFromBytes reverse SampleDoc.alloc SampleValidation.store (fun _ => None) None 1
    cfg (SampleDoc.naming "first_wins") bytes.

(** A manager that only knows which upstreams it serves, and rejects empty ones. *)
#[global] Instance manager : RegistryManager (gset string) := {|
  MgrError := string;
  mgr_Update m name es _ := match es with [] => (m, Some "empty") | _ => ({[name]} ∪ m, None) end;
  mgr_Remove m name := m ∖ {[name]};
  mgr_serves m name := name ∈ m |}.
#[global] Instance manager_laws : RegistryManagerLaws (gset string).
Proof. split; intros m name [|e es] root m'; cbn; intros; simplify_eq; set_solver. Qed.

Definition cycle (out : result string HttpResponse) : Cycle :=
  {| cy_spec := SampleLibs.network [out]; cy_overlay := SampleLibs.network []; cy_build := build;
     cy_checkedAt := 100; cy_overlayAt := 100; cy_storedAt := 101 |}.
Definition refused : Cycle := cycle (Err "refused").
Definition changed : Cycle := cycle (SampleLibs.respond 200 "v2" "spec").
Definition same : Cycle := cycle (SampleLibs.respond 304 "v1" "").
Definition broken : Cycle := cycle (SampleLibs.respond 200 "v3" "broken").
Definition snapshot : Snapshot :=
  {| sn_Doc := SampleValidation.document; sn_Router := 7; sn_CompiledTools := [];
     sn_SpecYAMLRoot := None; sn_SpecETag := "v1"; sn_OverlayETag := ""; sn_FetchedAt := 1;
     sn_cachedSpecBytes := Some "spec"; sn_cachedOverlayBytes := None |}.
Definition fresh : Refresher :=
  {| rf_current := snapshot; rf_failures := 0; rf_degraded := false; rf_lastOverlayFetch := None |}.
Definition start : Refresher * gset string := (fresh, {["pets"]}).
End SampleRefresh.

Lemma refresh_error_preserves_witness :
  exists err, (@refresh SampleLibs.libs _ _ SampleRefresh.cfg SampleRefresh.fresh {["pets"]}
                 SampleRefresh.broken).2 = Some err /\
    (@performAll _ _ SampleRefresh.cfg
       (@refresh SampleLibs.libs _ _ SampleRefresh.cfg SampleRefresh.fresh {["pets"]}
          SampleRefresh.broken).1 (SampleRefresh.fresh, {["pets"]})).1 = SampleRefresh.fresh.
Proof.
  eexists. split; [vm_compute; reflexivity|].
  eapply (@refresh_error_preserves SampleLibs.libs _ _ SampleRefresh.cfg). vm_compute. reflexivity.
Defined.

(** An outage, and then a new specification. *)
Lemma healthy_means_served_witness :
  let w := @runTicks SampleLibs.libs _ _ SampleRefresh.cfg SampleRefresh.start
             [SampleRefresh.refused; SampleRefresh.refused; SampleRefresh.changed] in
  IsHealthy SampleRefresh.cfg w.1 = negb (rf_degraded w.1) /\ rf_degraded w.1 = false.
Proof.
  intros w. split; [|vm_compute; reflexivity].
  eapply (@healthy_means_served SampleLibs.libs _ _ _ SampleRefresh.cfg SampleRefresh.fresh {["pets"]}).
  - done.
  - change ("pets" ∈ ({["pets"]} : gset string)). by apply elem_of_singleton.
  - eapply rtc_l; [apply (step_tick _ _ SampleRefresh.refused)|].
    eapply rtc_l; [apply (step_tick _ _ SampleRefresh.refused)|].
    eapply rtc_l; [apply (step_tick _ _ SampleRefresh.changed)|]. apply rtc_refl.
Defined.

Lemma failing_run_witness :
  let cys := [SampleRefresh.refused; SampleRefresh.broken; SampleRefresh.refused] in
  Z.of_nat (removals (@runWrites SampleLibs.libs _ _ SampleRefresh.cfg SampleRefresh.start cys)) = 1 /\
  rf_failures (@runTicks SampleLibs.libs _ _ SampleRefresh.cfg SampleRefresh.start cys).1 = 1.
Proof.
  intros cys.
  destruct (@failing_run SampleLibs.libs _ _ SampleRefresh.cfg SampleRefresh.start cys)
    as (_ & Hf & Hr & _); [vm_compute; done..|vm_compute; reflexivity|].
  split; [rewrite Hr; vm_compute; reflexivity|rewrite Hf; vm_compute; reflexivity].
Defined.

Lemma unchanged_never_recovers_witness :
  IsHealthy SampleRefresh.cfg
    (@runTicks SampleLibs.libs _ _ SampleRefresh.cfg SampleRefresh.start
       ([SampleRefresh.refused; SampleRefresh.refused] ++ replicate 5 SampleRefresh.same)).1 = false.
Proof.
  apply (@unchanged_never_recovers SampleLibs.libs _ _ SampleRefresh.cfg SampleRefresh.start);
    [vm_compute; done|reflexivity|reflexivity|vm_compute; reflexivity|reflexivity|].
  apply Forall_replicate. eexists. split; [vm_compute; reflexivity|reflexivity].
Defined.

Lemma refreshed_entries_unlimited_witness :
  exists entries doc router root,
    SampleRefresh.build "spec" = Ok (entries, doc, router, root) /\ length entries = 2%nat /\
    uc_RateLimit SampleRefresh.cfg = "burst" /\ Forall (fun e => re_RateLimit e = "") entries.
Proof.
  destruct (SampleRefresh.build "spec") as [[[[entries doc] router] root]|] eqn:E;
    [|exfalso; vm_compute in E; discriminate].
  exists entries, doc, router, root. split; [done|]. split; [|split; [reflexivity|]].
  - vm_compute in E. injection E as <- _ _ _. reflexivity.
  - destruct (@refreshed_entries_unlimited SampleBuild.httpEnv SampleLibs.libs SampleEngine.engine
      SampleEngine.numbers SampleSchemas.faker SampleValidation.unicode
      _ _ _ _ _ _ _ _ _ _ _ _ _ E) as [Hf _].
    eapply Forall_impl; [exact Hf|]. by intros e [-> _].
Defined.

(** The oauth2_user_session strategy cannot be refreshed. The manager gives the
    token store to a copy of the upstream's configuration; a refresher builds its
    middleware from the configuration itself, where the store is nil, so its
    initial load fails, and with it the start of the proxy. *)
Theorem user_session_refresh_fails `{HttpEnv, SpecLibs, Gojq, Numbers, Faker, Unicode} {M S : Type}
    `{RegistryManager M}
    (range_order : list string -> list string)
    (alloc : InputSchema -> handle) (allocTransforms : CompiledTransforms -> handle)
    (ctxErr : nat -> option string) (pools : option (gmap string handle)) (ref : positive)
    (cfg : UpstreamConfig) (naming : NamingConfig) (cy : Cycle)
    (Get : string -> result string (Z * string)) (DecodeFirst : string -> option value)
    (ExpandEnvVars : string -> string)
    (mux : Mux S) (factory : OutboundAuthConfig -> result string HttpUpstream.Middleware)
    (Hfactory : Generic.Get middlewares "outbound/oauth2_user_session" = Some factory)
    (Hprovider : forall oc err, newProvider Get DecodeFirst ExpandEnvVars oc mux = Err err ->
       is_ok (factory oc) = false)
    (Hstrategy : ouc_Strategy (uc_OutboundAuth cfg) = "oauth2_user_session")
    (Hcfg : ouc_OAuthTokenStore (uc_OutboundAuth cfg) = None)
    (Hbuild : forall bytes, cy_build cy bytes =
       buildEntriesFromBytes range_order alloc allocTransforms ctxErr pools ref cfg naming bytes) :
  is_ok (NewRefresher cfg cy) = false.
Proof.
  assert (Hmw : is_ok (newMiddleware middlewares
    ("outbound/" +:+ outboundStrategy (refreshAuth pools cfg)) (refreshAuth pools cfg)) = false).
  { unfold outboundStrategy. cbn [refreshAuth ouc_Strategy set_Upstream]. rewrite Hstrategy.
    rewrite bool_decide_false by done. unfold newMiddleware, callFactory.
    change ("outbound/" +:+ "oauth2_user_session") with "outbound/oauth2_user_session".
    rewrite Hfactory. assert (Hp : newProvider Get DecodeFirst ExpandEnvVars (refreshAuth pools cfg) mux
      = Err NoTokenStore) by (unfold newProvider; cbn; by rewrite Hcfg).
    apply Hprovider in Hp. by destruct (factory _). }
  assert (Hb : forall bytes, is_ok (cy_build cy bytes) = false).
  { intros bytes. rewrite Hbuild. unfold buildEntriesFromBytes.
    destruct (LoadPipelineFromBytes _ _) as [[[doc router] root]|]; [|done].
    destruct (GenerateTools _ _ _ _ _ _); [|done]. by destruct (newMiddleware _ _ _). }
  unfold NewRefresher, buildSnapshot. destruct (FetchSpecConditional _ _ _ _); [|done].
  destruct (fetchOverlay _ _ _ _ _) as [[[? ?] ?]|]; [|done]. destruct (applyOverlay _ _) as [merged|]; [|done].
  specialize (Hb (default "" merged)). by destruct (cy_build cy _).
Qed.

(** A middleware registry with the user-session strategy, and an upstream that uses it. *)
Module SampleUserSession.
Definition offline (_ : string) : result string (Z * string) := Err "offline".
Definition mux : Mux MemoryStore := OAuth.New (Some ∅) "key".
Definition factory (oc : OutboundAuthConfig) : result string HttpUpstream.Middleware :=
  match newProvider offline (fun _ => None) (fun s => s) oc mux with Ok _ => Ok (fun h => h) | Err _ => Err "refused" end.
#[local] Instance env : HttpEnv := {|
  middlewares := Generic.Register Generic.zero "outbound/oauth2_user_session" factory;
  BuildTransport _ := Ok 11%positive;
  allocClient _ := 12%positive;
  newExecutor _ := 13%positive;
  requestMiddleware t h := h;
  uiHandlerBuilder := None |}.
Definition auth : OutboundAuthConfig :=
  {| ouc_Strategy := "oauth2_user_session"; ouc_Bearer := zero_BearerOutboundConfig;
     ouc_APIKey := zero_APIKeyOutboundConfig; ouc_OAuth2ClientCredentials := zero_OAuth2CCConfig;
     ouc_OAuth2UserSession := zero_OAuth2UserSessionConfig; ouc_Lua := zero_LuaOutboundConfig;
     ouc_JS := zero_JSOutboundConfig; ouc_Upstream := ""; ouc_JSAuthPool := None;
     ouc_LuaAuthPool := None; ouc_OAuthTokenStore := None; ouc_OAuthCallbackReg := None |}.
Definition cfg : UpstreamConfig :=
  let c := SampleRefresh.cfg in {|
  uc_Name := uc_Name c; uc_Enabled := true; uc_ToolPrefix := uc_ToolPrefix c; uc_Type := "http";
  uc_BaseURL := ""; uc_Cache := ""; uc_Timeout := 0; uc_TLSSkipVerify := false; uc_Headers := ∅;
  uc_Transport := zero_TransportConfig; uc_OpenAPI := SampleLibs.source; uc_Overlay := None;
  uc_StartupValidationTimeout := 0; uc_Validation := zero_ValidationConfig;
  uc_InboundAuthOverride := None; uc_OutboundAuth := auth; uc_Commands := []; uc_Scripts := [];
  uc_RateLimit := ""; uc_CircuitBreaker := ""; uc_AppUI := None; uc_JSScriptPool := None |}.
Definition cy : Cycle :=
  {| cy_spec := SampleLibs.network [SampleLibs.respond 200 "v1" "spec"];
     cy_overlay := SampleLibs.network [];
     cy_build := @buildEntriesFromBytes env SampleLibs.libs SampleEngine.engine SampleEngine.numbers
       SampleSchemas.faker SampleValidation.unicode reverse SampleDoc.alloc SampleValidation.store
       (fun _ => None) None 1 cfg (SampleDoc.naming "first_wins");
     cy_checkedAt := 100; cy_overlayAt := 100; cy_storedAt := 101 |}.
End SampleUserSession.

Lemma user_session_refresh_fails_witness :
  is_ok (@NewRefresher SampleLibs.libs _ _ SampleUserSession.cfg SampleUserSession.cy) = false.
Proof.
  eapply (@user_session_refresh_fails SampleUserSession.env SampleLibs.libs SampleEngine.engine
    SampleEngine.numbers SampleSchemas.faker SampleValidation.unicode (gset string) MemoryStore _
    reverse SampleDoc.alloc SampleValidation.store (fun _ => None) None 1 SampleUserSession.cfg
    (SampleDoc.naming "first_wins") SampleUserSession.cy SampleUserSession.offline (fun _ => None) (fun s => s)
    SampleUserSession.mux SampleUserSession.factory).
  - reflexivity.
  - intros oc err He. unfold SampleUserSession.factory. by rewrite He.
  - reflexivity.
  - reflexivity.
  - done.
Defined.
