(* ===== verification/ConfigLoader.v ===== *)
(** * Loading and reloading the configuration (pkg/config/loader.go,
    pkg/telemetry/reload.go)

    The defaults of a configuration, and the loader that keeps the live one while
    the file changes: a watcher whose events restart a timer, and reloads that run
    on goroutines of their own.  The goga library, which merges defaults, file and
    environment, is a parameter, and so is the function that accepts a
    configuration. *)
From S2P Require Export Mcp.
Open Scope Z_scope.

Definition EnvPrefix : string := "MCP_ANYTHING".

(** The lowest-precedence source. *)
Definition scalarDefaults : list (string * value) :=
  [ ("server.port", VInt 8080);
    ("server.startup_validation_timeout", VString "30s");
    ("naming.separator", VString "__");
    ("naming.max_length", VInt 128);
    ("naming.conflict_resolution", VString "error");
    ("naming.description_max_length", VInt 1024);
    ("naming.description_truncation_suffix", VString "...");
    ("naming.default_slug_rules.replace_slashes", VBool true);
    ("naming.default_slug_rules.replace_braces", VBool true);
    ("naming.default_slug_rules.expand_camel_case", VBool true);
    ("naming.default_slug_rules.lowercase", VBool true);
    ("naming.default_slug_rules.collapse_separators", VBool true) ].

(** ** Defaults of the elements of [upstreams] *)

(** A lookup in a nil map finds nothing. *)
Definition rawField (raw : option (list (string * value))) (k : string) : option value :=
  raw ≫= assoc k.
Arguments rawField : simpl never.
Definition rawMap (v : option value) : option (list (string * value)) :=
  match v with Some (VObject kvs) => Some kvs | _ => None end.
Arguments rawMap : simpl never.
Definition present (raw : option (list (string * value))) (k : string) : bool :=
  match rawField raw k with Some _ => true | None => false end.

Definition applyValidationDefaults (rawUp : option (list (string * value))) (v : ValidationConfig)
    : ValidationConfig :=
  let rawVal := rawMap (rawField rawUp "validation") in
  {| vc_ValidateRequest :=
       if negb (present rawVal "validate_request") then true else vc_ValidateRequest v;
     vc_ValidateResponse :=
       if negb (present rawVal "validate_response") then true else vc_ValidateResponse v;
     vc_ResponseValidationFailure :=
       if bool_decide (vc_ResponseValidationFailure v = "") then "warn"
       else vc_ResponseValidationFailure v;
     vc_SuccessStatus :=
       if (length (vc_SuccessStatus v) =? 0)%nat then [200; 201; 202; 204] else vc_SuccessStatus v;
     vc_ErrorStatus :=
       if (length (vc_ErrorStatus v) =? 0)%nat then [400; 401; 403; 404; 422; 429; 500; 502; 503]
       else vc_ErrorStatus v |}.

(** The body of the loop: [rawUp] is the raw entry of the upstream. *)
Definition applyUpstreamDefaults (startupTimeout : Z) (rawUp : option (list (string * value)))
    (up : UpstreamConfig) : UpstreamConfig :=
  {| uc_Name := uc_Name up;
     uc_Enabled := if negb (present rawUp "enabled") then true else uc_Enabled up;
     uc_ToolPrefix := uc_ToolPrefix up; uc_Type := uc_Type up; uc_BaseURL := uc_BaseURL up;
     uc_Cache := uc_Cache up;
     uc_Timeout := if uc_Timeout up =? 0 then 10 * 10 ^ 9 else uc_Timeout up;
     uc_TLSSkipVerify := uc_TLSSkipVerify up; uc_Headers := uc_Headers up;
     uc_Transport := uc_Transport up; uc_OpenAPI := uc_OpenAPI up; uc_Overlay := uc_Overlay up;
     uc_StartupValidationTimeout :=
       if uc_StartupValidationTimeout up =? 0 then startupTimeout else uc_StartupValidationTimeout up;
     uc_Validation := applyValidationDefaults rawUp (uc_Validation up);
     uc_InboundAuthOverride := uc_InboundAuthOverride up; uc_OutboundAuth := uc_OutboundAuth up;
     uc_Commands := uc_Commands up; uc_Scripts := uc_Scripts up; uc_RateLimit := uc_RateLimit up;
     uc_CircuitBreaker := uc_CircuitBreaker up; uc_AppUI := uc_AppUI up;
     uc_JSScriptPool := uc_JSScriptPool up |}.

(** [k.Get("upstreams")] is [upstreams]. *)
Definition applyElementDefaults (cfg : ProxyConfig) (upstreams : option value) : ProxyConfig :=
  let rawUpstreams := match upstreams with Some (VArray vs) => vs | _ => [] end in
  {| pc_Server := pc_Server cfg; pc_Telemetry := pc_Telemetry cfg; pc_Naming := pc_Naming cfg;
     pc_Upstreams :=
       imap (fun i up => applyUpstreamDefaults (srv_StartupValidationTimeout (pc_Server cfg))
                           (rawMap (rawUpstreams !! i)) up) (pc_Upstreams cfg);
     pc_InboundAuth := pc_InboundAuth cfg; pc_Groups := pc_Groups cfg; pc_Runtime := pc_Runtime cfg;
     pc_TokenCounting := pc_TokenCounting cfg; pc_RateLimits := pc_RateLimits cfg;
     pc_RateLimitStore := pc_RateLimitStore cfg; pc_ToolSearch := pc_ToolSearch cfg;
     pc_SessionStore := pc_SessionStore cfg; pc_Caches := pc_Caches cfg;
     pc_CacheStore := pc_CacheStore cfg; pc_CircuitBreakers := pc_CircuitBreakers cfg |}.

(** goga's [Load] over defaults, a required file and an environment prefix: the
    decoded value and what [k.Get("upstreams")] gives.  [F] is the file system and
    the environment. *)
Class Goga (F : Type) := {
  gogaLoad : list (string * value) -> string -> string -> F -> result string (ProxyConfig * option value)
}.

Inductive LoadError :=
  | LoadingConfig (path err : string)
  | InitialLoad (path err : string)
  | InitialValidation (err : string).

Section Loader.
Context {F M : Type} `{Goga F}.
(** [onLoad], with what it keeps *)
Context (onLoad : ProxyConfig -> M -> option string * M).
Implicit Types (f : F) (m : M).

Definition loadOptions (path : string) f : result string (ProxyConfig * option value) :=
  gogaLoad scalarDefaults path EnvPrefix f.

Definition Load (path : string) f : result LoadError ProxyConfig :=
  match loadOptions path f with
  | Err err => Err (LoadingConfig path err)
  | Ok (value, upstreams) => Ok (applyElementDefaults value upstreams)
  end.

(** ** The loader *)
Record Loader := {
  ld_path : string;
  ld_current : ProxyConfig
}.

Definition NewLoader (path : string) f m : result LoadError Loader * M :=
  match Load path f with
  | Err (LoadingConfig p err) => (Err (InitialLoad p err), m)
  | Err err => (Err err, m)
  | Ok cfg =>
    match onLoad cfg m with
    | (Some err, m) => (Err (InitialValidation err), m)
    | (None, m) => (Ok {| ld_path := path; ld_current := cfg |}, m)
    end
  end.

Definition Current (l : Loader) : ProxyConfig := ld_current l.

(** The counters of telemetry/reload.go. *)
Record ReloadCounters := { configReloadTotal : Z; configReloadErrors : Z }.
Definition IncrConfigReloadTotal (c : ReloadCounters) : ReloadCounters :=
  {| configReloadTotal := wrap64 (configReloadTotal c + 1); configReloadErrors := configReloadErrors c |}.
Definition IncrConfigReloadErrors (c : ReloadCounters) : ReloadCounters :=
  {| configReloadTotal := configReloadTotal c; configReloadErrors := wrap64 (configReloadErrors c + 1) |}.

(** The state around a loader: files and environment, the current configuration,
    what [onLoad] keeps, the counters, whether [Watch] is in its loop, whether the
    debounce timer runs, and the reloads that were started. *)
Inductive phase :=
  | Started
  | Loaded (cfg : ProxyConfig)
  | Accepted (cfg : ProxyConfig)
  | Ended.

Record World := {
  w_files : F;
  w_loader : Loader;
  w_kept : M;
  w_counters : ReloadCounters;
  w_watching : bool;
  w_timer : bool;
  w_reloads : gmap nat phase
}.

Definition set_reload (w : World) (l : Loader) (m : M) (c : ReloadCounters) (i : nat) (ph : phase) : World :=
  {| w_files := w_files w; w_loader := l; w_kept := m; w_counters := c; w_watching := w_watching w;
     w_timer := w_timer w; w_reloads := <[i := ph]> (w_reloads w) |}.

(** What [tryReload] does from one access to shared state to the next. *)
Definition advance (w : World) (i : nat) (ph : phase) : World :=
  let l := w_loader w in
  match ph with
  | Started =>
    let c := IncrConfigReloadTotal (w_counters w) in
    match Load (ld_path l) (w_files w) with
    | Err _ => set_reload w l (w_kept w) (IncrConfigReloadErrors c) i Ended
    | Ok cfg => set_reload w l (w_kept w) c i (Loaded cfg)
    end
  | Loaded cfg =>
    match onLoad cfg (w_kept w) with
    | (Some _, m) => set_reload w l m (IncrConfigReloadErrors (w_counters w)) i Ended
    | (None, m) => set_reload w l m (w_counters w) i (Accepted cfg)
    end
  | Accepted cfg =>
    set_reload w {| ld_path := ld_path l; ld_current := cfg |} (w_kept w) (w_counters w) i Ended
  | Ended => w
  end.

(** [tryReload] when nothing interrupts it. *)
Definition tryReload (l : Loader) f m (c : ReloadCounters) : Loader * M * ReloadCounters :=
  let c := IncrConfigReloadTotal c in
  match Load (ld_path l) f with
  | Err _ => (l, m, IncrConfigReloadErrors c)
  | Ok cfg =>
    match onLoad cfg m with
    | (Some _, m) => (l, m, IncrConfigReloadErrors c)
    | (None, m) => ({| ld_path := ld_path l; ld_current := cfg |}, m, c)
    end
  end.

(** ** Watching *)
Inductive watchEvent :=
  | FileEvent (create write : bool)
  | WatchError.

Definition with_timer (w : World) (watching timer : bool) (reloads : gmap nat phase) : World :=
  {| w_files := w_files w; w_loader := w_loader w; w_kept := w_kept w; w_counters := w_counters w;
     w_watching := watching; w_timer := timer; w_reloads := reloads |}.

(** One turn of the loop of [Watch]: a new timer replaces the one that runs. *)
Definition watchTurn (w : World) (ev : watchEvent) : World :=
  match ev with
  | FileEvent create write =>
    if negb (create || write) then w else with_timer w (w_watching w) true (w_reloads w)
  | WatchError => w
  end.

Inductive watch_step : World -> World -> Prop :=
  | step_event w ev : w_watching w = true -> watch_step w (watchTurn w ev)
  | step_done w : w_watching w = true -> watch_step w (with_timer w false false (w_reloads w))
  | step_fire w i : w_timer w = true -> w_reloads w !! i = None ->
      watch_step w (with_timer w (w_watching w) false (<[i := Started]> (w_reloads w)))
  | step_reload w i ph : w_reloads w !! i = Some ph -> watch_step w (advance w i ph)
  | step_files w f : watch_step w
      {| w_files := f; w_loader := w_loader w; w_kept := w_kept w; w_counters := w_counters w;
         w_watching := w_watching w; w_timer := w_timer w; w_reloads := w_reloads w |}.

(** ** Facts *)

(** Each upstream gets its defaults and keeps the rest. *)
Lemma Load_upstreams path f cfg i up :
  Load path f = Ok cfg -> pc_Upstreams cfg !! i = Some up ->
  exists value upstreams raw up0, loadOptions path f = Ok (value, upstreams) /\
    pc_Upstreams value !! i = Some up0 /\
    raw = rawMap ((match upstreams with Some (VArray vs) => vs | _ => [] end) !! i) /\
    up = applyUpstreamDefaults (srv_StartupValidationTimeout (pc_Server value)) raw up0.
Proof.
  unfold Load. destruct (loadOptions path f) as [[value upstreams]|]; [|done]. intros [= <-].
  cbn [pc_Upstreams applyElementDefaults]. rewrite list_lookup_imap.
  destruct (pc_Upstreams value !! i) as [up0|] eqn:E0; [|done]. intros [= <-]. eauto 10.
Qed.

Lemma default_true raw k b : (if negb (present raw k) then true else b) = true <-> rawField raw k = None \/ b = true.
Proof.
  unfold present. destruct (rawField raw k); cbn; split; [by right|by intros [?|?]|by left|done].
Qed.

(** An upstream of a loaded configuration is enabled unless its entry says
    otherwise, and so are its validations; its time-outs and lists are set. *)
Theorem Load_defaults (path : string) f (cfg : ProxyConfig) (i : nat) (up : UpstreamConfig)
    (Hload : Load path f = Ok cfg) (Hup : pc_Upstreams cfg !! i = Some up) :
  exists value upstreams up0, loadOptions path f = Ok (value, upstreams) /\
    pc_Upstreams value !! i = Some up0 /\
    let raw := rawMap ((match upstreams with Some (VArray vs) => vs | _ => [] end) !! i) in
    let rawVal := rawMap (rawField raw "validation") in
    uc_Name up = uc_Name up0 /\
    (uc_Enabled up = true <-> rawField raw "enabled" = None \/ uc_Enabled up0 = true) /\
    (vc_ValidateRequest (uc_Validation up) = true <->
       rawField rawVal "validate_request" = None \/ vc_ValidateRequest (uc_Validation up0) = true) /\
    (vc_ValidateResponse (uc_Validation up) = true <->
       rawField rawVal "validate_response" = None \/ vc_ValidateResponse (uc_Validation up0) = true) /\
    uc_Timeout up <> 0 /\
    (uc_StartupValidationTimeout up = 0 <->
       uc_StartupValidationTimeout up0 = 0 /\ srv_StartupValidationTimeout (pc_Server value) = 0) /\
    vc_ResponseValidationFailure (uc_Validation up) <> "" /\
    vc_SuccessStatus (uc_Validation up) <> [] /\ vc_ErrorStatus (uc_Validation up) <> [].
Proof.
  destruct (Load_upstreams _ _ _ _ _ Hload Hup) as (value & ups & raw & up0 & Hl & H0 & -> & ->).
  exists value, ups, up0. split; [done|]. split; [done|].
  set (raw := rawMap _). intros rawVal. cbn. fold rawVal.
  split_and!; [done| | | | | | | |].
  - apply default_true.
  - apply default_true.
  - apply default_true.
  - destruct (Z.eqb_spec (uc_Timeout up0) 0); [lia|done].
  - destruct (Z.eqb_spec (uc_StartupValidationTimeout up0) 0); lia.
  - case_bool_decide; done.
  - by destruct (vc_SuccessStatus _).
  - by destruct (vc_ErrorStatus _).
Qed.

(** The configuration is one that [onLoad] accepted. *)
Definition accepted (cfg : ProxyConfig) : Prop := exists m, (onLoad cfg m).1 = None.

Lemma NewLoader_accepted path f m l m' : NewLoader path f m = (Ok l, m') -> accepted (Current l).
Proof.
  unfold NewLoader. destruct (Load path f) as [cfg|[]]; [|done..].
  destruct (onLoad cfg m) as [[err|] m1] eqn:E; [done|]. intros [= <- _]. exists m. cbn. by rewrite E.
Qed.

Definition served (w : World) : Prop :=
  accepted (Current (w_loader w)) /\
  forall i cfg, w_reloads w !! i = Some (Accepted cfg) -> accepted cfg.

Lemma served_set w l m c i ph : served w -> accepted (Current l) ->
  (forall cfg, ph = Accepted cfg -> accepted cfg) -> served (set_reload w l m c i ph).
Proof.
  intros [_ Hr] Hl Hph. split; [done|]. cbn. intros j cfg Hj.
  apply lookup_insert_Some in Hj as [[_ ->]|[_ Hj]]; [by apply Hph|by eapply Hr].
Qed.

Lemma served_step w w' : served w -> watch_step w w' -> served w'.
Proof.
  intros Hs. pose proof Hs as [Hc Hr]. inversion 1; subst; [| | | |by split].
  - destruct ev as [create write|]; [|done]. cbn. destruct (negb _); [done|by split].
  - by split.
  - split; [done|]. cbn. intros j cfg Hj.
    apply lookup_insert_Some in Hj as [[_ ?]|[_ Hj]]; [done|by eapply Hr].
  - destruct ph as [|cfg|cfg|]; cbn; [| | |done].
    + destruct (Load _ _); by apply served_set.
    + destruct (onLoad cfg (w_kept w)) as [[err|] m] eqn:E; apply served_set; try done.
      intros cfg' [= <-]. exists (w_kept w). by rewrite E.
    + apply served_set; [done| |done]. by eapply Hr.
Qed.

Lemma step_path w w' : watch_step w w' -> ld_path (w_loader w') = ld_path (w_loader w).
Proof.
  inversion 1; subst; try done.
  - destruct ev as [create write|]; [|done]. cbn. by destruct (negb _).
  - destruct ph as [|cfg|cfg|]; cbn; [by destruct (Load _ _)|by destruct (onLoad _ _) as [[]]|done|done].
Qed.


(** ** Overlapping reloads *)
Lemma set_reload_twice w l m c i ph l' m' c' ph' :
  set_reload (set_reload w l m c i ph) l' m' c' i ph' = set_reload w l' m' c' i ph'.
Proof. unfold set_reload. cbn. by rewrite insert_insert_eq. Qed.

Lemma reload_step w i ph w' : w_reloads w !! i = Some ph -> advance w i ph = w' -> watch_step w w'.
Proof. intros Hi <-. by apply step_reload. Qed.

Lemma reload_lookup w l m c i ph : w_reloads (set_reload w l m c i ph) !! i = Some ph.
Proof. apply lookup_insert_eq. Qed.

(** The steps of a reload that nothing comes between are [tryReload]. *)
Lemma advance_alone w i : w_reloads w !! i = Some Started ->
  let r := tryReload (w_loader w) (w_files w) (w_kept w) (w_counters w) in
  reachable watch_step w (set_reload w r.1.1 r.1.2 r.2 i Ended).
Proof.
  intros Hi. unfold tryReload. destruct (Load _ _) as [cfg|e] eqn:El.
  2:{ apply rtc_once. eapply reload_step; [exact Hi|]. cbn. by rewrite El. }
  eapply rtc_l.
  { eapply reload_step; [exact Hi|]. cbn. by rewrite El. }
  destruct (onLoad cfg (w_kept w)) as [[err|] m] eqn:Eo.
  - apply rtc_once. eapply reload_step; [apply reload_lookup|]. cbn. rewrite Eo.
    by rewrite set_reload_twice.
  - eapply rtc_l.
    { eapply reload_step; [apply reload_lookup|]. cbn. by rewrite Eo. }
    apply rtc_once. eapply reload_step; [apply reload_lookup|]. cbn. by rewrite !set_reload_twice.
Qed.

(** A loader that watches and has nothing to do. *)
Definition idle (w : World) : Prop :=
  w_watching w = true /\ w_timer w = false /\
  forall i ph, w_reloads w !! i = Some ph -> ph = Ended.

(** Reloads are not ordered: [Stop] does not wait for a timer that has fired, so a
    reload of an old file that is slow to be accepted overtakes the reload of the
    file that replaced it.  The loader ends idle with the old configuration live,
    and nothing makes it look at the file again. *)
Theorem stale_reload_wins (w : World) f1 f2 c1 c2 m2 m1
    (Hidle : idle w)
    (H1 : Load (ld_path (w_loader w)) f1 = Ok c1) (H2 : Load (ld_path (w_loader w)) f2 = Ok c2)
    (Ha2 : onLoad c2 (w_kept w) = (None, m2)) (Ha1 : onLoad c1 m2 = (None, m1)) :
  exists w', reachable watch_step w w' /\ idle w' /\
    w_files w' = f2 /\ Current (w_loader w') = c1 /\ w_kept w' = m1.
Proof.
  destruct Hidle as (Hwatch & Htimer & Hended).
  set (i := fresh (dom (w_reloads w))). set (j := fresh ({[i]} ∪ dom (w_reloads w))).
  assert (Hi : w_reloads w !! i = None) by (apply not_elem_of_dom, is_fresh).
  assert (Hj : j <> i /\ w_reloads w !! j = None).
  { pose proof (is_fresh ({[i]} ∪ dom (w_reloads w))) as Hf. fold j in Hf.
    apply not_elem_of_union in Hf as [? ?%not_elem_of_dom]. split; [set_solver|done]. }
  destruct Hj as [Hji Hj]. destruct w as [f l m c wa ti rs]. cbn in *. subst wa ti.
  set (tot := IncrConfigReloadTotal).
  set (at_ f l m c t rs := {| w_files := f; w_loader := l; w_kept := m; w_counters := c;
                              w_watching := true; w_timer := t; w_reloads := rs |}).
  exists (at_ f2 {| ld_path := ld_path l; ld_current := c1 |} m1 (tot (tot c)) false
            (<[i := Ended]> (<[j := Ended]> (<[i := Loaded c1]> rs)))).
  split; [|split; [unfold idle; split_and!; [done..|]|done]].
  2:{ cbn. intros k ph. rewrite !lookup_insert_Some. intros Hk. repeat destruct Hk as [[? ?]|[? Hk]];
      try congruence. by eapply Hended. }
  (* the old file: an event, the timer fires, the reload reads it *)
  eapply rtc_l; [apply (step_files _ f1)|]. eapply rtc_l; [by apply (step_event _ (FileEvent true true))|].
  eapply rtc_l; [by apply (step_fire _ i)|]. cbn.
  eapply rtc_l; [eapply (reload_step _ i Started); [apply lookup_insert_eq|cbn; by rewrite H1]|].
  (* the new file, in the same way, up to the end *)
  eapply rtc_l; [apply (step_files _ f2)|]. eapply rtc_l; [by apply (step_event _ (FileEvent true true))|].
  eapply rtc_l; [apply (step_fire _ j); [done|]; cbn; by rewrite !lookup_insert_ne|]. cbn.
  eapply rtc_l; [eapply (reload_step _ j Started); [apply lookup_insert_eq|cbn; by rewrite H2]|].
  eapply rtc_l; [eapply (reload_step _ j (Loaded c2)); [apply lookup_insert_eq|cbn; by rewrite Ha2]|].
  eapply rtc_l; [eapply (reload_step _ j (Accepted c2)); [apply lookup_insert_eq|cbn; reflexivity]|].
  (* the reload of the old file is accepted last *)
  eapply rtc_l.
  { eapply (reload_step _ i (Loaded c1)); [cbn; by rewrite !lookup_insert_ne, lookup_insert_eq by done|].
    cbn. by rewrite Ha1. }
  eapply rtc_l; [eapply (reload_step _ i (Accepted c1)); [apply lookup_insert_eq|cbn; reflexivity]|].
  unfold set_reload. cbn. rewrite !insert_insert_eq. apply rtc_refl.
Qed.
End Loader.

(** ** A sample: a file with one upstream whose port changes *)
Module SampleLoader.
(** The file: the port, or no file. *)
Abbreviation File := (option Z).
Definition serverOn (port : Z) : ServerConfig := {|
  srv_Port := port; srv_ReadTimeout := 0; srv_WriteTimeout := 0; srv_ShutdownTimeout := 0;
  srv_MaxRequestBody := ""; srv_StartupValidationTimeout := 30 * 10 ^ 9; srv_TLS := zero_ServerTLSConfig |}.
Definition decoded (port : Z) : ProxyConfig :=
  {| pc_Server := serverOn port; pc_Telemetry := zero_TelemetryConfig; pc_Naming := zero_NamingConfig;
     pc_Upstreams := [zero_UpstreamConfig]; pc_InboundAuth := zero_InboundAuthConfig; pc_Groups := [];
     pc_Runtime := zero_RuntimeConfig; pc_TokenCounting := zero_TokenCountingConfig; pc_RateLimits := ∅;
     pc_RateLimitStore := zero_RateLimitStoreConfig; pc_ToolSearch := None;
     pc_SessionStore := zero_SessionStoreConfig; pc_Caches := ∅; pc_CacheStore := zero_CacheStoreConfig;
     pc_CircuitBreakers := ∅ |}.
Definition raw : value :=
  VArray [VObject [("name", VString "web"); ("validation", VObject [("validate_request", VBool false)])]].
#[local] Instance goga : Goga File := {|
  gogaLoad _ _ _ f := match f with Some port => Ok (decoded port, Some raw) | None => Err "no such file" end |}.
(** Refuses port 0; keeps the ports it accepted. *)
Definition onLoad (cfg : ProxyConfig) (m : list Z) : option string * list Z :=
  if decide (srv_Port (pc_Server cfg) = 0) then (Some "port 0", m)
  else (None, srv_Port (pc_Server cfg) :: m).
Definition live (port : Z) : ProxyConfig := applyElementDefaults (decoded port) (Some raw).
Definition counters : ReloadCounters := {| configReloadTotal := 0; configReloadErrors := 0 |}.
Definition start : World (F := File) (M := list Z) :=
  {| w_files := Some 1; w_loader := {| ld_path := "/etc/c.yaml"; ld_current := live 1 |}; w_kept := [1];
     w_counters := counters; w_watching := true; w_timer := false; w_reloads := ∅ |}.
End SampleLoader.

Section LoaderWitnesses.
#[local] Existing Instance SampleLoader.goga.
Import SampleLoader.

Lemma Load_defaults_witness :
  exists up, pc_Upstreams (live 1) !! 0%nat = Some up /\ uc_Enabled up = true /\
    vc_ValidateRequest (uc_Validation up) = false /\ uc_Timeout up <> 0.
Proof.
  assert (Hl1 : Load "/etc/c.yaml" (Some 1) = Ok (live 1)) by reflexivity.
  assert (Hu : pc_Upstreams (live 1) !! 0%nat = Some (hd zero_UpstreamConfig (pc_Upstreams (live 1))))
    by reflexivity.
  eexists. split; [exact Hu|].
  destruct (Load_defaults (F := File) "/etc/c.yaml" (Some 1) (live 1) 0 _ Hl1 Hu)
    as (v & ups & up0 & Hl & H0 & _ & He & _ & _ & Ht & _).
  injection Hl as <- <-. split; [apply He; by left|]. split; [reflexivity|exact Ht].
Defined.


Lemma stale_reload_wins_witness : exists w,
  reachable (watch_step onLoad) start w /\ w_files w = Some 3 /\
  srv_Port (pc_Server (Current (w_loader w))) = 2 /\ w_kept w = [2; 3; 1].
Proof.
  destruct (stale_reload_wins onLoad start (Some 2) (Some 3) (live 2) (live 3) [3; 1] [2; 3; 1])
    as (w & Hrun & _ & Hf & Hc & Hk); try reflexivity.
  - split_and!; [done..|]. intros i ph. cbn. by rewrite lookup_empty.
  - exists w. rewrite Hc. by split_and!.
Defined.
End LoaderWitnesses.
