(* ===== verification/Transport.v ===== *)
(** * Transports and TLS (pkg/transport: transport.go, tls.go)

    From an upstream's transport configuration to the settings of an HTTP
    transport, and from the server's to the settings of its listener.  Reading
    files, parsing certificates and URLs, and the SOCKS5 client are parameters;
    sockets and handshakes are not modelled. *)
From S2P Require Export Config Prelude.
Open Scope Z_scope.

Definition VersionTLS10 : Z := 769.
Definition VersionTLS11 : Z := 770.
Definition VersionTLS12 : Z := 771.
Definition VersionTLS13 : Z := 772.

Inductive ClientAuthType := NoClientCert | RequestClientCert | RequireAndVerifyClientCert.

Inductive TLSError :=
  | UnsupportedVersion (field v : string)
  | UnsupportedClientAuth (mode : string)
  | ReadingCA (path err : string)
  | NoCertificate (path : string)
  | IncompleteClientPair
  | LoadingCertificate (err : string).

Definition parseTLSVersion (field v : string) : result TLSError Z :=
  if bool_decide (v = "1.0") then Ok VersionTLS10
  else if bool_decide (v = "1.1") then Ok VersionTLS11
  else if bool_decide (v = "1.2") then Ok VersionTLS12
  else if bool_decide (v = "1.3") then Ok VersionTLS13
  else Err (UnsupportedVersion field v).

Definition parseClientAuth (s : string) : result TLSError ClientAuthType :=
  if bool_decide (s = "") || bool_decide (s = "none") then Ok NoClientCert
  else if bool_decide (s = "request") then Ok RequestClientCert
  else if bool_decide (s = "require_and_verify") then Ok RequireAndVerifyClientCert
  else Err (UnsupportedClientAuth s).

(** Files and certificates: [AppendCertsFromPEM] on a new pool. *)
Class CertEnv := {
  CertPool : Type;
  Certificate : Type;
  readFile : string -> result string string;
  certPoolFromPEM : string -> option CertPool;
  LoadX509KeyPair : string -> string -> result string Certificate
}.

(** The URL of a proxy: scheme, host and, for a user, name and password. *)
Record ProxyURL := {
  prx_Scheme : string;
  prx_Host : string;
  prx_User : option (string * option string)
}.

Section Tls.
Context `{CertEnv}.

(** [tls.Config]: an unset version is 0, a nil pool is [None]. *)
Record TlsSettings := {
  ts_InsecureSkipVerify : bool;
  ts_ServerName : string;
  ts_MinVersion : Z;
  ts_MaxVersion : Z;
  ts_SessionCache : Z;
  ts_RootCAs : option CertPool;
  ts_Certificates : list Certificate;
  ts_ClientAuth : ClientAuthType;
  ts_ClientCAs : option CertPool
}.

Definition loadPool (path : string) : result TLSError CertPool :=
  match readFile path with
  | Err err => Err (ReadingCA path err)
  | Ok pem =>
    match certPoolFromPEM pem with
    | None => Err (NoCertificate path)
    | Some pool => Ok pool
    end
  end.

Definition optionalPool (path : string) : result TLSError (option CertPool) :=
  if bool_decide (path <> "") then Some <$> loadPool path else Ok None.

Definition minVersion (v : string) : result TLSError Z :=
  if bool_decide (v <> "") then parseTLSVersion "min_version" v else Ok VersionTLS12.

Definition clientCertificates (cfg : TLSConfig) : result TLSError (list Certificate) :=
  if bool_decide (tls_ClientCertPath cfg <> "") || bool_decide (tls_ClientKeyPath cfg <> "") then
    if bool_decide (tls_ClientCertPath cfg = "") || bool_decide (tls_ClientKeyPath cfg = "")
    then Err IncompleteClientPair
    else
      match LoadX509KeyPair (tls_ClientCertPath cfg) (tls_ClientKeyPath cfg) with
      | Err err => Err (LoadingCertificate err)
      | Ok cert => Ok [cert]
      end
  else Ok [].

Definition BuildTLSConfig (cfg : TLSConfig) : result TLSError TlsSettings :=
  minVer ← minVersion (tls_MinVersion cfg);
  maxVer ← (if bool_decide (tls_MaxVersion cfg <> "")
            then parseTLSVersion "max_version" (tls_MaxVersion cfg) else Ok 0);
  roots ← optionalPool (tls_RootCAPath cfg);
  certs ← clientCertificates cfg;
  Ok {| ts_InsecureSkipVerify := tls_InsecureSkipVerify cfg; ts_ServerName := tls_ServerName cfg;
        ts_MinVersion := minVer; ts_MaxVersion := maxVer;
        ts_SessionCache := if tls_SessionCacheSize cfg <=? 0 then 64 else tls_SessionCacheSize cfg;
        ts_RootCAs := roots; ts_Certificates := certs; ts_ClientAuth := NoClientCert;
        ts_ClientCAs := None |}.

Definition BuildServerTLSConfig (cfg : ServerTLSConfig) : result TLSError TlsSettings :=
  match LoadX509KeyPair (stls_CertPath cfg) (stls_KeyPath cfg) with
  | Err err => Err (LoadingCertificate err)
  | Ok cert =>
    minVer ← minVersion (stls_MinVersion cfg);
    clientAuth ← parseClientAuth (stls_ClientAuth cfg);
    clientCAs ← optionalPool (stls_ClientCAPath cfg);
    Ok {| ts_InsecureSkipVerify := false; ts_ServerName := ""; ts_MinVersion := minVer;
          ts_MaxVersion := 0; ts_SessionCache := 0; ts_RootCAs := None; ts_Certificates := [cert];
          ts_ClientAuth := clientAuth; ts_ClientCAs := clientCAs |}
  end.

(** ** Transports *)
Inductive TransportError :=
  | TLSFailed (err : TLSError)
  | ParsingProxy (url err : string)
  | CreatingSOCKS5 (err : string).

(** How connections are made: directly, or through a SOCKS5 server with its
    credentials. *)
Inductive Dial :=
  | DialDirect
  | DialSOCKS5 (host : string) (auth : option (string * string)).

(** [http.Transport] *)
Record HttpTransport := {
  ht_TLS : TlsSettings;
  ht_MaxIdleConns : Z;
  ht_MaxIdleConnsPerHost : Z;
  ht_IdleConnTimeout : Z;
  ht_ResponseHeaderTimeout : Z;
  ht_ForceAttemptHTTP2 : bool;
  ht_DialTimeout : Z;
  ht_DialKeepAlive : Z;
  ht_Dial : Dial;
  ht_Proxy : option ProxyURL
}.

(** [url.Parse] and [proxy.SOCKS5] *)
Context (parseProxyURL : string -> result string ProxyURL).
Context (newSOCKS5 : string -> option (string * string) -> option string).

Definition socksAuth (u : ProxyURL) : option (string * string) :=
  match prx_User u with None => None | Some (user, pw) => Some (user, default "" pw) end.

Definition withProxy (t : HttpTransport) (dial : Dial) (proxy : option ProxyURL) : HttpTransport :=
  {| ht_TLS := ht_TLS t; ht_MaxIdleConns := ht_MaxIdleConns t;
     ht_MaxIdleConnsPerHost := ht_MaxIdleConnsPerHost t; ht_IdleConnTimeout := ht_IdleConnTimeout t;
     ht_ResponseHeaderTimeout := ht_ResponseHeaderTimeout t;
     ht_ForceAttemptHTTP2 := ht_ForceAttemptHTTP2 t; ht_DialTimeout := ht_DialTimeout t;
     ht_DialKeepAlive := ht_DialKeepAlive t; ht_Dial := dial; ht_Proxy := proxy |}.

Definition applyProxy (t : HttpTransport) (rawURL : string) : result TransportError HttpTransport :=
  match parseProxyURL rawURL with
  | Err err => Err (ParsingProxy rawURL err)
  | Ok u =>
    if bool_decide (prx_Scheme u = "socks5") || bool_decide (prx_Scheme u = "socks5h") then
      match newSOCKS5 (prx_Host u) (socksAuth u) with
      | Some err => Err (CreatingSOCKS5 err)
      | None => Ok (withProxy t (DialSOCKS5 (prx_Host u) (socksAuth u)) (ht_Proxy t))
      end
    else Ok (withProxy t (ht_Dial t) (Some u))
  end.

Definition orDefault (dflt v : Z) : Z := if v =? 0 then dflt else v.

Definition BuildTransport (cfg : TransportConfig) : result TransportError HttpTransport :=
  match BuildTLSConfig (trc_TLS cfg) with
  | Err err => Err (TLSFailed err)
  | Ok tlsCfg =>
    let t := {| ht_TLS := tlsCfg;
                ht_MaxIdleConns := orDefault 100 (trc_MaxIdleConns cfg);
                ht_MaxIdleConnsPerHost := orDefault 10 (trc_MaxIdleConnsPerHost cfg);
                ht_IdleConnTimeout := orDefault (90 * 10 ^ 9) (trc_IdleConnTimeout cfg);
                ht_ResponseHeaderTimeout := trc_ResponseHeaderTimeout cfg;
                ht_ForceAttemptHTTP2 := trc_ForceHTTP2 cfg;
                ht_DialTimeout := orDefault (30 * 10 ^ 9) (trc_DialTimeout cfg);
                ht_DialKeepAlive := orDefault (30 * 10 ^ 9) (trc_DialKeepalive cfg);
                ht_Dial := DialDirect; ht_Proxy := None |} in
    if bool_decide (trc_ProxyURL cfg <> "") then applyProxy t (trc_ProxyURL cfg) else Ok t
  end.
End Tls.

(** ** Facts *)
Section TlsFacts.
Context `{CertEnv}.

Lemma parseTLSVersion_range field v n : parseTLSVersion field v = Ok n ->
  VersionTLS10 <= n <= VersionTLS13 /\ (v <> "1.0" -> v <> "1.1" -> VersionTLS12 <= n).
Proof.
  unfold parseTLSVersion. unfold VersionTLS10, VersionTLS11, VersionTLS12, VersionTLS13.
  repeat case_bool_decide; intros [= <-]; subst; split; lia || done.
Qed.

Lemma minVersion_floor v n : minVersion v = Ok n ->
  v <> "1.0" -> v <> "1.1" -> VersionTLS12 <= n.
Proof.
  unfold minVersion. case_bool_decide; [|by intros [= <-]].
  intros Hp. by apply parseTLSVersion_range in Hp as [_ ?].
Qed.

Lemma optionalPool_Some path pool : optionalPool path = Ok pool -> (path <> "" <-> is_Some pool).
Proof.
  unfold optionalPool. case_bool_decide as Hp.
  - intros (p & _ & <-)%fmap_Ok. split; [by eexists|done].
  - intros [= <-]. split; [done|by intros []].
Qed.

(** What a client's TLS settings promise: nothing below TLS 1.2 unless the
    configuration names an older version, verification unless it is switched off,
    the given authorities and no others, and a client certificate exactly when both
    its files are given. *)
Theorem BuildTLSConfig_promises (cfg : TLSConfig) (ts : TlsSettings) (Hok : BuildTLSConfig cfg = Ok ts) :
  (tls_MinVersion cfg <> "1.0" -> tls_MinVersion cfg <> "1.1" -> VersionTLS12 <= ts_MinVersion ts) /\
  ts_InsecureSkipVerify ts = tls_InsecureSkipVerify cfg /\
  (tls_RootCAPath cfg <> "" <-> is_Some (ts_RootCAs ts)) /\
  (ts_Certificates ts <> [] <-> tls_ClientCertPath cfg <> "" /\ tls_ClientKeyPath cfg <> "") /\
  0 < ts_SessionCache ts.
Proof.
  unfold BuildTLSConfig in Hok. apply bind_Ok in Hok as (minVer & Hmin & Hok).
  apply bind_Ok in Hok as (maxVer & _ & Hok). apply bind_Ok in Hok as (roots & Hr & Hok).
  apply bind_Ok in Hok as (certs & Hc & Hok). injection Hok as <-. cbn.
  split_and!; [by eapply minVersion_floor|done|by apply optionalPool_Some| |].
  - unfold clientCertificates in Hc. repeat case_bool_decide; cbn in Hc; try done;
      try (injection Hc as <-; naive_solver).
    destruct (LoadX509KeyPair _ _); [|done]. injection Hc as <-. done.
  - destruct (Z.leb_spec (tls_SessionCacheSize cfg) 0); lia.
Qed.

(** A listener that must verify client certificates is built without any authority
    to verify them against when no file is named: [ts_ClientCAs] is nil, for which
    crypto/tls takes the host's root authorities, so a certificate of any public
    authority is let in.  And a file of authorities that is named has no effect
    unless [client_auth] asks for certificates. *)
Theorem client_authorities_unchecked (cfg : ServerTLSConfig) (cert : Certificate)
    (Hcert : LoadX509KeyPair (stls_CertPath cfg) (stls_KeyPath cfg) = Ok cert)
    (Hver : stls_MinVersion cfg = "") :
  (stls_ClientAuth cfg = "require_and_verify" -> stls_ClientCAPath cfg = "" ->
     exists ts, BuildServerTLSConfig cfg = Ok ts /\
       ts_ClientAuth ts = RequireAndVerifyClientCert /\ ts_ClientCAs ts = None) /\
  (forall pool, stls_ClientAuth cfg = "" -> stls_ClientCAPath cfg <> "" ->
     loadPool (stls_ClientCAPath cfg) = Ok pool ->
     exists ts, BuildServerTLSConfig cfg = Ok ts /\
       ts_ClientAuth ts = NoClientCert /\ ts_ClientCAs ts = Some pool).
Proof.
  unfold BuildServerTLSConfig, minVersion, parseClientAuth, optionalPool. rewrite Hcert, Hver. split.
  - intros -> ->. eexists. split; [reflexivity|done].
  - intros pool -> Hp Hl. rewrite (bool_decide_true (stls_ClientCAPath cfg <> "")) by done.
    rewrite Hl. eexists. split; [reflexivity|done].
Qed.

(** A range of versions that is empty is accepted; no handshake can then succeed. *)
Theorem empty_version_range (cfg : TLSConfig)
    (Hmin : tls_MinVersion cfg = "1.3") (Hmax : tls_MaxVersion cfg = "1.2")
    (Hroot : tls_RootCAPath cfg = "") (Hcert : tls_ClientCertPath cfg = "") (Hkey : tls_ClientKeyPath cfg = "") :
  exists ts, BuildTLSConfig cfg = Ok ts /\ 0 < ts_MaxVersion ts < ts_MinVersion ts.
Proof.
  unfold BuildTLSConfig, clientCertificates, optionalPool, minVersion.
  rewrite Hmin, Hmax, Hroot, Hcert, Hkey. eexists. split; [reflexivity|].
  cbn. unfold VersionTLS12, VersionTLS13. lia.
Qed.

(** A transport that is built has room for connections and bounded waits, its TLS
    is the configuration's, and a proxy is used exactly when one is named: SOCKS5
    through the dialer, any other scheme as an HTTP proxy. *)
Theorem BuildTransport_outcome parseProxyURL newSOCKS5 (cfg : TransportConfig) (t : HttpTransport)
    (Hok : BuildTransport parseProxyURL newSOCKS5 cfg = Ok t) :
  BuildTLSConfig (trc_TLS cfg) = Ok (ht_TLS t) /\
  ht_MaxIdleConns t <> 0 /\ ht_MaxIdleConnsPerHost t <> 0 /\ ht_IdleConnTimeout t <> 0 /\
  ht_DialTimeout t <> 0 /\
  (trc_ProxyURL cfg = "" -> ht_Dial t = DialDirect /\ ht_Proxy t = None) /\
  (trc_ProxyURL cfg <> "" -> exists u, parseProxyURL (trc_ProxyURL cfg) = Ok u /\
     ((ht_Dial t = DialSOCKS5 (prx_Host u) (socksAuth u) /\ ht_Proxy t = None) \/
      (prx_Scheme u <> "socks5" /\ prx_Scheme u <> "socks5h" /\ ht_Dial t = DialDirect /\
       ht_Proxy t = Some u))).
Proof.
  assert (Hd : forall d v, d <> 0 -> orDefault d v <> 0).
  { intros d v Hd. unfold orDefault. destruct (Z.eqb_spec v 0); lia. }
  unfold BuildTransport in Hok. destruct (BuildTLSConfig _) as [tls|] eqn:Et; [|done].
  case_bool_decide as Hp.
  2:{ injection Hok as <-. cbn. split_and!; try (by apply Hd); [done..|]. by intros. }
  unfold applyProxy in Hok. destruct (parseProxyURL _) as [u|] eqn:Eu; [|done].
  destruct (bool_decide (prx_Scheme u = "socks5") || _) eqn:Es.
  - destruct (newSOCKS5 _ _); [done|]. injection Hok as <-. cbn.
    split_and!; try (by apply Hd); [done|by intros|]. intros _. exists u. split; [done|]. by left.
  - injection Hok as <-. cbn. split_and!; try (by apply Hd); [done|by intros|]. intros _. exists u.
    split; [done|]. apply orb_false_iff in Es as [E1%bool_decide_eq_false E2%bool_decide_eq_false].
    by right.
Qed.
End TlsFacts.

(** ** Sample certificates *)
Module SampleTransport.
#[local] Instance certs : CertEnv := {|
  CertPool := string;
  Certificate := string * string;
  readFile path := if decide (path = "/etc/ca.pem") then Ok "CA" else Err "no such file";
  certPoolFromPEM pem := Some pem;
  LoadX509KeyPair cert key := Ok (cert, key) |}.
Definition client : TLSConfig := {|
  tls_InsecureSkipVerify := false; tls_MinVersion := ""; tls_MaxVersion := ""; tls_RootCAPath := "/etc/ca.pem";
  tls_ClientCertPath := "/c.pem"; tls_ClientKeyPath := "/k.pem"; tls_ServerName := "api";
  tls_SessionCacheSize := 0 |}.
Definition inverted : TLSConfig := {|
  tls_InsecureSkipVerify := false; tls_MinVersion := "1.3"; tls_MaxVersion := "1.2"; tls_RootCAPath := "";
  tls_ClientCertPath := ""; tls_ClientKeyPath := ""; tls_ServerName := ""; tls_SessionCacheSize := 0 |}.
Definition mtls : ServerTLSConfig := {|
  stls_CertPath := "/c.pem"; stls_KeyPath := "/k.pem"; stls_MinVersion := "";
  stls_ClientAuth := "require_and_verify"; stls_ClientCAPath := "" |}.
Definition transport : TransportConfig := {|
  trc_MaxIdleConns := 0; trc_MaxIdleConnsPerHost := 0; trc_IdleConnTimeout := 0; trc_DialTimeout := 0;
  trc_DialKeepalive := 0; trc_ResponseHeaderTimeout := 0; trc_ForceHTTP2 := true;
  trc_ProxyURL := "socks5://ann@proxy:1080"; trc_TLS := client |}.
Definition proxyURL : ProxyURL :=
  {| prx_Scheme := "socks5"; prx_Host := "proxy:1080"; prx_User := Some ("ann", None) |}.
End SampleTransport.

Section TransportWitnesses.
#[local] Existing Instance SampleTransport.certs.
Import SampleTransport.

Lemma BuildTLSConfig_promises_witness : exists ts, BuildTLSConfig client = Ok ts /\
  VersionTLS12 <= ts_MinVersion ts /\ is_Some (ts_RootCAs ts).
Proof.
  eexists. split; [reflexivity|].
  match goal with |- context [ts_MinVersion ?t] =>
    destruct (BuildTLSConfig_promises client t eq_refl) as (H1 & _ & H2 & _) end.
  split; [by apply H1|by apply H2].
Defined.

Lemma client_authorities_unchecked_witness : exists ts, BuildServerTLSConfig mtls = Ok ts /\
  ts_ClientAuth ts = RequireAndVerifyClientCert /\ ts_ClientCAs ts = None.
Proof.
  exact (proj1 (client_authorities_unchecked mtls ("/c.pem", "/k.pem") eq_refl eq_refl) eq_refl eq_refl).
Defined.

Lemma empty_version_range_witness : exists ts, BuildTLSConfig inverted = Ok ts /\
  0 < ts_MaxVersion ts < ts_MinVersion ts.
Proof. apply empty_version_range; reflexivity. Defined.

Lemma BuildTransport_outcome_witness : exists t,
  BuildTransport (fun _ => Ok proxyURL) (fun _ _ => None) transport = Ok t /\
  ht_Dial t = DialSOCKS5 "proxy:1080" (Some ("ann", "")) /\ ht_DialTimeout t <> 0.
Proof.
  eexists. split; [reflexivity|]. split; [reflexivity|].
  match goal with |- ht_DialTimeout ?t <> 0 =>
    destruct (BuildTransport_outcome (fun _ => Ok proxyURL) (fun _ _ => None) transport t eq_refl)
      as (_ & _ & _ & _ & Hd & _) end.
  exact Hd.
Defined.
End TransportWitnesses.
