(* ===== verification/Server.v ===== *)
(** * Serving HTTP (pkg/server/server.go, pkg/caddy/caddy.go, the handler of
    pkg/telemetry/reload.go)

    The routes of the proxy's own server and their handlers, its start and
    shutdown, and the module that serves the same endpoints inside Caddy.  The
    router chi, net/http and Caddy are parameters: a route table is what the code
    hands to chi, and where a request ends up is chi's doing. *)
From S2P Require Export Inbound Refresher ConfigLoader Transport.
Open Scope Z_scope.

(** ** Handlers

    A handler that panics has no reply. *)
Section Server.
Context {W : Type}.
Abbreviation Handler := (InboundRequest -> W -> option HttpReply * W).

Definition plainReply (status : Z) (body : string) : HttpReply :=
  {| hrp_Status := status; hrp_Header := ∅; hrp_Body := body |}.

Definition healthz : Handler := fun _ w => (Some (plainReply 200 ""), w).

(** [readiness] is [None] for a nil checker; [reasonText] is a reason's text. *)
Definition readyz (reasonText : Reason -> string)
    (readiness : option (W -> bool * option Reason)) : Handler := fun _ w =>
  let ready := (Some (plainReply 200 ("ok" +:+ newline)), w) in
  match readiness with
  | None => ready
  | Some IsReady =>
    match IsReady w with
    | (true, _) => ready
    | (false, reason) =>
      (Some (plainReply 503 (match reason with Some r => reasonText r | None => "" end +:+ newline)), w)
    end
  end.

Definition ReloadMetricsHandler (counters : W -> ReloadCounters) : Handler := fun _ w =>
  (Some {| hrp_Status := 200;
           hrp_Header := Header_Set ∅ "Content-Type" "text/plain; charset=utf-8";
           hrp_Body := "mcp_anything_config_reload_total " +:+ pretty (configReloadTotal (counters w))
                       +:+ newline +:+ "mcp_anything_config_reload_errors_total "
                       +:+ pretty (configReloadErrors (counters w)) +:+ newline |}, w).

(** The callback's mux is behind an interface: [callback] is [None] for a nil
    interface, [Some None] for an interface that holds a nil [*Mux], whose use of
    a field panics.  [handle] is [Mux.HandleCallback]. *)
Definition oauthCallback {M} (handle : M -> string -> InboundRequest -> W -> HttpReply * W)
    (mux : option M) (upstreamName : string) : Handler := fun r w =>
  match mux with
  | None => (None, w)
  | Some m => let '(reply, w) := handle m upstreamName r w in (Some reply, w)
  end.

(** ** The routes *)
Inductive Pattern :=
  | GET (path : string)
  | GETParam (prefix param : string)
  | Mount (path : string).

(** [handlers] are the endpoints in iteration order; a handler of a route with a
    parameter gets its value. *)
Definition New {M} (handle : M -> string -> InboundRequest -> W -> HttpReply * W)
    (reasonText : Reason -> string) (ServerMiddleware : Handler -> string -> Handler)
    (handlers : list (string * Handler)) (wellKnown reloadMetrics prometheusMetrics : option Handler)
    (readiness : option (W -> bool * option Reason)) (callback : option (option M))
    : list (Pattern * (string -> Handler)) :=
  [ (GET "/healthz", fun _ => healthz); (GET "/readyz", fun _ => readyz reasonText readiness) ] ++
  match reloadMetrics with Some h => [(GET "/metrics/reload", fun _ => h)] | None => [] end ++
  match prometheusMetrics with Some h => [(GET "/metrics", fun _ => h)] | None => [] end ++
  match wellKnown with Some h => [(GET "/.well-known/oauth-protected-resource", fun _ => h)] | None => [] end ++
  match callback with
  | Some mux => [(GETParam "/oauth/callback/" "upstreamName", fun name => oauthCallback handle mux name)]
  | None => []
  end ++
  ((fun ph => (Mount ph.1, fun _ => ServerMiddleware ph.2 ph.1)) <$> handlers).

Definition listenAddr (cfg : ProxyConfig) : string := ":" +:+ pretty (srv_Port (pc_Server cfg)).

(** ** Start *)
Inductive StartError :=
  | ServerTLS (err : TLSError)
  | TLSListen (err : string)
  | Serving (err : string)
  | GracefulShutdown (err : string)
  | ContextError.

Inductive ServeEnd := ServerClosed | ServeFailed (err : string).

(** What the goroutine reports: [listen] is [tls.Listen], [serve] and
    [listenAndServe] end when the server does. *)
Definition serveResult `{CertEnv} (cfg : ProxyConfig) (listen : TlsSettings -> option string)
    (serve listenAndServe : ServeEnd) : option StartError :=
  let ended e := match e with ServerClosed => None | ServeFailed err => Some (Serving err) end in
  if bool_decide (stls_CertPath (srv_TLS (pc_Server cfg)) <> "") then
    match BuildServerTLSConfig (srv_TLS (pc_Server cfg)) with
    | Err err => Some (ServerTLS err)
    | Ok tlsCfg =>
      match listen tlsCfg with
      | Some err => Some (TLSListen err)
      | None => ended serve
      end
    end
  else ended listenAndServe.

(** Which of the two comes first: the context ends, or the server does. *)
Inductive StartEvent := ContextDone | ServerDone (reported : option StartError).

(** [shutdown] is [http.Server.Shutdown] within a time. *)
Definition Start (cfg : ProxyConfig) (shutdown : Z -> option string) (ev : StartEvent) : option StartError :=
  match ev with
  | ContextDone =>
    match shutdown (srv_ShutdownTimeout (pc_Server cfg)) with
    | Some err => Some (GracefulShutdown err)
    | None => Some ContextError
    end
  | ServerDone reported => reported
  end.

(** The typed nil pointer is not a nil interface: without a session store the
    callback route is there all the same, and a request to it panics, where a nil
    interface would have left the route out. *)
Theorem callback_route_of_nil {M} handle reasonText ServerMiddleware handlers wellKnown reloadMetrics
    prometheusMetrics readiness :
  let routes := New (M := M) handle reasonText ServerMiddleware handlers wellKnown reloadMetrics
                  prometheusMetrics readiness (Some None) in
  (exists h, (GETParam "/oauth/callback/" "upstreamName", h) ∈ routes /\
     forall name r w, h name r w = (None, w)) /\
  (forall h, (GETParam "/oauth/callback/" "upstreamName", h) ∉
     New (M := M) handle reasonText ServerMiddleware handlers wellKnown reloadMetrics
       prometheusMetrics readiness None).
Proof.
  split.
  - exists (fun name => oauthCallback handle None name). split; [|done].
    unfold New. rewrite !elem_of_app. do 4 right. left. apply list_elem_of_singleton. reflexivity.
  - intros h. unfold New. rewrite !elem_of_app.
    destruct reloadMetrics, prometheusMetrics, wellKnown;
      rewrite ?list_elem_of_singleton, ?elem_of_cons, ?elem_of_nil, list_elem_of_fmap; naive_solver.
Qed.

(** ** The Caddy module *)
Section Caddy.
Context {H : Type}.

(** A provisioned module; [order] is the iteration order of its handlers. *)
Record MCPAnything := { caddy_ConfigPath : string; caddy_handlers : option (gmap string H) }.

Fixpoint prefixHandler (path : string) (handlers : list (string * H)) : option H :=
  match handlers with
  | [] => None
  | (endpoint, h) :: rest => if HasPrefix path (endpoint +:+ "/") then Some h else prefixHandler path rest
  end.

(** The handler a request's path selects; [None] is the next module's. *)
Definition ServeHTTP (order : gmap string H -> list (string * H)) (m : MCPAnything) (path : string)
    : option H :=
  let handlers := default ∅ (caddy_handlers m) in
  match handlers !! path with
  | Some h => Some h
  | None => prefixHandler path (order handlers)
  end.

Inductive CaddyError := CaddyLoad (path : string) (err : LoadError) | CaddyProxy (err : string) | NotProvisioned.

(** [load] and [LoadConfig] read the configuration, [proxy] makes the proxy's
    handlers and starts its background tasks. *)
Definition Provision (load : string -> result LoadError ProxyConfig)
    (LoadConfig : result LoadError (string * ProxyConfig))
    (proxy : ProxyConfig -> string -> result string (gmap string H)) (m : MCPAnything)
    : result CaddyError MCPAnything :=
  let start path cfg :=
    match proxy cfg path with
    | Err err => Err (CaddyProxy err)
    | Ok handlers => Ok {| caddy_ConfigPath := caddy_ConfigPath m; caddy_handlers := Some handlers |}
    end in
  if bool_decide (caddy_ConfigPath m <> "") then
    match load (caddy_ConfigPath m) with
    | Err err => Err (CaddyLoad (caddy_ConfigPath m) err)
    | Ok cfg => start (caddy_ConfigPath m) cfg
    end
  else
    match LoadConfig with
    | Err err => Err (CaddyLoad "" err)
    | Ok (path, cfg) => start path cfg
    end.

Definition Validate (m : MCPAnything) : result CaddyError unit :=
  match caddy_handlers m with None => Err NotProvisioned | Some _ => Ok tt end.

(** The directive's block as its tokens: an option and its arguments per line. *)
Fixpoint UnmarshalCaddyfile (m : MCPAnything) (block : list (string * list string))
    : result string MCPAnything :=
  match block with
  | [] => Ok m
  | (option, arguments) :: rest =>
    if bool_decide (option = "config_path") then
      match arguments with
      | [] => Err "wrong argument count or unexpected line ending after 'config_path'"
      | path :: _ =>
        UnmarshalCaddyfile {| caddy_ConfigPath := path; caddy_handlers := caddy_handlers m |} rest
      end
    else Err ("unrecognised mcpanything option: " +:+ option)
  end.
Definition parseCaddyfile (block : list (string * list string)) : result string MCPAnything :=
  UnmarshalCaddyfile {| caddy_ConfigPath := ""; caddy_handlers := None |} block.

(** [shutdown] is the proxy's. *)
Definition Cleanup {P W} (shutdown : P -> W -> option string * W) (proxy : option P) (w : W) : option string * W :=
  match proxy with Some p => shutdown p w | None => (None, w) end.
End Caddy.
End Server.

(** ** Where the Caddy module sends a request *)
Section CaddyFacts.
Context {H : Type}.
Implicit Types (m : MCPAnything (H := H)) (path : string).

Lemma prefixHandler_Some path (hs : list (string * H)) h : prefixHandler path hs = Some h ->
  exists endpoint, (endpoint, h) ∈ hs /\ HasPrefix path (endpoint +:+ "/") = true.
Proof.
  induction hs as [|[e h'] hs IH]; [done|]. cbn. destruct (HasPrefix path _) eqn:Ep.
  - intros [= ->]. exists e. split; [by left|done].
  - intros (endpoint & ? & ?)%IH. exists endpoint. split; [by right|done].
Qed.

Lemma prefixHandler_None path (hs : list (string * H)) : prefixHandler path hs = None ->
  forall endpoint h, (endpoint, h) ∈ hs -> HasPrefix path (endpoint +:+ "/") = false.
Proof.
  induction hs as [|[e h'] hs IH]; [by intros _ ?? ?%not_elem_of_nil|]. cbn.
  destruct (HasPrefix path _) eqn:Ep; [done|]. intros Hn endpoint h [[= -> ->]|Hin]%elem_of_cons; [done|].
  by eapply IH.
Qed.

Lemma ServeHTTP_provisioned m order path handlers : caddy_handlers m = Some handlers ->
  ServeHTTP order m path =
    match handlers !! path with Some h => Some h | None => prefixHandler path (order handlers) end.
Proof. unfold ServeHTTP. by intros ->. Qed.

(** The endpoints that claim a path. *)
Definition claims (handlers : gmap string H) path endpoint : Prop :=
  is_Some (handlers !! endpoint) /\ HasPrefix path (endpoint +:+ "/") = true.

(** A request goes to the endpoint it names, or to one that claims its path, and to
    the next module when none does.  When at most one endpoint claims it, Go's
    iteration order makes no difference. *)
Theorem ServeHTTP_outcome (m : MCPAnything) (handlers : gmap string H) path
    (Hm : caddy_handlers m = Some handlers) (order : gmap string H -> list (string * H))
    (Horder : forall hs, order hs ≡ₚ map_to_list hs) :
  match ServeHTTP order m path with
  | Some h => handlers !! path = Some h \/
              (handlers !! path = None /\ exists endpoint, claims handlers path endpoint /\
                 handlers !! endpoint = Some h)
  | None => handlers !! path = None /\ forall endpoint, ~ claims handlers path endpoint
  end /\
  ((forall e1 e2, claims handlers path e1 -> claims handlers path e2 -> e1 = e2) ->
   forall order', (forall hs, order' hs ≡ₚ map_to_list hs) ->
     ServeHTTP order' m path = ServeHTTP order m path).
Proof.
  rewrite (ServeHTTP_provisioned _ _ _ _ Hm). destruct (handlers !! path) as [h|] eqn:Ep.
  { split; [by left|]. intros _ order' _. by rewrite (ServeHTTP_provisioned _ _ _ _ Hm), Ep. }
  assert (Hin : forall o, (forall hs, o hs ≡ₚ map_to_list hs) -> forall e h,
            (e, h) ∈ o handlers <-> handlers !! e = Some h).
  { intros o Ho e h. rewrite (Ho handlers). apply elem_of_map_to_list. }
  split.
  - destruct (prefixHandler path (order handlers)) as [h|] eqn:Eh.
    + right. split; [done|]. apply prefixHandler_Some in Eh as (e & He & Hp).
      apply Hin in He; [|done]. exists e. split; [split; [by eexists|done]|done].
    + split; [done|]. intros e [[h He] Hp].
      eapply prefixHandler_None in Eh; [|by apply Hin]. congruence.
  - intros Huniq order' Horder'. rewrite (ServeHTTP_provisioned _ _ _ _ Hm), Ep.
    destruct (prefixHandler path (order handlers)) as [h|] eqn:Eh;
      destruct (prefixHandler path (order' handlers)) as [h'|] eqn:Eh'; [| | |done].
    + apply prefixHandler_Some in Eh as (e & He & Hp). apply prefixHandler_Some in Eh' as (e' & He' & Hp').
      apply Hin in He, He'; [|done..].
      rewrite (Huniq e e') in He; [congruence| |]; split; by eauto.
    + apply prefixHandler_Some in Eh as (e & He & Hp). apply Hin in He; [|done].
      eapply prefixHandler_None in Eh'; [|by apply Hin]. congruence.
    + apply prefixHandler_Some in Eh' as (e & He & Hp). apply Hin in He; [|done].
      eapply prefixHandler_None in Eh; [|by apply Hin]. congruence.
Qed.

(** With one endpoint below another, requests below the lower one go to either
    group, as Go's map iteration has it: the same request can be served by a group
    that offers other tools. *)
Theorem nested_endpoints_ambiguous (m : MCPAnything) (handlers : gmap string H) (outer sub rest : string)
    (h1 h2 : H) (Hm : caddy_handlers m = Some handlers)
    (H1 : handlers !! outer = Some h1) (H2 : handlers !! (outer +:+ "/" +:+ sub) = Some h2)
    (Hnone : handlers !! (outer +:+ "/" +:+ sub +:+ "/" +:+ rest) = None) :
  let path := outer +:+ "/" +:+ sub +:+ "/" +:+ rest in
  exists order1 order2,
    (forall hs, order1 hs ≡ₚ map_to_list hs) /\ (forall hs, order2 hs ≡ₚ map_to_list hs) /\
    ServeHTTP order1 m path = Some h1 /\ ServeHTTP order2 m path = Some h2.
Proof.
  intros path.
  set (first := fun e (hs : gmap string H) =>
    match hs !! e with Some h => (e, h) :: map_to_list (delete e hs) | None => map_to_list hs end).
  assert (Hfirst : forall e hs, first e hs ≡ₚ map_to_list hs).
  { intros e hs. unfold first. destruct (hs !! e) as [h|] eqn:E; [|done]. by rewrite map_to_list_delete. }
  assert (Hserve : forall e h, handlers !! e = Some h -> HasPrefix path (e +:+ "/") = true ->
            ServeHTTP (first e) m path = Some h).
  { intros e h He Hp. rewrite (ServeHTTP_provisioned _ _ _ _ Hm). fold path in Hnone. rewrite Hnone.
    unfold first. rewrite He. cbn. by rewrite Hp. }
  exists (first outer), (first (outer +:+ "/" +:+ sub)). split_and!; [by intros; apply Hfirst..| |];
    apply Hserve; try done; apply HasPrefix_spec.
  - exists (sub +:+ "/" +:+ rest). unfold path. by rewrite !string_app_assoc.
  - exists rest. unfold path. by rewrite !string_app_assoc.
Qed.
End CaddyFacts.

Section ServerWitnesses.
Let m : MCPAnything (H := string) :=
  {| caddy_ConfigPath := "/etc/c.yaml";
     caddy_handlers := Some {["/mcp" := "all"; "/mcp/readonly" := "readonly"]} |}.

Lemma ServeHTTP_outcome_witness :
  ServeHTTP map_to_list m "/mcp/readonly" = Some "readonly" /\ ServeHTTP map_to_list m "/metrics" = None.
Proof.
  pose proof (proj1 (ServeHTTP_outcome m _ "/metrics" eq_refl map_to_list (fun _ => reflexivity _))) as H.
  split; [reflexivity|]. revert H. destruct (ServeHTTP map_to_list m "/metrics") eqn:E; [|done].
  vm_compute in E. discriminate E.
Defined.

Lemma nested_endpoints_ambiguous_witness : exists order1 order2,
  ServeHTTP order1 m "/mcp/readonly/sse" = Some "all" /\
  ServeHTTP order2 m "/mcp/readonly/sse" = Some "readonly".
Proof.
  destruct (nested_endpoints_ambiguous m _ "/mcp" "readonly" "sse" "all" "readonly" eq_refl eq_refl eq_refl eq_refl)
    as (o1 & o2 & _ & _ & H1 & H2).
  by exists o1, o2.
Defined.
End ServerWitnesses.
