(* ===== verification/Manager.v ===== *)
(** * The manager (pkg/mcp/manager.go)

    The owner of the MCP servers and of the live tool registry.  [Rebuild]
    validates a configuration and applies it, [UpdateUpstream] and
    [RemoveUpstream] apply what the background refreshers find, and the tool
    handlers it installs run a call: rate limit, argument parsing, cache,
    dispatch, token count.  A method that takes the lock is one step. *)
From S2P Require Export ToolRegistry Cache RateLimit CircuitBreaker Search.
Open Scope Z_scope.

(** ** The MCP server of the SDK *)

(** A tool handler the manager installs: a closure, known by what it captures. *)
Inductive Handler :=
  | HandleCall (tool : Tool) (group rlName : string)
  | HandleSearch (endpoint : string).
#[export] Instance Handler_eq_dec : EqDecision Handler.
Proof. solve_decision. Defined.

(** [NewServer] also installs the [tools/list] middleware of the endpoint, which
    the manager adds once, right after creating the server. *)
Class McpServer (Srv : Type) := {
  NewServer : option string -> string -> Srv;
  AddTool : Srv -> Tool -> Handler -> Srv;
  RemoveTools : Srv -> list string -> Srv;
  AddResource : Srv -> string -> string -> handle -> Srv;
  RemoveResources : Srv -> list string -> Srv;
  srv_tools : Srv -> gmap string (Tool * Handler);
  srv_resources : Srv -> gmap string (string * handle)
}.

(** What the SDK documents: adding replaces a tool (or resource) of the same
    name, removing ignores unknown names. *)
Class McpServerLaws (Srv : Type) `{McpServer Srv} := {
  NewServer_empty i e : srv_tools (NewServer i e) = ∅ /\ srv_resources (NewServer i e) = ∅;
  AddTool_tools s t h : srv_tools (AddTool s t h) = <[tool_Name t := (t, h)]> (srv_tools s);
  AddTool_resources s t h : srv_resources (AddTool s t h) = srv_resources s;
  RemoveTools_tools s ns :
    srv_tools (RemoveTools s ns) = filter (fun kv => kv.1 ∉ ns) (srv_tools s);
  RemoveTools_resources s ns : srv_resources (RemoveTools s ns) = srv_resources s;
  AddResource_tools s u n h : srv_tools (AddResource s u n h) = srv_tools s;
  AddResource_resources s u n h :
    srv_resources (AddResource s u n h) = <[u := (n, h)]> (srv_resources s);
  RemoveResources_tools s us : srv_tools (RemoveResources s us) = srv_tools s;
  RemoveResources_resources s us :
    srv_resources (RemoveResources s us) = filter (fun kv => kv.1 ∉ us) (srv_resources s)
}.

(** ** What the manager calls *)
Record Env := {
  (** the outside world that executors, limiters and metrics act on *)
  W : Type;
  env_Execute : handle -> args -> W -> Reply * W;
  JSONPath : Type;
  env_NewPath : string -> option JSONPath;
  env_Query : JSONPath -> node -> list node;
  env_builders : Generic.Registry (UpstreamConfig * NamingConfig -> result string ValidatedUpstream);
  LimitStore : Type;
  Limiter : Type;
  env_limitStores : Generic.Registry (ProxyConfig -> result string LimitStore);
  env_limiter_New : LimitStore -> Rate -> Limiter;
  env_limiter_Get : Limiter -> string -> W -> result string LimiterContext * W;
  Store : Type;
  env_CacheStore :: CacheStore Store;
  env_cacheStores : Generic.Registry (CacheStoreConfig -> result string Store);
  CB : Type;
  env_NewCircuitBreaker : Settings -> CB;
  env_cb_State : CB -> CBState * CB * list CBState;
  Collection : Type;
  Embedding : Type;
  env_VectorStore :: VectorStore Collection Embedding;
  env_NewEmbedding : EmbeddingConfig -> result string Embedding;
  env_MarshalSchema : option handle -> string;
  env_MarshalDefs : list ToolDef -> option string;
  env_NewCounter : string -> result string handle;
  env_RecordTokens : option handle -> string -> string -> CallToolResult -> W -> W;
  env_FormatFloat : float64 -> option string;
  env_Unmarshal : string -> option value;
  env_Sum256 : string -> string;
  env_FormatTime : Z -> string
}.

Definition searchToolName : string := "search_tools".

Record upstreamState := {
  us_entries : list RegistryEntry;
  us_specYAMLRoot : option node
}.

Section State.
Context (E : Env) {Srv : Type}.

(** The breakers live in [mgr_breakers]; a pointer to one is its index.
    [mgr_upstreamBreaker] is the field [Upstream.CircuitBreaker], by the
    identity of the shared [*Upstream]. *)
Record Manager := {
  mgr_servers : gmap string Srv;
  mgr_registry : option Registry;
  mgr_impl : option string;
  mgr_pools : option (gmap string handle);
  mgr_counter : option handle;
  mgr_enforcer : option (Enforcer (Limiter E));
  mgr_rateLimitCfgs : gmap string RateLimitConfig;
  mgr_circuitBreakerSet : option (list nat);
  mgr_breakers : list (Breaker (CB E));
  mgr_upstreamBreaker : gmap positive nat;
  mgr_oauthStore : option handle;
  mgr_oauthCallbackReg : option handle;
  mgr_groups : list GroupConfig;
  mgr_namingCfg : option NamingConfig;
  mgr_upstreamByName : gmap string upstreamState;
  mgr_searchIndexes : gmap string (Index (Collection E));
  mgr_searchTools : gmap string Tool;
  mgr_searchLimit : Z;
  mgr_store : option (Store E);
  mgr_cacheConfigs : gmap string CacheConfig
}.
End State.
Arguments mgr_servers {E Srv} m.
Arguments mgr_registry {E Srv} m.
Arguments mgr_impl {E Srv} m.
Arguments mgr_pools {E Srv} m.
Arguments mgr_counter {E Srv} m.
Arguments mgr_enforcer {E Srv} m.
Arguments mgr_rateLimitCfgs {E Srv} m.
Arguments mgr_circuitBreakerSet {E Srv} m.
Arguments mgr_breakers {E Srv} m.
Arguments mgr_upstreamBreaker {E Srv} m.
Arguments mgr_oauthStore {E Srv} m.
Arguments mgr_oauthCallbackReg {E Srv} m.
Arguments mgr_groups {E Srv} m.
Arguments mgr_namingCfg {E Srv} m.
Arguments mgr_upstreamByName {E Srv} m.
Arguments mgr_searchIndexes {E Srv} m.
Arguments mgr_searchTools {E Srv} m.
Arguments mgr_searchLimit {E Srv} m.
Arguments mgr_store {E Srv} m.
Arguments mgr_cacheConfigs {E Srv} m.
Arguments Build_Manager {E Srv}.

Inductive ManagerError :=
  | InvalidUpstreams (prev name prefix : string)
  | UpstreamUnknownRateLimit (upstream limit : string)
  | UpstreamUnknownBreaker (upstream breaker : string)
  | UpstreamFailed (upstream : string) (err : LookupError)
  | BuildingRegistry (err : RegistryError)
  | ToolUnknownRateLimit (tool limit : string)
  | ToolUnknownCache (upstream tool cache : string)
  | BuildingEnforcer (err : RateLimitError)
  | InitialisingCache (err : LookupError)
  | NotInitialised
  | RebuildingRegistry (err : RegistryError).

(** ** Applying a registry *)
Section Apply.
Context {Srv : Type} `{McpServer Srv}.

Definition toolNames (ts : list Tool) : gset string := set_of_names (tool_Name <$> ts).

Definition groupTools (r : option Registry) (group : string) : list Tool :=
  match r with Some r => ToolsForGroup r group | None => [] end.

Definition uiURI (tool : string) : string := "ui://" +:+ tool +:+ "/app".

Definition newResources (r : Registry) (group : string) : gmap string (string * handle) :=
  foldl (fun m t =>
    match UIHandlerForTool r (tool_Name t) with
    | Some h => <[uiURI (tool_Name t) := (tool_Name t, h)]> m
    | None => m
    end) ∅ (ToolsForGroup r group).

Definition oldResourceURIs (r : option Registry) (group : string) : gset string :=
  match r with
  | None => ∅
  | Some r => list_to_set ((fun t => uiURI (tool_Name t)) <$>
      filter (fun t => is_Some (UIHandlerForTool r (tool_Name t))) (ToolsForGroup r group))
  end.

Definition applyResourcesLocked (old : option Registry) (srv : Srv) (group : string)
    (newRegistry : Registry) : Srv :=
  let new := newResources newRegistry group in
  let removedURIs := elements (filter (fun uri => new !! uri = None)
                                      (oldResourceURIs old group)) in
  let srv := if bool_decide (removedURIs = []) then srv else RemoveResources srv removedURIs in
  foldl (fun s kv => AddResource s kv.1 kv.2.1 kv.2.2) srv (map_to_list new).

(** The rate limit a handler captures. *)
Definition entryRateLimit (r : Registry) (tool : string) : string :=
  match EntryForTool r tool with Some e => re_RateLimit e | None => "" end.

Definition addTools (srv : Srv) (newRegistry : Registry) (group : string) (ts : list Tool)
    : Srv :=
  foldl (fun s t =>
    AddTool s t (HandleCall t group (entryRateLimit newRegistry (tool_Name t)))) srv ts.

(** [newSearchTools] is [None] for an incremental update. *)
Definition applySearchTool (srv : Srv) (endpoint : string)
    (newSearchTools : option (gmap string Tool)) (searchTools : gmap string Tool) : Srv :=
  match newSearchTools with
  | None => srv
  | Some new =>
    match new !! endpoint with
    | Some searchTool => AddTool srv searchTool (HandleSearch endpoint)
    | None =>
      match searchTools !! endpoint with
      | Some _ => RemoveTools srv [searchToolName]
      | None => srv
      end
    end
  end.

(** The body of the loop over the groups, on the group's server. *)
Definition applyGroup (old : option Registry) (newRegistry : Registry)
    (newSearchTools : option (gmap string Tool)) (searchTools : gmap string Tool)
    (g : GroupConfig) (srv : Srv) : Srv :=
  let newTools := ToolsForGroup newRegistry (gc_Name g) in
  let removedNames := elements (toolNames (groupTools old (gc_Name g)) ∖ toolNames newTools) in
  let srv := if bool_decide (removedNames = []) then srv else RemoveTools srv removedNames in
  let srv := applyResourcesLocked old srv (gc_Name g) newRegistry in
  let srv := addTools srv newRegistry (gc_Name g) newTools in
  applySearchTool srv (gc_Endpoint g) newSearchTools searchTools.

Definition applyGroups (impl : option string) (old : option Registry) (newRegistry : Registry)
    (newSearchTools : option (gmap string Tool)) (searchTools : gmap string Tool)
    (groups : list GroupConfig) (servers : gmap string Srv) : gmap string Srv :=
  foldl (fun servers g =>
    let srv := default (NewServer impl (gc_Endpoint g)) (servers !! gc_Endpoint g) in
    <[gc_Endpoint g := applyGroup old newRegistry newSearchTools searchTools g srv]> servers)
    servers groups.
End Apply.

Section Operations.
Context (E : Env) {Srv : Type} `{McpServer Srv}.
Abbreviation Manager := (Manager E (Srv := Srv)).
Implicit Types (m : Manager).

Definition NewManager (pools : option (gmap string handle)) : Manager := {|
  mgr_servers := ∅; mgr_registry := None; mgr_impl := None; mgr_pools := pools;
  mgr_counter := None; mgr_enforcer := None; mgr_rateLimitCfgs := ∅;
  mgr_circuitBreakerSet := None; mgr_breakers := []; mgr_upstreamBreaker := ∅;
  mgr_oauthStore := None; mgr_oauthCallbackReg := None; mgr_groups := [];
  mgr_namingCfg := None; mgr_upstreamByName := ∅; mgr_searchIndexes := ∅;
  mgr_searchTools := ∅; mgr_searchLimit := 0; mgr_store := None; mgr_cacheConfigs := ∅ |}.

Definition SetOAuthConfig m (store reg : option handle) : Manager := {|
  mgr_servers := mgr_servers m; mgr_registry := mgr_registry m; mgr_impl := mgr_impl m;
  mgr_pools := mgr_pools m; mgr_counter := mgr_counter m; mgr_enforcer := mgr_enforcer m;
  mgr_rateLimitCfgs := mgr_rateLimitCfgs m;
  mgr_circuitBreakerSet := mgr_circuitBreakerSet m; mgr_breakers := mgr_breakers m;
  mgr_upstreamBreaker := mgr_upstreamBreaker m;
  mgr_oauthStore := store; mgr_oauthCallbackReg := reg;
  mgr_groups := mgr_groups m; mgr_namingCfg := mgr_namingCfg m;
  mgr_upstreamByName := mgr_upstreamByName m; mgr_searchIndexes := mgr_searchIndexes m;
  mgr_searchTools := mgr_searchTools m; mgr_searchLimit := mgr_searchLimit m;
  mgr_store := mgr_store m; mgr_cacheConfigs := mgr_cacheConfigs m |}.

Definition set_impl m (v : string) : Manager := {|
  mgr_servers := mgr_servers m; mgr_registry := mgr_registry m; mgr_impl := Some v;
  mgr_pools := mgr_pools m; mgr_counter := mgr_counter m; mgr_enforcer := mgr_enforcer m;
  mgr_rateLimitCfgs := mgr_rateLimitCfgs m;
  mgr_circuitBreakerSet := mgr_circuitBreakerSet m; mgr_breakers := mgr_breakers m;
  mgr_upstreamBreaker := mgr_upstreamBreaker m; mgr_oauthStore := mgr_oauthStore m;
  mgr_oauthCallbackReg := mgr_oauthCallbackReg m;
  mgr_groups := mgr_groups m; mgr_namingCfg := mgr_namingCfg m;
  mgr_upstreamByName := mgr_upstreamByName m; mgr_searchIndexes := mgr_searchIndexes m;
  mgr_searchTools := mgr_searchTools m; mgr_searchLimit := mgr_searchLimit m;
  mgr_store := mgr_store m; mgr_cacheConfigs := mgr_cacheConfigs m |}.

Definition set_upstreams m (us : gmap string upstreamState) : Manager := {|
  mgr_servers := mgr_servers m; mgr_registry := mgr_registry m; mgr_impl := mgr_impl m;
  mgr_pools := mgr_pools m; mgr_counter := mgr_counter m; mgr_enforcer := mgr_enforcer m;
  mgr_rateLimitCfgs := mgr_rateLimitCfgs m;
  mgr_circuitBreakerSet := mgr_circuitBreakerSet m; mgr_breakers := mgr_breakers m;
  mgr_upstreamBreaker := mgr_upstreamBreaker m; mgr_oauthStore := mgr_oauthStore m;
  mgr_oauthCallbackReg := mgr_oauthCallbackReg m;
  mgr_groups := mgr_groups m; mgr_namingCfg := mgr_namingCfg m;
  mgr_upstreamByName := us; mgr_searchIndexes := mgr_searchIndexes m;
  mgr_searchTools := mgr_searchTools m; mgr_searchLimit := mgr_searchLimit m;
  mgr_store := mgr_store m; mgr_cacheConfigs := mgr_cacheConfigs m |}.

Definition set_live m (servers : gmap string Srv) (r : Registry) : Manager := {|
  mgr_servers := servers; mgr_registry := Some r; mgr_impl := mgr_impl m;
  mgr_pools := mgr_pools m; mgr_counter := mgr_counter m; mgr_enforcer := mgr_enforcer m;
  mgr_rateLimitCfgs := mgr_rateLimitCfgs m;
  mgr_circuitBreakerSet := mgr_circuitBreakerSet m; mgr_breakers := mgr_breakers m;
  mgr_upstreamBreaker := mgr_upstreamBreaker m; mgr_oauthStore := mgr_oauthStore m;
  mgr_oauthCallbackReg := mgr_oauthCallbackReg m;
  mgr_groups := mgr_groups m; mgr_namingCfg := mgr_namingCfg m;
  mgr_upstreamByName := mgr_upstreamByName m; mgr_searchIndexes := mgr_searchIndexes m;
  mgr_searchTools := mgr_searchTools m; mgr_searchLimit := mgr_searchLimit m;
  mgr_store := mgr_store m; mgr_cacheConfigs := mgr_cacheConfigs m |}.

Definition set_store m (s : Store E) : Manager := {|
  mgr_servers := mgr_servers m; mgr_registry := mgr_registry m; mgr_impl := mgr_impl m;
  mgr_pools := mgr_pools m; mgr_counter := mgr_counter m; mgr_enforcer := mgr_enforcer m;
  mgr_rateLimitCfgs := mgr_rateLimitCfgs m;
  mgr_circuitBreakerSet := mgr_circuitBreakerSet m; mgr_breakers := mgr_breakers m;
  mgr_upstreamBreaker := mgr_upstreamBreaker m; mgr_oauthStore := mgr_oauthStore m;
  mgr_oauthCallbackReg := mgr_oauthCallbackReg m;
  mgr_groups := mgr_groups m; mgr_namingCfg := mgr_namingCfg m;
  mgr_upstreamByName := mgr_upstreamByName m; mgr_searchIndexes := mgr_searchIndexes m;
  mgr_searchTools := mgr_searchTools m; mgr_searchLimit := mgr_searchLimit m;
  mgr_store := Some s; mgr_cacheConfigs := mgr_cacheConfigs m |}.

Definition applyRegistryLocked m (newRegistry : Registry) (groups : list GroupConfig)
    (newSearchTools : option (gmap string Tool)) : Manager :=
  set_live m
    (applyGroups (mgr_impl m) (mgr_registry m) newRegistry newSearchTools (mgr_searchTools m)
       groups (mgr_servers m))
    newRegistry.

(** [HTTPHandlers] serves each server under its endpoint. *)
Definition HTTPHandlers m : gmap string Srv := mgr_servers m.

Definition AuthRequired m (toolName : string) : bool :=
  match mgr_registry m with
  | None => true
  | Some reg => ToolRegistry.AuthRequired reg toolName
  end.

Definition ToolUpstreamName m (toolName : string) : result RegistryError string :=
  match mgr_registry m with
  | None => Ok ""
  | Some reg => ToolRegistry.ToolUpstreamName reg toolName
  end.

(** ** Rebuild *)

Fixpoint validateUpstreamPrefixes (seen : gmap string string) (ups : list UpstreamConfig)
    : result ManagerError unit :=
  match ups with
  | [] => Ok tt
  | up :: ups' =>
    if negb (uc_Enabled up) then validateUpstreamPrefixes seen ups'
    else match seen !! uc_ToolPrefix up with
         | Some prev => Err (InvalidUpstreams prev (uc_Name up) (uc_ToolPrefix up))
         | None => validateUpstreamPrefixes (<[uc_ToolPrefix up := uc_Name up]> seen) ups'
         end
  end.

Fixpoint checkUpstreamRateLimits (limits : gmap string RateLimitConfig)
    (ups : list UpstreamConfig) : result ManagerError unit :=
  match ups with
  | [] => Ok tt
  | up :: ups' =>
    if negb (uc_Enabled up) || bool_decide (uc_RateLimit up = "")
    then checkUpstreamRateLimits limits ups'
    else match limits !! uc_RateLimit up with
         | None => Err (UpstreamUnknownRateLimit (uc_Name up) (uc_RateLimit up))
         | Some _ => checkUpstreamRateLimits limits ups'
         end
  end.

Fixpoint checkUpstreamBreakers (breakers : gmap string CircuitBreakerConfig)
    (ups : list UpstreamConfig) : result ManagerError unit :=
  match ups with
  | [] => Ok tt
  | up :: ups' =>
    if negb (uc_Enabled up) || bool_decide (uc_CircuitBreaker up = "")
    then checkUpstreamBreakers breakers ups'
    else match breakers !! uc_CircuitBreaker up with
         | None => Err (UpstreamUnknownBreaker (uc_Name up) (uc_CircuitBreaker up))
         | Some _ => checkUpstreamBreakers breakers ups'
         end
  end.

(** The copy of an upstream's configuration with what the manager injects. *)
Definition injectPools m (up : UpstreamConfig) : UpstreamConfig :=
  let auth := uc_OutboundAuth up in
  let pool (name : string) (dflt : option handle) :=
    match mgr_pools m with
    | Some _ => GetRuntime (mgr_pools m) name
    | None => dflt
    end in
  {| uc_Name := uc_Name up; uc_Enabled := uc_Enabled up; uc_ToolPrefix := uc_ToolPrefix up;
     uc_Type := uc_Type up; uc_BaseURL := uc_BaseURL up; uc_Cache := uc_Cache up;
     uc_Timeout := uc_Timeout up; uc_TLSSkipVerify := uc_TLSSkipVerify up;
     uc_Headers := uc_Headers up; uc_Transport := uc_Transport up;
     uc_OpenAPI := uc_OpenAPI up; uc_Overlay := uc_Overlay up;
     uc_StartupValidationTimeout := uc_StartupValidationTimeout up;
     uc_Validation := uc_Validation up;
     uc_InboundAuthOverride := uc_InboundAuthOverride up;
     uc_OutboundAuth := {|
       ouc_Strategy := ouc_Strategy auth; ouc_Bearer := ouc_Bearer auth;
       ouc_APIKey := ouc_APIKey auth;
       ouc_OAuth2ClientCredentials := ouc_OAuth2ClientCredentials auth;
       ouc_OAuth2UserSession := ouc_OAuth2UserSession auth;
       ouc_Lua := ouc_Lua auth; ouc_JS := ouc_JS auth; ouc_Upstream := ouc_Upstream auth;
       ouc_JSAuthPool := pool "js/auth" (ouc_JSAuthPool auth);
       ouc_LuaAuthPool := pool "lua/auth" (ouc_LuaAuthPool auth);
       ouc_OAuthTokenStore := mgr_oauthStore m;
       ouc_OAuthCallbackReg := mgr_oauthCallbackReg m |};
     uc_Commands := uc_Commands up; uc_Scripts := uc_Scripts up;
     uc_RateLimit := uc_RateLimit up; uc_CircuitBreaker := uc_CircuitBreaker up;
     uc_AppUI := uc_AppUI up;
     uc_JSScriptPool := pool "js/script" (uc_JSScriptPool up) |}.

Fixpoint validateUpstreams m (naming : NamingConfig) (ups : list UpstreamConfig)
    : result ManagerError (list ValidatedUpstream) :=
  match ups with
  | [] => Ok []
  | up :: ups' =>
    if negb (uc_Enabled up) then validateUpstreams m naming ups'
    else match Registries.Build (env_builders E) (uc_Type up) (injectPools m up, naming) with
         | Err e => Err (UpstreamFailed (uc_Name up) e)
         | Ok vu => rest ← validateUpstreams m naming ups'; Ok (vu :: rest)
         end
  end.

(** The first non-nil [Upstream] of the entries. *)
Fixpoint sharedUpstream (es : list RegistryEntry) : option positive :=
  match es with
  | [] => None
  | e :: es' =>
    match re_Upstream e with Some up => Some (up_ref up) | None => sharedUpstream es' end
  end.

(** The breakers of the upstreams that name a policy, and which upstream each
    is set on; [next] is the index the next breaker gets. *)
Fixpoint buildBreakers (policies : gmap string CircuitBreakerConfig)
    (vus : list ValidatedUpstream) (next : nat)
    : list (Breaker (CB E)) * list (positive * nat) :=
  match vus with
  | [] => ([], [])
  | vu :: vus' =>
    let upCfg := vu_Config vu in
    if bool_decide (uc_CircuitBreaker upCfg = "") then buildBreakers policies vus' next
    else
      let cbCfg := default zero_CircuitBreakerConfig (policies !! uc_CircuitBreaker upCfg) in
      let b := CircuitBreaker.New (env_NewCircuitBreaker E) (uc_Name upCfg) cbCfg in
      let '(bs, refs) := buildBreakers policies vus' (S next) in
      (b :: bs,
       match sharedUpstream (vu_Entries vu) with
       | Some ref => (ref, next) :: refs
       | None => refs
       end)
  end.

Definition effectiveGroups (cfg : ProxyConfig) (vus : list ValidatedUpstream)
    : list GroupConfig :=
  match pc_Groups cfg with
  | [] => [{| gc_Name := "default"; gc_Endpoint := "/mcp";
              gc_Upstreams := upstreamNames vus; gc_Filter := "" |}]
  | gs => gs
  end.

Fixpoint checkToolRateLimits (limits : gmap string RateLimitConfig) (es : list RegistryEntry)
    : result ManagerError unit :=
  match es with
  | [] => Ok tt
  | e :: es' =>
    if bool_decide (re_RateLimit e = "") then checkToolRateLimits limits es'
    else match limits !! re_RateLimit e with
         | None => Err (ToolUnknownRateLimit (re_PrefixedName e) (re_RateLimit e))
         | Some _ => checkToolRateLimits limits es'
         end
  end.

Fixpoint checkToolCaches (caches : gmap string CacheConfig)
    (es : list (string * RegistryEntry)) : result ManagerError unit :=
  match es with
  | [] => Ok tt
  | (up, e) :: es' =>
    if bool_decide (re_CacheName e = "") then checkToolCaches caches es'
    else match caches !! re_CacheName e with
         | None => Err (ToolUnknownCache up (re_PrefixedName e) (re_CacheName e))
         | Some _ => checkToolCaches caches es'
         end
  end.

Definition namedEntries (vus : list ValidatedUpstream) : list (string * RegistryEntry) :=
  vus ≫= fun vu => (fun e => (uc_Name (vu_Config vu), e)) <$> vu_Entries vu.

Definition buildEnforcer (cfg : ProxyConfig)
    : result ManagerError (option (Enforcer (Limiter E))) :=
  match RateLimit.New (env_limiter_New E) (env_limitStores E)
          (map_to_list (pc_RateLimits cfg)) cfg with
  | Err e => Err (BuildingEnforcer e)
  | Ok e => Ok e
  end.

(** A tokenizer that does not load is logged, not an error. *)
Definition buildCounter (cfg : TokenCountingConfig) : option handle :=
  if tcc_Enabled cfg then
    match env_NewCounter E (tcc_Encoding cfg) with Ok c => Some c | Err _ => None end
  else None.

Definition buildStore (cfg : ProxyConfig) : result ManagerError (option (Store E)) :=
  if bool_decide (pc_Caches cfg = ∅) then Ok None
  else
    let storeCfg := pc_CacheStore cfg in
    let storeCfg := if bool_decide (csc_Provider storeCfg = "")
                    then {| csc_Provider := "memory"; csc_Redis := csc_Redis storeCfg |}
                    else storeCfg in
    match newCacheStore (env_cacheStores E) (csc_Provider storeCfg) storeCfg with
    | Err e => Err (InitialisingCache e)
    | Ok s => Ok (Some s)
    end.

(** ** Tool search *)
Definition buildSearchTool (defaultLimit : Z) : Tool := {|
  tool_Name := searchToolName;
  tool_Description :=
    "Search available tools by natural language query. Returns up to "
    +:+ pretty defaultLimit
    +:+ " matching tool definitions including their input schemas.";
  tool_InputSchema := Some 1%positive; (* the literal schema *)
  tool_ResourceUri := None |}.

Fixpoint buildIndexes (reg : Registry) (embed : Embedding E) (searchTool : Tool)
    (groups : list GroupConfig)
    (acc : gmap string (Index (Collection E)) * gmap string Tool)
    : result SearchError (gmap string (Index (Collection E)) * gmap string Tool) :=
  match groups with
  | [] => Ok acc
  | g :: groups' =>
    match Search.Build (ToolsForGroup reg (gc_Name g)) embed with
    | Err e => Err e
    | Ok idx =>
      buildIndexes reg embed searchTool groups'
        (<[gc_Endpoint g := idx]> acc.1, <[gc_Endpoint g := searchTool]> acc.2)
    end
  end.

(** [None] is an error, which [Rebuild] only logs. *)
Definition buildSearchState (cfg : option ToolSearchConfig) (reg : Registry)
    (groups : list GroupConfig)
    : option (gmap string (Index (Collection E)) * gmap string Tool * Z) :=
  match cfg with
  | None => Some (∅, ∅, 0)
  | Some cfg =>
    if negb (tsc_Enabled cfg) then Some (∅, ∅, 0)
    else match env_NewEmbedding E (tsc_Embedding cfg) with
         | Err _ => None
         | Ok embed =>
           let limit := if tsc_Limit cfg <=? 0 then 5 else tsc_Limit cfg in
           match buildIndexes reg embed (buildSearchTool limit) groups (∅, ∅) with
           | Err _ => None
           | Ok (indexes, tools) => Some (indexes, tools, limit)
           end
         end
  end.

Definition upstreamStates (reg : Registry) (vus : list ValidatedUpstream)
    : gmap string upstreamState :=
  foldl (fun us name => <[name := {|
    us_entries := EntriesForUpstream reg name;
    us_specYAMLRoot := SpecRootForUpstream reg name |}]> us) ∅ (upstreamNames vus).

(** What the fallible part of [Rebuild] prepares. *)
Record Prepared := {
  pr_upstreams : list ValidatedUpstream;
  pr_groups : list GroupConfig;
  pr_registry : Registry;
  pr_enforcer : option (Enforcer (Limiter E));
  pr_store : option (Store E)
}.

Definition prepare m (cfg : ProxyConfig) : result ManagerError Prepared :=
  _ ← validateUpstreamPrefixes ∅ (pc_Upstreams cfg);
  _ ← checkUpstreamRateLimits (pc_RateLimits cfg) (pc_Upstreams cfg);
  _ ← checkUpstreamBreakers (pc_CircuitBreakers cfg) (pc_Upstreams cfg);
  vus ← validateUpstreams m (pc_Naming cfg) (pc_Upstreams cfg);
  let groups := effectiveGroups cfg vus in
  reg ← match ToolRegistry.New (env_NewPath E) (env_Query E) vus (pc_Naming cfg) groups with
        | Err e => Err (BuildingRegistry e)
        | Ok reg => Ok reg
        end;
  _ ← checkToolRateLimits (pc_RateLimits cfg) (allEntries vus);
  _ ← checkToolCaches (pc_Caches cfg) (namedEntries vus);
  enf ← buildEnforcer cfg;
  store ← buildStore cfg;
  Ok {| pr_upstreams := vus; pr_groups := groups; pr_registry := reg;
        pr_enforcer := enf; pr_store := store |}.

(** The part of [Rebuild] under the lock. *)
Definition commit m (cfg : ProxyConfig) (p : Prepared) : Manager :=
  let '(indexes, tools, limit) :=
    default (∅, ∅, 0) (buildSearchState (pc_ToolSearch cfg) (pr_registry p) (pr_groups p)) in
  let '(bs, refs) := buildBreakers (pc_CircuitBreakers cfg) (pr_upstreams p)
                       (length (mgr_breakers m)) in
  {| mgr_servers := applyGroups (mgr_impl m) (mgr_registry m) (pr_registry p) (Some tools)
                      (mgr_searchTools m) (pr_groups p) (mgr_servers m);
     mgr_registry := Some (pr_registry p);
     mgr_impl := mgr_impl m;
     mgr_pools := mgr_pools m;
     mgr_counter := buildCounter (pc_TokenCounting cfg);
     mgr_enforcer := pr_enforcer p;
     mgr_rateLimitCfgs := pc_RateLimits cfg;
     mgr_circuitBreakerSet := match bs with
                              | [] => None
                              | _ => Some (seq (length (mgr_breakers m)) (length bs))
                              end;
     mgr_breakers := mgr_breakers m ++ bs;
     mgr_upstreamBreaker := list_to_map refs ∪ mgr_upstreamBreaker m;
     mgr_oauthStore := mgr_oauthStore m;
     mgr_oauthCallbackReg := mgr_oauthCallbackReg m;
     mgr_groups := pr_groups p;
     mgr_namingCfg := Some (pc_Naming cfg);
     mgr_upstreamByName := upstreamStates (pr_registry p) (pr_upstreams p);
     mgr_searchIndexes := indexes;
     mgr_searchTools := tools;
     mgr_searchLimit := limit;
     mgr_store := pr_store p;
     mgr_cacheConfigs := pc_Caches cfg |}.

(** The breakers are set on upstreams the builders just made, so on an error
    no one can reach what was set. *)
Definition Rebuild m (cfg : ProxyConfig) : Manager * option ManagerError :=
  let m := match mgr_impl m with
           | Some _ => m
           | None => set_impl m (tel_ServiceVersion (pc_Telemetry cfg))
           end in
  match prepare m cfg with
  | Err e => (m, Some e)
  | Ok p => (commit m cfg p, None)
  end.

(** ** Incremental updates *)

(** The order in which Go visits [upstreamByName] is left open by [order]. *)
Definition entriesByUpstream (us : gmap string upstreamState)
    : gmap string (list RegistryEntry) := us_entries <$> us.
Definition specRootByUpstream (us : gmap string upstreamState) : gmap string (option node) :=
  us_specYAMLRoot <$> us.

Definition rebuildFromStateLocked m (order : list (string * list RegistryEntry))
    (gorder : GroupConfig -> list (string * list RegistryEntry))
    : Manager * option ManagerError :=
  match mgr_namingCfg m with
  | None => (m, Some NotInitialised)
  | Some naming =>
    match NewFromEntries (env_NewPath E) (env_Query E) order gorder
            (specRootByUpstream (mgr_upstreamByName m)) naming (mgr_groups m) with
    | Err e => (m, Some (RebuildingRegistry e))
    | Ok newRegistry => (applyRegistryLocked m newRegistry (mgr_groups m) None, None)
    end
  end.

(** The iteration orders: any function from the map to a permutation of it. *)
Context (order : gmap string upstreamState -> list (string * list RegistryEntry)).
Context (gorder : gmap string upstreamState -> GroupConfig ->
  list (string * list RegistryEntry)).

Definition UpdateUpstream m (upstreamName : string) (entries : list RegistryEntry)
    (specYAMLRoot : option node) : Manager * option ManagerError :=
  match mgr_namingCfg m with
  | None => (m, Some NotInitialised)
  | Some _ =>
    let us := <[upstreamName := {| us_entries := entries; us_specYAMLRoot := specYAMLRoot |}]>
                (mgr_upstreamByName m) in
    rebuildFromStateLocked (set_upstreams m us) (order us) (gorder us)
  end.

Definition RemoveUpstream m (upstreamName : string) : Manager :=
  match mgr_namingCfg m with
  | None => m
  | Some _ =>
    let oldState := mgr_upstreamByName m !! upstreamName in
    let us := delete upstreamName (mgr_upstreamByName m) in
    match rebuildFromStateLocked (set_upstreams m us) (order us) (gorder us) with
    | (m', None) => m'
    | (m', Some _) =>
      match oldState with
      | Some old => set_upstreams m' (<[upstreamName := old]> (mgr_upstreamByName m'))
      | None => m'
      end
    end
  end.

(** ** Calls *)

(** What the manager reads of a request's context. *)
Record CallContext := {
  call_Subject : option string;
  call_Client : RateLimit.Context
}.

Definition subjectOf (ctx : CallContext) : string := default "" (call_Subject ctx).

Definition DispatchForGroup m (ctx : CallContext) (groupName toolName : string)
    (a : option args) (w : W E) : Reply * Manager * W E :=
  match mgr_registry m with
  | None => (reply_ok (errorResult "no config loaded"), m, w)
  | Some reg =>
    let uncached (_ : unit) :=
      ToolRegistry.DispatchForGroup (env_Execute E) reg groupName toolName (default [] a) w in
    let plain (_ : unit) := let '(r, w') := uncached tt in (r, m, w') in
    match mgr_store m, EntryForTool reg toolName with
    | Some store, Some entry =>
      if bool_decide (re_CacheName entry = "") then plain tt
      else match mgr_cacheConfigs m !! re_CacheName entry with
           | None => plain tt
           | Some cacheCfg =>
             let subject := if cc_PerUser cacheCfg then subjectOf ctx else "" in
             match ComputeKey (env_FormatFloat E) (env_Unmarshal E) (env_Sum256 E)
                     toolName a (cc_PerUser cacheCfg) subject with
             | Err _ => plain tt
             | Ok key =>
               match cache_Get store key with
               | (Some cached, store') => (reply_ok cached, set_store m store', w)
               | (None, store') =>
                 let '(r, w') := uncached tt in
                 let store'' :=
                   match rep_Error r, rep_Result r with
                   | None, Some res =>
                     if res_IsError res then store'
                     else cache_Set store' key res (cc_TTL cacheCfg)
                   | _, _ => store'
                   end in
                 (r, set_store m store'', w')
               end
             end
           end
    | _, _ => plain tt
    end
  end.

Definition rateLimitKey (ctx : CallContext) (source limitName sessionID : string) : string :=
  let orElse (s dflt : string) := if bool_decide (s = "") then dflt else s in
  let ip := ClientIPFromContext (call_Client ctx) in
  let part :=
    if bool_decide (source = "user") then
      match call_Subject ctx with
      | Some subject => if bool_decide (subject = "") then orElse ip "anonymous" else subject
      | None => orElse ip "anonymous"
      end
    else if bool_decide (source = "ip") then orElse ip "unknown"
    else if bool_decide (source = "session") then orElse sessionID "unknown"
    else "unknown" in
  limitName +:+ ":" +:+ source +:+ ":" +:+ part.

(** [None] lets the call through. *)
Definition checkRateLimit m (ctx : CallContext) (limitName sessionID : string) (w : W E)
    : option CallToolResult * W E :=
  match mgr_enforcer m with
  | None => (None, w)
  | Some _ =>
    match mgr_rateLimitCfgs m !! limitName with
    | None => (None, w)
    | Some cfg =>
      let key := rateLimitKey ctx (rlc_Source cfg) limitName sessionID in
      match Allow (env_limiter_Get E) (mgr_enforcer m) limitName key w with
      | (Err _, w') => (None, w')
      | (Ok al, w') =>
        if negb (al_reached al) then (None, w')
        else (Some (errorResult ("rate limit exceeded: limit=" +:+ limitName
                +:+ " remaining=" +:+ pretty (al_remaining al)
                +:+ " reset=" +:+ env_FormatTime E (default 0 (al_reset al)))), w')
      end
    end
  end.

(** [req.Params.Arguments] *)
Inductive RawArguments :=
  | RawNil
  | RawMessage (b : string)
  | RawValue (v : value).

Inductive ArgumentsError := ReMarshalling | Unmarshalling.

(** A nil map is [Ok None]. *)
Definition managerParseArguments (raw : RawArguments) : result ArgumentsError (option args) :=
  let parse (b : string) :=
    if bool_decide (b = "") || bool_decide (b = "null") then Ok (Some [])
    else match env_Unmarshal E b with
         | Some (VObject kvs) => Ok (Some kvs)
         | Some VNull => Ok None
         | _ => Err Unmarshalling
         end in
  match raw with
  | RawNil => Ok (Some [])
  | RawMessage b => parse b
  | RawValue v =>
    match Marshal (env_FormatFloat E) true v with
    | None => Err ReMarshalling
    | Some b => parse b
    end
  end.

(** The handler installed for tool [t] of group [gn]; [reqName] is the name in
    the request, under which the SDK found the handler.  An [Err] is the panic
    of [ToolUpstreamName]. *)
Definition callTool m (ctx : CallContext) (t : Tool) (gn rlName reqName sessionID : string)
    (raw : RawArguments) (w : W E) : result RegistryError (Reply * Manager * W E) :=
  let '(limited, w1) :=
    if bool_decide (rlName = "") then (None, w) else checkRateLimit m ctx rlName sessionID w in
  match limited with
  | Some res => Ok (reply_ok res, m, w1)
  | None =>
    match managerParseArguments raw with
    | Err _ => Ok (reply_err "parsing tool arguments", m, w1)
    | Ok a =>
      let '(r, m', w2) := DispatchForGroup m ctx gn reqName a w1 in
      match rep_Error r, rep_Result r with
      | None, Some res =>
        upstreamName ← ToolUpstreamName m' (tool_Name t);
        Ok (r, m', env_RecordTokens E (mgr_counter m') (tool_Name t) upstreamName res w2)
      | _, _ => Ok (r, m', w2)
      end
    end
  end.

(** [lf, ok := args["limit"].(float64); ok && lf > 0] and [int(lf)] *)
Definition float64_to_int (f : float64) : Z :=
  match f with
  | S754_finite s mant e =>
    let n := if 0 <=? e then Zpos mant * 2 ^ e else Zpos mant / 2 ^ (- e) in
    if s then - n else n
  | _ => 0
  end.

Definition searchLimit (args : args) (dflt : Z) : Z :=
  let limit := match assoc "limit" args with
               | Some (VFloat lf) =>
                 if SFltb (S754_zero false) lf then float64_to_int lf else dflt
               | _ => dflt
               end in
  if limit <=? 0 then 5 else limit.

Definition searchErrorText (e : SearchError) : string :=
  match e with
  | CreatingCollection err => "creating search collection: " +:+ err
  | IndexingTools err => "indexing tools: " +:+ err
  | QueryingIndex err => "querying search index: " +:+ err
  end.

(** [makeSearchHandler]; the texts of Go errors are cut to their own prefix. *)
Definition callSearch m (endpoint : string) (raw : RawArguments) : Reply :=
  match managerParseArguments raw with
  | Err _ => reply_err "parsing search_tools arguments"
  | Ok a =>
    let args := default [] a in
    let query := match assoc "query" args with Some (VString q) => q | _ => "" end in
    if bool_decide (query = "") then reply_ok (errorResult "query is required")
    else
      match mgr_searchIndexes m !! endpoint with
      | None => reply_ok (errorResult "search index not available")
      | Some idx =>
        match SearchIndex (env_MarshalSchema E) idx query (searchLimit args (mgr_searchLimit m))
        with
        | Err e => reply_ok (errorResult ("search failed: " +:+ searchErrorText e))
        | Ok defs =>
          match env_MarshalDefs E defs with
          | None => reply_err "marshalling search results"
          | Some text => reply_ok (textResult text)
          end
        end
      end
  end.

(** [listToolsMiddleware]: [next] is the SDK's own answer. *)
Definition listTools m (endpoint : string) (next : list Tool) : list Tool :=
  match mgr_searchTools m !! endpoint with
  | None => next
  | Some searchTool => [searchTool]
  end.

Definition IsCircuitBreakerReady m (now : Z) : bool * option Reason :=
  match mgr_circuitBreakerSet m with
  | None => (true, None)
  | Some refs =>
    SetIsReady (env_cb_State E) now (omap (fun i => mgr_breakers m !! i) refs)
  end.
End Operations.
