(* ===== verification/ManagerSync.v ===== *)
(** * The servers show what the registry holds (theorems on pkg/mcp/manager.go)

    The invariant the manager's diffing maintains: each group's MCP server has
    exactly the tools and the UI resources of the group in the live registry,
    plus the search tool when search is on. *)
From S2P Require Export Manager.
Open Scope Z_scope.

(** A server as two maps. *)
Definition MapServer : Type :=
  (gmap string (Tool * Handler) * gmap string (string * handle))%type.
#[export] Instance map_server : McpServer MapServer := {
  NewServer _ _ := (∅, ∅);
  AddTool s t h := (<[tool_Name t := (t, h)]> s.1, s.2);
  RemoveTools s ns := (filter (fun kv => kv.1 ∉ ns) s.1, s.2);
  AddResource s u n h := (s.1, <[u := (n, h)]> s.2);
  RemoveResources s us := (s.1, filter (fun kv => kv.1 ∉ us) s.2);
  srv_tools := fst;
  srv_resources := snd
}.
#[export] Instance map_server_laws : McpServerLaws MapServer.
Proof. by split. Qed.

Section Sync.
Context {Srv : Type} `{McpServerLaws Srv}.
Implicit Types (r : Registry) (srv : Srv) (g : GroupConfig).

(** The tools of a group with the handlers the manager gives them. *)
Definition groupHandlers (r : Registry) (group : string) : gmap string (Tool * Handler) :=
  foldl (fun m t => <[tool_Name t := (t, HandleCall t group (entryRateLimit r (tool_Name t)))]> m)
    ∅ (ToolsForGroup r group).

Definition searchEntry (endpoint : string) (st : option Tool) : gmap string (Tool * Handler) :=
  match st with Some t => {[tool_Name t := (t, HandleSearch endpoint)]} | None => ∅ end.

Lemma foldl_insert_union {A C} `{Countable K} (key : A -> K) (val : A -> C) (l : list A)
    (m : gmap K C) :
  foldl (fun m a => <[key a := val a]> m) m l =
  foldl (fun m a => <[key a := val a]> m) ∅ l ∪ m.
Proof.
  induction l as [|a l IH] using rev_ind; cbn; [by rewrite (left_id_L ∅ (∪))|].
  rewrite !foldl_app. cbn. by rewrite IH, insert_union_l.
Qed.

Lemma addTools_tools srv r group ts :
  srv_tools (addTools srv r group ts) =
  foldl (fun m t => <[tool_Name t := (t, HandleCall t group (entryRateLimit r (tool_Name t)))]> m)
    ∅ ts ∪ srv_tools srv.
Proof.
  unfold addTools. rewrite <-foldl_insert_union. revert srv.
  induction ts as [|t ts IH]; intros srv; [done|]. cbn. by rewrite IH, AddTool_tools.
Qed.

Lemma addTools_resources srv r group ts :
  srv_resources (addTools srv r group ts) = srv_resources srv.
Proof.
  unfold addTools. revert srv. induction ts as [|t ts IH]; intros srv; [done|]. cbn.
  by rewrite IH, AddTool_resources.
Qed.

Lemma groupHandlers_lookup r group n :
  is_Some (groupHandlers r group !! n) <-> n ∈ toolNames (ToolsForGroup r group).
Proof.
  unfold groupHandlers, toolNames. rewrite elem_of_set_of_names.
  induction (ToolsForGroup r group) as [|t ts IH] using rev_ind; cbn.
  - rewrite lookup_empty. split; [by intros [? ?]|by intros ?%not_elem_of_nil].
  - rewrite foldl_app, fmap_app, elem_of_app. cbn.
    rewrite lookup_insert_is_Some, IH, list_elem_of_singleton.
    destruct (decide (tool_Name t = n)); naive_solver.
Qed.

Lemma RemoveTools_if_tools srv ns :
  srv_tools (if bool_decide (ns = []) then srv else RemoveTools srv ns) =
  filter (fun kv => kv.1 ∉ ns) (srv_tools srv).
Proof.
  case_bool_decide; [subst|apply RemoveTools_tools].
  symmetry. apply map_filter_id. intros. apply not_elem_of_nil.
Qed.

Lemma RemoveTools_if_resources srv ns :
  srv_resources (if bool_decide (ns = []) then srv else RemoveTools srv ns) =
  srv_resources srv.
Proof. case_bool_decide; [done|apply RemoveTools_resources]. Qed.

Lemma applyResources_tools old srv group r :
  srv_tools (applyResourcesLocked old srv group r) = srv_tools srv.
Proof.
  unfold applyResourcesLocked. set (s0 := if bool_decide _ then _ else _).
  assert (H1 : srv_tools s0 = srv_tools srv)
    by (unfold s0; case_bool_decide; [done|apply RemoveResources_tools]).
  rewrite <-H1. clear H1. generalize s0 as s. induction (map_to_list _) as [|x l IH];
    intros s; [done|]. cbn. by rewrite IH, AddResource_tools.
Qed.

Lemma AddResources_resources (l : list (string * (string * handle))) srv :
  srv_resources (foldl (fun s kv => AddResource s kv.1 kv.2.1 kv.2.2) srv l) =
  foldl (fun m kv => <[kv.1 := kv.2]> m) (srv_resources srv) l.
Proof.
  revert srv. induction l as [|[u [n h]] l IH]; intros srv; [done|]. cbn.
  by rewrite IH, AddResource_resources.
Qed.

Lemma foldl_insert_lookup {A} `{Countable K} (l : list (K * A)) (m : gmap K A) k :
  NoDup l.*1 ->
  foldl (fun m kv => <[kv.1 := kv.2]> m) m l !! k =
  match (list_to_map l : gmap K A) !! k with Some v => Some v | None => m !! k end.
Proof.
  revert m. induction l as [|[k' v] l IH]; intros m; cbn; [by rewrite lookup_empty|].
  intros [Hnot Hnd]%NoDup_cons. rewrite IH by done. destruct (decide (k = k')) as [->|Hne].
  - rewrite not_elem_of_list_to_map_1 by done. by rewrite !lookup_insert_eq.
  - by rewrite !lookup_insert_ne.
Qed.

Lemma applyResources_resources old srv group r :
  (forall uri, is_Some (srv_resources srv !! uri) -> uri ∈ oldResourceURIs old group) ->
  srv_resources (applyResourcesLocked old srv group r) = newResources r group.
Proof.
  intros Hold. unfold applyResourcesLocked. set (s0 := if bool_decide _ then _ else _).
  assert (Hs0 : forall uri, srv_resources s0 !! uri =
    match newResources r group !! uri with
    | Some _ => srv_resources srv !! uri
    | None => if decide (uri ∈ oldResourceURIs old group) then None
              else srv_resources srv !! uri end).
  { intros uri. unfold s0. clear s0.
    set (l := elements _). assert (Hl : forall u, u ∈ l <->
      newResources r group !! u = None /\ u ∈ oldResourceURIs old group)
      by (intros u; unfold l; rewrite elem_of_elements, elem_of_filter; done).
    assert (Hr : srv_resources (if bool_decide (l = []) then srv else RemoveResources srv l) =
      filter (fun kv => kv.1 ∉ l) (srv_resources srv)).
    { case_bool_decide as Hb; [|apply RemoveResources_resources]. rewrite Hb. symmetry.
      apply map_filter_id. intros. apply not_elem_of_nil. }
    rewrite Hr, map_lookup_filter.
    destruct (srv_resources srv !! uri) as [x|]; cbn; [|by repeat case_match].
    pose proof (Hl uri) as Hu.
    destruct (newResources r group !! uri) as [y|]; [|case_decide];
      case_guard; naive_solver. }
  rewrite AddResources_resources. apply map_eq. intros uri.
  rewrite foldl_insert_lookup by apply NoDup_fst_map_to_list.
  rewrite list_to_map_to_list, Hs0. destruct (newResources r group !! uri) eqn:E; [done|].
  case_decide as Hd; [done|]. destruct (srv_resources srv !! uri) eqn:E2; [|done].
  destruct Hd. apply Hold. by rewrite E2.
Qed.

(** What a pass over a group does to one tool name. *)
Definition searchPart (endpoint : string) (newSearch : option (gmap string Tool))
    (oldSearch : gmap string Tool) (n : string) (base : option (Tool * Handler)) :=
  match newSearch with
  | None => base
  | Some new =>
    match new !! endpoint with
    | Some t => if decide (n = tool_Name t) then Some (t, HandleSearch endpoint) else base
    | None => match oldSearch !! endpoint with
              | Some _ => if decide (n = searchToolName) then None else base
              | None => base
              end
    end
  end.

Lemma applyGroup_lookup old r newSearch oldSearch g srv n :
  srv_tools (applyGroup old r newSearch oldSearch g srv) !! n =
  searchPart (gc_Endpoint g) newSearch oldSearch n
    (match groupHandlers r (gc_Name g) !! n with
     | Some x => Some x
     | None => if decide (n ∈ toolNames (groupTools old (gc_Name g))) then None
               else srv_tools srv !! n
     end).
Proof.
  unfold applyGroup. set (s1 := addTools _ _ _ _).
  assert (H1 : srv_tools s1 !! n =
    match groupHandlers r (gc_Name g) !! n with
    | Some x => Some x
    | None => if decide (n ∈ toolNames (groupTools old (gc_Name g))) then None
              else srv_tools srv !! n end).
  { unfold s1. rewrite addTools_tools, applyResources_tools, RemoveTools_if_tools.
    fold (groupHandlers r (gc_Name g)). rewrite lookup_union.
    pose proof (groupHandlers_lookup r (gc_Name g) n) as Hn.
    destruct (groupHandlers r (gc_Name g) !! n) as [x|]; [by rewrite union_Some_l|].
    rewrite (left_id_L None (∪)), map_lookup_filter.
    assert (Hnew : n ∉ toolNames (ToolsForGroup r (gc_Name g)))
      by (intros Hc; apply Hn in Hc as [? ?]; done).
    destruct (srv_tools srv !! n); cbn; [|by case_decide].
    case_guard as Hg; case_decide as Hd; try done; exfalso; rewrite elem_of_elements in Hg;
      set_solver. }
  rewrite <-H1. clear H1. generalize s1 as s. intros s. unfold applySearchTool, searchPart.
  destruct newSearch as [new|]; [|done]. destruct (new !! gc_Endpoint g) as [t|].
  - rewrite AddTool_tools. case_decide as Hd; subst;
      [apply lookup_insert_eq|by apply lookup_insert_ne].
  - destruct (oldSearch !! gc_Endpoint g); [|done]. rewrite RemoveTools_tools.
    rewrite map_lookup_filter. case_decide as Hd.
    + destruct (srv_tools s !! n); [|done]. cbn. case_guard as Hg; [|done].
      destruct Hg. subst. by left.
    + destruct (srv_tools s !! n); [|done]. cbn. case_guard as Hg; [done|].
      by apply list_elem_of_singleton in Hg.
Qed.

Lemma newResources_lookup r group n :
  is_Some (newResources r group !! n) ->
  exists t, t ∈ ToolsForGroup r group /\ n = uiURI (tool_Name t) /\
    is_Some (UIHandlerForTool r (tool_Name t)).
Proof.
  unfold newResources. induction (ToolsForGroup r group) as [|t ts IH] using rev_ind; cbn.
  - rewrite lookup_empty. by intros [? ?].
  - rewrite foldl_app. cbn. destruct (UIHandlerForTool r (tool_Name t)) as [h|] eqn:E.
    + intros [<-|[_ Hn]]%lookup_insert_is_Some.
      * exists t. split_and!; [apply elem_of_app; right; by left|done|by rewrite E].
      * destruct (IH Hn) as (t' & ? & ? & ?). exists t'. split; [apply elem_of_app; by left|done].
    + intros Hn. destruct (IH Hn) as (t' & ? & ? & ?). exists t'.
      split; [apply elem_of_app; by left|done].
Qed.

Lemma newResources_old r group n :
  is_Some (newResources r group !! n) -> n ∈ oldResourceURIs (Some r) group.
Proof.
  intros (t & Ht & -> & Hui)%newResources_lookup. apply elem_of_list_to_set.
  apply (list_elem_of_fmap_2 (fun t => uiURI (tool_Name t))). by apply list_elem_of_filter.
Qed.

(** ** The invariant *)

(** A server in sync with a registry for a group. *)
Record shows (r : Registry) (searchTools : gmap string Tool) (g : GroupConfig) (srv : Srv)
    : Prop := {
  sh_tools : srv_tools srv =
    searchEntry (gc_Endpoint g) (searchTools !! gc_Endpoint g) ∪ groupHandlers r (gc_Name g);
  sh_resources : srv_resources srv = newResources r (gc_Name g)
}.

Definition noSearchClash (r : Registry) : Prop :=
  forall group, searchToolName ∉ toolNames (ToolsForGroup r group).

Definition searchNamed (searchTools : gmap string Tool) : Prop :=
  forall e t, searchTools !! e = Some t -> tool_Name t = searchToolName.

Lemma searchEntry_lookup e st n :
  searchEntry e st !! n =
  match st with
  | Some t => if decide (n = tool_Name t) then Some (t, HandleSearch e) else None
  | None => None
  end.
Proof.
  unfold searchEntry. destruct st as [t|]; [|apply lookup_empty].
  case_decide; subst; [apply lookup_singleton_eq|by apply lookup_singleton_ne].
Qed.

(** The state a pass may find a group's server in: in sync for the same
    group, or just created (which only a rebuild does). *)
Definition okBefore (old : option Registry) (newSearch : option (gmap string Tool))
    (oldSearch : gmap string Tool) (g : GroupConfig) (srv : Srv) : Prop :=
  (exists o, old = Some o /\ noSearchClash o /\ shows o oldSearch g srv) \/
  (newSearch <> None /\ srv_tools srv = ∅ /\ srv_resources srv = ∅).

(** A tool on the server that the old group does not have is its search tool. *)
Lemma okBefore_rest old newSearch oldSearch g srv n :
  okBefore old newSearch oldSearch g srv ->
  n ∉ toolNames (groupTools old (gc_Name g)) ->
  srv_tools srv !! n = None \/
  exists t, oldSearch !! gc_Endpoint g = Some t /\ n = tool_Name t /\
    srv_tools srv !! n = Some (t, HandleSearch (gc_Endpoint g)).
Proof.
  intros [(o & -> & _ & Ht & _)|(_ & -> & _)] Hnot; [|left; apply lookup_empty].
  rewrite Ht, lookup_union, searchEntry_lookup.
  pose proof (groupHandlers_lookup o (gc_Name g) n) as Ho. cbn in Hnot.
  destruct (groupHandlers o (gc_Name g) !! n) as [x|]; [destruct Hnot; apply Ho; eauto|].
  destruct (oldSearch !! gc_Endpoint g) as [t|]; [|by left]. case_decide; [|by left].
  right. eauto.
Qed.

(** One pass over a group leaves its server in sync. *)
Lemma applyGroup_tools_sync old r newSearch oldSearch g srv :
  noSearchClash r -> searchNamed oldSearch ->
  (forall new, newSearch = Some new -> searchNamed new) ->
  okBefore old newSearch oldSearch g srv ->
  srv_tools (applyGroup old r newSearch oldSearch g srv) =
  searchEntry (gc_Endpoint g) (default oldSearch newSearch !! gc_Endpoint g) ∪
    groupHandlers r (gc_Name g).
Proof.
  intros Hr Hos Hns Hsrv. apply map_eq. intros n.
  rewrite applyGroup_lookup, lookup_union, searchEntry_lookup.
  pose proof (okBefore_rest _ _ _ _ _ n Hsrv) as Hrest.
  set (ep := gc_Endpoint g) in *. set (olds := toolNames (groupTools old (gc_Name g))) in *.
  pose proof (groupHandlers_lookup r (gc_Name g) n) as Hn.
  assert (Hclash : groupHandlers r (gc_Name g) !! searchToolName = None).
  { apply eq_None_not_Some. rewrite groupHandlers_lookup. apply Hr. }
  assert (Hbase : n <> searchToolName \/ oldSearch !! ep = None ->
    match groupHandlers r (gc_Name g) !! n with
    | Some x => Some x
    | None => if decide (n ∈ olds) then None else srv_tools srv !! n end =
    groupHandlers r (gc_Name g) !! n).
  { intros Hne. destruct (groupHandlers r (gc_Name g) !! n); [done|]. case_decide; [done|].
    destruct Hrest as [->|(t & Ht & -> & _)]; [done..|].
    destruct Hne as [Hne|Hne]; [|congruence]. by rewrite (Hos _ _ Ht) in Hne. }
  destruct newSearch as [new|]; cbn [default from_option searchPart id].
  - specialize (Hns new eq_refl). destruct (new !! ep) as [t|] eqn:Ent.
    + destruct (decide (n = tool_Name t)) as [Hd|Hd]; [by rewrite union_Some_l|].
      rewrite (Hns _ _ Ent) in Hd. rewrite Hbase by by left. by rewrite (left_id_L None (∪)).
    + rewrite (left_id_L None (∪)). destruct (oldSearch !! ep) eqn:Eo; [|apply Hbase; by right].
      destruct (decide (n = searchToolName)) as [Hd|Hd]; [by subst|]. apply Hbase. by left.
  - destruct Hsrv as [(o & Eo & Hco & Ht & _)|[? _]]; [|done].
    destruct (oldSearch !! ep) as [t|] eqn:Et;
      [|rewrite (left_id_L None (∪)); apply Hbase; by right].
    destruct (decide (n = tool_Name t)) as [Hd|Hd].
    2:{ rewrite (left_id_L None (∪)). apply Hbase. left. by rewrite <-(Hos _ _ Et). }
    subst n. rewrite (Hos _ _ Et) in *. rewrite Hclash, union_Some_l.
    rewrite decide_False by (subst olds; rewrite Eo; apply Hco).
    rewrite Ht, lookup_union, searchEntry_lookup. fold ep. rewrite Et.
    rewrite decide_True by by rewrite (Hos _ _ Et).
    by rewrite union_Some_l.
Qed.

Lemma applyGroup_resources old r newSearch oldSearch g srv :
  okBefore old newSearch oldSearch g srv ->
  srv_resources (applyGroup old r newSearch oldSearch g srv) = newResources r (gc_Name g).
Proof.
  intros Hsrv. unfold applyGroup. set (s0 := if bool_decide _ then _ else _).
  assert (Hs0 : srv_resources s0 = srv_resources srv) by apply RemoveTools_if_resources.
  assert (Hs1 : srv_resources (applyResourcesLocked old s0 (gc_Name g) r) =
    newResources r (gc_Name g)).
  { apply applyResources_resources. rewrite Hs0. intros uri Hu.
    destruct Hsrv as [(o & -> & _ & _ & Hres)|(_ & _ & Hres)]; rewrite Hres in Hu.
    - by apply newResources_old.
    - rewrite lookup_empty in Hu. by destruct Hu. }
  unfold applySearchTool. rewrite <-Hs1.
  repeat case_match; rewrite ?AddTool_resources, ?RemoveTools_resources;
    apply addTools_resources.
Qed.

Lemma applyGroup_shows old r newSearch oldSearch g srv :
  noSearchClash r -> searchNamed oldSearch ->
  (forall new, newSearch = Some new -> searchNamed new) ->
  okBefore old newSearch oldSearch g srv ->
  shows r (default oldSearch newSearch) g (applyGroup old r newSearch oldSearch g srv).
Proof.
  intros. split; [by apply applyGroup_tools_sync|by apply applyGroup_resources].
Qed.

Lemma applyGroups_lookup impl old r newSearch oldSearch groups servers :
  NoDup (gc_Endpoint <$> groups) ->
  (forall g, g ∈ groups ->
    applyGroups impl old r newSearch oldSearch groups servers !! gc_Endpoint g =
    Some (applyGroup old r newSearch oldSearch g
            (default (NewServer impl (gc_Endpoint g)) (servers !! gc_Endpoint g)))) /\
  (forall e, e ∉ gc_Endpoint <$> groups ->
    applyGroups impl old r newSearch oldSearch groups servers !! e = servers !! e).
Proof.
  revert servers. induction groups as [|g groups IH]; intros servers; cbn; [set_solver|].
  intros [Hnot Hnd]%NoDup_cons.
  match goal with |- context [foldl _ ?s groups] => destruct (IH s Hnd) as [H1 H2] end.
  split.
  - intros g' [->|Hg]%elem_of_cons.
    + unfold applyGroups in H2. rewrite H2 by done. apply lookup_insert_eq.
    + unfold applyGroups in H1. rewrite H1 by done. rewrite lookup_insert_ne; [done|].
      intros Heq. apply Hnot. rewrite Heq. by apply list_elem_of_fmap_2.
  - intros e [Hne He]%not_elem_of_cons. unfold applyGroups in H2. rewrite H2 by done.
    by apply lookup_insert_ne.
Qed.
End Sync.

(** ** Runs of the manager *)
Section Runs.
Context (E : Env) {Srv : Type} `{McpServerLaws Srv}.
Context (order : gmap string upstreamState -> list (string * list RegistryEntry)).
Context (gorder : gmap string upstreamState -> GroupConfig ->
  list (string * list RegistryEntry)).
Abbreviation Manager := (Manager E (Srv := Srv)).
Implicit Types (m : Manager).

(** A served endpoint keeps its group's name. *)
Definition keepsGroups m (gs : list GroupConfig) : Prop :=
  NoDup (gc_Endpoint <$> gs) /\
  forall g, g ∈ gs -> is_Some (mgr_servers m !! gc_Endpoint g) ->
    exists g', g' ∈ mgr_groups m /\ gc_Endpoint g' = gc_Endpoint g /\ gc_Name g' = gc_Name g.

Definition liveNoClash m : Prop :=
  forall r, mgr_registry m = Some r -> noSearchClash r.

(** Anything that can happen to a manager. *)
Inductive step m : Manager -> Prop :=
  | step_rebuild cfg m' err :
      Rebuild E m cfg = (m', err) ->
      (err = None -> keepsGroups m (mgr_groups m') /\ liveNoClash m') ->
      step m m'
  | step_update name es root m' err :
      UpdateUpstream E order gorder m name es root = (m', err) -> liveNoClash m' -> step m m'
  | step_remove name m' :
      RemoveUpstream E order gorder m name = m' -> liveNoClash m' -> step m m'
  | step_oauth store reg m' : SetOAuthConfig E m store reg = m' -> step m m'
  | step_call ctx group tool a w r m' w' :
      DispatchForGroup E m ctx group tool a w = (r, m', w') -> step m m'.

Record in_sync m : Prop := {
  is_endpoints : NoDup (gc_Endpoint <$> mgr_groups m);
  is_search : searchNamed (mgr_searchTools m);
  is_live : match mgr_registry m with
            | None => mgr_servers m = ∅ /\ mgr_groups m = [] /\ mgr_namingCfg m = None
            | Some r =>
              noSearchClash r /\
              forall g, g ∈ mgr_groups m -> exists srv,
                mgr_servers m !! gc_Endpoint g = Some srv /\
                shows r (mgr_searchTools m) g srv
            end
}.

Lemma shows_same r st g g' (srv : Srv) :
  gc_Endpoint g = gc_Endpoint g' -> gc_Name g = gc_Name g' ->
  shows r st g srv -> shows r st g' srv.
Proof. intros He Hn [H1 H2]. split; rewrite <-?He, <-Hn; done. Qed.

(** The groups part of a rebuild, from a manager in sync. *)
Lemma applyGroups_sync m r gs tools :
  in_sync m -> keepsGroups m gs -> noSearchClash r -> searchNamed tools ->
  forall g, g ∈ gs -> exists srv,
    applyGroups (mgr_impl m) (mgr_registry m) r (Some tools) (mgr_searchTools m) gs
      (mgr_servers m) !! gc_Endpoint g = Some srv /\ shows r tools g srv.
Proof.
  intros [_ Hs Hlive] [Hnd Hkeep] Hr Ht g Hg.
  destruct (applyGroups_lookup (mgr_impl m) (mgr_registry m) r (Some tools)
    (mgr_searchTools m) gs (mgr_servers m) Hnd) as [Hl _].
  eexists. split; [by apply Hl|].
  change tools with (default (mgr_searchTools m) (Some tools)) at 1.
  apply applyGroup_shows; [done..|by intros ? [= <-]|].
  destruct (mgr_servers m !! gc_Endpoint g) as [srv|] eqn:Esrv; cbn.
  - left. destruct (mgr_registry m) as [o|] eqn:Eo.
    + destruct Hlive as [Ho Hlive]. exists o. split_and!; [done..|].
      destruct (Hkeep g Hg) as (g' & Hg' & He & Hn); [by rewrite Esrv|].
      destruct (Hlive g' Hg') as (srv' & Es' & Hsh). rewrite He, Esrv in Es'.
      injection Es' as <-. by apply (shows_same _ _ g').
    + destruct Hlive as [Hempty _]. by rewrite Hempty, lookup_empty in Esrv.
  - right. split; [done|]. apply NewServer_empty.
Qed.

Lemma applyRegistry_sync m r :
  in_sync m -> noSearchClash r -> mgr_registry m <> None ->
  in_sync (applyRegistryLocked E m r (mgr_groups m) None).
Proof.
  intros [Hnd Hs Hlive] Hr Hreg. split; cbn; [done|done|]. split; [done|].
  intros g Hg. destruct (mgr_registry m) as [o|] eqn:Eo; [|done].
  destruct Hlive as [Ho Hlive]. destruct (Hlive g Hg) as (srv & Esrv & Hsh).
  destruct (applyGroups_lookup (mgr_impl m) (Some o) r None (mgr_searchTools m)
    (mgr_groups m) (mgr_servers m) Hnd) as [Hl _].
  eexists. split; [by apply Hl|]. rewrite Esrv. cbn.
  apply (applyGroup_shows (Some o) r None); [done..|]. left. eauto.
Qed.

Lemma buildIndexes_named reg embed t gs acc res :
  tool_Name t = searchToolName -> searchNamed acc.2 ->
  buildIndexes E reg embed t gs acc = Ok res -> searchNamed res.2.
Proof.
  intros Ht. revert acc. induction gs as [|g gs IH]; intros acc Hacc; cbn;
    [by intros [= <-]|].
  destruct (Search.Build _ _); [|done]. apply IH. cbn.
  intros e t' [[_ <-]|[_ He]]%lookup_insert_Some; [done|]. by eapply Hacc.
Qed.

Lemma buildSearchState_named cfg reg gs idx tools limit :
  default (∅, ∅, 0) (buildSearchState E cfg reg gs) = (idx, tools, limit) ->
  searchNamed tools.
Proof.
  assert (Hempty : searchNamed ∅) by (intros e t He; by rewrite lookup_empty in He).
  unfold buildSearchState. destruct cfg as [cfg|]; cbn; [|by intros [= _ <- _]].
  destruct (tsc_Enabled cfg); cbn; [|by intros [= _ <- _]].
  destruct (env_NewEmbedding E _) as [embed|]; cbn; [|by intros [= _ <- _]].
  destruct (buildIndexes _ _ _ _ _ _) as [[ix ts]|] eqn:Eb; cbn; [|by intros [= _ <- _]].
  intros [= _ <- _]. by apply buildIndexes_named in Eb.
Qed.

Lemma rebuildFromState_sync m ord gord m' err :
  in_sync m -> rebuildFromStateLocked E m ord gord = (m', err) -> liveNoClash m' ->
  in_sync m'.
Proof.
  unfold rebuildFromStateLocked. intros Hs.
  destruct (mgr_namingCfg m) as [naming|] eqn:En; [|by intros [= <- _]].
  destruct (NewFromEntries _ _ _ _ _ _ _) as [r|e]; [|by intros [= <- _]].
  intros [= <- _] Hc. apply applyRegistry_sync; [done|by apply Hc|].
  intros Hr. destruct Hs as [_ _ Hl]. rewrite Hr in Hl. destruct Hl as (_ & _ & Hn). congruence.
Qed.

Lemma in_sync_set_upstreams m us : in_sync (set_upstreams E m us) <-> in_sync m.
Proof. split; by intros []. Qed.

Lemma liveNoClash_set_upstreams m us :
  liveNoClash (set_upstreams E m us) <-> liveNoClash m.
Proof. done. Qed.

Lemma commit_sync m cfg p :
  in_sync m -> keepsGroups m (pr_groups E p) -> noSearchClash (pr_registry E p) ->
  in_sync (commit E m cfg p).
Proof.
  intros Hs Hk Hr. unfold commit.
  destruct (default _ (buildSearchState _ _ _ _)) as [[idx tools] limit] eqn:Eb.
  destruct (buildBreakers _ _ _ _) as [bs refs].
  apply buildSearchState_named in Eb. split; cbn; [apply Hk|done|].
  split; [done|]. by apply applyGroups_sync.
Qed.

Lemma commit_groups m cfg p :
  mgr_groups (commit E m cfg p) = pr_groups E p /\
  mgr_registry (commit E m cfg p) = Some (pr_registry E p).
Proof.
  unfold commit. destruct (default _ (buildSearchState _ _ _ _)) as [[idx tools] limit].
  by destruct (buildBreakers _ _ _ _) as [bs refs].
Qed.

Lemma in_sync_set_impl m v : in_sync m -> in_sync (set_impl E m v).
Proof. by intros []. Qed.

Lemma DispatchForGroup_manager m ctx group tool a w r m' w' :
  DispatchForGroup E m ctx group tool a w = (r, m', w') ->
  m' = m \/ exists s, m' = set_store E m s.
Proof.
  unfold DispatchForGroup. intros H1.
  destruct (mgr_registry m) as [reg|]; [|simplify_eq; by left].
  destruct (ToolRegistry.DispatchForGroup _ _ _ _ _ _) as [r0 w0].
  repeat (case_match; simplify_eq/=; eauto).
Qed.

Lemma step_sync m m' : in_sync m -> step m m' -> in_sync m'.
Proof.
  intros Hs Hstep. destruct Hstep as [cfg m' err Hrun Hok|name es root m' err Hrun Hc
    |name m' Hrun Hc|store reg m' Hrun|ctx group tool a w r m' w' Hrun].
  - unfold Rebuild in Hrun.
    set (m0 := match mgr_impl m with Some _ => m | None => set_impl E m _ end) in *.
    assert (Hm0 : in_sync m0) by (unfold m0; destruct (mgr_impl m); [exact Hs|by apply in_sync_set_impl]).
    assert (Hk0 : forall gs, keepsGroups m gs -> keepsGroups m0 gs)
      by (unfold m0; by destruct (mgr_impl m)).
    destruct (prepare E m0 cfg) as [p|e]; injection Hrun as <- <-; [|done].
    destruct (Hok eq_refl) as [Hk Hc]. destruct (commit_groups m0 cfg p) as [Eg Er].
    rewrite Eg in Hk. apply commit_sync; [done|by apply Hk0|by apply Hc].
  - unfold UpdateUpstream in Hrun. destruct (mgr_namingCfg m); [|by injection Hrun as <- _].
    eapply rebuildFromState_sync; [|exact Hrun|done]. by apply in_sync_set_upstreams.
  - unfold RemoveUpstream in Hrun. destruct (mgr_namingCfg m); [|by subst].
    destruct (rebuildFromStateLocked _ _ _ _) as [m1 [e|]] eqn:Er.
    + assert (Hl1 : liveNoClash m1) by (destruct (mgr_upstreamByName m !! name); by subst).
      assert (in_sync m1)
        by (eapply rebuildFromState_sync; [|exact Er|done]; by apply in_sync_set_upstreams).
      destruct (mgr_upstreamByName m !! name); subst; [|done]. by apply in_sync_set_upstreams.
    + subst m1. eapply rebuildFromState_sync; [|exact Er|done].
      by apply in_sync_set_upstreams.
  - subst. by destruct Hs.
  - apply DispatchForGroup_manager in Hrun as [->|[s ->]]; [done|]. by destruct Hs.
Qed.

End Runs.
