(* ===== verification/ManagerCalls.v ===== *)
(** * Reloads, rollbacks and tool calls (theorems on pkg/mcp/manager.go)

    What a rebuild guarantees when it succeeds and when it fails, what a failed
    incremental update leaves behind, and what a tool call may do: which calls
    reach an executor, which results reach the cache. *)
From S2P Require Export ManagerSync.
Open Scope Z_scope.

Section Calls.
Context (E : Env) {Srv : Type} `{McpServer Srv}.
Context (order : gmap string upstreamState -> list (string * list RegistryEntry)).
Context (gorder : gmap string upstreamState -> GroupConfig ->
  list (string * list RegistryEntry)).
Abbreviation Manager := (Manager E (Srv := Srv)).
Implicit Types (m : Manager).

(** ** Rebuild *)

Lemma checkToolRateLimits_ok limits es :
  checkToolRateLimits limits es = Ok tt <->
  Forall (fun e => re_RateLimit e = "" \/ is_Some (limits !! re_RateLimit e)) es.
Proof.
  induction es as [|e es IH]; cbn; [by rewrite Forall_nil|]. rewrite Forall_cons, <-IH.
  case_bool_decide; [tauto|]. destruct (limits !! re_RateLimit e); [|naive_solver].
  naive_solver.
Qed.

Lemma checkToolCaches_ok caches es :
  checkToolCaches caches es = Ok tt <->
  Forall (fun ne : string * RegistryEntry =>
    re_CacheName ne.2 = "" \/ is_Some (caches !! re_CacheName ne.2)) es.
Proof.
  induction es as [|[n e] es IH]; cbn; [by rewrite Forall_nil|]. rewrite Forall_cons, <-IH.
  cbn. case_bool_decide; [tauto|]. destruct (caches !! re_CacheName e); naive_solver.
Qed.

Lemma namedEntries_all vus : (namedEntries vus).*2 = allEntries vus.
Proof.
  unfold namedEntries, allEntries. induction vus as [|vu vus IH]; [done|]. cbn.
  rewrite fmap_app, IH. f_equal. rewrite <-list_fmap_compose. apply list_fmap_id.
Qed.

(** What a successful [prepare] checked. *)
Lemma prepare_ok m cfg p :
  prepare E m cfg = Ok p ->
  (forall n e, EntryForTool (pr_registry E p) n = Some e -> e ∈ allEntries (pr_upstreams E p)) /\
  Forall (fun e => re_RateLimit e = "" \/ is_Some (pc_RateLimits cfg !! re_RateLimit e))
    (allEntries (pr_upstreams E p)) /\
  Forall (fun e => re_CacheName e = "" \/ is_Some (pc_Caches cfg !! re_CacheName e))
    (allEntries (pr_upstreams E p)) /\
  buildEnforcer E cfg = Ok (pr_enforcer E p).
Proof.
  unfold prepare. intros Hp.
  apply bind_Ok in Hp as ([] & _ & Hp). apply bind_Ok in Hp as ([] & _ & Hp).
  apply bind_Ok in Hp as ([] & _ & Hp). apply bind_Ok in Hp as (vus & Hv & Hp).
  apply bind_Ok in Hp as (reg & Hreg & Hp). apply bind_Ok in Hp as ([] & Hrl & Hp).
  apply bind_Ok in Hp as ([] & Hca & Hp). apply bind_Ok in Hp as (enf & Henf & Hp).
  apply bind_Ok in Hp as (store & _ & Hp). injection Hp as <-. cbn.
  destruct (ToolRegistry.New _ _ _ _ _) as [reg'|] eqn:En; [|done]. injection Hreg as ->.
  apply checkToolRateLimits_ok in Hrl. apply checkToolCaches_ok in Hca.
  split_and!; [|done| |done].
  - intros n e. apply New_inv in En as (Hf & r0 & compiled & Hr & _ & _ & Er).
    unfold EntryForTool. rewrite Er. cbn. rewrite (rg_index _ _ _ Hr).
    rewrite lookup_indexEntries by done. cbn. rewrite lookup_empty. naive_solver.
  - rewrite <-namedEntries_all. by apply Forall_fmap.
Qed.


(** ** Incremental updates *)

Lemma rebuildFromState_error m ord gord m' e :
  rebuildFromStateLocked E m ord gord = (m', Some e) -> m' = m.
Proof.
  unfold rebuildFromStateLocked. destruct (mgr_namingCfg m); [|by intros [= <- _]].
  destruct (NewFromEntries _ _ _ _ _ _ _); [done|by intros [= <- _]].
Qed.

Lemma set_upstreams_id m : set_upstreams E m (mgr_upstreamByName m) = m.
Proof. by destruct m. Qed.

(** Removing an upstream is all or nothing: either the manager is exactly
    what it was, or the upstream is gone from the state and, with its entries,
    from the live registry, while every other upstream keeps its entries. *)
Theorem RemoveUpstream_all_or_nothing m name
    (Horder : forall us, order us ≡ₚ map_to_list (entriesByUpstream us))
    (Hinit : mgr_namingCfg m <> None) :
  let m' := RemoveUpstream E order gorder m name in
  m' = m \/
  (mgr_upstreamByName m' = delete name (mgr_upstreamByName m) /\
   exists r, mgr_registry m' = Some r /\ EntriesForUpstream r name = [] /\
   forall n us, n <> name -> mgr_upstreamByName m !! n = Some us ->
     EntriesForUpstream r n = us_entries us).
Proof.
  cbn zeta. unfold RemoveUpstream. destruct (mgr_namingCfg m) as [naming|] eqn:En; [|done].
  set (us := delete name (mgr_upstreamByName m)).
  destruct (rebuildFromStateLocked _ _ _ _) as [m1 [e|]] eqn:Er.
  - left. apply rebuildFromState_error in Er as ->.
    destruct (mgr_upstreamByName m !! name) as [old|] eqn:Eold.
    + change (set_upstreams E m (<[name := old]> us) = m). unfold us.
      by rewrite insert_delete_id, set_upstreams_id.
    + unfold us. by rewrite delete_id, set_upstreams_id.
  - right. unfold rebuildFromStateLocked in Er. cbn in Er. rewrite En in Er.
    destruct (NewFromEntries _ _ _ _ _ _ _) as [r|] eqn:Ereg; [|done].
    injection Er as <-. cbn. split; [done|]. exists r. split; [done|].
    unfold NewFromEntries in Ereg. apply bind_Ok in Ereg as (r0 & Hadd & Ereg).
    apply bind_Ok in Ereg as (compiled & _ & Ereg). apply bind_Ok in Ereg as (gd & _ & Ereg).
    injection Ereg as <-.
    match type of Hadd with addCompiledUpstreams ?o ?r = _ =>
      destruct (addCompiledUpstreams_spec (env_NewPath E) o r) as [_ Hspec] end.
    destruct (Hspec _ Hadd) as (_ & _ & Htab).
    assert (Hnd : NoDup (order us).*1) by (rewrite Horder; apply NoDup_fst_map_to_list).
    destruct (Htab Hnd) as [T1 T2]. split.
    + change (EntriesForUpstream r0 name = []). rewrite T2; [done|]. rewrite Horder.
      intros ([n es] & Hn & Hin)%list_elem_of_fmap. cbn in Hn. subst n.
      apply elem_of_map_to_list in Hin. unfold entriesByUpstream, us in Hin.
      by rewrite lookup_fmap, lookup_delete_eq in Hin.
    + intros n u Hne Hu. change (EntriesForUpstream r0 n = us_entries u).
      apply (T1 (n, us_entries u)). rewrite Horder. apply elem_of_map_to_list.
      unfold entriesByUpstream, us. by rewrite lookup_fmap, lookup_delete_ne, Hu.
Qed.

Lemma NoDup_names_across {A} (f : A -> string) (l : list (string * list A)) k1 k2 l1 l2 x y :
  NoDup (f <$> (l ≫= snd)) -> (k1, l1) ∈ l -> (k2, l2) ∈ l -> k1 <> k2 ->
  x ∈ l1 -> y ∈ l2 -> f x <> f y.
Proof.
  intros Hnd H1 H2 Hne Hx Hy Hf. induction l as [|[k es] l IH]; [by apply not_elem_of_nil in H1|].
  cbn in Hnd. rewrite fmap_app in Hnd. apply NoDup_app in Hnd as (_ & Hdis & Hnd).
  assert (Hcross : forall k' l' a b, (k', l') ∈ l -> a ∈ es -> b ∈ l' -> f a <> f b).
  { intros k' l' a b Hin Ha Hb Hab. apply (Hdis (f a)).
    - by apply list_elem_of_fmap_2.
    - rewrite Hab. apply list_elem_of_fmap_2, list_elem_of_bind. by exists (k', l'). }
  apply elem_of_cons in H1 as [[= -> ->]|H1]; apply elem_of_cons in H2 as [[= <- <-]|H2].
  - done.
  - by eapply Hcross.
  - symmetry in Hf. by eapply Hcross.
  - by apply IH.
Qed.

(** A state in which two upstreams hold the same tool name cannot be rebuilt. *)
Lemma conflicting_state m n1 n2 u1 u2 x y naming :
  (forall us, order us ≡ₚ map_to_list (entriesByUpstream us)) ->
  mgr_namingCfg m = Some naming -> n1 <> n2 ->
  mgr_upstreamByName m !! n1 = Some u1 -> mgr_upstreamByName m !! n2 = Some u2 ->
  x ∈ us_entries u1 -> y ∈ us_entries u2 -> re_PrefixedName x = re_PrefixedName y ->
  exists e, rebuildFromStateLocked E m (order (mgr_upstreamByName m))
              (gorder (mgr_upstreamByName m)) = (m, Some e).
Proof.
  intros Horder En Hne H1 H2 Hx Hy Hxy. unfold rebuildFromStateLocked. rewrite En.
  destruct (NewFromEntries _ _ _ _ _ _ _) as [r|e] eqn:Ereg; [|eauto]. exfalso.
  unfold NewFromEntries in Ereg. apply bind_Ok in Ereg as (r0 & Hadd & _).
  match type of Hadd with addCompiledUpstreams ?o ?r = _ =>
    destruct (addCompiledUpstreams_spec (env_NewPath E) o r) as [[Hf _] _] end.
  rewrite Hadd in Hf. specialize (Hf eq_refl). apply fresh_empty in Hf.
  assert (Hin : forall n u, mgr_upstreamByName m !! n = Some u ->
    (n, us_entries u) ∈ order (mgr_upstreamByName m)).
  { intros n u Hu. rewrite Horder. apply elem_of_map_to_list. unfold entriesByUpstream.
    by rewrite lookup_fmap, Hu. }
  by apply (NoDup_names_across re_PrefixedName _ n1 n2 (us_entries u1) (us_entries u2) x y Hf
    (Hin _ _ H1) (Hin _ _ H2)).
Qed.

(** An update whose entries clash with another upstream's tool is
    rejected and changes nothing that is served, but the rejected entries
    stay in the upstream state: from then on every update of any third
    upstream is rejected too, whatever it brings. *)
Theorem UpdateUpstream_poisons m name es root other us x y
    (Horder : forall us, order us ≡ₚ map_to_list (entriesByUpstream us))
    (Hinit : mgr_namingCfg m <> None)
    (Hother : other <> name) (Hus : mgr_upstreamByName m !! other = Some us)
    (Hx : x ∈ es) (Hy : y ∈ us_entries us) (Hclash : re_PrefixedName x = re_PrefixedName y) :
  exists m' e, UpdateUpstream E order gorder m name es root = (m', Some e) /\
    mgr_servers m' = mgr_servers m /\ mgr_registry m' = mgr_registry m /\
    forall third es3 root3, third <> name -> third <> other ->
      exists m3 e3, UpdateUpstream E order gorder m' third es3 root3 = (m3, Some e3).
Proof.
  destruct (mgr_namingCfg m) as [naming|] eqn:En; [|done]. unfold UpdateUpstream. rewrite En.
  set (m' := set_upstreams E m _).
  destruct (conflicting_state m' name other
    {| us_entries := es; us_specYAMLRoot := root |} us x y naming Horder En) as [e He];
    [done|cbn; apply lookup_insert_eq|cbn; by rewrite lookup_insert_ne|done..|].
  exists m', e. split_and!; [exact He|done|done|].
  intros third es3 root3 Hn Ho. cbn [mgr_namingCfg set_upstreams m']. rewrite En.
  set (m3 := set_upstreams E m' _).
  destruct (conflicting_state m3 name other
    {| us_entries := es; us_specYAMLRoot := root |} us x y naming Horder En) as [e3 He3].
  - done.
  - cbn. rewrite lookup_insert_ne by done. apply lookup_insert_eq.
  - cbn. by rewrite !lookup_insert_ne.
  - done.
  - done.
  - done.
  - exists m3, e3. exact He3.
Qed.
End Calls.

Section Dispatching.
Context (E : Env) {Srv : Type} `{McpServer Srv} `{!CacheStoreLaws (Store E)}.
Abbreviation Manager := (Manager E (Srv := Srv)).
Implicit Types (m : Manager).

(** ** The cache *)

(** Every result the store may answer with is a success. *)
Definition holdsSuccesses (s : Store E) : Prop :=
  forall k r, cache_holds s k = Some r -> res_IsError r = false.

Lemma holdsSuccesses_Get s k r s' :
  cache_Get s k = (r, s') -> holdsSuccesses s -> holdsSuccesses s'.
Proof. intros Hg Hs k' v Hv. by eapply Hs, cache_Get_keeps. Qed.

Lemma holdsSuccesses_Set s k r ttl :
  res_IsError r = false -> holdsSuccesses s -> holdsSuccesses (cache_Set s k r ttl).
Proof.
  intros Hr Hs k' v [[_ ->]|Hv]%cache_Set_holds; [done|]. by eapply Hs.
Qed.

(** C6: a dispatch keeps error results out of the cache, and either it is a
    hit, which answers with a success the store held and runs nothing, or its
    answer and its effect on the world are the registry's own. *)
Theorem DispatchForGroup_cache m ctx group tool a w r m' w'
    (Hrun : DispatchForGroup E m ctx group tool a w = (r, m', w'))
    (Hstore : forall s, mgr_store m = Some s -> holdsSuccesses s) :
  (forall s, mgr_store m' = Some s -> holdsSuccesses s) /\
  (mgr_registry m' = mgr_registry m /\ mgr_servers m' = mgr_servers m) /\
  ((w' = w /\ exists res s k, mgr_store m = Some s /\ cache_holds s k = Some res /\
      res_IsError res = false /\ r = reply_ok res) \/
   match mgr_registry m with
   | None => r = reply_ok (errorResult "no config loaded") /\ w' = w
   | Some reg =>
     (r, w') = ToolRegistry.DispatchForGroup (env_Execute E) reg group tool (default [] a) w
   end).
Proof.
  unfold DispatchForGroup in Hrun.
  destruct (mgr_registry m) as [reg|] eqn:Ereg; [|by simplify_eq; naive_solver].
  destruct (ToolRegistry.DispatchForGroup _ _ _ _ _ w) as [r0 w0] eqn:Ed.
  destruct (mgr_store m) as [store|] eqn:Es; [|by simplify_eq; naive_solver].
  specialize (Hstore store eq_refl).
  destruct (EntryForTool reg tool) as [entry|]; [|by simplify_eq; rewrite Es; naive_solver].
  case_bool_decide; [by simplify_eq; rewrite Es; naive_solver|].
  destruct (mgr_cacheConfigs m !! _) as [cacheCfg|]; [|by simplify_eq; rewrite Es; naive_solver].
  destruct (ComputeKey _ _ _ _ _ _ _) as [key|e]; [|by simplify_eq; rewrite Es; naive_solver].
  destruct (cache_Get store key) as [[cached|] store'] eqn:Eg; simplify_eq/=; rewrite Ereg.
  - split_and!; [|done|done|].
    + intros s [= <-]. by eapply holdsSuccesses_Get.
    + left. split; [done|]. apply cache_Get_holds in Eg. eauto 10.
  - split_and!; [|done|done|by right]. intros s [= <-].
    assert (Hs' : holdsSuccesses store') by by eapply holdsSuccesses_Get.
    destruct (rep_Error r); [done|]. destruct (rep_Result r) as [res|]; [|done].
    destruct (res_IsError res) eqn:Ei; [done|]. by apply holdsSuccesses_Set.
Qed.

(** ** Rate limits *)

Lemma rateLimitKey_parts ctx source limit session :
  exists part, rateLimitKey ctx source limit session =
    limit +:+ ":" +:+ source +:+ ":" +:+ part /\
    (source = "user" -> forall s, call_Subject ctx = Some s -> s <> "" -> part = s).
Proof.
  unfold rateLimitKey. eexists. split; [done|]. intros -> s Hs Hne.
  rewrite bool_decide_true by done. rewrite Hs. by rewrite bool_decide_false.
Qed.

(** C5: a call to a tool with a configured limit counts one hit under the
    caller's key.  Past the limit it is refused with an [IsError] result, no
    executor runs and the manager is unchanged; within it, or when the
    limiter fails, the call goes on as one without a limit.  Two different
    authenticated users never share a counter of a per-user limit. *)
Theorem callTool_rate_limit m ctx t gn rlName reqName session raw w enf cfg lim lres w1
    (Hname : rlName <> "")
    (Henf : mgr_enforcer m = Some enf)
    (Hcfg : mgr_rateLimitCfgs m !! rlName = Some cfg)
    (Hlim : limiters enf !! rlName = Some lim)
    (Hget : env_limiter_Get E lim (rateLimitKey ctx (rlc_Source cfg) rlName session) w
            = (lres, w1)) :
  match lres with
  | Ok lc =>
    if lc_Reached lc then
      exists text, callTool E m ctx t gn rlName reqName session raw w =
        Ok (reply_ok (errorResult text), m, w1)
    else callTool E m ctx t gn rlName reqName session raw w =
         callTool E m ctx t gn "" reqName session raw w1
  | Err _ => callTool E m ctx t gn rlName reqName session raw w =
             callTool E m ctx t gn "" reqName session raw w1
  end /\
  (rlc_Source cfg = "user" -> forall ctx2 s1 s2, call_Subject ctx = Some s1 ->
     call_Subject ctx2 = Some s2 -> s1 <> "" -> s2 <> "" -> s1 <> s2 ->
     rateLimitKey ctx (rlc_Source cfg) rlName session <>
     rateLimitKey ctx2 (rlc_Source cfg) rlName session).
Proof.
  split.
  - unfold callTool. rewrite bool_decide_false by done. rewrite bool_decide_true by done.
    assert (Hcheck : checkRateLimit E m ctx rlName session w =
      match lres with
      | Ok lc => if lc_Reached lc then
          (Some (errorResult ("rate limit exceeded: limit=" +:+ rlName
                +:+ " remaining=" +:+ pretty (lc_Remaining lc)
                +:+ " reset=" +:+ env_FormatTime E (lc_Reset lc))), w1)
        else (None, w1)
      | Err _ => (None, w1) end).
    { unfold checkRateLimit, Allow. rewrite Henf, Hcfg, Hlim, Hget.
      destruct lres as [lc|]; [|done]. cbn. by destruct (lc_Reached lc). }
    rewrite Hcheck. destruct lres as [lc|]; [|done]. destruct (lc_Reached lc); [|done].
    by eexists.
  - intros Hu ctx2 s1 s2 H1 H2 Hn1 Hn2 Hne Heq.
    destruct (rateLimitKey_parts ctx (rlc_Source cfg) rlName session) as (p1 & E1 & P1).
    destruct (rateLimitKey_parts ctx2 (rlc_Source cfg) rlName session) as (p2 & E2 & P2).
    rewrite E1, E2 in Heq. do 4 apply string_app_inj_r in Heq.
    apply Hne. by rewrite <-(P1 Hu s1), <-(P2 Hu s2).
Qed.
End Dispatching.

(** ** Renamed groups *)
Section Renaming.
Context {Srv : Type} `{McpServerLaws Srv}.

(** The diff of a group's server looks the old tools up by the group's
    name, while servers are kept by endpoint: when a reload renames a group
    and keeps its endpoint, every tool of the old group that the new one lacks
    stays on the server. *)
Theorem renamed_group_keeps_tools (old r : Registry) newSearch oldSearch g srv n th
    (Hrenamed : groups old !! gc_Name g = None)
    (Hsrv : srv_tools srv !! n = Some th) (Hn : n <> searchToolName) :
  is_Some (srv_tools (applyGroup (Some old) r newSearch oldSearch g srv) !! n).
Proof.
  rewrite applyGroup_lookup. cbn. unfold ToolsForGroup. rewrite Hrenamed.
  rewrite (decide_False (P := n ∈ toolNames [])) by apply not_elem_of_empty.
  assert (Hb : is_Some (match groupHandlers r (gc_Name g) !! n with
    | Some x => Some x | None => srv_tools srv !! n end))
    by (case_match; [eauto|rewrite Hsrv; eauto]).
  unfold searchPart. repeat case_match; try done; eauto.
Qed.
End Renaming.
