(* ===== verification/ManagerSample.v ===== *)
(** * A sample manager, at which the theorems on pkg/mcp/manager.go are applied

    Two upstreams with one tool each, a rate limit and a cache, built by a
    builder, a limiter and a store that are as simple as they can be. *)
From S2P Require Export ManagerCalls.
Open Scope Z_scope.

Module Setup.
Definition entry (up : Upstream) (exec : handle) : RegistryEntry := {|
  re_PrefixedName := up_ToolPrefix up +:+ "__get"; re_OriginalName := "get";
  re_Upstream := Some up;
  re_MCPTool := Some {| tool_Name := up_ToolPrefix up +:+ "__get"; tool_Description := "";
                        tool_InputSchema := None; tool_ResourceUri := None |};
  re_Transforms := None; re_ResponseFormat := "json"; re_AuthRequired := true;
  re_Method := "GET"; re_PathTemplate := "/"; re_Validator := None;
  re_ValidationCfg := zero_ValidationConfig; re_OperationNode := None;
  re_Executor := exec; re_Handler := None; re_RateLimit := "api"; re_UIHandler := Some 7%positive;
  re_CacheName := "c" |}.

(** Executor 9 fails, every other one answers. *)
Definition Execute (e : handle) (_ : args) (w : list string) : Reply * list string :=
  (reply_ok (if bool_decide (e = 9%positive) then errorResult "boom" else textResult "done"),
   "executed" :: w).

Definition upstreamOf (cfg : UpstreamConfig) : Upstream :=
  ToolRegistry.Sample.upstream (if bool_decide (uc_Name cfg = "pets") then 1 else 2)
    (uc_Name cfg) (uc_ToolPrefix cfg).

Definition build (c : UpstreamConfig * NamingConfig) : result string ValidatedUpstream :=
  Ok {| vu_Config := c.1; vu_Entries := [entry (upstreamOf c.1) 5]; vu_SpecYAMLRoot := None |}.

Definition limiter_Get (rate : Rate) (key : string) (w : list string)
    : result string LimiterContext * list string :=
  (Ok {| lc_Remaining := 0; lc_Reset := 0;
         lc_Reached := rate_Limit rate <=? Z.of_nat (length w) |}, key :: w).

Definition env : Env := {|
  W := list string;
  env_Execute := Execute;
  JSONPath := unit;
  env_NewPath := ToolRegistry.Sample.NewPath;
  env_Query := ToolRegistry.Sample.Query;
  env_builders := Generic.Register Generic.zero "http" build;
  LimitStore := unit;
  Limiter := Rate;
  env_limitStores := Generic.Register Generic.zero "memory" (fun _ => Ok tt);
  env_limiter_New := fun _ rate => rate;
  env_limiter_Get := limiter_Get;
  Store := gmap string CallToolResult;
  env_CacheStore := map_store;
  env_cacheStores := Generic.Register Generic.zero "memory" (fun _ => Ok ∅);
  CB := CBState;
  env_NewCircuitBreaker := fun _ => StateClosed;
  env_cb_State := fun s => (s, s, []);
  Collection := gset string;
  Embedding := unit;
  env_VectorStore := Search.set_store;
  env_NewEmbedding := fun _ => Ok tt;
  env_MarshalSchema := fun _ => "{}";
  env_MarshalDefs := fun _ => Some "[]";
  env_NewCounter := fun _ => Err "no encoding";
  env_RecordTokens := fun _ _ _ _ w => w;
  env_FormatFloat := Cache.Sample.FormatFloat;
  env_Unmarshal := Cache.Sample.Unmarshal;
  env_Sum256 := Cache.Sample.Sum256;
  env_FormatTime := fun _ => "1970-01-01T00:00:00Z" |}.

Definition config (groups : list GroupConfig) : ProxyConfig := {|
  pc_Server := zero_ServerConfig; pc_Telemetry := zero_TelemetryConfig;
  pc_Naming := ToolRegistry.Sample.naming;
  pc_Upstreams := [ToolRegistry.Sample.upstreamConfig "pets" "pets";
                   ToolRegistry.Sample.upstreamConfig "shop" "shop"];
  pc_InboundAuth := zero_InboundAuthConfig; pc_Groups := groups;
  pc_Runtime := zero_RuntimeConfig; pc_TokenCounting := zero_TokenCountingConfig;
  pc_RateLimits := {["api" := RateLimit.Sample.api]};
  pc_RateLimitStore := zero_RateLimitStoreConfig; pc_ToolSearch := None;
  pc_SessionStore := zero_SessionStoreConfig; pc_Caches := {["c" := zero_CacheConfig]};
  pc_CacheStore := zero_CacheStoreConfig; pc_CircuitBreakers := ∅ |}.

Definition order (us : gmap string upstreamState) : list (string * list RegistryEntry) :=
  map_to_list (entriesByUpstream us).
Definition gorder (us : gmap string upstreamState) (_ : GroupConfig) := order us.

Abbreviation mgr := (Manager env (Srv := MapServer)).
Definition start : mgr := NewManager env None.
Definition loaded : mgr := (Rebuild env start (config [])).1.

Lemma loaded_ok : Rebuild env start (config []) = (loaded, None).
Proof.
  assert (H : (Rebuild env start (config [])).2 = None) by (vm_compute; reflexivity).
  unfold loaded. rewrite <-H. apply surjective_pairing.
Qed.

Definition defaultGroup : GroupConfig := {|
  gc_Name := "default"; gc_Endpoint := "/mcp"; gc_Upstreams := ["pets"; "shop"];
  gc_Filter := "" |}.

Lemma loaded_groups : mgr_groups loaded = [defaultGroup].
Proof. vm_compute. reflexivity. Qed.

Definition live : Registry := default (emptyRegistry "") (mgr_registry loaded).

Lemma loaded_search : mgr_searchTools loaded = ∅.
Proof. vm_compute. reflexivity. Qed.

Lemma loaded_live : mgr_registry loaded = Some live.
Proof. vm_compute. reflexivity. Qed.

Lemma no_clash (m : mgr) r :
  mgr_registry m = Some r ->
  bool_decide (map_Forall (fun _ gd => searchToolName ∉ toolNames (gd_toolList gd)) (groups r))
    = true -> liveNoClash env m.
Proof.
  intros Hr Hall%bool_decide_eq_true r' Hr'. rewrite Hr in Hr'. injection Hr' as <-.
  intros group. unfold ToolsForGroup. destruct (groups r !! group) as [gd|] eqn:E.
  - by apply (Hall group).
  - by apply not_elem_of_empty.
Qed.

Lemma loaded_step : step env order gorder start loaded.
Proof.
  apply (step_rebuild env order gorder start (config []) loaded None); [exact loaded_ok|].
  intros _. split; [split|].
  - rewrite loaded_groups. apply NoDup_singleton.
  - intros g _ [srv Hs]. unfold start, NewManager in Hs. cbn in Hs.
    by rewrite lookup_empty in Hs.
  - apply (no_clash loaded live); [exact loaded_live|]. vm_compute. reflexivity.
Qed.
End Setup.



Lemma RemoveUpstream_all_or_nothing_witness :
  let m' := RemoveUpstream Setup.env Setup.order Setup.gorder Setup.loaded "pets" in
  m' = Setup.loaded \/
  (mgr_upstreamByName m' = delete "pets" (mgr_upstreamByName Setup.loaded) /\
   exists r, mgr_registry m' = Some r /\ EntriesForUpstream r "pets" = [] /\
   forall n us, n <> "pets" -> mgr_upstreamByName Setup.loaded !! n = Some us ->
     EntriesForUpstream r n = us_entries us).
Proof.
  apply (RemoveUpstream_all_or_nothing Setup.env Setup.order Setup.gorder Setup.loaded "pets").
  - done.
  - vm_compute. discriminate.
Defined.

(** The shop's refresh brings a tool that the pets upstream already has. *)
Lemma UpdateUpstream_poisons_witness :
  exists m' e, UpdateUpstream Setup.env Setup.order Setup.gorder Setup.loaded "shop"
      [Setup.entry (ToolRegistry.Sample.upstream 3 "shop" "pets") 6] None = (m', Some e) /\
    mgr_servers m' = mgr_servers Setup.loaded /\
    mgr_registry m' = mgr_registry Setup.loaded /\
    forall third es3 root3, third <> "shop" -> third <> "pets" ->
      exists m3 e3,
        UpdateUpstream Setup.env Setup.order Setup.gorder m' third es3 root3 = (m3, Some e3).
Proof.
  set (x := Setup.entry (ToolRegistry.Sample.upstream 3 "shop" "pets") 6).
  set (y := Setup.entry (ToolRegistry.Sample.upstream 1 "pets" "pets") 5).
  apply (UpdateUpstream_poisons Setup.env Setup.order Setup.gorder Setup.loaded "shop" [x] None
    "pets" {| us_entries := [y]; us_specYAMLRoot := None |} x y).
  - done.
  - vm_compute. discriminate.
  - discriminate.
  - vm_compute. reflexivity.
  - by left.
  - by left.
  - reflexivity.
Defined.

Lemma DispatchForGroup_cache_witness :
  let ctx := {| call_Subject := None; call_Client := {| ctx_clientIP := None |} |} in
  let '(r, m', w') :=
    DispatchForGroup Setup.env Setup.loaded ctx "default" "pets__get" (Some []) [] in
  forall s, mgr_store m' = Some s -> holdsSuccesses Setup.env s.
Proof.
  cbn zeta. destruct (DispatchForGroup _ _ _ _ _ _ _) as [[r m'] w'] eqn:E.
  refine (proj1 (DispatchForGroup_cache Setup.env _ _ _ _ _ _ _ _ _ E _)).
  intros s Hs k res Hres.
  replace (mgr_store Setup.loaded) with (Some (∅ : gmap string CallToolResult)) in Hs
    by (vm_compute; reflexivity).
  injection Hs as <-.
  change ((∅ : gmap string CallToolResult) !! k = Some res) in Hres.
  by rewrite lookup_empty in Hres.
Defined.

(** The sixteenth hit of the period is refused. *)
Lemma callTool_rate_limit_witness :
  let ctx := {| call_Subject := Some "ann"; call_Client := {| ctx_clientIP := None |} |} in
  let t := sampleTool "pets__get" in
  exists text, callTool Setup.env Setup.loaded ctx t "default" "api" "pets__get" "s1" RawNil
      (replicate 15 "hit") =
    Ok (reply_ok (errorResult text), Setup.loaded, "api:user:ann" :: replicate 15 "hit").
Proof.
  cbn zeta.
  refine (proj1 (callTool_rate_limit Setup.env Setup.loaded
    {| call_Subject := Some "ann"; call_Client := {| ctx_clientIP := None |} |}
    (sampleTool "pets__get") "default" "api" "pets__get" "s1" RawNil (replicate 15 "hit")
    {| limiters := {["api" := {| rate_Limit := 15; rate_Period := 60 |}]};
       configs := {["api" := RateLimit.Sample.api]} |}
    RateLimit.Sample.api {| rate_Limit := 15; rate_Period := 60 |}
    (Ok {| lc_Remaining := 0; lc_Reset := 0; lc_Reached := true |}) _ _ _ _ _ _)).
  - discriminate.
  - vm_compute. reflexivity.
  - vm_compute. reflexivity.
  - vm_compute. reflexivity.
  - vm_compute. reflexivity.
Defined.

(** The default group's server, offered to a group of another name. *)
Lemma renamed_group_keeps_tools_witness :
  is_Some (srv_tools (applyGroup (Some Setup.live) (emptyRegistry "__") (Some ∅) ∅
    {| gc_Name := "renamed"; gc_Endpoint := "/mcp"; gc_Upstreams := []; gc_Filter := "" |}
    (default (∅, ∅) (mgr_servers Setup.loaded !! "/mcp"))) !! "pets__get").
Proof.
  eapply renamed_group_keeps_tools.
  - vm_compute. reflexivity.
  - vm_compute. reflexivity.
  - discriminate.
Defined.
