(* ===== verification/ManagerRefresh.v ===== *)
(** * Refreshers over the manager

    The manager of pkg/mcp/manager.go discharges the [RegistryManager] interface
    the refreshers of pkg/upstream/http/refresh.go are proved against, and the two
    run together: the ticks of one refresher, interleaved with the updates and
    removals the other refreshers make. *)
From S2P Require Export ManagerSample Refresher.
Open Scope Z_scope.

Section ManagerRefresh.
Context `{SpecLibs}.
Context (E : Env) {Srv : Type} `{McpServer Srv}.
Context (order : gmap string upstreamState -> list (string * list RegistryEntry)).
Context (gorder : gmap string upstreamState -> GroupConfig ->
  list (string * list RegistryEntry)).
Abbreviation Manager := (Manager E (Srv := Srv)).
Implicit Types (m : Manager).

(** The live registry has an entry list for the upstream, and so has the state
    the registry is rebuilt from. *)
Definition serves m (name : string) : Prop :=
  is_Some (mgr_upstreamByName m !! name) /\
  exists reg, mgr_registry m = Some reg /\ is_Some (byUpstreamName reg !! name).

#[export] Instance manager_interface : RegistryManager Manager := {|
  MgrError := ManagerError;
  mgr_Update := Manager.UpdateUpstream E order gorder;
  mgr_Remove := Manager.RemoveUpstream E order gorder;
  mgr_serves := serves |}.

Lemma addCompiledUpstreams_dom ups (r r' : Registry) :
  addCompiledUpstreams ups r = Ok r' ->
  forall n, is_Some (byUpstreamName r' !! n) <-> n ∈ ups.*1 \/ is_Some (byUpstreamName r !! n).
Proof.
  revert r. induction ups as [|[name es] ups IH]; intros r; cbn.
  - intros [= <-] n. split; [by right|]. by intros [?%not_elem_of_nil|?].
  - intros Hadd n. apply bind_Ok in Hadd as (r1 & H1 & H2).
    destruct (addCompiledEntries_spec es (set_upstreamEntries r name es)) as [_ Hs].
    destruct (Hs r1 H1) as (_ & _ & Hup). rewrite (IH r1 H2 n), Hup. cbn.
    rewrite elem_of_cons, lookup_insert_is_Some'. naive_solver.
Qed.

(** A successful rebuild registers exactly the upstreams of the state. *)
Lemma rebuild_serves m us m' n
    (Horder : forall us, order us ≡ₚ map_to_list (entriesByUpstream us)) :
  rebuildFromStateLocked E (set_upstreams E m us) (order us) (gorder us) = (m', None) ->
  is_Some (us !! n) -> serves m' n.
Proof.
  unfold rebuildFromStateLocked. cbn. destruct (mgr_namingCfg m) as [naming|]; [|done].
  destruct (NewFromEntries _ _ _ _ _ _ _) as [reg|] eqn:Ereg; [|done]. intros [= <-] Hn.
  split; [done|]. exists reg. split; [done|]. unfold NewFromEntries in Ereg.
  apply bind_Ok in Ereg as (r0 & Hadd & Ereg). apply bind_Ok in Ereg as (compiled & _ & Ereg).
  apply bind_Ok in Ereg as (gd & _ & [= <-]). cbn.
  apply (addCompiledUpstreams_dom _ _ _ Hadd). left. rewrite Horder.
  destruct Hn as [u Hu]. apply list_elem_of_fmap. exists (n, us_entries u). split; [done|].
  apply elem_of_map_to_list. unfold entriesByUpstream. by rewrite lookup_fmap, Hu.
Qed.

Section Laws.
Context (Horder : forall us, order us ≡ₚ map_to_list (entriesByUpstream us)).

Lemma UpdateUpstream_serves m name es root m' err n :
  Manager.UpdateUpstream E order gorder m name es root = (m', err) ->
  serves m n \/ (n = name /\ err = None) -> serves m' n.
Proof.
  unfold Manager.UpdateUpstream. destruct (mgr_namingCfg m) eqn:En; [|by intros [= <- <-] [?|[_ ?]]].
  intros Hu Hn. destruct err as [e|].
  - apply rebuildFromState_error in Hu as ->. destruct Hn as [[Hs Hreg]|[_ ?]]; [|done].
    split; [|exact Hreg]. cbn. apply lookup_insert_is_Some'. by right.
  - eapply rebuild_serves; [done|exact Hu|]. apply lookup_insert_is_Some'.
    destruct Hn as [[Hs _]|[-> _]]; [by right|by left].
Qed.

Lemma RemoveUpstream_serves m name n :
  n <> name -> serves m n -> serves (Manager.RemoveUpstream E order gorder m name) n.
Proof.
  intros Hne Hs. unfold Manager.RemoveUpstream. destruct (mgr_namingCfg m) eqn:En; [|done].
  destruct (rebuildFromStateLocked _ _ _ _) as [m1 [e|]] eqn:Er.
  - apply rebuildFromState_error in Er as ->. destruct Hs as [Hs Hreg].
    destruct (mgr_upstreamByName m !! name); (split; [|exact Hreg]); cbn;
      rewrite ?lookup_insert_ne, lookup_delete_ne by done; exact Hs.
  - eapply rebuild_serves; [done|exact Er|]. rewrite lookup_delete_ne by done. apply Hs.
Qed.

#[export] Instance manager_laws : RegistryManagerLaws Manager.
Proof.
  split; intros m name es root m'.
  - intros Hu. eapply UpdateUpstream_serves; [exact Hu|]. by right.
  - intros err Hu Hs. eapply UpdateUpstream_serves; [exact Hu|]. by left.
Qed.
End Laws.

(** One refresher and the manager it shares with others. *)
Inductive system_step (cfg : UpstreamConfig) : Refresher * Manager -> Refresher * Manager -> Prop :=
  | sys_tick w cy : system_step cfg w (afterTick cfg w cy)
  | sys_update r m name es root m' err :
      name <> uc_Name cfg -> Manager.UpdateUpstream E order gorder m name es root = (m', err) ->
      system_step cfg (r, m) (r, m')
  | sys_remove r m name :
      name <> uc_Name cfg -> system_step cfg (r, m) (r, Manager.RemoveUpstream E order gorder m name).

Lemma system_step_loop cfg w w'
    (Horder : forall us, order us ≡ₚ map_to_list (entriesByUpstream us)) :
  system_step cfg w w' -> loop_step cfg w w'.
Proof.
  intros [w0 cy|r m name es root m' err Hne Hu|r m name Hne]; constructor.
  - intros Hs. eapply UpdateUpstream_serves; [done|exact Hu|by left].
  - intros Hs. by apply RemoveUpstream_serves.
Qed.

End ManagerRefresh.

