(* ===== verification/Proxy.v ===== *)
(** * Assembling the inbound side (pkg/mcpanything/proxy.go, and the inbound
    strategies' registrations)

    How the configured strategies become the middleware in front of the MCP
    handlers, which upstreams get a refresher, and the key that signs OAuth
    states.  The registry of strategies is the one of [Registries].  [Assembly] puts
    these parts together with the rest of the proxy. *)
From S2P Require Export Inbound Refresher Manager.
Open Scope Z_scope.

Inductive ProxyError :=
  | BuildInboundAuth (err : LookupError)
  | BuildOverride (upstream : string) (err : LookupError)
  | CreatingRefresher (upstream err : string)
  | SessionStore (err : string).

Section Auth.
Context {W : Type} `{Unicode, Numbers, JsonText}.
Local Abbreviation HTTPHandler := (InboundRequest -> W -> HttpReply * W).
Local Abbreviation MW := (HTTPHandler -> HTTPHandler).
Local Abbreviation Strategies := (Generic.Registry (InboundAuthConfig -> result string MW)).
Implicit Types (reg : Strategies).

(** The factory each strategy package registers, given its validator. *)
Definition jwtFactory (newVerifier : JWTAuthConfig -> result string (string -> W -> result string IDToken * W))
    (ic : InboundAuthConfig) : result string MW :=
  match newVerifier (iac_JWT ic) with
  | Err err => Err err
  | Ok verifier => Ok (ValidatorMiddleware (jwtValidate verifier) "")
  end.

Definition introspectionFactory
    (newServer : IntrospectionConfig -> result string (string -> W -> result string IntrospectionResponse * W))
    (ic : InboundAuthConfig) : result string MW :=
  match newServer (iac_Introspection ic) with
  | Err err => Err err
  | Ok server =>
    Ok (ValidatorMiddleware (introspectionValidate server (isp_Audience (iac_Introspection ic))) "")
  end.

Definition apikeyFactory (Getenv : string -> string) (ic : InboundAuthConfig) : result string MW :=
  match apiKeys Getenv (iac_APIKey ic) with
  | None => Err ("no API keys found in environment variable " +:+ Quote (aka_KeysEnv (iac_APIKey ic)))
  | Some keys => Ok (ValidatorMiddleware (apikeyValidate keys) (aka_Header (iac_APIKey ic)))
  end.

Context (reg : Strategies).
Context (pools : option (gmap string handle)).

(** The configuration with the pools of the script strategies. *)
Definition withPools (ic : InboundAuthConfig) : InboundAuthConfig :=
  {| iac_Strategy := iac_Strategy ic; iac_JWT := iac_JWT ic;
     iac_Introspection := iac_Introspection ic; iac_APIKey := iac_APIKey ic; iac_Lua := iac_Lua ic;
     iac_JS := iac_JS ic; iac_JSAuthPool := GetRuntime pools "js/auth";
     iac_LuaAuthPool := GetRuntime pools "lua/auth" |}.

Definition strategyMW (ic : InboundAuthConfig) : result LookupError MW :=
  newMiddleware reg ("inbound/" +:+ iac_Strategy ic) (withPools ic).

(** The overrides of the enabled upstreams, in the order of the configuration. *)
Fixpoint buildOverrides (overrideMWs : gmap string MW) (ups : list UpstreamConfig)
    : result ProxyError (gmap string MW) :=
  match ups with
  | [] => Ok overrideMWs
  | up :: rest =>
    match uc_InboundAuthOverride up with
    | Some ov =>
      if uc_Enabled up then
        match strategyMW ov with
        | Err err => Err (BuildOverride (uc_Name up) err)
        | Ok mw => buildOverrides (<[uc_Name up := mw]> overrideMWs) rest
        end
      else buildOverrides overrideMWs rest
    | None => buildOverrides overrideMWs rest
    end
  end.

(** The middleware and the well-known handler, when authentication is on.
    [AuthRequired] and [ToolUpstreamName] are the manager's. *)
Definition buildAuth (cfg : ProxyConfig) (AuthRequired : string -> bool)
    (ToolUpstreamName : string -> string)
    : result ProxyError (option MW * option (InboundRequest -> HttpReply)) :=
  let strategy := iac_Strategy (pc_InboundAuth cfg) in
  if bool_decide (strategy = "") || bool_decide (strategy = "none") then Ok (None, None)
  else
    match strategyMW (pc_InboundAuth cfg) with
    | Err err => Err (BuildInboundAuth err)
    | Ok globalMW =>
      overrideMWs ← buildOverrides ∅ (pc_Upstreams cfg);
      Ok (Some (DispatchMiddleware globalMW overrideMWs AuthRequired (Some ToolUpstreamName)),
          if bool_decide (strategy = "jwt") || bool_decide (strategy = "introspection")
          then Some (WellKnownHandler cfg) else None)
    end.

(** The handler [New] mounts for an endpoint, below the client-address middleware. *)
Definition mountedHandler (authMiddleware : option MW) (handler : HTTPHandler) : HTTPHandler :=
  match authMiddleware with
  | None => handler
  | Some mw => mw handler
  end.
End Auth.

(** [buildRefreshers]: one refresher per enabled upstream with an interval and an
    HTTP source, in order; the first failure ends it. *)
Section Refreshers.
Context {R : Type} (NewRefresher : UpstreamConfig -> result string R).

Definition refreshed (up : UpstreamConfig) : bool :=
  uc_Enabled up && (0 <? oas_RefreshInterval (uc_OpenAPI up)) &&
  HasPrefix (oas_Source (uc_OpenAPI up)) "http".

Fixpoint buildRefreshers (ups : list UpstreamConfig) : result ProxyError (list R) :=
  match ups with
  | [] => Ok []
  | up :: rest =>
    if refreshed up then
      match NewRefresher up with
      | Err err => Err (CreatingRefresher (uc_Name up) err)
      | Ok r => cons r <$> buildRefreshers rest
      end
    else buildRefreshers rest
  end.
End Refreshers.

(** [resolveHMACKey]; [rand] is [None] when no random bytes are available. *)
Definition resolveHMACKey (ExpandEnv sha256 : string -> string) (rand : option string) (raw : string)
    : string :=
  let expanded := ExpandEnv raw in
  if bool_decide (expanded = "") then
    match rand with None => sha256 "mcp-auto-ephemeral-hmac-key" | Some b => b end
  else sha256 expanded.

(** [buildSessionStore]: the callback mux, when a session store is configured. *)
Definition buildSessionStore {S} (newStore : SessionStoreConfig -> result string S)
    (ExpandEnv sha256 : string -> string) (rand : option string) (cfg : ProxyConfig)
    : result ProxyError (option (Mux S)) :=
  let ss := pc_SessionStore cfg in
  if bool_decide (ssc_Provider ss = "") then Ok None
  else
    match newStore ss with
    | Err err => Err (SessionStore err)
    | Ok store =>
      Ok (Some (OAuth.New (Some store) (resolveHMACKey ExpandEnv sha256 rand (ssc_HMACKey ss))))
    end.

(** ** What the configuration protects *)
Section AuthFacts.
Context {W : Type} `{Unicode, Numbers, JsonText}.
Local Abbreviation HTTPHandler := (InboundRequest -> W -> HttpReply * W).
Local Abbreviation MW := (HTTPHandler -> HTTPHandler).
Context (reg : Generic.Registry (InboundAuthConfig -> result string MW)).
Context (pools : option (gmap string handle)).
Context (AuthRequired : string -> bool) (ToolUpstreamName : string -> string).
Local Abbreviation strategy := (strategyMW reg pools).
Implicit Types (ups : list UpstreamConfig) (cfg : ProxyConfig).

(** An upstream's override that is in force. *)
Definition overridden (up : UpstreamConfig) (ov : InboundAuthConfig) : Prop :=
  uc_Enabled up = true /\ uc_InboundAuthOverride up = Some ov.

Lemma buildOverrides_spec acc ups :
  match buildOverrides reg pools acc ups with
  | Ok overrides =>
      (forall up ov, up ∈ ups -> overridden up ov -> is_ok (strategy ov) = true) /\
      (forall before up after ov, ups = before ++ up :: after -> overridden up ov ->
         Forall (fun up' => uc_Name up' <> uc_Name up) after ->
         Ok <$> overrides !! uc_Name up = Some (strategy ov)) /\
      (forall name, Forall (fun up => uc_Name up <> name \/ forall ov, ~ overridden up ov) ups ->
         overrides !! name = acc !! name)
  | Err err => exists up ov, up ∈ ups /\ overridden up ov /\ is_ok (strategy ov) = false
  end.
Proof.
  revert acc. induction ups as [|up ups IH]; intros acc; cbn [buildOverrides].
  { split_and!; [by intros ? ? ?%not_elem_of_nil|by intros [|]|done]. }
  assert (Hskip : (forall ov, ~ overridden up ov) ->
    match buildOverrides reg pools acc ups with
    | Ok overrides =>
        (forall up' ov, up' ∈ up :: ups -> overridden up' ov -> is_ok (strategy ov) = true) /\
        (forall before up' after ov, up :: ups = before ++ up' :: after -> overridden up' ov ->
           Forall (fun up'' => uc_Name up'' <> uc_Name up') after ->
           Ok <$> overrides !! uc_Name up' = Some (strategy ov)) /\
        (forall name, Forall (fun up' => uc_Name up' <> name \/ forall ov, ~ overridden up' ov) (up :: ups) ->
           overrides !! name = acc !! name)
    | Err err => exists up' ov, up' ∈ up :: ups /\ overridden up' ov /\ is_ok (strategy ov) = false
    end).
  { intros Hno. specialize (IH acc). destruct (buildOverrides _ _ _ _) as [overrides|err].
    - destruct IH as (Hbuilt & Hlastof & Hnone_of). split_and!.
      + intros up' ov [->|Hin]%elem_of_cons Hov; [by destruct (Hno ov)|by eapply Hbuilt].
      + intros [|up0 before] up' after ov [= -> ->] Hov; [by destruct (Hno ov)|by eapply Hlastof].
      + intros name [_ Hall]%Forall_cons. by apply Hnone_of.
    - destruct IH as (up' & ov & Hin & Hrest). exists up', ov. split; [by right|done]. }
  destruct (uc_InboundAuthOverride up) as [ov|] eqn:Eov.
  2:{ apply Hskip. intros ov [_ Hov]. congruence. }
  destruct (uc_Enabled up) eqn:Een.
  2:{ apply Hskip. intros ov' [Hov _]. congruence. }
  destruct (strategy ov) as [mw|err] eqn:Es.
  2:{ exists up, ov. split_and!; [by left|done|by rewrite Es]. }
  specialize (IH (<[uc_Name up := mw]> acc)). destruct (buildOverrides _ _ _ _) as [overrides|err].
  - destruct IH as (Hbuilt & Hlastof & Hnone_of). split_and!.
    + intros up' ov' [->|Hin]%elem_of_cons Hov; [|by eapply Hbuilt].
      destruct Hov as [_ Hov]. rewrite Eov in Hov. injection Hov as <-. by rewrite Es.
    + intros [|up0 before] up' after ov' [= -> ->] Hov Hlast; [|by eapply Hlastof].
      destruct Hov as [_ Hov]. rewrite Eov in Hov. injection Hov as <-.
      rewrite Hnone_of, lookup_insert_eq by (eapply Forall_impl; [exact Hlast|by left]). by rewrite Es.
    + intros name [Hup Hall]%Forall_cons. rewrite Hnone_of by done.
      destruct Hup as [Hne|Hno]; [by rewrite lookup_insert_ne|]. by destruct (Hno ov).
  - destruct IH as (up' & ov' & Hin & Hrest). exists up', ov'. split; [by right|done].
Qed.

(** C40: When authentication is on, the proxy starts exactly when the global strategy
    and every override of an enabled upstream can be built, and then each request
    goes through the dispatch with these middlewares: the last override of a name
    counts, an upstream without one falls to the global strategy, and the
    well-known document is served exactly for the strategies that have an issuer. *)
Theorem buildAuth_dispatch (cfg : ProxyConfig)
    (Hon : iac_Strategy (pc_InboundAuth cfg) ∉ [""; "none"]) :
  match buildAuth reg pools cfg AuthRequired ToolUpstreamName with
  | Ok (mw, wellKnown) =>
      exists globalMW overrides,
        mw = Some (DispatchMiddleware globalMW overrides AuthRequired (Some ToolUpstreamName)) /\
        strategy (pc_InboundAuth cfg) = Ok globalMW /\
        (forall before up after ov, pc_Upstreams cfg = before ++ up :: after -> overridden up ov ->
           Forall (fun up' => uc_Name up' <> uc_Name up) after ->
           Ok <$> overrides !! uc_Name up = Some (strategy ov)) /\
        (forall name, Forall (fun up => uc_Name up <> name \/ forall ov, ~ overridden up ov)
           (pc_Upstreams cfg) -> overrides !! name = None) /\
        (is_Some wellKnown <-> iac_Strategy (pc_InboundAuth cfg) ∈ ["jwt"; "introspection"])
  | Err _ => is_ok (strategy (pc_InboundAuth cfg)) = false \/
      exists up ov, up ∈ pc_Upstreams cfg /\ overridden up ov /\ is_ok (strategy ov) = false
  end.
Proof.
  rewrite !not_elem_of_cons in Hon. destruct Hon as (Hne & Hnn & _).
  unfold buildAuth. rewrite (bool_decide_false _ Hne), (bool_decide_false _ Hnn). cbn [orb].
  destruct (strategy (pc_InboundAuth cfg)) as [globalMW|err]; [|by left].
  pose proof (buildOverrides_spec ∅ (pc_Upstreams cfg)) as Hspec.
  destruct (buildOverrides _ _ _ _) as [overrides|err]; cbn [mbind result_bind]; [|by right].
  destruct Hspec as (_ & Hlastof & Hnone_of). exists globalMW, overrides. split_and!; [done..|exact Hlastof|exact Hnone_of|].
  rewrite !elem_of_cons, elem_of_nil. unfold is_Some.
  do 2 case_bool_decide; cbn [orb]; naive_solver.
Qed.

(** With the global strategy off no override is in force: a request reaches the
    handlers with whatever token or none, also for the tools of an upstream that
    configures its own strategy. *)
Theorem overrides_need_global (cfg : ProxyConfig) (up : UpstreamConfig) (ov : InboundAuthConfig)
    (handler : HTTPHandler)
    (Hoff : iac_Strategy (pc_InboundAuth cfg) = "none" \/ iac_Strategy (pc_InboundAuth cfg) = "")
    (Hup : up ∈ pc_Upstreams cfg) (Hov : overridden up ov) :
  exists mw, buildAuth reg pools cfg AuthRequired ToolUpstreamName = Ok (mw, None) /\
    forall r w, mountedHandler mw handler r w = handler r w.
Proof. exists None. split; [|done]. unfold buildAuth. by destruct Hoff as [->| ->]. Qed.

(** The strategy [none], which the configuration allows, is not a strategy an
    override can name: no package registers it, and the proxy does not start. *)
Theorem override_none_fails (cfg : ProxyConfig) (up : UpstreamConfig) (ov : InboundAuthConfig)
    (Hnone : Generic.Get reg "inbound/none" = None)
    (Hon : iac_Strategy (pc_InboundAuth cfg) ∉ [""; "none"])
    (Hup : up ∈ pc_Upstreams cfg) (Hov : overridden up ov) (Hstrategy : iac_Strategy ov = "none") :
  is_ok (buildAuth reg pools cfg AuthRequired ToolUpstreamName) = false.
Proof.
  rewrite !not_elem_of_cons in Hon. destruct Hon as (Hne & Hnn & _).
  unfold buildAuth. rewrite (bool_decide_false _ Hne), (bool_decide_false _ Hnn). cbn [orb].
  destruct (strategy (pc_InboundAuth cfg)) as [globalMW|err]; [|done].
  pose proof (buildOverrides_spec ∅ (pc_Upstreams cfg)) as Hspec.
  destruct (buildOverrides _ _ _ _) as [overrides|err]; [|done].
  destruct Hspec as (Hbuilt & _). apply (Hbuilt up ov) in Hov; [|done].
  unfold strategyMW, newMiddleware in Hov. rewrite Hstrategy in Hov.
  change ("inbound/" +:+ "none") with "inbound/none" in Hov. by rewrite Hnone in Hov.
Qed.
End AuthFacts.

(** ** A sample configuration *)
Module SampleProxy.
Local Abbreviation HTTPHandler := (InboundRequest -> list InboundRequest -> HttpReply * list InboundRequest).
Definition reg : Generic.Registry (InboundAuthConfig -> result string (HTTPHandler -> HTTPHandler)) :=
  Generic.Register Generic.zero "inbound/apikey"
    (apikeyFactory (H := SampleValidation.unicode) (H0 := SampleEngine.numbers) SampleInbound.getenv).
Definition auth (strategy : string) : InboundAuthConfig := {|
  iac_Strategy := strategy;
  iac_JWT := zero_JWTAuthConfig;
  iac_Introspection := zero_IntrospectionConfig;
  iac_APIKey := SampleInbound.keysCfg;
  iac_Lua := zero_LuaAuthConfig;
  iac_JS := zero_JSAuthConfig;
  iac_JSAuthPool := None;
  iac_LuaAuthPool := None |}.
(** An upstream [ops] with a strategy of its own. *)
Definition ops (strategy : string) : UpstreamConfig := {|
  uc_Name := "ops";
  uc_Enabled := true;
  uc_ToolPrefix := "";
  uc_Type := "";
  uc_BaseURL := "";
  uc_Cache := "";
  uc_Timeout := 0;
  uc_TLSSkipVerify := false;
  uc_Headers := ∅;
  uc_Transport := zero_TransportConfig;
  uc_OpenAPI := zero_OpenAPISourceConfig;
  uc_Overlay := None;
  uc_StartupValidationTimeout := 0;
  uc_Validation := zero_ValidationConfig;
  uc_InboundAuthOverride := Some (auth strategy);
  uc_OutboundAuth := zero_OutboundAuthConfig;
  uc_Commands := [];
  uc_Scripts := [];
  uc_RateLimit := "";
  uc_CircuitBreaker := "";
  uc_AppUI := None;
  uc_JSScriptPool := None |}.
Definition cfg (global override : string) : ProxyConfig := {|
  pc_Server := zero_ServerConfig;
  pc_Telemetry := zero_TelemetryConfig;
  pc_Naming := zero_NamingConfig;
  pc_Upstreams := [ops override];
  pc_InboundAuth := auth global;
  pc_Groups := [];
  pc_Runtime := zero_RuntimeConfig;
  pc_TokenCounting := zero_TokenCountingConfig;
  pc_RateLimits := ∅;
  pc_RateLimitStore := zero_RateLimitStoreConfig;
  pc_ToolSearch := None;
  pc_SessionStore := zero_SessionStoreConfig;
  pc_Caches := ∅;
  pc_CacheStore := zero_CacheStoreConfig;
  pc_CircuitBreakers := ∅ |}.
End SampleProxy.

Section ProxyWitnesses.
#[local] Existing Instances SampleInbound.json SampleEngine.numbers SampleValidation.unicode.
Import SampleProxy.

Lemma buildAuth_dispatch_witness :
  exists globalMW overrides,
    (fst <$> buildAuth reg None (cfg "apikey" "apikey") SampleInbound.AuthRequired SampleInbound.lookup)
      = Ok (Some (DispatchMiddleware globalMW overrides SampleInbound.AuthRequired
          (Some SampleInbound.lookup))) /\
    Ok <$> overrides !! "ops" = Some (strategyMW reg None (auth "apikey")).
Proof.
  pose proof (buildAuth_dispatch reg None SampleInbound.AuthRequired SampleInbound.lookup
    (cfg "apikey" "apikey")) as Hspec.
  assert (Hok : is_ok (buildAuth reg None (cfg "apikey" "apikey") SampleInbound.AuthRequired
    SampleInbound.lookup) = true) by (vm_compute; reflexivity).
  destruct (buildAuth _ _ _ _ _) as [[mw wellKnown]|err]; [|discriminate].
  destruct Hspec as (globalMW & overrides & Hmw & _ & Hov & _); [cbn; set_solver|].
  exists globalMW, overrides. split; [cbn; rewrite Hmw; reflexivity|].
  apply (Hov [] (ops "apikey") [] (auth "apikey")); [reflexivity|by split|constructor].
Defined.

Lemma overrides_need_global_witness :
  exists mw, buildAuth reg None (cfg "none" "apikey") SampleInbound.AuthRequired SampleInbound.lookup
      = Ok (mw, None) /\
    mountedHandler mw SampleInbound.next (SampleInbound.request "stranger" "admin") [] =
      SampleInbound.next (SampleInbound.request "stranger" "admin") [].
Proof.
  destruct (overrides_need_global reg None SampleInbound.AuthRequired SampleInbound.lookup
    (cfg "none" "apikey") (ops "apikey") (auth "apikey") SampleInbound.next) as (mw & Hb & Hh).
  - by left.
  - by left.
  - by split.
  - exists mw. split; [exact Hb|apply Hh].
Defined.

Lemma override_none_fails_witness :
  is_ok (buildAuth reg None (cfg "apikey" "none") SampleInbound.AuthRequired SampleInbound.lookup) = false.
Proof.
  apply (override_none_fails reg None SampleInbound.AuthRequired SampleInbound.lookup
    (cfg "apikey" "none") (ops "none") (auth "none")).
  - reflexivity.
  - cbn. set_solver.
  - by left.
  - by split.
  - reflexivity.
Defined.
End ProxyWitnesses.
