(* ===== verification/Assembly.v ===== *)
(** * The assembled proxy (pkg/mcpanything/proxy.go)

    [New] puts the parts together: pools, manager, session store, telemetry,
    configuration loader, inbound authentication, handlers, refreshers and server
    routes; then background tasks, start and shutdown.  The parts are the ones the
    other files model; what this file adds is their order, what is decided once at
    the start, and what a reload of the configuration reaches. *)
From S2P Require Import Telemetry.
From S2P Require Export Proxy ConfigLoader.
From S2P Require Import Server ManagerSample.
Open Scope Z_scope.

Inductive AssemblyError :=
  | RuntimePools (err : LookupError)
  | SessionSetup (err : ProxyError)
  | TelemetryInit (err : string)
  | LoaderFailed (err : LoadError)
  | InitialRebuild (err : ManagerError)
  | AuthSetup (err : ProxyError)
  | RefresherSetup (err : ProxyError).

(** [LoadConfig]: [env] is the variable CONFIG_PATH. *)
Definition LoadConfig {F} `{Goga F} (env : string) (f : F) : result LoadError (string * ProxyConfig) :=
  let path := if bool_decide (env = "") then "/etc/mcp-auto/config.yaml" else env in
  match ConfigLoader.Load path f with
  | Err err => Err err
  | Ok cfg => Ok (path, cfg)
  end.

Definition telemetrySettings (cfg : TelemetryConfig) : Telemetry.Settings := {|
  ServiceName := tel_ServiceName cfg; ServiceVersion := tel_ServiceVersion cfg;
  OTLPEndpoint := tel_OTLPEndpoint cfg; Insecure := tel_Insecure cfg |}.

(** [Init] of file Telemetry as the assembly uses it: its error. *)
Definition initTelemetry {T} `{OtelSdk T} (g : Globals) (w : T) (cfg : Telemetry.Settings) : option string :=
  match Init cfg g w with (Err err, _, _) => Some err | (Ok _, _, _) => None end.

Section Assembly.
Context (E : Env) {Srv : Type} `{McpServer Srv}.
Context {W F R S : Type} `{Unicode, Numbers, JsonText, Goga F}.
(** A handler's world carries the values of the request's context. *)
Local Abbreviation World := (Context * W)%type.
Local Abbreviation HTTPHandler := (InboundRequest -> World -> HttpReply * World).
Local Abbreviation Manager := (Manager E (Srv := Srv)).
Context (managerErrorText : ManagerError -> string).
(** The registered factories, in iteration order. *)
Context (runtimeFactories : list (string * (RuntimeConfig -> result string handle))).
Context (strategies : Generic.Registry (InboundAuthConfig -> result string (HTTPHandler -> HTTPHandler))).
Context (newStore : SessionStoreConfig -> result string S) (storeRef muxRef : handle).
Context (ExpandEnv sha256 : string -> string) (rand : option string).
(** [initTelemetry]; the server of the SDK behind an endpoint; the peer's
    address; a refresher's constructor. *)
Context (telemetryInit : Telemetry.Settings -> option string).
Context (serverHandler : string -> HTTPHandler).
Context (RemoteAddr : InboundRequest -> string).
Context (NewRefresher : UpstreamConfig -> result string R).
(** The manager's methods the middleware calls, on the live manager. *)
Context (AuthRequired : string -> bool) (ToolUpstreamName : string -> string).

Record Proxy := {
  px_cfg : ProxyConfig;
  px_cfgPath : string;
  px_manager : Manager;
  px_loader : option Loader;
  px_pools : gmap string handle;
  px_refreshers : list R;
  px_mcpHandlers : gmap string HTTPHandler;
  px_wellKnown : option (InboundRequest -> HttpReply);
  px_oauthMux : option (Mux S)
}.

(** The function the loader is given. *)
Definition onLoad (newCfg : ProxyConfig) (m : Manager) : option string * Manager :=
  let '(m, err) := Rebuild E m newCfg in (managerErrorText <$> err, m).

(** [ClientIPMiddleware] on the handlers' requests. *)
Definition clientIP (next : HTTPHandler) : HTTPHandler := fun r w =>
  ClientIPMiddleware (fun _ ctx => next r (ctx, w.2))
    {| req_Header := Header_Get (irq_Header r); req_RemoteAddr := RemoteAddr r |} w.1.

(** The manager with its session store, and the mux. *)
Definition setSessionStore (cfg : ProxyConfig) (m : Manager)
    : result AssemblyError (Manager * option (Mux S)) :=
  match buildSessionStore newStore ExpandEnv sha256 rand cfg with
  | Err err => Err (SessionSetup err)
  | Ok None => Ok (m, None)
  | Ok (Some mux) => Ok (SetOAuthConfig E m (Some storeRef) (Some muxRef), Some mux)
  end.

(** The first configuration goes live: through the loader when there is a path. *)
Definition initialLoad (cfg : ProxyConfig) (cfgPath : string) (f : F) (m : Manager)
    : result AssemblyError (ProxyConfig * option Loader * Manager) :=
  if bool_decide (cfgPath <> "") then
    match NewLoader onLoad cfgPath f m with
    | (Err err, _) => Err (LoaderFailed err)
    | (Ok l, m) => Ok (Current l, Some l, m)
    end
  else
    match Rebuild E m cfg with
    | (_, Some err) => Err (InitialRebuild err)
    | (m, None) => Ok (cfg, None, m)
    end.

(** The handlers of the endpoints, each behind authentication and the client's
    address. *)
Definition mountAll (mw : option (HTTPHandler -> HTTPHandler)) (servers : gmap string Srv)
    : gmap string HTTPHandler :=
  map_imap (fun endpoint _ => Some (clientIP (mountedHandler mw (serverHandler endpoint)))) servers.

Definition New (cfg : ProxyConfig) (cfgPath : string) (f : F) : result AssemblyError Proxy :=
  match NewRuntimeRegistry runtimeFactories (pc_Runtime cfg) with
  | Err err => Err (RuntimePools err)
  | Ok pools =>
    '(m, mux) ← setSessionStore cfg (NewManager E (Some pools));
    match telemetryInit (telemetrySettings (pc_Telemetry cfg)) with
    | Some err => Err (TelemetryInit err)
    | None =>
      '(cfg, loader, m) ← initialLoad cfg cfgPath f m;
      match buildAuth strategies (Some pools) cfg AuthRequired ToolUpstreamName with
      | Err err => Err (AuthSetup err)
      | Ok (mw, wellKnown) =>
        match buildRefreshers NewRefresher (pc_Upstreams cfg) with
        | Err err => Err (RefresherSetup err)
        | Ok refreshers =>
          Ok {| px_cfg := cfg; px_cfgPath := cfgPath; px_manager := m; px_loader := loader;
                px_pools := pools; px_refreshers := refreshers;
                px_mcpHandlers := mountAll mw (HTTPHandlers E m); px_wellKnown := wellKnown;
                px_oauthMux := mux |}
        end
      end
    end
  end.

(** [Handlers] *)
Definition Handlers (p : Proxy) : gmap string HTTPHandler := px_mcpHandlers p.

(** The readiness of the routes: the refreshers', when there are any, and the
    breakers'. *)
Definition readinessOf (health : R -> HealthChecker) (p : Proxy) (now : Z) : bool * option Reason :=
  CompositeIsReady
    ((match px_refreshers p with [] => [] | rs => [RefresherSetIsReady (health <$> rs)] end) ++
     [IsCircuitBreakerReady E (px_manager p) now]).

(** The routes of the proxy's own server.  The field [oauthMux] is a pointer, so the
    interface the server gets is never nil, even around a nil mux. *)
Section Routes.
Context (HandleCallback : Mux S -> string -> InboundRequest -> World -> HttpReply * World).
Context (reasonText : Reason -> string) (health : R -> HealthChecker) (clock : World -> Z).
Context (counters : World -> ReloadCounters) (prometheus : InboundRequest -> World -> option HttpReply * World).
Context (ServerMiddleware : (InboundRequest -> World -> option HttpReply * World) -> string ->
           InboundRequest -> World -> option HttpReply * World).

Definition answering (h : HTTPHandler) : InboundRequest -> World -> option HttpReply * World :=
  fun r w => let '(reply, w) := h r w in (Some reply, w).

Definition serverRoutes (p : Proxy)
    : list (Pattern * (string -> InboundRequest -> World -> option HttpReply * World)) :=
  Server.New HandleCallback reasonText ServerMiddleware
    (prod_map id answering <$> map_to_list (px_mcpHandlers p))
    ((fun h r w => (Some (h r), w)) <$> px_wellKnown p)
    (Some (ReloadMetricsHandler counters)) (Some prometheus)
    (Some (fun w => readinessOf health p (clock w)))
    (Some (px_oauthMux p)).
End Routes.

(** What [StartBackground] starts, in order. *)
Inductive Task := RunRefresher (r : R) | RunWatch (l : Loader).
Definition StartBackground (p : Proxy) : list Task :=
  (RunRefresher <$> px_refreshers p) ++ match px_loader p with Some l => [RunWatch l] | None => [] end.

(** [Shutdown]: both are asked, the first error is returned. *)
Definition Shutdown (telShutdown srvShutdown : option string) : option string :=
  match telShutdown with
  | Some err => Some err
  | None => srvShutdown
  end.

(** A reload of the running proxy: what [Watch] runs. *)
Definition reloadProxy (p : Proxy) (f : F) (c : ReloadCounters) : Proxy * ReloadCounters :=
  match px_loader p with
  | None => (p, c)
  | Some l =>
    let '(l, m, c) := tryReload onLoad l f (px_manager p) c in
    ({| px_cfg := px_cfg p; px_cfgPath := px_cfgPath p; px_manager := m; px_loader := Some l;
        px_pools := px_pools p; px_refreshers := px_refreshers p; px_mcpHandlers := px_mcpHandlers p;
        px_wellKnown := px_wellKnown p; px_oauthMux := px_oauthMux p |}, c)
  end.

(** ** Facts *)

Lemma New_ok cfg cfgPath f p : New cfg cfgPath f = Ok p ->
  exists m0 mux mw wellKnown,
    setSessionStore cfg (NewManager E (Some (px_pools p))) = Ok (m0, mux) /\
    initialLoad cfg cfgPath f m0 = Ok (px_cfg p, px_loader p, px_manager p) /\
    buildAuth strategies (Some (px_pools p)) (px_cfg p) AuthRequired ToolUpstreamName = Ok (mw, wellKnown) /\
    px_mcpHandlers p = mountAll mw (HTTPHandlers E (px_manager p)) /\ px_oauthMux p = mux.
Proof.
  unfold New. destruct (NewRuntimeRegistry _ _) as [pools|]; [|done].
  destruct (setSessionStore cfg _) as [[m0 mux]|] eqn:Es; [|done]. cbn [mbind result_bind].
  destruct (telemetryInit _); [done|].
  destruct (initialLoad cfg cfgPath f m0) as [[[cfg1 l] m]|] eqn:El; [|done]. cbn [mbind result_bind].
  destruct (buildAuth _ _ _ _ _) as [[mw wk]|] eqn:Ea; [|done].
  destruct (buildRefreshers _ _); [|done]. intros [= <-]. cbn. exists m0, mux, mw, wk. done.
Qed.

Lemma Rebuild_set_up m cfg m' : Rebuild E m cfg = (m', None) -> mgr_impl m' <> None.
Proof.
  unfold Rebuild. set (m0 := match mgr_impl m with Some _ => m | _ => _ end) in *.
  assert (Hm0 : mgr_impl m0 <> None) by (unfold m0; by destruct (mgr_impl m) eqn:Ei; rewrite ?Ei).
  destruct (prepare E m0 cfg); [|done]. intros [= <-]. unfold commit.
  destruct (default _ (buildSearchState _ _ _ _)) as [[idx tools] limit].
  by destruct (buildBreakers _ _ _ _) as [bs refs].
Qed.

Lemma Rebuild_fails m cfg m' err : mgr_impl m <> None -> Rebuild E m cfg = (m', Some err) -> m' = m.
Proof.
  unfold Rebuild. intros Hi. destruct (mgr_impl m) as [v|] eqn:Ei; [|done].
  destruct (prepare E m cfg); [done|]. by intros [= <- _].
Qed.

Lemma mountAll_lookup mw servers e : mountAll mw servers !! e =
  (fun _ => clientIP (mountedHandler mw (serverHandler e))) <$> servers !! e.
Proof. unfold mountAll. rewrite map_lookup_imap. by destruct (servers !! e). Qed.

Lemma initialLoad_set_up cfg cfgPath f m cfg' l m' :
  initialLoad cfg cfgPath f m = Ok (cfg', l, m') ->
  mgr_impl m' <> None /\ (cfgPath <> "" <-> is_Some l) /\
  forall l0, l = Some l0 -> Current l0 = cfg' /\ ld_path l0 = cfgPath.
Proof.
  unfold initialLoad. case_bool_decide as Hp.
  - unfold NewLoader. destruct (ConfigLoader.Load cfgPath f) as [c|[]]; [|done..].
    destruct (onLoad c m) as [[err|] m1] eqn:Eo; [done|]. intros [= <- <- <-].
    unfold onLoad in Eo. destruct (Rebuild E m c) as [m2 [err|]] eqn:Er; [done|].
    injection Eo as <-. split_and!; [by eapply Rebuild_set_up|split; [by eexists|done]|].
    by intros l0 [= <-].
  - destruct (Rebuild E m cfg) as [m2 [err|]] eqn:Er; [done|]. intros [= <- <- <-].
    split_and!; [by eapply Rebuild_set_up|split; [done|by intros []]|done].
Qed.

(** C12: Every endpoint the manager serves is mounted, and nothing else; each handler is
    behind the authentication that the configuration in force asks for, which is
    the loader's when there is one. *)
Theorem New_mounts (cfg : ProxyConfig) (cfgPath : string) (f : F) (p : Proxy)
    (Hnew : New cfg cfgPath f = Ok p) :
  (exists mw wellKnown,
     buildAuth strategies (Some (px_pools p)) (px_cfg p) AuthRequired ToolUpstreamName = Ok (mw, wellKnown) /\
     forall endpoint, Handlers p !! endpoint =
       (fun _ => clientIP (mountedHandler mw (serverHandler endpoint))) <$>
         HTTPHandlers E (px_manager p) !! endpoint) /\
  (cfgPath = "" -> px_cfg p = cfg /\ px_loader p = None) /\
  (cfgPath <> "" -> exists l, px_loader p = Some l /\ Current l = px_cfg p /\ ld_path l = cfgPath).
Proof.
  apply New_ok in Hnew as (m0 & mux & mw & wk & Hs & Hl & Ha & Hh & _). split_and!.
  - exists mw, wk. split; [done|]. intros e. unfold Handlers. rewrite Hh. apply mountAll_lookup.
  - intros ->. unfold initialLoad in Hl. rewrite bool_decide_false in Hl by naive_solver.
    destruct (Rebuild E m0 cfg) as [m2 [err|]]; [done|]. injection Hl as ???. by split.
  - intros Hp. apply initialLoad_set_up in Hl as (_ & Hiff & Hcur).
    apply Hiff in Hp as [l El]. exists l. split; [done|]. by apply Hcur.
Qed.

(** Without a session store the callback route is mounted all the same, and a
    request to it panics: nothing the server is given is a nil interface. *)
Theorem callback_without_sessions_panics HandleCallback reasonText health clock counters prometheus ServerMiddleware
    (cfg : ProxyConfig) (cfgPath : string) (f : F) (p : Proxy)
    (Hnew : New cfg cfgPath f = Ok p) (Hnone : ssc_Provider (pc_SessionStore cfg) = "") :
  exists h, (GETParam "/oauth/callback/" "upstreamName", h)
      ∈ serverRoutes HandleCallback reasonText health clock counters prometheus ServerMiddleware p /\
    forall name r w, h name r w = (None, w).
Proof.
  apply New_ok in Hnew as (m0 & mux & mw & wk & Hs & _ & _ & _ & Hmux). unfold setSessionStore, buildSessionStore in Hs.
  rewrite Hnone in Hs. rewrite bool_decide_true in Hs by done. injection Hs as _ <-.
  unfold serverRoutes. rewrite Hmux. apply callback_route_of_nil.
Qed.

(** C9: A reload is all or nothing.  Either the file loads, the manager rebuilds from it
    and it becomes the current configuration; or manager and configuration stay as
    they are and the reload is counted as failed. *)
Theorem reload_atomic (p : Proxy) (l : Loader) (f : F) (c : ReloadCounters)
    (Hl : px_loader p = Some l) (Hup : mgr_impl (px_manager p) <> None) :
  let '(p', c') := reloadProxy p f c in
  configReloadTotal c' = wrap64 (configReloadTotal c + 1) /\
  ((exists cfg l', ConfigLoader.Load (ld_path l) f = Ok cfg /\
      Rebuild E (px_manager p) cfg = (px_manager p', None) /\
      px_loader p' = Some l' /\ Current l' = cfg /\ ld_path l' = ld_path l /\
      configReloadErrors c' = configReloadErrors c) \/
   (px_manager p' = px_manager p /\ px_loader p' = Some l /\
      configReloadErrors c' = wrap64 (configReloadErrors c + 1))).
Proof.
  unfold reloadProxy. rewrite Hl. unfold tryReload.
  destruct (ConfigLoader.Load (ld_path l) f) as [cfg|e]; [|cbn; split; [done|by right]].
  destruct (onLoad cfg (px_manager p)) as [[err|] m] eqn:Eo; cbn; (split; [done|]);
    unfold onLoad in Eo; destruct (Rebuild E (px_manager p) cfg) as [m2 [e|]] eqn:Er; try done;
    cbn in Eo; injection Eo as ?; subst.
  - right. split; [|done]. by eapply Rebuild_fails.
  - left. exists cfg, {| ld_path := ld_path l; ld_current := cfg |}. by split_and!.
Qed.

(** Only the manager takes part in a reload.  The mounted handlers are those of the
    start: with the authentication of the first configuration, whatever the current
    one asks for, and without the endpoints that came later. *)
Theorem reload_keeps_first_auth (cfg : ProxyConfig) (cfgPath : string) (f0 f : F) (p : Proxy)
    (c : ReloadCounters) (endpoint : string)
    (Hnew : New cfg cfgPath f0 = Ok p)
    (Hopen : iac_Strategy (pc_InboundAuth (px_cfg p)) = "" \/
             iac_Strategy (pc_InboundAuth (px_cfg p)) = "none") :
  let p' := (reloadProxy p f c).1 in
  Handlers p' !! endpoint =
    (fun _ => clientIP (serverHandler endpoint)) <$> HTTPHandlers E (px_manager p) !! endpoint.
Proof.
  intros p'.
  assert (Hh : Handlers p' = Handlers p).
  { unfold p', reloadProxy. destruct (px_loader p) as [l|]; [|done].
    by destruct (tryReload _ _ _ _ _) as [[? ?] ?]. }
  rewrite Hh. apply New_ok in Hnew as (m0 & mux & mw & wk & _ & _ & Ha & Hm & _).
  unfold Handlers. rewrite Hm, mountAll_lookup. unfold buildAuth in Ha.
  destruct Hopen as [Ho|Ho]; rewrite Ho in Ha; by injection Ha as <- <-.
Qed.
End Assembly.

(** ** A sample proxy: the sample manager behind a loader *)
Module SampleAssembly.
(** The file: its configuration, or nothing. *)
#[local] Instance goga : Goga (option ProxyConfig) := {|
  gogaLoad _ _ _ f := match f with Some cfg => Ok (cfg, None) | None => Err "no such file" end |}.
#[local] Existing Instances SampleInbound.json SampleEngine.numbers SampleValidation.unicode.
Definition serverHandler (endpoint : string) (_ : InboundRequest) (w : Context * list string)
    : HttpReply * (Context * list string) :=
  (plainReply 200 endpoint, (w.1, endpoint :: w.2)).
Definition new (f : option ProxyConfig) :=
  New (Srv := MapServer) (W := list string) (R := unit) (S := MemoryStore)
    Setup.env (fun _ => "rebuild") [("js/auth", fun _ => Ok 5%positive)] Generic.zero
    (fun _ => Ok ∅) 6%positive 7%positive (fun s => s) (fun s => s) None (fun _ => None) serverHandler
    (fun _ => "10.0.0.1:9") (fun _ => Ok tt) (fun _ => true) (fun _ => "") (Setup.config []) "/etc/c.yaml" f.
Definition reload := reloadProxy (Srv := MapServer) (W := list string) (R := unit) (S := MemoryStore)
  Setup.env (fun _ => "rebuild").
Definition zeroCounters : ReloadCounters := {| configReloadTotal := 0; configReloadErrors := 0 |}.
(** A configuration that asks for tokens and adds a group. *)
Definition guarded : ProxyConfig :=
  let cfg := Setup.config [Setup.defaultGroup] in
  {| pc_Server := pc_Server cfg; pc_Telemetry := pc_Telemetry cfg; pc_Naming := pc_Naming cfg;
     pc_Upstreams := pc_Upstreams cfg; pc_InboundAuth := SampleProxy.auth "apikey"; pc_Groups := pc_Groups cfg;
     pc_Runtime := pc_Runtime cfg; pc_TokenCounting := pc_TokenCounting cfg; pc_RateLimits := pc_RateLimits cfg;
     pc_RateLimitStore := pc_RateLimitStore cfg; pc_ToolSearch := pc_ToolSearch cfg;
     pc_SessionStore := pc_SessionStore cfg; pc_Caches := pc_Caches cfg; pc_CacheStore := pc_CacheStore cfg;
     pc_CircuitBreakers := pc_CircuitBreakers cfg |}.
End SampleAssembly.

Section AssemblyWitnesses.
#[local] Existing Instances SampleAssembly.goga SampleInbound.json SampleEngine.numbers
  SampleValidation.unicode.
Import SampleAssembly.

Lemma New_mounts_witness : exists p, new (Some (Setup.config [])) = Ok p /\
  (exists h, Handlers Setup.env p !! "/mcp" = Some h) /\ Handlers Setup.env p !! "/other" = None.
Proof.
  assert (Hok : is_ok (new (Some (Setup.config []))) = true) by (vm_compute; reflexivity).
  assert (Hs : match new (Some (Setup.config [])) with
               | Ok p => bool_decide (is_Some (mgr_servers (px_manager Setup.env p) !! "/mcp")) &&
                         bool_decide (mgr_servers (px_manager Setup.env p) !! "/other" = None)
               | Err _ => false end = true) by (vm_compute; reflexivity).
  destruct (new (Some (Setup.config []))) as [p|] eqn:Hn; [|discriminate Hok].
  apply andb_true_iff in Hs as [[srv H1]%bool_decide_eq_true H2%bool_decide_eq_true].
  exists p. split; [done|]. destruct (proj1 (New_mounts _ _ _ _ _ _ _ _ _ _ _ _ _ _ _ _ _ _ _ _ Hn))
    as (mw & wk & _ & Hm).
  split; [eexists|]; rewrite Hm; unfold HTTPHandlers; [rewrite H1|rewrite H2]; reflexivity.
Defined.

Lemma callback_without_sessions_panics_witness : exists p, new (Some (Setup.config [])) = Ok p /\
  exists h, (GETParam "/oauth/callback/" "upstreamName", h)
      ∈ serverRoutes Setup.env (fun _ _ _ w => (plainReply 200 "", w)) (fun _ => "") (fun _ => {| hc_IsHealthy := true; hc_UpstreamName := "" |})
          (fun _ => 0) (fun _ => zeroCounters) (fun _ w => (None, w)) (fun h _ => h) p /\
    forall name r w, h name r w = (None, w).
Proof.
  assert (Hok : is_ok (new (Some (Setup.config []))) = true) by (vm_compute; reflexivity).
  destruct (new (Some (Setup.config []))) as [p|] eqn:Hn; [|discriminate Hok].
  exists p. split; [reflexivity|].
  exact (callback_without_sessions_panics _ _ _ _ _ _ _ _ _ _ _ _ _ _ _ _ _ _ _ _ _ _ _ _ _ _ _ Hn eq_refl).
Defined.

Lemma reload_atomic_witness : exists p, new (Some (Setup.config [])) = Ok p /\
  let '(p', c') := reload p None zeroCounters in
  px_manager Setup.env p' = px_manager Setup.env p /\ configReloadTotal c' = 1 /\ configReloadErrors c' = 1.
Proof.
  assert (Hok : is_ok (new (Some (Setup.config []))) = true) by (vm_compute; reflexivity).
  assert (Hs : match new (Some (Setup.config [])) with
               | Ok p => bool_decide (is_Some (px_loader Setup.env p)) && bool_decide (is_Some (mgr_impl (px_manager Setup.env p)))
               | Err _ => false end = true) by (vm_compute; reflexivity).
  destruct (new (Some (Setup.config []))) as [p|] eqn:Hn; [|discriminate Hok].
  apply andb_true_iff in Hs as [[l Hl]%bool_decide_eq_true [v Hv]%bool_decide_eq_true].
  exists p. split; [done|].
  pose proof (reload_atomic Setup.env (fun _ => "rebuild") p l (None : option ProxyConfig) zeroCounters Hl
                ltac:(by rewrite Hv)) as Hr.
  unfold reload. destruct (reloadProxy _ _ p None zeroCounters) as [p' c'].
  destruct Hr as [Ht [(cfg & l' & Hload & _)|(Hm & _ & He)]]; [discriminate Hload|].
  split; [exact Hm|]. split; [rewrite Ht|rewrite He]; reflexivity.
Defined.

Lemma reload_keeps_first_auth_witness : exists p, new (Some (Setup.config [])) = Ok p /\
  exists h, Handlers Setup.env (reload p (Some guarded) zeroCounters).1 !! "/mcp" = Some h /\
    forall r w, (h r w).1 = plainReply 200 "/mcp".
Proof.
  assert (Hok : is_ok (new (Some (Setup.config []))) = true) by (vm_compute; reflexivity).
  assert (Hs : match new (Some (Setup.config [])) with
               | Ok p => bool_decide (is_Some (mgr_servers (px_manager Setup.env p) !! "/mcp")) &&
                         bool_decide (iac_Strategy (pc_InboundAuth (px_cfg Setup.env p)) = "")
               | Err _ => false end = true) by (vm_compute; reflexivity).
  destruct (new (Some (Setup.config []))) as [p|] eqn:Hn; [|discriminate Hok].
  apply andb_true_iff in Hs as [[srv H1]%bool_decide_eq_true H2%bool_decide_eq_true].
  exists p. split; [done|].
  pose proof (reload_keeps_first_auth _ _ _ _ _ _ _ _ _ _ _ _ _ _ _ _ _ _ _ (Some guarded) p
                zeroCounters "/mcp" Hn (or_introl H2)) as Hh.
  unfold HTTPHandlers in Hh. cbv zeta in Hh. rewrite H1 in Hh. eexists. split; [exact Hh|]. reflexivity.
Defined.
End AssemblyWitnesses.
