(* ===== verification/ProxyRuns.v ===== *)
(** * The running proxy

    The assembled proxy of pkg/mcpanything and what happens to it after [New]:
    reloads of its configuration file, the updates and removals of its refreshers
    and the tool calls, in any order.  The theorem puts the parts together: what
    the servers show, what the manager is configured with and what is mounted. *)
From S2P Require Export Assembly.
From S2P Require Import ManagerSample.
Open Scope Z_scope.

Section ProxyRuns.
Context (E : Env) {Srv : Type} `{McpServerLaws Srv}.
Context (order : gmap string upstreamState -> list (string * list RegistryEntry)).
Context (gorder : gmap string upstreamState -> GroupConfig -> list (string * list RegistryEntry)).
Local Abbreviation Manager := (Manager E (Srv := Srv)).
Implicit Types (m : Manager).

(** ** What a manager takes from a configuration *)
Definition follows (cfg : ProxyConfig) m : Prop :=
  mgr_namingCfg m = Some (pc_Naming cfg) /\ mgr_rateLimitCfgs m = pc_RateLimits cfg /\
  mgr_cacheConfigs m = pc_Caches cfg /\ (pc_Groups cfg <> [] -> mgr_groups m = pc_Groups cfg).

Lemma prepare_groups m cfg pr : prepare E m cfg = Ok pr -> pc_Groups cfg <> [] -> pr_groups E pr = pc_Groups cfg.
Proof.
  unfold prepare. intros Hp Hg. run_ok. cbn. unfold effectiveGroups. by destruct (pc_Groups cfg).
Qed.

Lemma Rebuild_follows m cfg m' : Rebuild E m cfg = (m', None) -> follows cfg m'.
Proof.
  unfold Rebuild. set (m0 := match mgr_impl m with Some _ => m | None => set_impl E m _ end).
  destruct (prepare E m0 cfg) as [pr|] eqn:Ep; [|done]. intros [= <-]. unfold follows.
  destruct (commit_groups E m0 cfg pr) as [Hg _]. unfold commit in *.
  destruct (default _ (buildSearchState _ _ _ _)) as [[idx tools] limit].
  destruct (buildBreakers _ _ _ _) as [bs refs]. cbn. split_and!; [done..|]. by apply (prepare_groups m0).
Qed.

Lemma Rebuild_live m cfg m' : Rebuild E m cfg = (m', None) -> mgr_registry m' <> None.
Proof.
  unfold Rebuild. destruct (prepare E _ cfg) as [pr|]; [|done]. intros [= <-].
  match goal with |- mgr_registry (commit E ?m cfg pr) <> None => by rewrite (proj2 (commit_groups E m cfg pr)) end.
Qed.

(** Endpoints are never taken away. *)
Definition keepsServers m m' : Prop := forall e, is_Some (mgr_servers m !! e) -> is_Some (mgr_servers m' !! e).

Lemma applyGroups_keeps impl old r newSearch oldSearch gs (servers : gmap string Srv) e :
  is_Some (servers !! e) -> is_Some (applyGroups impl old r newSearch oldSearch gs servers !! e).
Proof.
  unfold applyGroups. revert servers. induction gs as [|g gs IH]; intros servers He; [done|]. cbn. apply IH.
  destruct (decide (gc_Endpoint g = e)) as [->|Hne]; [rewrite lookup_insert_eq; by eexists|].
  by rewrite lookup_insert_ne.
Qed.

Lemma Rebuild_keeps m cfg m' err : Rebuild E m cfg = (m', err) -> keepsServers m m'.
Proof.
  unfold Rebuild. intros Hr e He.
  assert (He0 : is_Some (mgr_servers (match mgr_impl m with Some _ => m | None => set_impl E m
    (tel_ServiceVersion (pc_Telemetry cfg)) end) !! e)) by (by destruct (mgr_impl m)).
  destruct (prepare E _ cfg); injection Hr as <- _; [|done]. unfold commit.
  destruct (default _ (buildSearchState _ _ _ _)) as [[idx tools] limit].
  destruct (buildBreakers _ _ _ _) as [bs refs]. cbn. by apply applyGroups_keeps.
Qed.

(** What an incremental change leaves alone. *)
Record sameSettings m m' : Prop := {
  same_naming : mgr_namingCfg m' = mgr_namingCfg m;
  same_limits : mgr_rateLimitCfgs m' = mgr_rateLimitCfgs m;
  same_caches : mgr_cacheConfigs m' = mgr_cacheConfigs m;
  same_groups : mgr_groups m' = mgr_groups m;
  same_impl : mgr_impl m' = mgr_impl m;
  same_live : mgr_registry m <> None -> mgr_registry m' <> None;
  same_servers : keepsServers m m'
}.

Lemma sameSettings_follows m m' cfg : sameSettings m m' -> follows cfg m -> follows cfg m'.
Proof. unfold follows. intros [-> -> -> -> _ _ _]. done. Qed.

Lemma keepsServers_refl m : keepsServers m m.
Proof. by intros e. Qed.
#[local] Hint Resolve keepsServers_refl : core.
Lemma sameSettings_refl m : sameSettings m m.
Proof. by split. Qed.
#[local] Hint Resolve sameSettings_refl : core.
(** The changes that leave the fields in question as they are. *)
Ltac same_settings := split; cbn; try done; intros ? ?; cbn; auto.

Lemma rebuildFromState_same m us ord gord m' err :
  rebuildFromStateLocked E (set_upstreams E m us) ord gord = (m', err) -> sameSettings m m'.
Proof.
  unfold rebuildFromStateLocked. cbn. destruct (mgr_namingCfg m) eqn:En; [|intros [= <- _]; by same_settings].
  destruct (NewFromEntries _ _ _ _ _ _ _); intros [= <- _]; [|by same_settings].
  split; cbn; [by rewrite ?En..|]. intros e. apply applyGroups_keeps.
Qed.

Lemma UpdateUpstream_same m name es root m' err :
  UpdateUpstream E order gorder m name es root = (m', err) -> sameSettings m m'.
Proof.
  unfold UpdateUpstream. destruct (mgr_namingCfg m); [apply rebuildFromState_same|]. intros [= <- _]. auto.
Qed.

Lemma RemoveUpstream_same m name : sameSettings m (RemoveUpstream E order gorder m name).
Proof.
  unfold RemoveUpstream. destruct (mgr_namingCfg m); [|auto].
  destruct (rebuildFromStateLocked _ _ _ _) as [m1 [e|]] eqn:Er; apply rebuildFromState_same in Er; [|done].
  destruct (mgr_upstreamByName m !! name); [|done]. by destruct Er; same_settings.
Qed.

Lemma DispatchForGroup_same m ctx group tool a w r m' w' :
  DispatchForGroup E m ctx group tool a w = (r, m', w') -> sameSettings m m'.
Proof. intros [->|[s ->]]%DispatchForGroup_manager; [auto|by same_settings]. Qed.

(** ** Runs *)
Context {W F R S : Type} `{Unicode, Numbers, JsonText, Goga F}.
Local Abbreviation World := (RateLimit.Context * W)%type.
Local Abbreviation HTTPHandler := (InboundRequest -> World -> HttpReply * World).
Context (managerErrorText : ManagerError -> string).
Local Abbreviation Proxy := (Proxy E (Srv := Srv) (W := W) (R := R) (S := S)).
Implicit Types (p : Proxy).

Definition with_manager p m : Proxy := {|
  px_cfg := px_cfg E p; px_cfgPath := px_cfgPath E p; px_manager := m; px_loader := px_loader E p;
  px_pools := px_pools E p; px_refreshers := px_refreshers E p; px_mcpHandlers := px_mcpHandlers E p;
  px_wellKnown := px_wellKnown E p; px_oauthMux := px_oauthMux E p |}.
(** Anything that happens to a proxy that runs, as the manager's own steps have it:
    a reload leaves served endpoints with their groups' names, and no tool has the
    search tool's. *)
Inductive proxy_step (p : Proxy) : Proxy -> Prop :=
  | proxy_reload (f : F) c p' c' :
      reloadProxy E managerErrorText p f c = (p', c') ->
      keepsGroups E (px_manager E p) (mgr_groups (px_manager E p')) -> liveNoClash E (px_manager E p') ->
      proxy_step p p'
  | proxy_update name es root m' err :
      UpdateUpstream E order gorder (px_manager E p) name es root = (m', err) -> liveNoClash E m' ->
      proxy_step p (with_manager p m')
  | proxy_remove name m' :
      RemoveUpstream E order gorder (px_manager E p) name = m' -> liveNoClash E m' ->
      proxy_step p (with_manager p m')
  | proxy_call ctx group tool a w r m' w' :
      DispatchForGroup E (px_manager E p) ctx group tool a w = (r, m', w') ->
      proxy_step p (with_manager p m').

(** The configuration that is said to be live. *)
Definition liveConfig p : ProxyConfig :=
  match px_loader E p with Some l => Current l | None => px_cfg E p end.

(** What holds of a running proxy. *)
Record running (handlers : gmap string HTTPHandler) p : Prop := {
  run_sync : in_sync E (px_manager E p);
  run_impl : mgr_impl (px_manager E p) <> None;
  run_registry : mgr_registry (px_manager E p) <> None;
  run_follows : follows (liveConfig p) (px_manager E p);
  run_handlers : Handlers E p = handlers;
  run_mounted : forall e, is_Some (handlers !! e) -> is_Some (mgr_servers (px_manager E p) !! e)
}.

Lemma reloadProxy_cases p f c p' c' : mgr_impl (px_manager E p) <> None ->
  reloadProxy E managerErrorText p f c = (p', c') ->
  Handlers E p' = Handlers E p /\
  ((px_manager E p' = px_manager E p /\ liveConfig p' = liveConfig p) \/
   Rebuild E (px_manager E p) (liveConfig p') = (px_manager E p', None)).
Proof.
  intros Hup. unfold reloadProxy, liveConfig. destruct (px_loader E p) as [l|] eqn:El.
  2:{ intros [= <- _]. rewrite El. auto. }
  unfold tryReload. destruct (ConfigLoader.Load (ld_path l) f) as [cfg|e]; [|intros [= <- _]; cbn; auto].
  destruct (onLoad E managerErrorText cfg (px_manager E p)) as [[err|] m] eqn:Eo; intros [= <- _]; cbn;
    (split; [done|]); unfold onLoad in Eo; destruct (Rebuild E (px_manager E p) cfg) as [m2 [e|]] eqn:Er;
    try done; cbn in Eo; injection Eo as ?; subst; [left|by right].
  split; [by eapply Rebuild_fails|done].
Qed.

Lemma incremental_running handlers p m' : running handlers p -> sameSettings (px_manager E p) m' -> in_sync E m' ->
  running handlers (with_manager p m').
Proof.
  intros [_ Hi Hr Hf Hh Hm] Hsame Hs. split; cbn; [done|by rewrite (same_impl _ _ Hsame)|by apply Hsame| |done|].
  - by eapply sameSettings_follows.
  - intros e He. apply Hsame; auto.
Qed.

Lemma proxy_step_running handlers p p' : running handlers p -> proxy_step p p' -> running handlers p'.
Proof.
  intros Hp Hstep. pose proof Hp as [Hs Hi Hr Hf Hh Hm].
  pose proof (step_sync E order gorder (px_manager E p)) as Hsync.
  destruct Hstep as [f c p' c' Hrun Hk Hc|name es root m' err Hrun Hc|name m' Hrun Hc|ctx group tool a w r m' w' Hrun].
  - destruct (reloadProxy_cases p f c p' c' Hi Hrun) as [Hh' [[Em El]|Er]].
    + split; rewrite ?Em, ?El, ?Hh'; done.
    + split; [|by eapply Rebuild_set_up| |by eapply Rebuild_follows|by rewrite Hh'|].
      * apply Hsync; [done|]. by eapply step_rebuild.
      * by eapply Rebuild_live.
      * intros e He. eapply Rebuild_keeps; [exact Er|auto].
  - eapply incremental_running; [done|by eapply UpdateUpstream_same|]. apply Hsync; [done|]. by eapply step_update.
  - subst m'. eapply incremental_running; [done|apply RemoveUpstream_same|]. apply Hsync; [done|]. by eapply step_remove.
  - eapply incremental_running; [done|by eapply DispatchForGroup_same|]. apply Hsync; [done|]. by eapply step_call.
Qed.

(** ** From the start *)
Section FromStart.
Context (runtimeFactories : list (string * (RuntimeConfig -> result string handle))).
Context (strategies : Generic.Registry (InboundAuthConfig -> result string (HTTPHandler -> HTTPHandler))).
Context (newStore : SessionStoreConfig -> result string S) (storeRef muxRef : handle).
Context (ExpandEnv sha256 : string -> string) (rand : option string).
Context (telemetryInit : Telemetry.Settings -> option string) (serverHandler : string -> HTTPHandler).
Context (RemoteAddr : InboundRequest -> string) (NewRefresher : UpstreamConfig -> result string R).
Context (AuthRequired : string -> bool) (ToolUpstreamName : string -> string).
#[local] Notation start := (Assembly.New E managerErrorText runtimeFactories strategies newStore storeRef muxRef ExpandEnv sha256
  rand telemetryInit serverHandler RemoteAddr NewRefresher AuthRequired ToolUpstreamName).

Lemma setSessionStore_fresh cfg pools m mux :
  setSessionStore E newStore storeRef muxRef ExpandEnv sha256 rand cfg (NewManager E pools) = Ok (m, mux) ->
  in_sync E m /\ mgr_servers m = ∅.
Proof.
  assert (Hnew : in_sync E (NewManager E pools))
    by (split; cbn; [constructor|intros e t He; by rewrite lookup_empty in He|done]).
  unfold setSessionStore. destruct (buildSessionStore _ _ _ _ _) as [[mx|]|]; [|intros [= <- _]; by split|done].
  intros [= <- _]. split; [|done]. eapply (step_sync E order gorder); [exact Hnew|]. by eapply step_oauth.
Qed.

Lemma start_running cfg cfgPath f p : start cfg cfgPath f = Ok p ->
  NoDup (gc_Endpoint <$> mgr_groups (px_manager E p)) -> liveNoClash E (px_manager E p) ->
  running (Handlers E p) p.
Proof.
  intros (m0 & mux & mw & wk & Hs & Hl & _ & Hh & _)%Assembly.New_ok Hnd Hc.
  apply setSessionStore_fresh in Hs as [Hs Hempty].
  assert (Hb : Rebuild E m0 (px_cfg E p) = (px_manager E p, None) /\ liveConfig p = px_cfg E p).
  { unfold initialLoad in Hl. unfold liveConfig. case_bool_decide.
    - unfold NewLoader in Hl. destruct (ConfigLoader.Load cfgPath f) as [c|[]]; [|done..].
      destruct (onLoad E managerErrorText c m0) as [[err|] m1] eqn:Eo; [done|]. injection Hl as <- <- <-.
      unfold onLoad in Eo. destruct (Rebuild E m0 c) as [m2 [err|]] eqn:Er; [done|]. by injection Eo as <-.
    - destruct (Rebuild E m0 cfg) as [m2 [err|]] eqn:Er; [done|]. by injection Hl as <- <- <-. }
  destruct Hb as [Hb Hlive]. split; [|by eapply Rebuild_set_up|by eapply Rebuild_live| |done|].
  - apply (step_sync E order gorder m0); [done|]. eapply step_rebuild; [exact Hb|]. intros _. split; [|done].
    split; [done|]. intros g _ Hg. rewrite Hempty, lookup_empty in Hg. by destruct Hg.
  - rewrite Hlive. by eapply Rebuild_follows.
  - intros e. unfold Handlers. rewrite Hh, mountAll_lookup, fmap_is_Some. done.
Qed.

End FromStart.
End ProxyRuns.

Section ProxyRunsWitnesses.
#[local] Existing Instances SampleAssembly.goga SampleInbound.json SampleEngine.numbers
  SampleValidation.unicode.
Import SampleAssembly.

End ProxyRunsWitnesses.
