(* ===== verification/Crd.v ===== *)
(** * Custom resources (pkg/crd/v1alpha1: types.go, spec_gen.go)

    One [Record] per Go struct with its fields in the source's order under a
    prefix per struct; [int] and [int32] are [Z], a pointer is an [option], a nil
    map or slice is the empty one.  Of the Kubernetes types the program keeps in
    them, [ObjectMeta] and [Condition] have the fields the program reads or
    writes; label selectors and resource requirements are opaque ([KubeTypes]).
    Then the validating webhooks (pkg/operator/webhook), which work on these
    types alone. *)
From S2P Require Export Json.
Open Scope Z_scope.

(** What is used of k8s.io/apimachinery and k8s.io/api.  [LabelSelectorAsSelector]
    is [None] for a selector that does not parse, and otherwise says which label
    sets match.  Resource requirements are up to [equality.Semantic]. *)
Class KubeTypes := {
  LabelSelector : Type;
  LabelSelectorAsSelector : LabelSelector -> option (gmap string string -> bool);
  ResourceRequirements : Type;
  resources_eq :: EqDecision ResourceRequirements
}.

(** [metav1.ObjectMeta]; [om_Owner] is the controller's owner reference: the kind
    and the name of the owner, which is in the same namespace. *)
Record ObjectMeta := {
  om_Name : string;
  om_Namespace : string;
  om_Generation : Z;
  om_Labels : gmap string string;
  om_Annotations : gmap string string;
  om_Owner : option (string * string)
}.

Definition newMeta (name namespace : string) : ObjectMeta := {|
  om_Name := name;
  om_Namespace := namespace;
  om_Generation := 0;
  om_Labels := ∅;
  om_Annotations := ∅;
  om_Owner := None |}.

(** [metav1.Condition]; the time of the last transition is left out. *)
Record Condition := {
  cnd_Type : string;
  cnd_Status : string;
  cnd_Reason : string;
  cnd_Message : string;
  cnd_ObservedGeneration : Z
}.

(** ** Generated types (spec_gen.go) *)
Record JWTAuthSpec := {
  jws_Issuer : string;
  jws_Audience : string;
  jws_JWKSURL : string
}.

Record ProxySlugRulesSpec := {
  psr_ReplaceSlashes : bool;
  psr_ReplaceBraces : bool;
  psr_ExpandCamelCase : bool;
  psr_Lowercase : bool;
  psr_CollapseSeparators : bool
}.

Record ProxyNamingSpec := {
  pns_Separator : string;
  pns_MaxLength : Z;
  pns_ConflictResolution : string;
  pns_DescriptionMaxLength : Z;
  pns_DescriptionTruncationSuffix : string;
  pns_DefaultSlugRules : ProxySlugRulesSpec
}.

Record ProxyTelemetrySpec := {
  pts_ServiceName : string;
  pts_ServiceVersion : string;
  pts_OTLPEndpoint : string;
  pts_Insecure : bool
}.

Record MCPUpstreamCommandSchemaProperty := {
  mcq_Type : string;
  mcq_Description : string
}.

Record MCPUpstreamCommandInputSchema := {
  mci_Type : string;
  mci_Properties : gmap string MCPUpstreamCommandSchemaProperty;
  mci_Required : list string
}.

Record MCPUpstreamCommandSpec := {
  mcs_ToolName : string;
  mcs_Description : string;
  mcs_Command : string;
  mcs_InputSchema : MCPUpstreamCommandInputSchema;
  mcs_Timeout : string;
  mcs_Env : gmap string string;
  mcs_WorkingDir : string;
  mcs_Shell : bool;
  mcs_MaxOutput : Z
}.

Record MCPUpstreamValidationSpec := {
  mvs_ValidateRequest : bool;
  mvs_ValidateResponse : bool;
  mvs_ResponseValidationFailure : string;
  mvs_SuccessStatus : list Z;
  mvs_ErrorStatus : list Z
}.

(** ** Proxies (types.go) *)
Record NamespaceSelectorSpec := {
  nss_MatchNames : list string
}.

Record ServiceDiscoveryNamespaceSelector := {
  sdn_MatchNames : list string;
  sdn_MatchLabels : gmap string string
}.

Record ServiceDiscoverySpec := {
  sds_Enabled : bool;
  sds_NamespaceSelector : option ServiceDiscoveryNamespaceSelector
}.

Record ProxyTLSSpec := {
  ptl_SecretName : string
}.

Record ProxyServerSpec := {
  psv_Port : Z;
  psv_Transport : list string;
  psv_TLS : option ProxyTLSSpec
}.

Record ProxyInboundAuthSpec := {
  pia_Strategy : string;
  pia_JWT : option JWTAuthSpec
}.

Record GatewayRefSpec := {
  gwr_Name : string;
  gwr_Namespace : string;
  gwr_Hostname : string
}.

Record MCPProxyRateLimitPolicySpec := {
  rlp_Average : Z;
  rlp_Period : string;
  rlp_Burst : Z;
  rlp_Source : string
}.

Record MCPProxyRateLimitsSpec := {
  rls_Policies : gmap string MCPProxyRateLimitPolicySpec
}.

Section Proxies.
Context `{KubeTypes}.

Record MCPProxySpec := {
  pxs_UpstreamSelector : LabelSelector;
  pxs_NamespaceSelector : NamespaceSelectorSpec;
  pxs_ServiceDiscovery : option ServiceDiscoverySpec;
  pxs_Replicas : option Z;
  pxs_Image : string;
  pxs_Resources : ResourceRequirements;
  pxs_Server : ProxyServerSpec;
  pxs_Naming : ProxyNamingSpec;
  pxs_InboundAuth : option ProxyInboundAuthSpec;
  pxs_Telemetry : option ProxyTelemetrySpec;
  pxs_GatewayRef : option GatewayRefSpec;
  pxs_RateLimits : option MCPProxyRateLimitsSpec
}.

Record MCPProxyStatus := {
  pst_Conditions : list Condition;
  pst_UpstreamCount : Z;
  pst_AnnotatedServiceCount : Z;
  pst_ToolCount : Z;
  pst_ObservedGeneration : Z
}.

Record MCPProxy := {
  px_ObjectMeta : ObjectMeta;
  px_Spec : MCPProxySpec;
  px_Status : MCPProxyStatus
}.
End Proxies.

(** ** Upstreams (types.go) *)
Record ServiceRefSpec := {
  svr_Name : string;
  svr_Port : Z
}.

Record ConfigMapKeyRef := {
  cmr_Name : string;
  cmr_Key : string
}.

Record AutoDiscoverSpec := {
  ads_Path : string
}.

Record MCPUpstreamOpenAPISpec := {
  moa_ConfigMapRef : option ConfigMapKeyRef;
  moa_URL : string;
  moa_AutoDiscover : option AutoDiscoverSpec
}.

Definition zero_MCPUpstreamOpenAPISpec : MCPUpstreamOpenAPISpec := {|
  moa_ConfigMapRef := None;
  moa_URL := "";
  moa_AutoDiscover := None |}.

Record MCPUpstreamOverlaySpec := {
  mov_ConfigMapRef : option ConfigMapKeyRef
}.

Record SecretRef := {
  sec_Name : string
}.

Record BearerSpec := {
  brs_SecretRef : option SecretRef
}.

Record OAuth2Spec := {
  o2s_TokenURL : string;
  o2s_SecretRef : option SecretRef
}.

Record MCPUpstreamOutboundAuthSpec := {
  moo_Strategy : string;
  moo_Bearer : option BearerSpec;
  moo_OAuth2 : option OAuth2Spec
}.

Record UpstreamTLSSpec := {
  utl_SecretName : string
}.

Record MCPUpstreamTransportSpec := {
  mtr_MaxIdleConns : Z;
  mtr_MaxIdleConnsPerHost : Z;
  mtr_TLS : option UpstreamTLSSpec
}.

Record MCPUpstreamSpec := {
  mus_Type : string;
  mus_ToolPrefix : string;
  mus_ServiceRef : option ServiceRefSpec;
  mus_BaseURL : string;
  mus_OpenAPI : MCPUpstreamOpenAPISpec;
  mus_Overlay : option MCPUpstreamOverlaySpec;
  mus_OutboundAuth : option MCPUpstreamOutboundAuthSpec;
  mus_Transport : option MCPUpstreamTransportSpec;
  mus_Validation : option MCPUpstreamValidationSpec;
  mus_Commands : list MCPUpstreamCommandSpec;
  mus_RateLimit : string
}.

Definition zero_MCPUpstreamSpec : MCPUpstreamSpec := {|
  mus_Type := "";
  mus_ToolPrefix := "";
  mus_ServiceRef := None;
  mus_BaseURL := "";
  mus_OpenAPI := zero_MCPUpstreamOpenAPISpec;
  mus_Overlay := None;
  mus_OutboundAuth := None;
  mus_Transport := None;
  mus_Validation := None;
  mus_Commands := [];
  mus_RateLimit := "" |}.

Record MCPUpstreamStatus := {
  mst_Conditions : list Condition;
  mst_AssignedProxy : string;
  mst_ToolCount : Z
}.

Definition zero_MCPUpstreamStatus : MCPUpstreamStatus := {|
  mst_Conditions := [];
  mst_AssignedProxy := "";
  mst_ToolCount := 0 |}.

Record MCPUpstream := {
  mu_ObjectMeta : ObjectMeta;
  mu_Spec : MCPUpstreamSpec;
  mu_Status : MCPUpstreamStatus
}.

(** ** Admission (pkg/operator/webhook) *)
Definition isSome {A} (o : option A) : bool := match o with Some _ => true | None => false end.

Inductive ProxyInvalid :=
  | ReplicasNotPositive (n : Z)
  | PortOutOfRange (port : Z).

Inductive UpstreamInvalid :=
  | ServiceRefAndBaseURL
  | NoServiceRefOrBaseURL
  | NoOpenAPISourceSet
  | ManyOpenAPISources.

Section Webhook.
Context `{KubeTypes}.

Definition validateMCPProxy (proxy : MCPProxy) : result ProxyInvalid unit :=
  match pxs_Replicas (px_Spec proxy) with
  | Some n => guard_err (0 <? n) (ReplicasNotPositive n)
  | None => Ok tt
  end ≫= fun _ =>
  let port := psv_Port (pxs_Server (px_Spec proxy)) in
  if bool_decide (port = 0) then Ok tt
  else guard_err ((1 <=? port) && (port <=? 65535)) (PortOutOfRange port).

(** [sourceCount] *)
Definition openAPISources (o : MCPUpstreamOpenAPISpec) : nat :=
  length (filter (fun b : bool => b)
    [isSome (moa_ConfigMapRef o); negb (bool_decide (moa_URL o = "")); isSome (moa_AutoDiscover o)]).

Definition validateMCPUpstream (upstream : MCPUpstream) : result UpstreamInvalid unit :=
  let hasServiceRef := isSome (mus_ServiceRef (mu_Spec upstream)) in
  let hasBaseURL := negb (bool_decide (mus_BaseURL (mu_Spec upstream) = "")) in
  if hasServiceRef && hasBaseURL then Err ServiceRefAndBaseURL
  else if negb hasServiceRef && negb hasBaseURL then Err NoServiceRefOrBaseURL
  else
    let sourceCount := openAPISources (mus_OpenAPI (mu_Spec upstream)) in
    if bool_decide (sourceCount = 0%nat) then Err NoOpenAPISourceSet
    else guard_err (sourceCount <=? 1)%nat ManyOpenAPISources.

(** The requests of the admission controller, on the object after the change. *)
Inductive Admission (O : Type) :=
  | AdmitCreate (new : O)
  | AdmitUpdate (old new : O)
  | AdmitDelete (old : O).
#[global] Arguments AdmitCreate {O} new.
#[global] Arguments AdmitUpdate {O} old new.
#[global] Arguments AdmitDelete {O} old.

Definition admitProxy (req : Admission MCPProxy) : result ProxyInvalid unit :=
  match req with
  | AdmitCreate new | AdmitUpdate _ new => validateMCPProxy new
  | AdmitDelete _ => Ok tt
  end.

Definition admitUpstream (req : Admission MCPUpstream) : result UpstreamInvalid unit :=
  match req with
  | AdmitCreate new | AdmitUpdate _ new => validateMCPUpstream new
  | AdmitDelete _ => Ok tt
  end.
End Webhook.

Lemma isSome_true {A} (o : option A) : isSome o = true <-> is_Some o.
Proof. destruct o; cbn; split; [eauto|done|done|intros [? ?]; discriminate]. Qed.

Lemma validateMCPUpstream_Ok up :
  validateMCPUpstream up = Ok tt <->
    isSome (mus_ServiceRef (mu_Spec up)) = bool_decide (mus_BaseURL (mu_Spec up) = "") /\
    openAPISources (mus_OpenAPI (mu_Spec up)) = 1%nat.
Proof.
  unfold validateMCPUpstream.
  destruct (isSome _), (bool_decide (_ = "")); cbn [negb andb]; try (split; [discriminate|intros [? ?]; done]).
  all: case_bool_decide as Hn; [split; [discriminate|intros [_ ?]; congruence]|].
  all: rewrite guard_err_Ok, Nat.leb_le; split; [intros ?; split; [done|lia]|intros [_ ?]; lia].
Qed.
