(* ===== verification/DeepCopy.v ===== *)
(** * Deep copies of the custom resources (crd/v1alpha1/zz_generated.deepcopy.go)

    The copying methods that the operator's caches rely on.  They are about
    aliasing, so memory is explicit: a value holds references to cells, a method
    allocates cells, and what two values share is what their references reach.
    The shape of every type is its declaration in types.go and spec_gen.go; the
    theorems show that the methods are in step with the declarations: a copy reads
    the same, and neither the copy nor the original sees what is written through
    the other. *)
From S2P Require Export Prelude.


(** ** Memory *)
Abbreviation loc := positive (only parsing).

(** A value of a Go type: one without references, a struct by its fields, or a
    pointer, slice or map, which is nil or refers to a cell. *)
Inductive scalar := Text (s : string) | Number (n : Z) | Flag (b : bool).
Inductive value :=
  | Scalar (s : scalar)
  | StructOf (fields : list (string * value))
  | Ref (target : option loc).
(** The cell behind a pointer, the array behind a slice, the table of a map; [Blank]
    is a cell that [new] or [make] has just given.  A slice is the whole of its
    array. *)
Inductive cell :=
  | Blank
  | Pointee (v : value)
  | Elements (vs : list value)
  | Entries (kvs : list (string * value)).
Abbreviation heap := (gmap loc cell).

(** What a type looks like, and what a value means without its memory. *)
Inductive shape :=
  | Plain
  | Struct (fields : list (string * shape))
  | Pointer (sh : shape)
  | Slice (sh : shape)
  | MapOf (sh : shape).
Inductive tree :=
  | TScalar (s : scalar)
  | TStruct (fields : list (string * tree))
  | TNil
  | TPointer (t : tree)
  | TSlice (ts : list tree)
  | TMap (kvs : list (string * tree)).

(** A read gives the meaning of a value and the cells it goes through. *)
Definition reader : Type := value -> option (tree * list loc).
Fixpoint readSeq (rs : list reader) (vs : list value) : option (list tree * list loc) :=
  match rs, vs with
  | [], [] => Some ([], [])
  | r :: rs, v :: vs =>
      '(t, fp) ← r v; '(ts, fps) ← readSeq rs vs; Some (t :: ts, fp ++ fps)
  | _, _ => None
  end.

Fixpoint read (h : heap) (sh : shape) (v : value) {struct sh} : option (tree * list loc) :=
  match sh, v with
  | Plain, Scalar s => Some (TScalar s, [])
  | Struct fs, StructOf vs =>
      if bool_decide (vs.*1 = fs.*1)
      then '(ts, fp) ← readSeq ((fun f => read h f.2) <$> fs) vs.*2; Some (TStruct (zip vs.*1 ts), fp)
      else None
  | Pointer _, Ref None | Slice _, Ref None | MapOf _, Ref None => Some (TNil, [])
  | Pointer sh, Ref (Some l) =>
      match h !! l with
      | Some (Pointee w) => '(t, fp) ← read h sh w; Some (TPointer t, l :: fp)
      | _ => None
      end
  | Slice sh, Ref (Some l) =>
      match h !! l with
      | Some (Elements ws) => '(ts, fp) ← readSeq (replicate (length ws) (read h sh)) ws; Some (TSlice ts, l :: fp)
      | _ => None
      end
  | MapOf sh, Ref (Some l) =>
      match h !! l with
      | Some (Entries kvs) =>
          '(ts, fp) ← readSeq (replicate (length kvs) (read h sh)) kvs.*2; Some (TMap (zip kvs.*1 ts), l :: fp)
      | _ => None
      end
  | _, _ => None
  end.

(** ** The statements of the methods

    A method takes the value of [*in] to the value of [*out]; [None] is a panic. *)
Definition Copy : Type := value -> heap -> option (value * heap).

(** [*out = *in]. *)
Definition assign : Copy := fun v h => Some (v, h).

Fixpoint copySeq (cs : list Copy) (vs : list value) (h : heap) : option (list value * heap) :=
  match cs, vs with
  | [], [] => Some ([], h)
  | c :: cs, v :: vs => '(w, h1) ← c v h; '(ws, h2) ← copySeq cs vs h1; Some (w :: ws, h2)
  | _, _ => None
  end.

(** [*out = *in] and then a statement for each of some fields, in their order; the
    other fields are as the assignment left them. *)
Fixpoint fieldCopy (stmts : list (string * Copy)) (name : string) : Copy :=
  match stmts with
  | [] => assign
  | (n, c) :: rest => if String.eqb n name then c else fieldCopy rest name
  end.
Definition copyStruct (stmts : list (string * Copy)) : Copy := fun v h =>
  match v with
  | StructOf vs =>
      '(ws, h') ← copySeq (fieldCopy stmts <$> vs.*1) vs.*2 h; Some (StructOf (zip vs.*1 ws), h')
  | _ => None
  end.

(** [if in.F != nil { *out = new(T); ... }] with what is done to the pointee. *)
Definition copyPointer (c : Copy) : Copy := fun v h =>
  match v with
  | Ref None => Some (Ref None, h)
  | Ref (Some l) =>
      match h !! l with
      | Some (Pointee w) =>
          let out := fresh (dom h) in
          '(w', h') ← c w (<[out := Blank]> h); Some (Ref (Some out), <[out := Pointee w']> h')
      | _ => None
      end
  | _ => None
  end.

(** [if in.F != nil { *out = make([]T, len( *in)); ... }] with what is done to each
    element. *)
Definition copySlice (c : Copy) : Copy := fun v h =>
  match v with
  | Ref None => Some (Ref None, h)
  | Ref (Some l) =>
      match h !! l with
      | Some (Elements ws) =>
          let out := fresh (dom h) in
          '(ws', h') ← copySeq (replicate (length ws) c) ws (<[out := Blank]> h);
          Some (Ref (Some out), <[out := Elements ws']> h')
      | _ => None
      end
  | _ => None
  end.

(** [if in.F != nil { *out = make(map[string]T, len( *in)); ... }] with the values
    assigned. *)
Definition copyMap : Copy := fun v h =>
  match v with
  | Ref None => Some (Ref None, h)
  | Ref (Some l) =>
      match h !! l with
      | Some (Entries kvs) =>
          let out := fresh (dom h) in Some (Ref (Some out), <[out := Entries kvs]> h)
      | _ => None
      end
  | _ => None
  end.

(** [DeepCopy] of a type, from its [DeepCopyInto]; and [DeepCopyObject], which gives
    a nil interface for a nil pointer. *)
Definition DeepCopy (into : Copy) : Copy := fun p h =>
  match p with
  | Ref None => Some (Ref None, h)
  | _ => copyPointer into p h
  end.
Definition DeepCopyObject (into : Copy) (p : value) (h : heap) : option (option value * heap) :=
  '(c, h') ← DeepCopy into p h;
  Some (match c with Ref None => None | _ => Some c end, h').

(** ** Reading *)
Implicit Types (h : heap) (l out : loc).

Lemma shape_nested (P : shape -> Prop) :
  P Plain -> (forall fs, Forall P fs.*2 -> P (Struct fs)) -> (forall sh, P sh -> P (Pointer sh)) ->
  (forall sh, P sh -> P (Slice sh)) -> (forall sh, P sh -> P (MapOf sh)) -> forall sh, P sh.
Proof.
  intros H1 H2 H3 H4 H5. fix IH 1. intros [|fs|sh|sh|sh]; [done| |by apply H3|by apply H4|by apply H5].
  apply H2. induction fs as [|[n sh] fs IHfs]; constructor; [apply IH|done].
Qed.

Lemma read_fields h (fs : list (string * shape)) : (fun f => read h f.2) <$> fs = read h <$> fs.*2.
Proof. by rewrite <-list_fmap_compose. Qed.
Lemma read_elements h sh n : replicate n (read h sh) = read h <$> replicate n sh.
Proof. by rewrite fmap_replicate. Qed.

(** Everything a successful read says about its parts. *)
Ltac read_inv :=
  repeat match goal with
  | H : Some _ = Some _ |- _ => injection H as ?; subst
  | H : None = Some _ |- _ => discriminate H
  | H : _ ≫= _ = Some _ |- _ => apply bind_Some in H as [[? ?] [? H]]
  | H : match ?l with Some _ => _ | None => _ end = Some _ |- _ => destruct l eqn:?
  | H : match ?c with Blank => _ | _ => _ end = Some _ |- _ => destruct c
  | H : (if bool_decide ?P then _ else _) = Some _ |- _ => case_bool_decide
  end.

Section Stable.
Context (h1 h2 : heap).
Definition stable (sh : shape) : Prop := forall v t fp,
  read h1 sh v = Some (t, fp) -> (forall l, l ∈ fp -> h2 !! l = h1 !! l) -> read h2 sh v = Some (t, fp).

Lemma readSeq_stable shs : Forall stable shs -> forall vs ts fp,
  readSeq (read h1 <$> shs) vs = Some (ts, fp) -> (forall l, l ∈ fp -> h2 !! l = h1 !! l) ->
  readSeq (read h2 <$> shs) vs = Some (ts, fp).
Proof.
  induction 1 as [|sh shs Hsh _ IH]; intros [|v vs] ts fp Hr Hl; try done. cbn in *. read_inv.
  erewrite Hsh; [|eassumption|set_solver]. cbn. erewrite IH; [|eassumption|set_solver]. done.
Qed.

Lemma read_stable sh : stable sh.
Proof.
  induction sh as [|fs IH|sh IH|sh IH|sh IH] using shape_nested; intros [s|vs|[l|]] t fp Hr Hl; cbn in *; try done;
    read_inv.
  - rewrite read_fields in *.
    erewrite readSeq_stable; [done..|exact Hl].
  - rewrite Hl, Heqo by set_solver. erewrite IH; [done..|set_solver].
  - rewrite Hl, Heqo by set_solver. rewrite read_elements in *.
    erewrite readSeq_stable; [done|by apply Forall_replicate|done|set_solver].
  - rewrite Hl, Heqo by set_solver. rewrite read_elements in *.
    erewrite readSeq_stable; [done|by apply Forall_replicate|done|set_solver].
Qed.
End Stable.

(** A read goes through cells that are there. *)
Section Allocated.
Context (h : heap).
Definition allocated (sh : shape) : Prop := forall v t fp,
  read h sh v = Some (t, fp) -> forall l, l ∈ fp -> l ∈ dom h.

Lemma readSeq_allocated shs : Forall allocated shs -> forall vs ts fp,
  readSeq (read h <$> shs) vs = Some (ts, fp) -> forall l, l ∈ fp -> l ∈ dom h.
Proof.
  induction 1 as [|sh shs Hsh _ IH]; intros [|v vs] ts fp Hr l Hl; try done; cbn in *; read_inv; [set_solver|].
  apply elem_of_app in Hl as [Hl|Hl]; [by eapply Hsh|by eapply IH].
Qed.

Lemma read_allocated sh : allocated sh.
Proof.
  induction sh as [|fs IH|sh IH|sh IH|sh IH] using shape_nested; intros [s|vs|[l|]] t fp Hr k Hk; cbn in *; try done;
    read_inv; rewrite ?read_fields, ?read_elements in *; try (by apply not_elem_of_nil in Hk).
  - by eapply readSeq_allocated.
  - apply elem_of_cons in Hk as [->|Hk]; [by apply elem_of_dom|by eapply IH].
  - apply elem_of_cons in Hk as [->|Hk]; [by apply elem_of_dom|eapply readSeq_allocated; [by apply Forall_replicate|done..]].
  - apply elem_of_cons in Hk as [->|Hk]; [by apply elem_of_dom|eapply readSeq_allocated; [by apply Forall_replicate|done..]].
Qed.
End Allocated.

(** Values without references. *)
Fixpoint pure (sh : shape) : bool :=
  match sh with Plain => true | Struct fs => forallb (fun f => pure f.2) fs | _ => false end.

Lemma readSeq_pure h shs vs ts fp :
  Forall (fun sh => forall v t fp, read h sh v = Some (t, fp) -> fp = []) shs ->
  readSeq (read h <$> shs) vs = Some (ts, fp) -> fp = [].
Proof.
  intros Hall. revert vs ts fp. induction Hall as [|sh shs Hsh _ IH]; intros [|v vs] ts fp Hr; try done; cbn in *;
    read_inv; [done|]. apply app_nil. split; [by eapply Hsh|by eapply IH].
Qed.

Lemma read_pure h sh v t fp : pure sh = true -> read h sh v = Some (t, fp) -> fp = [].
Proof.
  revert v t fp. induction sh as [|fs IH|sh IH|sh IH|sh IH] using shape_nested; intros [s|vs|[l|]] t fp Hp Hr;
    cbn in *; try done; read_inv; [done|]. rewrite read_fields in *.
  eapply readSeq_pure; [|done]. apply Is_true_true, forallb_True in Hp. rewrite Forall_fmap in *.
  rewrite Forall_forall in *. intros f Hf v t0 fp0. apply IH; [done|]. by apply Is_true_true, Hp.
Qed.

(** ** Deep copying

    A method copies a type deeply: whenever the value can be read, the method ends,
    with a value that reads the same in memory that only grew; the cells of the copy
    are new and none is reached twice. *)
Definition copies (sh : shape) (c : Copy) : Prop := forall h v t fp,
  read h sh v = Some (t, fp) ->
  exists v' h' (fp' : list loc), c v h = Some (v', h') /\ read h' sh v' = Some (t, fp') /\
    h ⊆ h' /\ NoDup fp' /\ forall l, l ∈ fp' -> l ∉ dom h.

Lemma read_grows h h' sh v t fp : h ⊆ h' -> read h sh v = Some (t, fp) -> read h' sh v = Some (t, fp).
Proof.
  intros Hsub Hr. eapply read_stable; [exact Hr|]. intros l Hl.
  apply (read_allocated h sh v t fp Hr) in Hl as [c Hc]%elem_of_dom. rewrite Hc. by eapply lookup_weaken.
Qed.

Lemma readSeq_grows h h' shs vs ts fp : h ⊆ h' ->
  readSeq (read h <$> shs) vs = Some (ts, fp) -> readSeq (read h' <$> shs) vs = Some (ts, fp).
Proof.
  intros Hsub. revert vs ts fp. induction shs as [|sh shs IH]; intros [|v vs] ts fp Hr; try done. cbn in *. read_inv.
  erewrite (read_grows h h'); [|done..]. cbn. by erewrite IH.
Qed.

Lemma copies_assign sh : pure sh = true -> copies sh assign.
Proof.
  intros Hp h v t fp Hr. pose proof (read_pure _ _ _ _ _ Hp Hr) as ->. exists v, h, [].
  split_and!; [done..|constructor|]. intros l Hl. by apply not_elem_of_nil in Hl.
Qed.

Lemma copySeq_copies shs cs : Forall2 copies shs cs -> forall h vs ts fp,
  readSeq (read h <$> shs) vs = Some (ts, fp) ->
  exists vs' h' (fp' : list loc), copySeq cs vs h = Some (vs', h') /\ readSeq (read h' <$> shs) vs' = Some (ts, fp') /\
    h ⊆ h' /\ NoDup fp' /\ forall l, l ∈ fp' -> l ∉ dom h.
Proof.
  induction 1 as [|sh c shs cs Hc _ IH]; intros h [|v vs] ts fp Hr; try done; cbn in *.
  { injection Hr as <- <-. exists [], h, []. split_and!; [done..|constructor|set_solver]. }
  read_inv. edestruct Hc as (v' & h1 & fp1 & -> & Hr1 & Hs1 & Hn1 & Hf1); [eassumption|].
  edestruct (IH h1) as (vs' & h2 & fp2 & Hc2 & Hr2 & Hs2 & Hn2 & Hf2); [by eapply readSeq_grows|].
  exists (v' :: vs'), h2, (fp1 ++ fp2). cbn. rewrite Hc2. cbn.
  erewrite (read_grows h1 h2); [|done..]. cbn. rewrite Hr2. split_and!; [done..|by etrans| |].
  - apply NoDup_app. split_and!; [done| |done]. intros k H1 H2.
    eapply Hf2; [exact H2|]. by eapply (read_allocated h1).
  - intros k [Hk|Hk]%elem_of_app; [by apply Hf1|]. apply Hf2 in Hk. intros Hd. apply Hk.
    by eapply subseteq_dom.
Qed.

Lemma readSeq_length rs vs ts fp : readSeq rs vs = Some (ts, fp) -> length vs = length rs.
Proof.
  revert vs ts fp. induction rs as [|r rs IH]; intros [|v vs] ts fp Hr; try done. cbn in *. read_inv.
  f_equal. by eapply IH.
Qed.

(** A new cell, filled once its contents have been copied. *)
Lemma blank_grows h : h ⊆ <[fresh (dom h) := Blank]> h.
Proof. apply insert_subseteq, not_elem_of_dom, is_fresh. Qed.

Lemma fill_new h h' (fp' : list loc) (c : cell) (out : loc := fresh (dom h)) :
  <[out := Blank]> h ⊆ h' -> NoDup fp' -> (forall l, l ∈ fp' -> l ∉ dom (<[out := Blank]> h)) ->
  h ⊆ <[out := c]> h' /\ NoDup (out :: fp') /\ (forall l, l ∈ out :: fp' -> l ∉ dom h) /\
  forall l, l ∈ fp' -> <[out := c]> h' !! l = h' !! l.
Proof.
  intros Hs Hn Hf. assert (Hout : out ∉ dom h) by apply is_fresh.
  assert (Hfp : forall l, l ∈ fp' -> l <> out /\ l ∉ dom h) by (intros l Hl%Hf; set_solver).
  split_and!.
  - apply map_subseteq_spec. intros i x Hi. assert (i <> out) by (intros ->; by apply Hout, elem_of_dom).
    rewrite lookup_insert_ne by done. eapply lookup_weaken; [|exact Hs]. by rewrite lookup_insert_ne.
  - constructor; [|done]. intros Hl%Hfp. by destruct Hl.
  - intros l [->|Hl%Hfp]%elem_of_cons; [done|by destruct Hl].
  - intros l [Hne _]%Hfp. by apply lookup_insert_ne.
Qed.

Lemma copies_pointer sh c : copies sh c -> copies (Pointer sh) (copyPointer c).
Proof.
  intros Hc h [s|vs|[l|]] t fp Hr; cbn in *; try done; read_inv.
  2:{ exists (Ref None), h, []. split_and!; [done..|constructor|set_solver]. }
  edestruct (Hc (<[fresh (dom h) := Blank]> h)) as (w & h' & fp' & Hcw & Hrw & Hs & Hn & Hf).
  { eapply read_grows; [apply blank_grows|eassumption]. }
  destruct (fill_new h h' fp' (Pointee w) Hs Hn Hf) as (Hs' & Hn' & Hf' & Hsame).
  exists (Ref (Some (fresh (dom h)))), (<[fresh (dom h) := Pointee w]> h'), (fresh (dom h) :: fp').
  rewrite Hcw. cbn. rewrite lookup_insert_eq. erewrite (read_stable h'); [|done..]. done.
Qed.

Lemma copies_slice sh c : copies sh c -> copies (Slice sh) (copySlice c).
Proof.
  intros Hc h [s|vs|[l|]] t fp Hr; cbn in *; try done; read_inv.
  2:{ exists (Ref None), h, []. split_and!; [done..|constructor|set_solver]. }
  rewrite read_elements in *.
  edestruct (copySeq_copies (replicate (length vs) sh) (replicate (length vs) c)
    ltac:(by apply Forall2_replicate) (<[fresh (dom h) := Blank]> h)) as (ws & h' & fp' & Hcw & Hrw & Hs & Hn & Hf).
  { eapply readSeq_grows; [apply blank_grows|eassumption]. }
  destruct (fill_new h h' fp' (Elements ws) Hs Hn Hf) as (Hs' & Hn' & Hf' & Hsame).
  exists (Ref (Some (fresh (dom h)))), (<[fresh (dom h) := Elements ws]> h'), (fresh (dom h) :: fp').
  rewrite Hcw. cbn. rewrite lookup_insert_eq, read_elements.
  pose proof (readSeq_length _ _ _ _ Hrw) as Hlen. rewrite length_fmap, length_replicate in Hlen. rewrite Hlen.
  erewrite (readSeq_stable h'); [done| |done..]. apply Forall_replicate, read_stable.
Qed.

Lemma copies_map sh : pure sh = true -> copies (MapOf sh) copyMap.
Proof.
  intros Hp h [s|vs|[l|]] t fp Hr; cbn in *; try done; read_inv.
  2:{ exists (Ref None), h, []. split_and!; [done..|constructor|set_solver]. }
  rewrite read_elements in *.
  assert (Hl : l1 = []).
  { eapply readSeq_pure; [|eassumption]. apply Forall_replicate. intros v t fp. by apply read_pure. }
  subst. destruct (fill_new h (<[fresh (dom h) := Blank]> h) [] (Entries kvs)) as (Hs & Hn & Hf & _);
    [done|constructor|set_solver|].
  rewrite insert_insert_eq in Hs.
  eexists _, _, [fresh (dom h)]. split; [done|]. cbn. rewrite lookup_insert_eq, read_elements.
  erewrite (readSeq_stable h); [done|apply Forall_replicate, read_stable|done|]. intros k Hk. by apply not_elem_of_nil in Hk.
Qed.

Lemma copies_struct stmts fs :
  Forall (fun f => copies f.2 (fieldCopy stmts f.1)) fs -> copies (Struct fs) (copyStruct stmts).
Proof.
  intros Hfs h [s|vs|[l|]] t fp Hr; cbn in *; try done; read_inv. rewrite read_fields in *. rewrite H in *.
  edestruct (copySeq_copies fs.*2 (fieldCopy stmts <$> fs.*1)) as (ws & h' & fp' & Hcw & Hrw & Hs & Hn & Hf);
    [|eassumption|].
  { apply Forall2_fmap, Forall2_fmap_r, Forall_Forall2_diag. done. }
  exists (StructOf (zip fs.*1 ws)), h', fp'. rewrite Hcw. cbn.
  assert (Hlen : length ws = length fs).
  { apply readSeq_length in Hrw. by rewrite Hrw, !length_fmap. }
  rewrite fst_zip, snd_zip, bool_decide_true, read_fields, Hrw by (rewrite ?length_fmap; lia || done). done.
Qed.

(** ** The types

    The types of k8s.io/apimachinery and k8s.io/api that the declarations mention,
    with their own methods. *)
Inductive foreign := TypeMeta | ObjectMeta | ListMeta | LabelSelector | ResourceRequirements | Condition.
Class ForeignTypes := {
  foreignShape : foreign -> shape;
  foreignCopy : foreign -> Copy
}.
(** Their methods copy deeply, and [TypeMeta] is two strings. *)
Class ForeignLaws `{ForeignTypes} : Prop := {
  foreign_copies t : copies (foreignShape t) (foreignCopy t);
  TypeMeta_pure : pure (foreignShape TypeMeta) = true
}.

Section Types.
Context `{ForeignTypes}.

Definition NamespaceSelectorSpec_shape : shape := Struct [
    ("MatchNames", Slice Plain)].
Definition ServiceDiscoveryNamespaceSelector_shape : shape := Struct [
    ("MatchNames", Slice Plain); ("MatchLabels", MapOf Plain)].
Definition ServiceDiscoverySpec_shape : shape := Struct [
    ("Enabled", Plain); ("NamespaceSelector", Pointer ServiceDiscoveryNamespaceSelector_shape)].
Definition ProxyTLSSpec_shape : shape := Struct [
    ("SecretName", Plain)].
Definition ProxyServerSpec_shape : shape := Struct [
    ("Port", Plain); ("Transport", Slice Plain); ("TLS", Pointer ProxyTLSSpec_shape)].
Definition ProxySlugRulesSpec_shape : shape := Struct [
    ("ReplaceSlashes", Plain); ("ReplaceBraces", Plain); ("ExpandCamelCase", Plain); ("Lowercase", Plain);
    ("CollapseSeparators", Plain)].
Definition ProxyNamingSpec_shape : shape := Struct [
    ("Separator", Plain); ("MaxLength", Plain); ("ConflictResolution", Plain);
    ("DescriptionMaxLength", Plain); ("DescriptionTruncationSuffix", Plain);
    ("DefaultSlugRules", ProxySlugRulesSpec_shape)].
Definition JWTAuthSpec_shape : shape := Struct [
    ("Issuer", Plain); ("Audience", Plain); ("JWKSURL", Plain)].
Definition ProxyInboundAuthSpec_shape : shape := Struct [
    ("Strategy", Plain); ("JWT", Pointer JWTAuthSpec_shape)].
Definition ProxyTelemetrySpec_shape : shape := Struct [
    ("ServiceName", Plain); ("ServiceVersion", Plain); ("OTLPEndpoint", Plain); ("Insecure", Plain)].
Definition GatewayRefSpec_shape : shape := Struct [
    ("Name", Plain); ("Namespace", Plain); ("Hostname", Plain)].
Definition MCPProxyRateLimitPolicySpec_shape : shape := Struct [
    ("Average", Plain); ("Period", Plain); ("Burst", Plain); ("Source", Plain)].
Definition MCPProxyRateLimitsSpec_shape : shape := Struct [
    ("Policies", MapOf MCPProxyRateLimitPolicySpec_shape)].
Definition MCPProxySpec_shape : shape := Struct [
    ("UpstreamSelector", foreignShape LabelSelector); ("NamespaceSelector", NamespaceSelectorSpec_shape);
    ("ServiceDiscovery", Pointer ServiceDiscoverySpec_shape); ("Replicas", Pointer Plain); ("Image", Plain);
    ("Resources", foreignShape ResourceRequirements); ("Server", ProxyServerSpec_shape);
    ("Naming", ProxyNamingSpec_shape); ("InboundAuth", Pointer ProxyInboundAuthSpec_shape);
    ("Telemetry", Pointer ProxyTelemetrySpec_shape); ("GatewayRef", Pointer GatewayRefSpec_shape);
    ("RateLimits", Pointer MCPProxyRateLimitsSpec_shape)].
Definition MCPProxyStatus_shape : shape := Struct [
    ("Conditions", Slice (foreignShape Condition)); ("UpstreamCount", Plain);
    ("AnnotatedServiceCount", Plain); ("ToolCount", Plain); ("ObservedGeneration", Plain)].
Definition MCPProxy_shape : shape := Struct [
    ("TypeMeta", foreignShape TypeMeta); ("ObjectMeta", foreignShape ObjectMeta);
    ("Spec", MCPProxySpec_shape); ("Status", MCPProxyStatus_shape)].
Definition MCPProxyList_shape : shape := Struct [
    ("TypeMeta", foreignShape TypeMeta); ("ListMeta", foreignShape ListMeta); ("Items", Slice MCPProxy_shape)].
Definition ServiceRefSpec_shape : shape := Struct [
    ("Name", Plain); ("Port", Plain)].
Definition ConfigMapKeyRef_shape : shape := Struct [
    ("Name", Plain); ("Key", Plain)].
Definition AutoDiscoverSpec_shape : shape := Struct [
    ("Path", Plain)].
Definition MCPUpstreamOpenAPISpec_shape : shape := Struct [
    ("ConfigMapRef", Pointer ConfigMapKeyRef_shape); ("URL", Plain);
    ("AutoDiscover", Pointer AutoDiscoverSpec_shape)].
Definition MCPUpstreamOverlaySpec_shape : shape := Struct [
    ("ConfigMapRef", Pointer ConfigMapKeyRef_shape)].
Definition SecretRef_shape : shape := Struct [
    ("Name", Plain)].
Definition BearerSpec_shape : shape := Struct [
    ("SecretRef", Pointer SecretRef_shape)].
Definition OAuth2Spec_shape : shape := Struct [
    ("TokenURL", Plain); ("SecretRef", Pointer SecretRef_shape)].
Definition MCPUpstreamOutboundAuthSpec_shape : shape := Struct [
    ("Strategy", Plain); ("Bearer", Pointer BearerSpec_shape); ("OAuth2", Pointer OAuth2Spec_shape)].
Definition UpstreamTLSSpec_shape : shape := Struct [
    ("SecretName", Plain)].
Definition MCPUpstreamTransportSpec_shape : shape := Struct [
    ("MaxIdleConns", Plain); ("MaxIdleConnsPerHost", Plain); ("TLS", Pointer UpstreamTLSSpec_shape)].
Definition MCPUpstreamValidationSpec_shape : shape := Struct [
    ("ValidateRequest", Plain); ("ValidateResponse", Plain); ("ResponseValidationFailure", Plain);
    ("SuccessStatus", Slice Plain); ("ErrorStatus", Slice Plain)].
Definition MCPUpstreamCommandSchemaProperty_shape : shape := Struct [
    ("Type", Plain); ("Description", Plain)].
Definition MCPUpstreamCommandInputSchema_shape : shape := Struct [
    ("Type", Plain); ("Properties", MapOf MCPUpstreamCommandSchemaProperty_shape); ("Required", Slice Plain)].
Definition MCPUpstreamCommandSpec_shape : shape := Struct [
    ("ToolName", Plain); ("Description", Plain); ("Command", Plain);
    ("InputSchema", MCPUpstreamCommandInputSchema_shape); ("Timeout", Plain); ("Env", MapOf Plain);
    ("WorkingDir", Plain); ("Shell", Plain); ("MaxOutput", Plain)].
Definition MCPUpstreamSpec_shape : shape := Struct [
    ("Type", Plain); ("ToolPrefix", Plain); ("ServiceRef", Pointer ServiceRefSpec_shape); ("BaseURL", Plain);
    ("OpenAPI", MCPUpstreamOpenAPISpec_shape); ("Overlay", Pointer MCPUpstreamOverlaySpec_shape);
    ("OutboundAuth", Pointer MCPUpstreamOutboundAuthSpec_shape);
    ("Transport", Pointer MCPUpstreamTransportSpec_shape);
    ("Validation", Pointer MCPUpstreamValidationSpec_shape);
    ("Commands", Slice MCPUpstreamCommandSpec_shape); ("RateLimit", Plain)].
Definition MCPUpstreamStatus_shape : shape := Struct [
    ("Conditions", Slice (foreignShape Condition)); ("AssignedProxy", Plain); ("ToolCount", Plain)].
Definition MCPUpstream_shape : shape := Struct [
    ("TypeMeta", foreignShape TypeMeta); ("ObjectMeta", foreignShape ObjectMeta);
    ("Spec", MCPUpstreamSpec_shape); ("Status", MCPUpstreamStatus_shape)].
Definition MCPUpstreamList_shape : shape := Struct [
    ("TypeMeta", foreignShape TypeMeta); ("ListMeta", foreignShape ListMeta);
    ("Items", Slice MCPUpstream_shape)].

(** ** The generated methods *)
Definition NamespaceSelectorSpec_DeepCopyInto : Copy := copyStruct [
    ("MatchNames", copySlice assign)].
Definition NamespaceSelectorSpec_DeepCopy : Copy := DeepCopy NamespaceSelectorSpec_DeepCopyInto.
Definition ServiceDiscoveryNamespaceSelector_DeepCopyInto : Copy := copyStruct [
    ("MatchNames", copySlice assign); ("MatchLabels", copyMap)].
Definition ServiceDiscoveryNamespaceSelector_DeepCopy : Copy := DeepCopy ServiceDiscoveryNamespaceSelector_DeepCopyInto.
Definition ServiceDiscoverySpec_DeepCopyInto : Copy := copyStruct [
    ("NamespaceSelector", copyPointer ServiceDiscoveryNamespaceSelector_DeepCopyInto)].
Definition ServiceDiscoverySpec_DeepCopy : Copy := DeepCopy ServiceDiscoverySpec_DeepCopyInto.
Definition ProxyTLSSpec_DeepCopyInto : Copy := assign.
Definition ProxyTLSSpec_DeepCopy : Copy := DeepCopy ProxyTLSSpec_DeepCopyInto.
Definition ProxyServerSpec_DeepCopyInto : Copy := copyStruct [
    ("Transport", copySlice assign); ("TLS", copyPointer assign)].
Definition ProxyServerSpec_DeepCopy : Copy := DeepCopy ProxyServerSpec_DeepCopyInto.
Definition ProxySlugRulesSpec_DeepCopyInto : Copy := assign.
Definition ProxySlugRulesSpec_DeepCopy : Copy := DeepCopy ProxySlugRulesSpec_DeepCopyInto.
Definition ProxyNamingSpec_DeepCopyInto : Copy := copyStruct [
    ("DefaultSlugRules", assign)].
Definition ProxyNamingSpec_DeepCopy : Copy := DeepCopy ProxyNamingSpec_DeepCopyInto.
Definition JWTAuthSpec_DeepCopyInto : Copy := assign.
Definition JWTAuthSpec_DeepCopy : Copy := DeepCopy JWTAuthSpec_DeepCopyInto.
Definition ProxyInboundAuthSpec_DeepCopyInto : Copy := copyStruct [
    ("JWT", copyPointer assign)].
Definition ProxyInboundAuthSpec_DeepCopy : Copy := DeepCopy ProxyInboundAuthSpec_DeepCopyInto.
Definition ProxyTelemetrySpec_DeepCopyInto : Copy := assign.
Definition ProxyTelemetrySpec_DeepCopy : Copy := DeepCopy ProxyTelemetrySpec_DeepCopyInto.
Definition GatewayRefSpec_DeepCopyInto : Copy := assign.
Definition GatewayRefSpec_DeepCopy : Copy := DeepCopy GatewayRefSpec_DeepCopyInto.
Definition MCPProxyRateLimitPolicySpec_DeepCopyInto : Copy := assign.
Definition MCPProxyRateLimitPolicySpec_DeepCopy : Copy := DeepCopy MCPProxyRateLimitPolicySpec_DeepCopyInto.
Definition MCPProxyRateLimitsSpec_DeepCopyInto : Copy := copyStruct [
    ("Policies", copyMap)].
Definition MCPProxyRateLimitsSpec_DeepCopy : Copy := DeepCopy MCPProxyRateLimitsSpec_DeepCopyInto.
Definition MCPProxySpec_DeepCopyInto : Copy := copyStruct [
    ("UpstreamSelector", foreignCopy LabelSelector);
    ("NamespaceSelector", NamespaceSelectorSpec_DeepCopyInto);
    ("ServiceDiscovery", copyPointer ServiceDiscoverySpec_DeepCopyInto); ("Replicas", copyPointer assign);
    ("Resources", foreignCopy ResourceRequirements); ("Server", ProxyServerSpec_DeepCopyInto);
    ("Naming", assign); ("InboundAuth", copyPointer ProxyInboundAuthSpec_DeepCopyInto);
    ("Telemetry", copyPointer assign); ("GatewayRef", copyPointer assign);
    ("RateLimits", copyPointer MCPProxyRateLimitsSpec_DeepCopyInto)].
Definition MCPProxySpec_DeepCopy : Copy := DeepCopy MCPProxySpec_DeepCopyInto.
Definition MCPProxyStatus_DeepCopyInto : Copy := copyStruct [
    ("Conditions", copySlice (foreignCopy Condition))].
Definition MCPProxyStatus_DeepCopy : Copy := DeepCopy MCPProxyStatus_DeepCopyInto.
Definition MCPProxy_DeepCopyInto : Copy := copyStruct [
    ("TypeMeta", assign); ("ObjectMeta", foreignCopy ObjectMeta); ("Spec", MCPProxySpec_DeepCopyInto);
    ("Status", MCPProxyStatus_DeepCopyInto)].
Definition MCPProxy_DeepCopy : Copy := DeepCopy MCPProxy_DeepCopyInto.
Definition MCPProxyList_DeepCopyInto : Copy := copyStruct [
    ("TypeMeta", assign); ("ListMeta", foreignCopy ListMeta); ("Items", copySlice MCPProxy_DeepCopyInto)].
Definition MCPProxyList_DeepCopy : Copy := DeepCopy MCPProxyList_DeepCopyInto.
Definition ServiceRefSpec_DeepCopyInto : Copy := assign.
Definition ServiceRefSpec_DeepCopy : Copy := DeepCopy ServiceRefSpec_DeepCopyInto.
Definition ConfigMapKeyRef_DeepCopyInto : Copy := assign.
Definition ConfigMapKeyRef_DeepCopy : Copy := DeepCopy ConfigMapKeyRef_DeepCopyInto.
Definition AutoDiscoverSpec_DeepCopyInto : Copy := assign.
Definition AutoDiscoverSpec_DeepCopy : Copy := DeepCopy AutoDiscoverSpec_DeepCopyInto.
Definition MCPUpstreamOpenAPISpec_DeepCopyInto : Copy := copyStruct [
    ("ConfigMapRef", copyPointer assign); ("AutoDiscover", copyPointer assign)].
Definition MCPUpstreamOpenAPISpec_DeepCopy : Copy := DeepCopy MCPUpstreamOpenAPISpec_DeepCopyInto.
Definition MCPUpstreamOverlaySpec_DeepCopyInto : Copy := copyStruct [
    ("ConfigMapRef", copyPointer assign)].
Definition MCPUpstreamOverlaySpec_DeepCopy : Copy := DeepCopy MCPUpstreamOverlaySpec_DeepCopyInto.
Definition SecretRef_DeepCopyInto : Copy := assign.
Definition SecretRef_DeepCopy : Copy := DeepCopy SecretRef_DeepCopyInto.
Definition BearerSpec_DeepCopyInto : Copy := copyStruct [
    ("SecretRef", copyPointer assign)].
Definition BearerSpec_DeepCopy : Copy := DeepCopy BearerSpec_DeepCopyInto.
Definition OAuth2Spec_DeepCopyInto : Copy := copyStruct [
    ("SecretRef", copyPointer assign)].
Definition OAuth2Spec_DeepCopy : Copy := DeepCopy OAuth2Spec_DeepCopyInto.
Definition MCPUpstreamOutboundAuthSpec_DeepCopyInto : Copy := copyStruct [
    ("Bearer", copyPointer BearerSpec_DeepCopyInto); ("OAuth2", copyPointer OAuth2Spec_DeepCopyInto)].
Definition MCPUpstreamOutboundAuthSpec_DeepCopy : Copy := DeepCopy MCPUpstreamOutboundAuthSpec_DeepCopyInto.
Definition UpstreamTLSSpec_DeepCopyInto : Copy := assign.
Definition UpstreamTLSSpec_DeepCopy : Copy := DeepCopy UpstreamTLSSpec_DeepCopyInto.
Definition MCPUpstreamTransportSpec_DeepCopyInto : Copy := copyStruct [
    ("TLS", copyPointer assign)].
Definition MCPUpstreamTransportSpec_DeepCopy : Copy := DeepCopy MCPUpstreamTransportSpec_DeepCopyInto.
Definition MCPUpstreamValidationSpec_DeepCopyInto : Copy := copyStruct [
    ("SuccessStatus", copySlice assign); ("ErrorStatus", copySlice assign)].
Definition MCPUpstreamValidationSpec_DeepCopy : Copy := DeepCopy MCPUpstreamValidationSpec_DeepCopyInto.
Definition MCPUpstreamCommandSchemaProperty_DeepCopyInto : Copy := assign.
Definition MCPUpstreamCommandSchemaProperty_DeepCopy : Copy := DeepCopy MCPUpstreamCommandSchemaProperty_DeepCopyInto.
Definition MCPUpstreamCommandInputSchema_DeepCopyInto : Copy := copyStruct [
    ("Properties", copyMap); ("Required", copySlice assign)].
Definition MCPUpstreamCommandInputSchema_DeepCopy : Copy := DeepCopy MCPUpstreamCommandInputSchema_DeepCopyInto.
Definition MCPUpstreamCommandSpec_DeepCopyInto : Copy := copyStruct [
    ("InputSchema", MCPUpstreamCommandInputSchema_DeepCopyInto); ("Env", copyMap)].
Definition MCPUpstreamCommandSpec_DeepCopy : Copy := DeepCopy MCPUpstreamCommandSpec_DeepCopyInto.
Definition MCPUpstreamSpec_DeepCopyInto : Copy := copyStruct [
    ("ServiceRef", copyPointer assign); ("OpenAPI", MCPUpstreamOpenAPISpec_DeepCopyInto);
    ("Overlay", copyPointer MCPUpstreamOverlaySpec_DeepCopyInto);
    ("OutboundAuth", copyPointer MCPUpstreamOutboundAuthSpec_DeepCopyInto);
    ("Transport", copyPointer MCPUpstreamTransportSpec_DeepCopyInto);
    ("Validation", copyPointer MCPUpstreamValidationSpec_DeepCopyInto);
    ("Commands", copySlice MCPUpstreamCommandSpec_DeepCopyInto)].
Definition MCPUpstreamSpec_DeepCopy : Copy := DeepCopy MCPUpstreamSpec_DeepCopyInto.
Definition MCPUpstreamStatus_DeepCopyInto : Copy := copyStruct [
    ("Conditions", copySlice (foreignCopy Condition))].
Definition MCPUpstreamStatus_DeepCopy : Copy := DeepCopy MCPUpstreamStatus_DeepCopyInto.
Definition MCPUpstream_DeepCopyInto : Copy := copyStruct [
    ("TypeMeta", assign); ("ObjectMeta", foreignCopy ObjectMeta); ("Spec", MCPUpstreamSpec_DeepCopyInto);
    ("Status", MCPUpstreamStatus_DeepCopyInto)].
Definition MCPUpstream_DeepCopy : Copy := DeepCopy MCPUpstream_DeepCopyInto.
Definition MCPUpstreamList_DeepCopyInto : Copy := copyStruct [
    ("TypeMeta", assign); ("ListMeta", foreignCopy ListMeta); ("Items", copySlice MCPUpstream_DeepCopyInto)].
Definition MCPUpstreamList_DeepCopy : Copy := DeepCopy MCPUpstreamList_DeepCopyInto.
Definition MCPProxy_DeepCopyObject := DeepCopyObject MCPProxy_DeepCopyInto.
Definition MCPProxyList_DeepCopyObject := DeepCopyObject MCPProxyList_DeepCopyInto.
Definition MCPUpstream_DeepCopyObject := DeepCopyObject MCPUpstream_DeepCopyInto.
Definition MCPUpstreamList_DeepCopyObject := DeepCopyObject MCPUpstreamList_DeepCopyInto.

(** Every type of the package, with its method. *)
Definition resourceTypes : list (string * (shape * Copy)) := [
    ("NamespaceSelectorSpec", (NamespaceSelectorSpec_shape, NamespaceSelectorSpec_DeepCopyInto));
    ("ServiceDiscoveryNamespaceSelector", (ServiceDiscoveryNamespaceSelector_shape, ServiceDiscoveryNamespaceSelector_DeepCopyInto));
    ("ServiceDiscoverySpec", (ServiceDiscoverySpec_shape, ServiceDiscoverySpec_DeepCopyInto));
    ("ProxyTLSSpec", (ProxyTLSSpec_shape, ProxyTLSSpec_DeepCopyInto));
    ("ProxyServerSpec", (ProxyServerSpec_shape, ProxyServerSpec_DeepCopyInto));
    ("ProxySlugRulesSpec", (ProxySlugRulesSpec_shape, ProxySlugRulesSpec_DeepCopyInto));
    ("ProxyNamingSpec", (ProxyNamingSpec_shape, ProxyNamingSpec_DeepCopyInto));
    ("JWTAuthSpec", (JWTAuthSpec_shape, JWTAuthSpec_DeepCopyInto));
    ("ProxyInboundAuthSpec", (ProxyInboundAuthSpec_shape, ProxyInboundAuthSpec_DeepCopyInto));
    ("ProxyTelemetrySpec", (ProxyTelemetrySpec_shape, ProxyTelemetrySpec_DeepCopyInto));
    ("GatewayRefSpec", (GatewayRefSpec_shape, GatewayRefSpec_DeepCopyInto));
    ("MCPProxyRateLimitPolicySpec", (MCPProxyRateLimitPolicySpec_shape, MCPProxyRateLimitPolicySpec_DeepCopyInto));
    ("MCPProxyRateLimitsSpec", (MCPProxyRateLimitsSpec_shape, MCPProxyRateLimitsSpec_DeepCopyInto));
    ("MCPProxySpec", (MCPProxySpec_shape, MCPProxySpec_DeepCopyInto));
    ("MCPProxyStatus", (MCPProxyStatus_shape, MCPProxyStatus_DeepCopyInto));
    ("MCPProxy", (MCPProxy_shape, MCPProxy_DeepCopyInto));
    ("MCPProxyList", (MCPProxyList_shape, MCPProxyList_DeepCopyInto));
    ("ServiceRefSpec", (ServiceRefSpec_shape, ServiceRefSpec_DeepCopyInto));
    ("ConfigMapKeyRef", (ConfigMapKeyRef_shape, ConfigMapKeyRef_DeepCopyInto));
    ("AutoDiscoverSpec", (AutoDiscoverSpec_shape, AutoDiscoverSpec_DeepCopyInto));
    ("MCPUpstreamOpenAPISpec", (MCPUpstreamOpenAPISpec_shape, MCPUpstreamOpenAPISpec_DeepCopyInto));
    ("MCPUpstreamOverlaySpec", (MCPUpstreamOverlaySpec_shape, MCPUpstreamOverlaySpec_DeepCopyInto));
    ("SecretRef", (SecretRef_shape, SecretRef_DeepCopyInto));
    ("BearerSpec", (BearerSpec_shape, BearerSpec_DeepCopyInto));
    ("OAuth2Spec", (OAuth2Spec_shape, OAuth2Spec_DeepCopyInto));
    ("MCPUpstreamOutboundAuthSpec", (MCPUpstreamOutboundAuthSpec_shape, MCPUpstreamOutboundAuthSpec_DeepCopyInto));
    ("UpstreamTLSSpec", (UpstreamTLSSpec_shape, UpstreamTLSSpec_DeepCopyInto));
    ("MCPUpstreamTransportSpec", (MCPUpstreamTransportSpec_shape, MCPUpstreamTransportSpec_DeepCopyInto));
    ("MCPUpstreamValidationSpec", (MCPUpstreamValidationSpec_shape, MCPUpstreamValidationSpec_DeepCopyInto));
    ("MCPUpstreamCommandSchemaProperty", (MCPUpstreamCommandSchemaProperty_shape, MCPUpstreamCommandSchemaProperty_DeepCopyInto));
    ("MCPUpstreamCommandInputSchema", (MCPUpstreamCommandInputSchema_shape, MCPUpstreamCommandInputSchema_DeepCopyInto));
    ("MCPUpstreamCommandSpec", (MCPUpstreamCommandSpec_shape, MCPUpstreamCommandSpec_DeepCopyInto));
    ("MCPUpstreamSpec", (MCPUpstreamSpec_shape, MCPUpstreamSpec_DeepCopyInto));
    ("MCPUpstreamStatus", (MCPUpstreamStatus_shape, MCPUpstreamStatus_DeepCopyInto));
    ("MCPUpstream", (MCPUpstream_shape, MCPUpstream_DeepCopyInto));
    ("MCPUpstreamList", (MCPUpstreamList_shape, MCPUpstreamList_DeepCopyInto))].

(** ** The theorems *)
Context `{!ForeignLaws}.

(** Follows a declaration and its method side by side. *)
Ltac deep :=
  match goal with
  | |- copies (foreignShape _) (foreignCopy _) => apply foreign_copies
  | |- copies _ assign => apply copies_assign; cbn; try apply TypeMeta_pure; done
  | |- copies (Pointer _) _ => apply copies_pointer; deep
  | |- copies (Slice _) _ => apply copies_slice; deep
  | |- copies (MapOf _) _ => apply copies_map; done
  | |- copies (Struct _) (copyStruct _) => apply copies_struct; repeat constructor; cbn [fst snd]; deep
  | |- copies _ (fieldCopy _ _) => cbn [fieldCopy String.eqb Ascii.eqb Bool.eqb]; deep
  | |- copies ?sh ?c => let sh' := eval red in sh in let c' := eval red in c in change (copies sh' c'); deep
  end.

Lemma resourceTypes_copy : Forall (fun ty => copies ty.2.1 ty.2.2) resourceTypes.
Proof. repeat constructor; cbn [fst snd]; deep. Qed.

Lemma DeepCopy_pointer c p h : DeepCopy c p h = copyPointer c p h.
Proof. by destruct p as [| |[l|]]. Qed.

(** C34: C34: [DeepCopy] of every resource type: a pointer that reads as the original does, to
    new memory in which nothing is shared; whatever is later written into the copy,
    the original reads the same, and the other way round.  [DeepCopyObject] gives the
    same pointer, and nothing for a nil one. *)
Theorem DeepCopy_separates (name : string) (sh : shape) (c : Copy) (h : heap) (p : value)
    (t : tree) (fp : list loc)
    (Htype : (name, (sh, c)) ∈ resourceTypes)
    (Hread : read h (Pointer sh) p = Some (t, fp)) :
  exists q h' (fp' : list loc),
    DeepCopy c p h = Some (q, h') /\
    read h' (Pointer sh) q = Some (t, fp') /\ NoDup fp' /\ fp ## fp' /\
    (forall h2, (forall l, l ∉ fp' -> h2 !! l = h' !! l) -> read h2 (Pointer sh) p = Some (t, fp)) /\
    (forall h2, (forall l, l ∉ fp -> h2 !! l = h' !! l) -> read h2 (Pointer sh) q = Some (t, fp')) /\
    DeepCopyObject c p h = Some (match t with TNil => None | _ => Some q end, h').
Proof.
  pose proof resourceTypes_copy as Hall. rewrite Forall_forall in Hall. apply Hall in Htype. cbn in Htype.
  destruct (copies_pointer sh c Htype h p t fp Hread) as (q & h' & fp' & Hc & Hr & Hs & Hn & Hf).
  pose proof (read_allocated h _ _ _ _ Hread) as Hd. exists q, h', fp'.
  unfold DeepCopyObject. rewrite DeepCopy_pointer. split_and!; [done..| | | |].
  - intros l Hl Hl'. by eapply Hf, Hd.
  - intros h2 Hl. eapply read_stable; [by eapply read_grows|]. intros l Hin. apply Hl. intros Hin'.
    by eapply Hf, Hd.
  - intros h2 Hl. eapply read_stable; [exact Hr|]. intros l Hin. apply Hl. intros Hin'. by eapply Hf, Hd.
  - rewrite Hc. cbn. destruct q as [s|vs|[l|]]; cbn in Hr; try done; [|by injection Hr as <- <-].
    by read_inv.
Qed.
End Types.

(** ** A sample *)
Module SampleCopy.
#[local] Instance foreignTypes : ForeignTypes := {|
  foreignShape t := match t with
    | TypeMeta => Struct [("Kind", Plain); ("APIVersion", Plain)]
    | ObjectMeta => Struct [("Name", Plain); ("Labels", MapOf Plain)]
    | LabelSelector => Struct [("MatchLabels", MapOf Plain)]
    | _ => Plain end;
  foreignCopy t := match t with
    | ObjectMeta => copyStruct [("Labels", copyMap)]
    | LabelSelector => copyStruct [("MatchLabels", copyMap)]
    | _ => assign end |}.
#[local] Instance foreignLaws : ForeignLaws.
Proof.
  split; [|done]. intros []; cbn; try (by apply copies_assign); apply copies_struct; repeat constructor; cbn;
    (by apply copies_assign) || by apply copies_map.
Qed.
(** A selector by namespaces and labels, behind a pointer. *)
Definition memory : heap := <[1%positive := Pointee (StructOf [("MatchNames", Ref (Some 2%positive)); ("MatchLabels", Ref (Some 3%positive))])]>
  (<[2%positive := Elements [Scalar (Text "prod")]]> (<[3%positive := Entries [("team", Scalar (Text "a"))]]> ∅)).
End SampleCopy.

Section CopyWitnesses.
#[local] Existing Instances SampleCopy.foreignTypes SampleCopy.foreignLaws.
Import SampleCopy.

(** Labels written into the copy do not reach the original. *)
Lemma DeepCopy_separates_witness : exists q h' l,
  ServiceDiscoveryNamespaceSelector_DeepCopy (Ref (Some 1%positive)) memory = Some (q, h') /\
  h' !! l = Some (Entries [("team", Scalar (Text "a"))]) /\
  exists t fp, read (<[l := Entries [("team", Scalar (Text "b"))]]> h')
    (Pointer ServiceDiscoveryNamespaceSelector_shape) (Ref (Some 1%positive)) = Some (t, fp) /\
    read memory (Pointer ServiceDiscoveryNamespaceSelector_shape) (Ref (Some 1%positive)) = Some (t, fp).
Proof.
  destruct (DeepCopy_separates "ServiceDiscoveryNamespaceSelector" ServiceDiscoveryNamespaceSelector_shape
    ServiceDiscoveryNamespaceSelector_DeepCopyInto memory (Ref (Some 1%positive)) _ _
    ltac:(unfold resourceTypes; repeat first [apply list_elem_of_here | apply list_elem_of_further]) eq_refl)
    as (q & h' & fp' & Hc & Hr & _ & _ & Horig & _).
  vm_compute in Hc. injection Hc as <- <-. eexists _, _, 6%positive. split; [vm_compute; reflexivity|].
  split; [vm_compute; reflexivity|]. eexists _, _. split; [|vm_compute; reflexivity].
  apply Horig. intros l Hl. apply lookup_insert_ne. intros <-. apply Hl.
  vm_compute in Hr. injection Hr as <-. apply list_elem_of_In. vm_compute. auto.
Defined.
End CopyWitnesses.
