(* ===== verification/ConfigGen.v ===== *)
(** * Generated proxy configuration (pkg/operator/configgen/generator.go)

    The operator turns an [MCPProxy] and its selected [MCPUpstream]s into the
    proxy's configuration file.  [Generate] is the translation up to its last
    step, [yaml.Marshal], which is a parameter.  The theorems say when it fails,
    and that what the webhook admits and what annotated Services become is
    accepted. *)
From S2P Require Export Crd.
Open Scope Z_scope.

Definition defaultPort : Z := 8080.
Definition specsDir : string := "/etc/mcp-auto/specs".
Definition overlaysDir : string := "/etc/mcp-auto/overlays".

(** ** The file's structure *)
Record generatedServerConfig := {
  gsv_Port : Z
}.

Record generatedNamingConfig := {
  gnc_Separator : string;
  gnc_MaxLength : Z;
  gnc_ConflictResolution : string
}.

Record generatedRateLimitConfig := {
  grl_Average : Z;
  grl_Period : string;
  grl_Burst : Z;
  grl_Source : string
}.

Record generatedTelemetryConfig := {
  gtc_OTLPEndpoint : string
}.

Record generatedJWTAuthConfig := {
  gjw_JWKSURL : string
}.

Record generatedInboundAuthConfig := {
  gia_Strategy : string;
  gia_JWT : option generatedJWTAuthConfig
}.

Record generatedOpenAPIConfig := {
  goa_Source : string
}.

Record generatedOverlayConfig := {
  gov_Source : string
}.

Record generatedOAuth2CCConfig := {
  go2_TokenURL : string;
  go2_ClientID : string;
  go2_ClientSecret : string;
  go2_Scopes : list string
}.

Record generatedOutboundAuth := {
  goo_Strategy : string;
  goo_OAuth2ClientCredentials : option generatedOAuth2CCConfig
}.

Record generatedTLSConfig := {
  gtl_RootCAPath : string
}.

Record generatedTransportConfig := {
  gtr_MaxIdleConns : Z;
  gtr_TLS : option generatedTLSConfig
}.

Record generatedValidationConfig := {
  gvc_ValidateRequest : bool;
  gvc_ValidateResponse : bool
}.

Record generatedCommandSchemaProperty := {
  gcp_Type : string;
  gcp_Description : string
}.

Record generatedCommandInputSchema := {
  gci_Type : string;
  gci_Properties : gmap string generatedCommandSchemaProperty;
  gci_Required : list string
}.

Record generatedCommandConfig := {
  gcc_ToolName : string;
  gcc_Description : string;
  gcc_Command : string;
  gcc_Shell : bool;
  gcc_WorkingDir : string;
  gcc_Timeout : string;
  gcc_MaxOutput : Z;
  gcc_Env : gmap string string;
  gcc_InputSchema : option generatedCommandInputSchema
}.

Record generatedUpstreamConfig := {
  guc_Name : string;
  guc_Enabled : bool;
  guc_ToolPrefix : string;
  guc_Type : string;
  guc_BaseURL : string;
  guc_OpenAPI : option generatedOpenAPIConfig;
  guc_Overlay : option generatedOverlayConfig;
  guc_OutboundAuth : option generatedOutboundAuth;
  guc_Transport : option generatedTransportConfig;
  guc_Validation : option generatedValidationConfig;
  guc_Commands : list generatedCommandConfig;
  guc_RateLimit : string
}.

Record generatedProxyConfig := {
  gpc_Server : generatedServerConfig;
  gpc_Naming : generatedNamingConfig;
  gpc_RateLimits : gmap string generatedRateLimitConfig;
  gpc_Telemetry : option generatedTelemetryConfig;
  gpc_InboundAuth : option generatedInboundAuthConfig;
  gpc_Upstreams : list generatedUpstreamConfig
}.

(** ** Errors, with their texts: they are put into a status condition *)
Inductive GenError :=
  | BuildingUpstream (namespace name : string) (err : GenError)
  | NoCommandEntry (namespace name : string)
  | NoBaseURL (namespace name : string)
  | NoOpenAPISource (namespace name : string)
  | MarshallingProxyConfig (err : string).

Fixpoint GenError_text (e : GenError) : string :=
  match e with
  | BuildingUpstream ns n err =>
    "building upstream config for " +:+ ns +:+ "/" +:+ n +:+ ": " +:+ GenError_text err
  | NoCommandEntry ns n =>
    "upstream " +:+ ns +:+ "/" +:+ n +:+ ": type command requires at least one command entry"
  | NoBaseURL ns n => "upstream " +:+ ns +:+ "/" +:+ n +:+ ": neither serviceRef nor baseURL is set"
  | NoOpenAPISource ns n => "upstream " +:+ ns +:+ "/" +:+ n +:+ ": no openapi source configured"
  | MarshallingProxyConfig err => "marshalling proxy config: " +:+ err
  end.

(** ** One upstream *)
Section Upstream.
Context (up : MCPUpstream).
Let ns := om_Namespace (mu_ObjectMeta up).
Let name := om_Name (mu_ObjectMeta up).
Let spec := mu_Spec up.

(** [fmt.Sprintf("%s_%s.yaml", up.Namespace, up.Name)] *)
Definition fileKey : string := ns +:+ "_" +:+ name +:+ ".yaml".

Definition buildGeneratedInputSchema (s : MCPUpstreamCommandInputSchema) : generatedCommandInputSchema := {|
  gci_Type := mci_Type s;
  gci_Properties := (fun prop => {| gcp_Type := mcq_Type prop; gcp_Description := mcq_Description prop |})
                      <$> mci_Properties s;
  gci_Required := mci_Required s |}.

(** [cmd.InputSchema.Type != "" || ...] *)
Definition hasInputSchema (s : MCPUpstreamCommandInputSchema) : bool :=
  negb (bool_decide (mci_Type s = "")) || negb (bool_decide (mci_Properties s = ∅))
  || negb (bool_decide (mci_Required s = [])).

Definition generatedCommand (cmd : MCPUpstreamCommandSpec) : generatedCommandConfig := {|
  gcc_ToolName := mcs_ToolName cmd;
  gcc_Description := mcs_Description cmd;
  gcc_Command := mcs_Command cmd;
  gcc_Shell := mcs_Shell cmd;
  gcc_WorkingDir := mcs_WorkingDir cmd;
  gcc_Timeout := mcs_Timeout cmd;
  gcc_MaxOutput := mcs_MaxOutput cmd;
  gcc_Env := mcs_Env cmd;
  gcc_InputSchema := if hasInputSchema (mcs_InputSchema cmd)
                     then Some (buildGeneratedInputSchema (mcs_InputSchema cmd)) else None |}.

Definition buildCommandUpstreamConfig (uc : generatedUpstreamConfig)
    : result GenError generatedUpstreamConfig :=
  match mus_Commands spec with
  | [] => Err (NoCommandEntry ns name)
  | cmds => Ok {|
      guc_Name := guc_Name uc;
      guc_Enabled := guc_Enabled uc;
      guc_ToolPrefix := guc_ToolPrefix uc;
      guc_Type := "command";
      guc_BaseURL := guc_BaseURL uc;
      guc_OpenAPI := guc_OpenAPI uc;
      guc_Overlay := guc_Overlay uc;
      guc_OutboundAuth := guc_OutboundAuth uc;
      guc_Transport := guc_Transport uc;
      guc_Validation := guc_Validation uc;
      guc_Commands := generatedCommand <$> cmds;
      guc_RateLimit := guc_RateLimit uc |}
  end.

Definition generatedBaseURL : result GenError string :=
  match mus_ServiceRef spec with
  | Some ref => Ok ("http://" +:+ svr_Name ref +:+ "." +:+ ns +:+ ".svc.cluster.local:" +:+ pretty (svr_Port ref))
  | None => if bool_decide (mus_BaseURL spec = "") then Err (NoBaseURL ns name) else Ok (mus_BaseURL spec)
  end.

Definition generatedSource (baseURL : string) : result GenError string :=
  let openAPI := mus_OpenAPI spec in
  match moa_ConfigMapRef openAPI with
  | Some _ => Ok (specsDir +:+ "/" +:+ fileKey)
  | None =>
    if bool_decide (moa_URL openAPI = "") then
      match moa_AutoDiscover openAPI with
      | Some ad => Ok (baseURL +:+ (if bool_decide (ads_Path ad = "") then "/openapi.json" else ads_Path ad))
      | None => Err (NoOpenAPISource ns name)
      end
    else Ok (moa_URL openAPI)
  end.

(** [up.Spec.Overlay != nil && up.Spec.Overlay.ConfigMapRef != nil] *)
Definition overlayRef : option ConfigMapKeyRef := mus_Overlay spec ≫= mov_ConfigMapRef.

Definition generatedOverlay : option generatedOverlayConfig :=
  (fun _ => {| gov_Source := overlaysDir +:+ "/" +:+ fileKey |}) <$> overlayRef.

Definition envRef (what : string) : string := "${UPSTREAM_" +:+ ns +:+ "_" +:+ name +:+ "_" +:+ what +:+ "}".

Definition generatedOAuth2 (o : OAuth2Spec) : generatedOAuth2CCConfig :=
  let secret := isSome (o2s_SecretRef o) in {|
  go2_TokenURL := o2s_TokenURL o;
  go2_ClientID := if secret then envRef "OAUTH2_CLIENT_ID" else "";
  go2_ClientSecret := if secret then envRef "OAUTH2_CLIENT_SECRET" else "";
  go2_Scopes := [] |}.

Definition generatedAuth (a : MCPUpstreamOutboundAuthSpec) : generatedOutboundAuth := {|
  goo_Strategy := moo_Strategy a;
  goo_OAuth2ClientCredentials := generatedOAuth2 <$> moo_OAuth2 a |}.

Definition generatedTransport (t : MCPUpstreamTransportSpec) : generatedTransportConfig := {|
  gtr_MaxIdleConns := mtr_MaxIdleConns t;
  gtr_TLS := (fun _ => {| gtl_RootCAPath := "/etc/mcp-auto/tls/" +:+ ns +:+ "-" +:+ name +:+ "/ca.crt" |})
               <$> mtr_TLS t |}.

Definition generatedValidation (v : MCPUpstreamValidationSpec) : generatedValidationConfig := {|
  gvc_ValidateRequest := mvs_ValidateRequest v;
  gvc_ValidateResponse := mvs_ValidateResponse v |}.

Definition buildHTTPUpstreamConfig (uc : generatedUpstreamConfig)
    : result GenError generatedUpstreamConfig :=
  baseURL ← generatedBaseURL;
  source ← generatedSource baseURL;
  Ok {| guc_Name := guc_Name uc;
        guc_Enabled := guc_Enabled uc;
        guc_ToolPrefix := guc_ToolPrefix uc;
        guc_Type := guc_Type uc;
        guc_BaseURL := baseURL;
        guc_OpenAPI := Some {| goa_Source := source |};
        guc_Overlay := generatedOverlay;
        guc_OutboundAuth := generatedAuth <$> mus_OutboundAuth spec;
        guc_Transport := generatedTransport <$> mus_Transport spec;
        guc_Validation := generatedValidation <$> mus_Validation spec;
        guc_Commands := guc_Commands uc;
        guc_RateLimit := mus_RateLimit spec |}.

Definition buildUpstreamConfig : result GenError generatedUpstreamConfig :=
  let uc := {|
    guc_Name := ns +:+ "-" +:+ name;
    guc_Enabled := true;
    guc_ToolPrefix := mus_ToolPrefix spec;
    guc_Type := "";
    guc_BaseURL := "";
    guc_OpenAPI := None;
    guc_Overlay := None;
    guc_OutboundAuth := None;
    guc_Transport := None;
    guc_Validation := None;
    guc_Commands := [];
    guc_RateLimit := "" |} in
  let upstreamType := if bool_decide (mus_Type spec = "") then "http" else mus_Type spec in
  if bool_decide (upstreamType = "command") then buildCommandUpstreamConfig uc
  else buildHTTPUpstreamConfig uc.
End Upstream.

(** ** The whole file *)
Section Generate.
Context `{KubeTypes}.
(** [yaml.Marshal] *)
Context (yaml_Marshal : generatedProxyConfig -> result string string).

Definition serverPort (proxy : MCPProxy) : Z :=
  let port := psv_Port (pxs_Server (px_Spec proxy)) in
  if bool_decide (port = 0) then defaultPort else port.

Definition generatedPolicies (proxy : MCPProxy) : gmap string generatedRateLimitConfig :=
  match pxs_RateLimits (px_Spec proxy) with
  | Some rl =>
    (fun policy => {| grl_Average := rlp_Average policy; grl_Period := rlp_Period policy;
                      grl_Burst := rlp_Burst policy; grl_Source := rlp_Source policy |})
      <$> rls_Policies rl
  | None => ∅
  end.

Definition generatedTelemetry (proxy : MCPProxy) : option generatedTelemetryConfig :=
  t ← pxs_Telemetry (px_Spec proxy);
  if bool_decide (pts_OTLPEndpoint t = "") then None
  else Some {| gtc_OTLPEndpoint := pts_OTLPEndpoint t |}.

Definition generatedInboundAuth (proxy : MCPProxy) : option generatedInboundAuthConfig :=
  (fun auth => {| gia_Strategy := pia_Strategy auth;
                  gia_JWT := (fun j => {| gjw_JWKSURL := jws_JWKSURL j |}) <$> pia_JWT auth |})
    <$> pxs_InboundAuth (px_Spec proxy).

Fixpoint buildUpstreamConfigs (ups : list MCPUpstream) : result GenError (list generatedUpstreamConfig) :=
  match ups with
  | [] => Ok []
  | up :: rest =>
    match buildUpstreamConfig up with
    | Err err => Err (BuildingUpstream (om_Namespace (mu_ObjectMeta up)) (om_Name (mu_ObjectMeta up)) err)
    | Ok upCfg => cons upCfg <$> buildUpstreamConfigs rest
    end
  end.

Definition generatedConfig (proxy : MCPProxy) (upstreams : list MCPUpstream)
    : result GenError generatedProxyConfig :=
  upstreamCfgs ← buildUpstreamConfigs upstreams;
  Ok {| gpc_Server := {| gsv_Port := serverPort proxy |};
        gpc_Naming := {|
          gnc_Separator := pns_Separator (pxs_Naming (px_Spec proxy));
          gnc_MaxLength := pns_MaxLength (pxs_Naming (px_Spec proxy));
          gnc_ConflictResolution := pns_ConflictResolution (pxs_Naming (px_Spec proxy)) |};
        gpc_RateLimits := generatedPolicies proxy;
        gpc_Telemetry := generatedTelemetry proxy;
        gpc_InboundAuth := generatedInboundAuth proxy;
        gpc_Upstreams := upstreamCfgs |}.

Definition Generate (proxy : MCPProxy) (upstreams : list MCPUpstream) : result GenError string :=
  cfg ← generatedConfig proxy upstreams;
  match yaml_Marshal cfg with
  | Ok data => Ok data
  | Err err => Err (MarshallingProxyConfig err)
  end.
End Generate.
