(* ===== verification/Kube.v ===== *)
(** * The Kubernetes API as the operator sees it

    The objects the operator reads and writes, the client it does so with and
    the programs over that client.  The objects have the fields the operator
    sets; what it leaves unset in a specification, and an API server may fill in,
    is one opaque value.  The client ([KubeApi]) is third-party code: its laws
    ([KubeLaws]) say what a call that succeeds, and a call that fails, means for
    the stored objects.  [Cluster] is an instance, with scripted failures. *)
From S2P Require Export ConfigGen.
Open Scope Z_scope.

(** The fields of a specification that the operator leaves unset. *)
Class KubeDefaults := {
  Unset : Type;
  unset : Unset;
  unset_eq :: EqDecision Unset
}.

(** ** Objects *)
Section Objects.
Context `{KubeTypes, KubeDefaults}.

Record ConfigMap := {
  cm_ObjectMeta : ObjectMeta;
  cm_Data : option (gmap string string)   (* a nil map is [None] *)
}.

Record Volume := {
  vol_Name : string;
  vol_ConfigMap : string                  (* the name of the ConfigMap *)
}.

Record VolumeMount := {
  vm_Name : string;
  vm_MountPath : string
}.

Record ContainerPort := {
  cp_Name : string;
  cp_ContainerPort : Z;
  cp_Protocol : string
}.

Record Container := {
  ctr_Name : string;
  ctr_Image : string;
  ctr_Ports : list ContainerPort;
  ctr_Env : list (string * string);
  ctr_VolumeMounts : list VolumeMount;
  ctr_Resources : ResourceRequirements
}.

Record DeploymentSpec := {
  ds_Replicas : option Z;
  ds_Selector : gmap string string;
  ds_TemplateLabels : gmap string string;
  ds_Containers : list Container;
  ds_Volumes : list Volume;
  ds_Rest : Unset
}.

Record Deployment := {
  dep_ObjectMeta : ObjectMeta;
  dep_Spec : DeploymentSpec
}.

(** [sp_TargetPort] is the name of a port of the pod. *)
Record ServicePort := {
  sp_Name : string;
  sp_Port : Z;
  sp_TargetPort : string;
  sp_Protocol : string;
  sp_Rest : Unset
}.

Record Service := {
  svc_ObjectMeta : ObjectMeta;
  svc_Ports : list ServicePort;
  svc_Selector : gmap string string;
  svc_Rest : Unset
}.

(** The Gateway API's HTTPRoute: [par] is a parent reference (name, namespace),
    a rule matches path prefixes and sends to back ends (name, port). *)
Record HTTPRouteRule := {
  hrr_PathPrefixes : list string;
  hrr_BackendRefs : list (string * Z)
}.

Record HTTPRouteSpec := {
  hrs_ParentRefs : list (string * string);
  hrs_Hostnames : list string;
  hrs_Rules : list HTTPRouteRule;
  hrs_Rest : Unset
}.

Record HTTPRoute := {
  hr_ObjectMeta : ObjectMeta;
  hr_Spec : HTTPRouteSpec
}.

Record NamespaceObj := { nso_ObjectMeta : ObjectMeta }.

#[global] Instance ServicePort_eq : EqDecision ServicePort.
Proof. solve_decision. Defined.
#[global] Instance Volume_eq : EqDecision Volume.
Proof. solve_decision. Defined.
#[global] Instance VolumeMount_eq : EqDecision VolumeMount.
Proof. solve_decision. Defined.
#[global] Instance ContainerPort_eq : EqDecision ContainerPort.
Proof. solve_decision. Defined.
#[global] Instance Container_eq : EqDecision Container.
Proof. solve_decision. Defined.
#[global] Instance DeploymentSpec_eq : EqDecision DeploymentSpec.
Proof. solve_decision. Defined.
#[global] Instance HTTPRouteRule_eq : EqDecision HTTPRouteRule.
Proof. solve_decision. Defined.
#[global] Instance HTTPRouteSpec_eq : EqDecision HTTPRouteSpec.
Proof. solve_decision. Defined.

(** ** Kinds *)
Inductive GVK := KProxy | KUpstream | KConfigMap | KDeployment | KService | KRoute | KNamespace.

#[global] Instance GVK_eq : EqDecision GVK.
Proof. solve_decision. Defined.

Definition obj (k : GVK) : Type :=
  match k with
  | KProxy => MCPProxy
  | KUpstream => MCPUpstream
  | KConfigMap => ConfigMap
  | KDeployment => Deployment
  | KService => Service
  | KRoute => HTTPRoute
  | KNamespace => NamespaceObj
  end.

Definition meta (k : GVK) : obj k -> ObjectMeta :=
  match k with
  | KProxy => px_ObjectMeta
  | KUpstream => mu_ObjectMeta
  | KConfigMap => cm_ObjectMeta
  | KDeployment => dep_ObjectMeta
  | KService => svc_ObjectMeta
  | KRoute => hr_ObjectMeta
  | KNamespace => nso_ObjectMeta
  end.

(** [types.NamespacedName] *)
Record NamespacedName := {
  nn_Namespace : string;
  nn_Name : string
}.

#[global] Instance NamespacedName_eq : EqDecision NamespacedName.
Proof. solve_decision. Defined.

Definition keyOfMeta (m : ObjectMeta) : NamespacedName :=
  {| nn_Namespace := om_Namespace m; nn_Name := om_Name m |}.
Definition keyOf (k : GVK) (o : obj k) : NamespacedName := keyOfMeta (meta k o).

(** [NamespacedName.String] *)
Definition nn_String (n : NamespacedName) : string := nn_Namespace n +:+ "/" +:+ nn_Name n.
End Objects.

(** ** The client *)
Inductive ApiError :=
  | NotFound
  | NoMatch                (* the kind is not installed *)
  | ApiFailure (msg : string).

Definition IsNotFound (e : ApiError) : bool := match e with NotFound => true | _ => false end.
Definition IsNoMatchError (e : ApiError) : bool := match e with NoMatch => true | _ => false end.

Section Client.
Context `{KubeTypes, KubeDefaults}.

(** A call takes the state of the world behind the client to the next one.
    [kstatus] is [Status().Update].  A list is asked for in one namespace, or in
    all, and for the objects whose labels pass a filter. *)
Class KubeApi (K : Type) := {
  kget : forall k, NamespacedName -> K -> K * result ApiError (obj k);
  klist : forall k, option string -> (gmap string string -> bool) -> K -> K * result ApiError (list (obj k));
  kcreate : forall k, obj k -> K -> K * option ApiError;
  kupdate : forall k, obj k -> K -> K * option ApiError;
  kstatus : forall k, obj k -> K -> K * option ApiError;
  kdelete : forall k, obj k -> K -> K * option ApiError;
  view : K -> forall k, NamespacedName -> option (obj k);
  (* what the server keeps of an object written over another one, if any *)
  stored : forall k, option (obj k) -> obj k -> obj k;
  (* the object with the status of the one that is written *)
  withStatus : forall k, obj k -> obj k -> obj k;
  (* no call fails but for an object that is absent, or present already *)
  faultless : K -> Prop
}.

Definition in_scope (k : GVK) (ns : option string) (sel : gmap string string -> bool) (o : obj k) : bool :=
  match ns with
  | Some n => bool_decide (om_Namespace (meta k o) = n)
  | None => true
  end && sel (om_Labels (meta k o)).

Definition same_objects `{!KubeApi K} (s s' : K) : Prop :=
  forall k n, view s' k n = view s k n.

(** [s'] is [s] but for the object of kind [k] and name [n], which is [o]. *)
Definition differs_at `{!KubeApi K} (k : GVK) (n : NamespacedName) (o : option (obj k)) (s s' : K) : Prop :=
  view s' k n = o /\
  forall k' n', (k', n') <> (k, n) -> view s' k' n' = view s k' n'.

Class KubeLaws (K : Type) `{!KubeApi K} := {
  kget_same k n s s' r : kget k n s = (s', r) -> same_objects s s' /\ (faultless s -> faultless s');
  kget_Ok k n s s' o : kget k n s = (s', Ok o) -> view s k n = Some o;
  kget_NotFound k n s s' : kget k n s = (s', Err NotFound) -> view s k n = None;
  kget_NoMatch k n s s' : kget k n s = (s', Err NoMatch) -> view s k n = None;
  kget_faultless k n s :
    faultless s -> (kget k n s).2 = match view s k n with Some o => Ok o | None => Err NotFound end;
  view_key s k n o : view s k n = Some o -> keyOf k o = n;
  klist_same k ns sel s s' r :
    klist k ns sel s = (s', r) -> same_objects s s' /\ (faultless s -> faultless s');
  klist_Ok k ns sel s s' l o :
    klist k ns sel s = (s', Ok l) ->
    o ∈ l <-> view s k (keyOf k o) = Some o /\ in_scope k ns sel o = true;
  klist_faultless k ns sel s : faultless s -> exists l, (klist k ns sel s).2 = Ok l;
  kcreate_Ok k o s s' :
    kcreate k o s = (s', None) -> differs_at k (keyOf k o) (Some (stored k None o)) s s';
  kcreate_Err k o s s' e : kcreate k o s = (s', Some e) -> same_objects s s';
  kcreate_faultless k o s :
    faultless s -> faultless (kcreate k o s).1 /\
    (view s k (keyOf k o) = None -> (kcreate k o s).2 = None);
  kupdate_Ok k o s s' :
    kupdate k o s = (s', None) ->
    differs_at k (keyOf k o) (Some (stored k (view s k (keyOf k o)) o)) s s';
  kupdate_Err k o s s' e : kupdate k o s = (s', Some e) -> same_objects s s';
  kupdate_faultless k o s :
    faultless s -> faultless (kupdate k o s).1 /\
    (is_Some (view s k (keyOf k o)) -> (kupdate k o s).2 = None);
  kstatus_Ok k o s s' :
    kstatus k o s = (s', None) ->
    differs_at k (keyOf k o) ((fun old => withStatus k old o) <$> view s k (keyOf k o)) s s';
  kstatus_Err k o s s' e : kstatus k o s = (s', Some e) -> same_objects s s';
  kstatus_faultless k o s :
    faultless s -> faultless (kstatus k o s).1 /\
    (is_Some (view s k (keyOf k o)) -> (kstatus k o s).2 = None);
  kdelete_Ok k o s s' : kdelete k o s = (s', None) -> differs_at k (keyOf k o) None s s';
  kdelete_Err k o s s' e : kdelete k o s = (s', Some e) -> same_objects s s';
  kdelete_faultless k o s :
    faultless s -> faultless (kdelete k o s).1 /\
    (is_Some (view s k (keyOf k o)) -> (kdelete k o s).2 = None);
  stored_key k old o : keyOf k (stored k old o) = keyOf k o;
  stored_data old o d : cm_Data o = Some d -> d <> ∅ -> cm_Data (stored KConfigMap old o) = Some d;
  withStatus_proxy old o :
    withStatus KProxy old o =
      {| px_ObjectMeta := px_ObjectMeta old; px_Spec := px_Spec old; px_Status := px_Status o |};
  withStatus_upstream old o :
    withStatus KUpstream old o =
      {| mu_ObjectMeta := mu_ObjectMeta old; mu_Spec := mu_Spec old; mu_Status := mu_Status o |}
}.
End Client.

(** ** What the server adds to what is written *)
Section Defaults.
Context `{KubeTypes, KubeDefaults}.

Definition clearDeployment (d : DeploymentSpec) : DeploymentSpec := {|
  ds_Replicas := ds_Replicas d; ds_Selector := ds_Selector d; ds_TemplateLabels := ds_TemplateLabels d;
  ds_Containers := ds_Containers d; ds_Volumes := ds_Volumes d; ds_Rest := unset |}.
Definition clearPort (p : ServicePort) : ServicePort := {|
  sp_Name := sp_Name p; sp_Port := sp_Port p; sp_TargetPort := sp_TargetPort p;
  sp_Protocol := sp_Protocol p; sp_Rest := unset |}.
Definition clearRoute (r : HTTPRouteSpec) : HTTPRouteSpec := {|
  hrs_ParentRefs := hrs_ParentRefs r; hrs_Hostnames := hrs_Hostnames r; hrs_Rules := hrs_Rules r;
  hrs_Rest := unset |}.

(** Defaulting fills in what was left unset and nothing else, and writing the
    same fields over a stored object changes nothing. *)
Class ServerDefaults (K : Type) `{!KubeApi K} := {
  stored_deployment old o :
    clearDeployment (dep_Spec (stored KDeployment old o)) = clearDeployment (dep_Spec o);
  stored_deployment_again old o :
    let d := stored KDeployment old o in
    stored KDeployment (Some d) {| dep_ObjectMeta := dep_ObjectMeta d; dep_Spec := dep_Spec o |} = d;
  stored_service old o :
    clearPort <$> svc_Ports (stored KService old o) = clearPort <$> svc_Ports o /\
    svc_Selector (stored KService old o) = svc_Selector o;
  stored_service_again old o :
    let d := stored KService old o in
    stored KService (Some d) {| svc_ObjectMeta := svc_ObjectMeta d; svc_Ports := svc_Ports o;
                                svc_Selector := svc_Selector o; svc_Rest := svc_Rest d |} = d;
  stored_route old o : clearRoute (hr_Spec (stored KRoute old o)) = clearRoute (hr_Spec o);
  stored_route_again old o :
    let d := stored KRoute old o in
    stored KRoute (Some d) {| hr_ObjectMeta := hr_ObjectMeta d; hr_Spec := hr_Spec o |} = d
}.
End Defaults.

(** ** Programs over the client *)
Definition Act (K E A : Type) : Type := K -> K * result E A.

Section Act.
Context {K E : Type}.

Definition aret {A} (a : A) : Act K E A := fun s => (s, Ok a).
Definition afail {A} (e : E) : Act K E A := fun s => (s, Err e).
Definition abind {A B} (m : Act K E A) (f : A -> Act K E B) : Act K E B := fun s =>
  match m s with
  | (s', Ok a) => f a s'
  | (s', Err e) => (s', Err e)
  end.
(** [if err := m; err != nil { return fmt.Errorf("...: %w", err) }] *)
Definition wrapping {E' A} (w : E' -> E) (m : Act K E' A) : Act K E A := fun s =>
  match m s with
  | (s', Ok a) => (s', Ok a)
  | (s', Err e) => (s', Err (w e))
  end.
(** A client call that returns an error or nothing. *)
Definition attempt {E'} (w : E' -> E) (call : K -> K * option E') : Act K E unit := fun s =>
  match call s with
  | (s', None) => (s', Ok tt)
  | (s', Some e) => (s', Err (w e))
  end.
Definition lift {A} (r : result E A) : Act K E A := fun s => (s, r).
End Act.

Declare Scope act_scope.
Delimit Scope act_scope with act.
Notation "x <- m ;; k" := (abind m (fun x => k)) (at level 100, m at next level, right associativity) : act_scope.
Notation "m ;;; k" := (abind m (fun _ => k)) (at level 100, right associativity) : act_scope.

(** ** Status conditions (k8s.io/apimachinery/pkg/api/meta) *)
Class Conditions := {
  SetStatusCondition : list Condition -> Condition -> list Condition;
  FindStatusCondition : list Condition -> string -> option Condition
}.

Class ConditionLaws `{Conditions} := {
  find_set l c t :
    FindStatusCondition (SetStatusCondition l c) t =
      if bool_decide (t = cnd_Type c) then Some c else FindStatusCondition l t
}.

Definition ConditionTrue : string := "True".
Definition ConditionFalse : string := "False".
