(* ===== verification/KubeCluster.v ===== *)
(** * A cluster to run the operator on

    An instance of the client of [Kube] and of its laws: one finite map per kind,
    a server that fills in what was left unset, and a script of the calls that
    fail.  With it every hypothesis of the operator's theorems can be evaluated. *)
From S2P Require Export Kube.
Open Scope Z_scope.

#[global] Instance NamespacedName_countable : Countable NamespacedName.
Proof.
  refine (inj_countable' (fun n => (nn_Namespace n, nn_Name n))
            (fun p => {| nn_Namespace := p.1; nn_Name := p.2 |}) _).
  by intros [].
Defined.

(** Selectors by equality of labels; one that does not parse is [None]. *)
#[export] Instance sample_types : KubeTypes := {
  LabelSelector := option (gmap string string);
  LabelSelectorAsSelector sel := (fun want labels => bool_decide (want ⊆ labels)) <$> sel;
  ResourceRequirements := string
}.

#[export] Instance sample_defaults : KubeDefaults := { Unset := string; unset := "" }.

Fixpoint findCondition (l : list Condition) (t : string) : option Condition :=
  match l with
  | [] => None
  | c :: l' => if decide (cnd_Type c = t) then Some c else findCondition l' t
  end.

Fixpoint putCondition (l : list Condition) (c : Condition) : list Condition :=
  match l with
  | [] => [c]
  | c' :: l' => if decide (cnd_Type c' = cnd_Type c) then c :: l' else c' :: putCondition l' c
  end.

#[export] Instance sample_conditions : Conditions := {
  FindStatusCondition := findCondition;
  SetStatusCondition := putCondition
}.

Record Cluster := {
  cl_proxies : gmap NamespacedName MCPProxy;
  cl_upstreams : gmap NamespacedName MCPUpstream;
  cl_configMaps : gmap NamespacedName ConfigMap;
  cl_deployments : gmap NamespacedName Deployment;
  cl_services : gmap NamespacedName Service;
  cl_routes : gmap NamespacedName HTTPRoute;
  cl_namespaces : gmap NamespacedName NamespaceObj;
  cl_faults : list (option string)
}.

Definition objs (s : Cluster) (k : GVK) : gmap NamespacedName (obj k) :=
  match k with
  | KProxy => cl_proxies s
  | KUpstream => cl_upstreams s
  | KConfigMap => cl_configMaps s
  | KDeployment => cl_deployments s
  | KService => cl_services s
  | KRoute => cl_routes s
  | KNamespace => cl_namespaces s
  end.

Definition setObjs (s : Cluster) (k : GVK) : gmap NamespacedName (obj k) -> Cluster :=
  let '(Build_Cluster p u c d v r n f) := s in
  match k with
  | KProxy => fun m => Build_Cluster m u c d v r n f
  | KUpstream => fun m => Build_Cluster p m c d v r n f
  | KConfigMap => fun m => Build_Cluster p u m d v r n f
  | KDeployment => fun m => Build_Cluster p u c m v r n f
  | KService => fun m => Build_Cluster p u c d m r n f
  | KRoute => fun m => Build_Cluster p u c d v m n f
  | KNamespace => fun m => Build_Cluster p u c d v r m f
  end.

Definition cl_view (s : Cluster) (k : GVK) (n : NamespacedName) : option (obj k) :=
  o ← objs s k !! n; if decide (keyOf k o = n) then Some o else None.

(** The script: what the next call fails with, if it does. *)
Definition nextFault (s : Cluster) : Cluster * option string :=
  let '(Build_Cluster p u c d v r n f) := s in
  (Build_Cluster p u c d v r n (tail f), default None (head f)).

Definition serverStored (k : GVK) : option (obj k) -> obj k -> obj k :=
  match k with
  | KDeployment => fun _ o => {| dep_ObjectMeta := dep_ObjectMeta o; dep_Spec :=
      let d := dep_Spec o in
      {| ds_Replicas := ds_Replicas d; ds_Selector := ds_Selector d;
         ds_TemplateLabels := ds_TemplateLabels d; ds_Containers := ds_Containers d;
         ds_Volumes := ds_Volumes d; ds_Rest := "defaulted" |} |}
  | KRoute => fun _ o => {| hr_ObjectMeta := hr_ObjectMeta o; hr_Spec :=
      let r := hr_Spec o in
      {| hrs_ParentRefs := hrs_ParentRefs r; hrs_Hostnames := hrs_Hostnames r;
         hrs_Rules := hrs_Rules r; hrs_Rest := "defaulted" |} |}
  | KService => fun _ o => {| svc_ObjectMeta := svc_ObjectMeta o; svc_Ports := svc_Ports o;
      svc_Selector := svc_Selector o; svc_Rest := "clusterIP" |}
  | _ => fun _ o => o
  end.

Definition serverStatus (k : GVK) : obj k -> obj k -> obj k :=
  match k with
  | KProxy => fun old o => {| px_ObjectMeta := px_ObjectMeta old; px_Spec := px_Spec old;
                              px_Status := px_Status o |}
  | KUpstream => fun old o => {| mu_ObjectMeta := mu_ObjectMeta old; mu_Spec := mu_Spec old;
                                 mu_Status := mu_Status o |}
  | _ => fun old _ => old
  end.

Definition write (k : GVK) (n : NamespacedName) (o : obj k) (s : Cluster) : Cluster :=
  setObjs s k (<[n := o]> (objs s k)).

(** A call that the script may fail, and that is refused when [ok] says so. *)
Definition call (ok : Cluster -> option ApiError) (effect : Cluster -> Cluster) (s : Cluster)
    : Cluster * option ApiError :=
  match nextFault s with
  | (s, Some msg) => (s, Some (ApiFailure msg))
  | (s, None) =>
    match ok s with
    | Some e => (s, Some e)
    | None => (effect s, None)
    end
  end.

Definition present (k : GVK) (n : NamespacedName) (s : Cluster) : option ApiError :=
  match cl_view s k n with Some _ => None | None => Some NotFound end.
Definition absent (k : GVK) (n : NamespacedName) (s : Cluster) : option ApiError :=
  match cl_view s k n with Some _ => Some (ApiFailure "already exists") | None => None end.

#[export] Instance cluster_api : KubeApi Cluster := {
  kget k n s :=
    match nextFault s with
    | (s, Some msg) => (s, Err (ApiFailure msg))
    | (s, None) => (s, match cl_view s k n with Some o => Ok o | None => Err NotFound end)
    end;
  klist k ns sel s :=
    match nextFault s with
    | (s, Some msg) => (s, Err (ApiFailure msg))
    | (s, None) =>
      (s, Ok (filter (fun o => in_scope k ns sel o = true)
                (omap (fun no => if decide (keyOf k no.2 = no.1) then Some no.2 else None)
                   (map_to_list (objs s k)))))
    end;
  kcreate k o := call (absent k (keyOf k o)) (write k (keyOf k o) (serverStored k None o));
  kupdate k o := call (present k (keyOf k o))
    (fun s => write k (keyOf k o) (serverStored k (cl_view s k (keyOf k o)) o) s);
  kstatus k o := call (present k (keyOf k o)) (fun s =>
    match cl_view s k (keyOf k o) with
    | Some old => write k (keyOf k o) (serverStatus k old o) s
    | None => s
    end);
  kdelete k o := call (present k (keyOf k o)) (fun s => setObjs s k (delete (keyOf k o) (objs s k)));
  view := cl_view;
  stored := serverStored;
  withStatus := serverStatus;
  faultless s := cl_faults s = []
}.

Lemma objs_set_same s k m : objs (setObjs s k m) k = m.
Proof. destruct s; by destruct k. Qed.
Lemma objs_set_other s k k' m : k' <> k -> objs (setObjs s k m) k' = objs s k'.
Proof. destruct s, k, k'; done. Qed.
Lemma faults_set s k m : cl_faults (setObjs s k m) = cl_faults s.
Proof. destruct s; by destruct k. Qed.
Lemma nextFault_objs s s' e : nextFault s = (s', e) -> forall k, objs s' k = objs s k.
Proof. destruct s. intros [= <- _] k. by destruct k. Qed.
Lemma nextFault_same s s' e : nextFault s = (s', e) -> same_objects s s'.
Proof. intros Ht k n. cbn. unfold cl_view. by rewrite (nextFault_objs _ _ _ Ht). Qed.
Lemma nextFault_faultless s : cl_faults s = [] -> nextFault s = (s, None).
Proof. destruct s as [p u c d v r n f]. cbn. by intros ->. Qed.

Lemma cl_view_key s k n o : cl_view s k n = Some o -> keyOf k o = n.
Proof. unfold cl_view. destruct (objs s k !! n); cbn; [|done]. case_decide; congruence. Qed.

Lemma write_differs k n o s : keyOf k o = n -> differs_at k n (Some o) s (write k n o s).
Proof.
  intros Hk. unfold differs_at, write. cbn. unfold cl_view. split.
  - rewrite objs_set_same, lookup_insert_eq. cbn. by rewrite decide_True.
  - intros k' n' Hne. destruct (decide (k' = k)) as [->|Hkk]; [|by rewrite objs_set_other].
    rewrite objs_set_same, lookup_insert_ne; [done|]. congruence.
Qed.

Lemma delete_differs k n s : differs_at k n None s (setObjs s k (delete n (objs s k))).
Proof.
  unfold differs_at. cbn. unfold cl_view. split.
  - by rewrite objs_set_same, lookup_delete_eq.
  - intros k' n' Hne. destruct (decide (k' = k)) as [->|Hkk]; [|by rewrite objs_set_other].
    rewrite objs_set_same, lookup_delete_ne; [done|]. congruence.
Qed.

Lemma stored_key' k old o : keyOf k (serverStored k old o) = keyOf k o.
Proof. by destruct k. Qed.
Lemma status_key k old o : keyOf k (serverStatus k old o) = keyOf k old.
Proof. by destruct k. Qed.

Lemma differs_after k n o (s s1 s' : Cluster) :
  same_objects s s1 -> differs_at k n o s1 s' -> differs_at k n o s s'.
Proof. intros Hs [Hv Hd]. split; [done|]. intros k' n' Hne. rewrite <-Hs. by apply Hd. Qed.

Lemma call_Ok ok effect s s' :
  call ok effect s = (s', None) -> exists s1, same_objects s s1 /\ ok s1 = None /\ s' = effect s1.
Proof.
  unfold call. destruct (nextFault s) as [s1 [msg|]] eqn:Ht; [done|].
  destruct (ok s1) eqn:Hok; [done|]. intros [= <-]. exists s1. split; [by eapply nextFault_same|done].
Qed.

Lemma call_Err ok effect s s' e : call ok effect s = (s', Some e) -> same_objects s s'.
Proof.
  unfold call. destruct (nextFault s) as [s1 [msg|]] eqn:Ht; [intros [= <- _]; by eapply nextFault_same|].
  destruct (ok s1); [|done]. intros [= <- _]. by eapply nextFault_same.
Qed.

Lemma call_faultless ok effect s :
  (forall s1, cl_faults (effect s1) = cl_faults s1) -> cl_faults s = [] ->
  cl_faults (call ok effect s).1 = [] /\ (ok s = None -> (call ok effect s).2 = None).
Proof.
  intros He Hs. unfold call. rewrite (nextFault_faultless s Hs). destruct (ok s); cbn; [done|].
  by rewrite He.
Qed.

Lemma present_None k n s : present k n s = None <-> is_Some (cl_view s k n).
Proof. unfold present. destruct (cl_view s k n); split; intros Hx; eauto; [done|by destruct Hx]. Qed.
Lemma absent_None k n s : absent k n s = None <-> cl_view s k n = None.
Proof. unfold absent. by destruct (cl_view s k n). Qed.

Lemma present_faultless k o effect s :
  (forall s1, cl_faults (effect s1) = cl_faults s1) -> cl_faults s = [] ->
  cl_faults (call (present k (keyOf k o)) effect s).1 = [] /\
  (is_Some (cl_view s k (keyOf k o)) -> (call (present k (keyOf k o)) effect s).2 = None).
Proof.
  intros He Hs. destruct (call_faultless (present k (keyOf k o)) effect s He Hs) as [Hc Hn].
  split; [exact Hc|]. intros Hv. by apply Hn, present_None.
Qed.

Lemma klist_members k ns sel s s' l o : klist k ns sel s = (s', Ok l) ->
  o ∈ l <-> view s k (keyOf k o) = Some o /\ in_scope k ns sel o = true.
Proof.
  cbn. destruct (nextFault s) as [s1 [msg|]] eqn:Ht; intros [= <- <-].
  rewrite list_elem_of_filter, list_elem_of_omap.
  pose proof (nextFault_same _ _ _ Ht k (keyOf k o)) as Hs. cbn in Hs. rewrite <-Hs. unfold cl_view. split.
  + intros [Hin ([n o'] & Hm & Hd)]. cbn in Hd. case_decide as Hk; [|done]. injection Hd as ->.
    apply elem_of_map_to_list in Hm. rewrite Hk, Hm. cbn. by rewrite decide_True.
  + intros [Hv Hin]. split; [done|]. destruct (objs s1 k !! keyOf k o) as [o'|] eqn:Hm; [|done].
    cbn in Hv. case_decide as Hk; [|done]. injection Hv as ->.
    exists (keyOf k o, o). split; [by apply elem_of_map_to_list|]. cbn. by rewrite decide_True.
Qed.

#[export] Instance cluster_laws : KubeLaws Cluster.
Proof.
  split.
  - intros k n s s' r. cbn. destruct (nextFault s) as [s1 [msg|]] eqn:Ht; intros Hr; injection Hr as <- _;
      split; try (by eapply nextFault_same); intros Hf; rewrite (nextFault_faultless s Hf) in Ht; congruence.
  - intros k n s s' o. cbn. destruct (nextFault s) as [s1 [msg|]] eqn:Ht; intros [= <- Hr].
    destruct (cl_view s1 k n) eqn:Hv; [|done]. injection Hr as <-.
    pose proof (nextFault_same _ _ _ Ht k n) as Hs. cbn in Hs. congruence.
  - intros k n s s'. cbn. destruct (nextFault s) as [s1 [msg|]] eqn:Ht; intros [= <- Hr].
    destruct (cl_view s1 k n) eqn:Hv; [done|].
    pose proof (nextFault_same _ _ _ Ht k n) as Hs. cbn in Hs. congruence.
  - intros k n s s'. cbn. destruct (nextFault s) as [s1 [msg|]]; intros [= <- Hr]. by destruct (cl_view s1 k n).
  - intros k n s Hf. cbn. by rewrite (nextFault_faultless s Hf).
  - apply cl_view_key.
  - intros k ns sel s s' r. cbn. destruct (nextFault s) as [s1 [msg|]] eqn:Ht; intros Hr; injection Hr as <- _;
      split; try (by eapply nextFault_same); intros Hf; rewrite (nextFault_faultless s Hf) in Ht; congruence.
  - apply klist_members.
  - intros k ns sel s Hf. cbn. rewrite (nextFault_faultless s Hf). eauto.
  - intros k o s s' (s1 & Hs & _ & ->)%call_Ok. eapply differs_after; [exact Hs|].
    apply write_differs, stored_key'.
  - intros k o s s' e. apply call_Err.
  - intros k o s Hf. destruct (call_faultless (absent k (keyOf k o)) (write k (keyOf k o) (serverStored k None o)) s)
      as [Hc Hn]; [intros; apply faults_set|done|].
    split; [done|]. intros Hv. by apply Hn, absent_None.
  - intros k o s s' (s1 & Hs & _ & ->)%call_Ok. eapply differs_after; [exact Hs|].
    rewrite <-(Hs k (keyOf k o)). apply write_differs, stored_key'.
  - intros k o s s' e. apply call_Err.
  - intros k o s. apply present_faultless. intros; apply faults_set.
  - intros k o s s' (s1 & Hs & [old Hold]%present_None & ->)%call_Ok. eapply differs_after; [exact Hs|].
    rewrite <-(Hs k (keyOf k o)). cbn. rewrite Hold. cbn. apply write_differs.
    rewrite status_key. by eapply cl_view_key.
  - intros k o s s' e. apply call_Err.
  - intros k o s. apply present_faultless. intros s1. cbn. destruct (cl_view s1 k _); [apply faults_set|done].
  - intros k o s s' (s1 & Hs & _ & ->)%call_Ok. eapply differs_after; [exact Hs|]. apply delete_differs.
  - intros k o s s' e. apply call_Err.
  - intros k o s. apply present_faultless. intros; apply faults_set.
  - apply stored_key'.
  - done.
  - done.
  - done.
Qed.

#[export] Instance cluster_defaults : ServerDefaults Cluster.
Proof. by split. Qed.

#[export] Instance sample_condition_laws : ConditionLaws.
Proof.
  split. intros l c t. cbn. case_bool_decide as Ht; induction l as [|c' l IH]; cbn.
  - by rewrite decide_True.
  - case_decide; cbn; [by rewrite decide_True|]. by rewrite decide_False by congruence.
  - by rewrite decide_False.
  - case_decide; cbn; [by rewrite !decide_False by congruence|]. by rewrite IH.
Qed.
