(* ===== verification/Annotations.v ===== *)
(** * Upstreams from annotated Services (pkg/operator/controller/annotations.go)

    A Service whose annotations opt in becomes an [MCPUpstream] that exists only
    in memory.  Annotations are a map: a missing one reads as the empty string. *)
From S2P Require Export Kube.
Open Scope Z_scope.

(** ** [strconv.ParseInt(s, 10, bits)] *)
Definition digit_value (c : ascii) : option Z :=
  if is_digit c then Some (Z.of_N (of_byte c) - 48) else None.

Fixpoint digits_value (acc : Z) (s : list ascii) : option Z :=
  match s with
  | [] => Some acc
  | c :: s' => match digit_value c with Some d => digits_value (acc * 10 + d) s' | None => None end
  end.

Definition parseDigits (s : list ascii) : option Z :=
  match s with [] => None | _ => digits_value 0 s end.

Definition ParseInt (bits : Z) (s : string) : option Z :=
  n ← match explode s with
      | "+"%char :: ds => parseDigits ds
      | "-"%char :: ds => Z.opp <$> parseDigits ds
      | ds => parseDigits ds
      end;
  if (- 2 ^ (bits - 1) <=? n) && (n <? 2 ^ (bits - 1)) then Some n else None.

Definition AnnotationEnabled : string := "mcp-auto.ai/enabled".
Definition AnnotationToolPrefix : string := "mcp-auto.ai/tool-prefix".
Definition AnnotationOpenAPIPath : string := "mcp-auto.ai/openapi-path".
Definition AnnotationOpenAPIURL : string := "mcp-auto.ai/openapi-url".
Definition AnnotationOpenAPIConfigMap : string := "mcp-auto.ai/openapi-configmap".
Definition AnnotationOverlayConfigMap : string := "mcp-auto.ai/overlay-configmap".
Definition AnnotationAuthStrategy : string := "mcp-auto.ai/auth-strategy".
Definition AnnotationAuthSecret : string := "mcp-auto.ai/auth-secret".
Definition AnnotationProxy : string := "mcp-auto.ai/proxy".
Definition AnnotationPort : string := "mcp-auto.ai/port".
Definition AnnotationBasePath : string := "mcp-auto.ai/base-path".

Inductive AnnotationError :=
  | MissingAnnotation (name : string)
  | InvalidPort (value : string)
  | NoPorts
  | NotOneOpenAPISource (got : nat)
  | InvalidConfigMapRef (annotation value : string).

Section Service.
Context `{KubeTypes, KubeDefaults}.
Context (svc : Service).

(** [ann[name]] *)
Definition ann (name : string) : string := default "" (om_Annotations (svc_ObjectMeta svc) !! name).
Definition hasAnn (name : string) : bool := negb (bool_decide (ann name = "")).

Definition resolveServicePort : result AnnotationError Z :=
  if hasAnn AnnotationPort then
    match ParseInt 32 (ann AnnotationPort) with
    | Some p => Ok p
    | None => Err (InvalidPort (ann AnnotationPort))
    end
  else
    match svc_Ports svc with
    | p :: _ => Ok (sp_Port p)
    | [] => Err NoPorts
    end.

Definition parseConfigMapRef (value : string) : option ConfigMapKeyRef :=
  match cut_byte ":" value with
  | Some (name, key) =>
    if bool_decide (name = "") || bool_decide (key = "") then None
    else Some {| cmr_Name := name; cmr_Key := key |}
  | None => None
  end.

Definition configMapAnnotation (name : string) : result AnnotationError ConfigMapKeyRef :=
  match parseConfigMapRef (ann name) with
  | Some ref => Ok ref
  | None => Err (InvalidConfigMapRef name (ann name))
  end.

(** [openAPISourceCount] *)
Definition openAPIAnnotations : nat :=
  length (filter (fun b : bool => b)
    [hasAnn AnnotationOpenAPIURL; hasAnn AnnotationOpenAPIConfigMap; hasAnn AnnotationOpenAPIPath]).

Definition annotatedOpenAPI : result AnnotationError MCPUpstreamOpenAPISpec :=
  if bool_decide (openAPIAnnotations <> 1%nat) then Err (NotOneOpenAPISource openAPIAnnotations)
  else if hasAnn AnnotationOpenAPIURL then
    Ok {| moa_ConfigMapRef := None; moa_URL := ann AnnotationOpenAPIURL; moa_AutoDiscover := None |}
  else if hasAnn AnnotationOpenAPIConfigMap then
    ref ← configMapAnnotation AnnotationOpenAPIConfigMap;
    Ok {| moa_ConfigMapRef := Some ref; moa_URL := ""; moa_AutoDiscover := None |}
  else if hasAnn AnnotationOpenAPIPath then
    Ok {| moa_ConfigMapRef := None; moa_URL := "";
          moa_AutoDiscover := Some {| ads_Path := ann AnnotationOpenAPIPath |} |}
  else Err (MissingAnnotation AnnotationOpenAPIURL).

Definition annotatedOverlay : result AnnotationError (option MCPUpstreamOverlaySpec) :=
  if hasAnn AnnotationOverlayConfigMap then
    ref ← configMapAnnotation AnnotationOverlayConfigMap;
    Ok (Some {| mov_ConfigMapRef := Some ref |})
  else Ok None.

Definition annotatedAuth : option MCPUpstreamOutboundAuthSpec :=
  let strategy := ann AnnotationAuthStrategy in
  if hasAnn AnnotationAuthStrategy && negb (bool_decide (strategy = "none")) then
    Some {| moo_Strategy := strategy;
            moo_Bearer := if hasAnn AnnotationAuthSecret
                          then Some {| brs_SecretRef := Some {| sec_Name := ann AnnotationAuthSecret |} |}
                          else None;
            moo_OAuth2 := None |}
  else None.

Definition serviceBaseURL (port : Z) : string :=
  "http://" +:+ om_Name (svc_ObjectMeta svc) +:+ "." +:+ om_Namespace (svc_ObjectMeta svc)
    +:+ ".svc.cluster.local:" +:+ pretty port +:+ ann AnnotationBasePath.

Definition serviceToMCPUpstream : result AnnotationError MCPUpstream :=
  guard_err (hasAnn AnnotationToolPrefix) (MissingAnnotation AnnotationToolPrefix) ≫= fun _ =>
  port ← resolveServicePort;
  openAPI ← annotatedOpenAPI;
  overlay ← annotatedOverlay;
  Ok {| mu_ObjectMeta := newMeta (om_Name (svc_ObjectMeta svc)) (om_Namespace (svc_ObjectMeta svc));
        mu_Spec := {|
          mus_Type := "";
          mus_ToolPrefix := ann AnnotationToolPrefix;
          mus_ServiceRef := None;
          mus_BaseURL := serviceBaseURL port;
          mus_OpenAPI := openAPI;
          mus_Overlay := overlay;
          mus_OutboundAuth := annotatedAuth;
          mus_Transport := None;
          mus_Validation := None;
          mus_Commands := [];
          mus_RateLimit := "" |};
        mu_Status := zero_MCPUpstreamStatus |}.
End Service.
