(* ===== verification/Operator.v ===== *)
(** * The MCPProxy reconciler (pkg/operator/controller/mcpproxy_controller.go)

    One pass of [Reconcile] over the client of [Kube]: what is selected, what is
    generated, and the objects that are brought to the generated state.  The
    owner reference of an object in the proxy's own namespace can only fail to
    be set when the scheme lacks the proxy's kind ([ownerError]).  Log output is
    left out. *)
From S2P Require Export Annotations Validator.
Open Scope Z_scope.

Definition defaultProxyImage : string := "ghcr.io/lega4e/mcp-auto:latest".
Definition defaultProxyPort : Z := 8080.
Definition configMountPath : string := "/etc/mcp-auto/config.yaml".
Definition specsMountPath : string := "/etc/mcp-auto/specs".
Definition overlaysMountPath : string := "/etc/mcp-auto/overlays".
Definition configVolumeName : string := "proxy-config".
Definition specsVolumeName : string := "upstream-specs".
Definition overlaysVolumeName : string := "upstream-overlays".
Definition conditionTypeReconciled : string := "Reconciled".
Definition conditionTypePrefixConflict : string := "PrefixConflict".
Definition periodicSyncInterval : Z := 5 * 60 * 1000000000.

Inductive ReconcileError :=
  | FetchingProxy (e : ApiError)
  | ParsingSelector
  | ListingUpstreams (ns : string) (e : ApiError)
  | ListingNamespaces (e : ApiError)
  | ListingServices (ns : string) (e : ApiError)
  | GeneratingConfig (e : GenError)
  | SettingOwner (object : string) (err : string)
  | Fetching (k : GVK) (name : string) (e : ApiError)
  | Creating (k : GVK) (name : string) (e : ApiError)
  | Updating (k : GVK) (name : string) (e : ApiError)
  | Deleting (k : GVK) (name : string) (e : ApiError)
  | FetchingSource (ns name : string) (e : ApiError)
  | KeyNotFound (key ns name : string)
  | UpdatingStatus (e : ApiError).

Section Operator.
Context `{KubeTypes, KubeDefaults, Conditions, Unicode} {K : Type} `{!KubeApi K}.
Context (yaml_Marshal : generatedProxyConfig -> result string string).
Context (ownerError : option string).

Local Open Scope act_scope.
Abbreviation Act := (Act K ReconcileError).

(** ** What a proxy selects *)
Section Selection.
Context (proxy : MCPProxy).
Let pns := om_Namespace (px_ObjectMeta proxy).
Let pname := om_Name (px_ObjectMeta proxy).

Definition upstreamNamespaces : list string :=
  match nss_MatchNames (pxs_NamespaceSelector (px_Spec proxy)) with
  | [] => [pns]
  | names => names
  end.

Fixpoint listUpstreamsIn (selector : gmap string string -> bool) (namespaces : list string)
    : Act (list MCPUpstream) :=
  match namespaces with
  | [] => aret []
  | ns :: rest =>
    items <- wrapping (ListingUpstreams ns) (klist KUpstream (Some ns) selector) ;;
    others <- listUpstreamsIn selector rest ;;
    aret (items ++ others)
  end.

Definition listUpstreams : Act (list MCPUpstream) :=
  match LabelSelectorAsSelector (pxs_UpstreamSelector (px_Spec proxy)) with
  | Some selector => listUpstreamsIn selector upstreamNamespaces
  | None => afail ParsingSelector
  end.

(** [add] over a list of names: each name once, in the order of first use. *)
Definition addNames (namespaces names : list string) : list string :=
  foldl (fun acc ns => if bool_decide (ns ∈ acc) then acc else acc ++ [ns]) namespaces names.

Definition serviceDiscoveryNamespaces : Act (list string) :=
  match pxs_ServiceDiscovery (px_Spec proxy) ≫= sds_NamespaceSelector with
  | None => aret upstreamNamespaces
  | Some sel =>
    let namespaces := addNames [] (sdn_MatchNames sel) in
    namespaces <-
      (if bool_decide (sdn_MatchLabels sel = ∅) then aret namespaces
       else
         items <- wrapping ListingNamespaces
                    (klist KNamespace None (fun labels => bool_decide (sdn_MatchLabels sel ⊆ labels))) ;;
         aret (addNames namespaces ((fun n => om_Name (nso_ObjectMeta n)) <$> items))) ;;
    aret (match namespaces with [] => [pns] | _ => namespaces end)
  end.

Definition serviceMatchesProxy (svc : Service) : bool :=
  match om_Annotations (svc_ObjectMeta svc) !! AnnotationProxy with
  | None => true
  | Some proxyAnnotation =>
    match cut_byte "/" proxyAnnotation with
    | Some (ns, name) => bool_decide (ns = pns) && bool_decide (name = pname)
    | None => bool_decide (om_Namespace (svc_ObjectMeta svc) = pns) && bool_decide (proxyAnnotation = pname)
    end
  end.

(** The loop's body over one Service: [None] where it continues. *)
Definition annotatedUpstream (svc : Service) : option MCPUpstream :=
  if negb (bool_decide (ann svc AnnotationEnabled = "true")) then None
  else if negb (serviceMatchesProxy svc) then None
  else match serviceToMCPUpstream svc with Ok up => Some up | Err _ => None end.

Definition allLabels (_ : gmap string string) : bool := true.

Fixpoint listServicesIn (namespaces : list string) : Act (list MCPUpstream) :=
  match namespaces with
  | [] => aret []
  | ns :: rest =>
    items <- wrapping (ListingServices ns) (klist KService (Some ns) allLabels) ;;
    others <- listServicesIn rest ;;
    aret (omap annotatedUpstream items ++ others)
  end.

Definition discoveryEnabled : bool :=
  match pxs_ServiceDiscovery (px_Spec proxy) with Some sd => sds_Enabled sd | None => false end.

Definition listAnnotatedServices : Act (list MCPUpstream) :=
  if discoveryEnabled then
    namespaces <- serviceDiscoveryNamespaces ;;
    listServicesIn namespaces
  else aret [].
End Selection.

(** ** Prefix conflicts *)
Record sourceInfo := {
  si_id : string;
  si_source : string
}.

Definition sourceText (i : sourceInfo) : string := si_id i +:+ " (" +:+ si_source i +:+ ")".

Definition conflictText (prefix : string) (existing new : sourceInfo) : string :=
  "prefix " +:+ Quote prefix +:+ ": " +:+ sourceText existing +:+ " vs " +:+ sourceText new.

Definition recordPrefix (source : string) (st : gmap string sourceInfo * list string) (up : MCPUpstream)
    : gmap string sourceInfo * list string :=
  let '(seen, conflicts) := st in
  let key := mus_ToolPrefix (mu_Spec up) in
  let new := {| si_id := nn_String (keyOf KUpstream up); si_source := source |} in
  if bool_decide (key = "") then st
  else
    match seen !! key with
    | Some existing => (seen, conflicts ++ [conflictText key existing new])
    | None => (<[key := new]> seen, conflicts)
    end.

Definition detectPrefixConflicts (crdUpstreams svcUpstreams : list MCPUpstream) : list string :=
  (foldl (recordPrefix "service") (foldl (recordPrefix "crd") (∅, []) crdUpstreams) svcUpstreams).2.

(** ** The objects of a proxy *)
Section Objects.
Context (proxy : MCPProxy).
Let pns := om_Namespace (px_ObjectMeta proxy).
Let pname := om_Name (px_ObjectMeta proxy).

Definition configName : string := pname +:+ "-config".
Definition specsName : string := pname +:+ "-specs".
Definition overlaysName : string := pname +:+ "-overlays".

Definition inProxyNamespace (name : string) : NamespacedName :=
  {| nn_Namespace := pns; nn_Name := name |}.

(** [ctrl.SetControllerReference] on a new object of the proxy's namespace *)
Definition owned (m : ObjectMeta) : ObjectMeta :=
  match ownerError with
  | None => {| om_Name := om_Name m; om_Namespace := om_Namespace m; om_Generation := om_Generation m;
               om_Labels := om_Labels m; om_Annotations := om_Annotations m;
               om_Owner := Some ("MCPProxy", pname) |}
  | Some _ => m
  end.

Definition newConfigMap (name : string) (data : gmap string string) : ConfigMap :=
  {| cm_ObjectMeta := owned (newMeta name pns); cm_Data := Some data |}.

(** Creates a ConfigMap of the proxy, which needs its owner reference. *)
Definition createConfigMap (name : string) (data : gmap string string) : Act unit :=
  match ownerError with
  | Some err => afail (SettingOwner name err)
  | None => attempt (Creating KConfigMap name) (kcreate KConfigMap (newConfigMap name data))
  end.

Definition setData (cm : ConfigMap) (data : gmap string string) : ConfigMap :=
  {| cm_ObjectMeta := cm_ObjectMeta cm; cm_Data := Some data |}.

Definition reconcileConfigMap (configData : string) : Act unit := fun s =>
  let newData := {["config.yaml" := configData]} in
  match kget KConfigMap (inProxyNamespace configName) s with
  | (s, Err NotFound) => createConfigMap configName newData s
  | (s, Err e) => (s, Err (Fetching KConfigMap configName e))
  | (s, Ok cm) =>
    if bool_decide (cm_Data cm = Some newData) then (s, Ok tt)
    else attempt (Updating KConfigMap configName) (kupdate KConfigMap (setData cm newData)) s
  end.

Definition upsertConfigMap (name key value : string) : Act unit := fun s =>
  match kget KConfigMap (inProxyNamespace name) s with
  | (s, Err NotFound) => createConfigMap name {[key := value]} s
  | (s, Err e) => (s, Err (Fetching KConfigMap name e))
  | (s, Ok cm) =>
    if match cm_Data cm with
       | Some data => bool_decide (default "" (data !! key) = value)
       | None => false
       end
    then (s, Ok tt)
    else attempt (Updating KConfigMap name)
           (kupdate KConfigMap (setData cm (<[key := value]> (default ∅ (cm_Data cm))))) s
  end.

(** Copies the referenced key of a source ConfigMap into a ConfigMap of the proxy. *)
Definition copySource (up : MCPUpstream) (ref : ConfigMapKeyRef) (dest : string) : Act unit :=
  let ns := om_Namespace (mu_ObjectMeta up) in
  src <- wrapping (FetchingSource ns (cmr_Name ref))
           (kget KConfigMap {| nn_Namespace := ns; nn_Name := cmr_Name ref |}) ;;
  match default ∅ (cm_Data src) !! cmr_Key ref with
  | None => afail (KeyNotFound (cmr_Key ref) ns (cmr_Name ref))
  | Some value => upsertConfigMap dest (fileKey up) value
  end.

Definition reconcileUpstreamSpecCM (up : MCPUpstream) : Act unit :=
  match moa_ConfigMapRef (mus_OpenAPI (mu_Spec up)) with
  | None => aret tt
  | Some ref => copySource up ref specsName
  end.

Definition reconcileUpstreamOverlayCM (up : MCPUpstream) : Act unit :=
  match overlayRef up with
  | None => aret tt
  | Some ref => copySource up ref overlaysName
  end.

Definition isCommand (up : MCPUpstream) : bool := bool_decide (mus_Type (mu_Spec up) = "command").

Fixpoint reconcileUpstreamConfigMaps (upstreams : list MCPUpstream) : Act unit :=
  match upstreams with
  | [] => aret tt
  | up :: rest =>
    if isCommand up then reconcileUpstreamConfigMaps rest
    else
      reconcileUpstreamSpecCM up ;;;
      reconcileUpstreamOverlayCM up ;;;
      reconcileUpstreamConfigMaps rest
  end.

Definition proxyPort : Z :=
  let port := psv_Port (pxs_Server (px_Spec proxy)) in
  if bool_decide (port = 0) then defaultProxyPort else port.

Definition podLabels : gmap string string :=
  {["app.kubernetes.io/name" := "mcp-auto";
    "app.kubernetes.io/instance" := pname;
    "app.kubernetes.io/component" := "proxy"]}.

Definition hasSpecs (upstreams : list MCPUpstream) : bool :=
  existsb (fun up => negb (isCommand up) && isSome (moa_ConfigMapRef (mus_OpenAPI (mu_Spec up)))) upstreams.
Definition hasOverlays (upstreams : list MCPUpstream) : bool :=
  existsb (fun up => negb (isCommand up) && isSome (overlayRef up)) upstreams.

(** The volumes with the paths they are mounted at. *)
Definition mounts (upstreams : list MCPUpstream) : list (Volume * VolumeMount) :=
  let mount name cm path := ({| vol_Name := name; vol_ConfigMap := cm |},
                             {| vm_Name := name; vm_MountPath := path |}) in
  [mount configVolumeName configName "/etc/mcp-auto"]
    ++ (if hasSpecs upstreams then [mount specsVolumeName specsName specsMountPath] else [])
    ++ (if hasOverlays upstreams then [mount overlaysVolumeName overlaysName overlaysMountPath] else []).

Definition buildDeployment (upstreams : list MCPUpstream) : Deployment :=
  let image := pxs_Image (px_Spec proxy) in
  {| dep_ObjectMeta := owned (newMeta pname pns);
     dep_Spec := {|
       ds_Replicas := Some (default 1 (pxs_Replicas (px_Spec proxy)));
       ds_Selector := podLabels;
       ds_TemplateLabels := podLabels;
       ds_Containers := [{|
         ctr_Name := "proxy";
         ctr_Image := if bool_decide (image = "") then defaultProxyImage else image;
         ctr_Ports := [{| cp_Name := "http"; cp_ContainerPort := proxyPort; cp_Protocol := "TCP" |}];
         ctr_Env := [("CONFIG_PATH", configMountPath)];
         ctr_VolumeMounts := (mounts upstreams).*2;
         ctr_Resources := pxs_Resources (px_Spec proxy) |}];
       ds_Volumes := (mounts upstreams).*1;
       ds_Rest := unset |} |}.

Definition reconcileDeployment (upstreams : list MCPUpstream) : Act unit := fun s =>
  let desired := buildDeployment upstreams in
  match kget KDeployment (inProxyNamespace pname) s with
  | (s, Err NotFound) => attempt (Creating KDeployment pname) (kcreate KDeployment desired) s
  | (s, Err e) => (s, Err (Fetching KDeployment pname e))
  | (s, Ok existing) =>
    if bool_decide (dep_Spec existing = dep_Spec desired) then (s, Ok tt)
    else attempt (Updating KDeployment pname)
           (kupdate KDeployment {| dep_ObjectMeta := dep_ObjectMeta existing;
                                   dep_Spec := dep_Spec desired |}) s
  end.

Definition buildService : Service :=
  {| svc_ObjectMeta := owned (newMeta pname pns);
     svc_Ports := [{| sp_Name := "http"; sp_Port := proxyPort; sp_TargetPort := "http";
                      sp_Protocol := "TCP"; sp_Rest := unset |}];
     svc_Selector := podLabels;
     svc_Rest := unset |}.

Definition reconcileService : Act unit := fun s =>
  let desired := buildService in
  match kget KService (inProxyNamespace pname) s with
  | (s, Err NotFound) => attempt (Creating KService pname) (kcreate KService desired) s
  | (s, Err e) => (s, Err (Fetching KService pname e))
  | (s, Ok existing) =>
    if bool_decide (svc_Ports existing = svc_Ports desired)
       && bool_decide (svc_Selector existing = svc_Selector desired) then (s, Ok tt)
    else attempt (Updating KService pname)
           (kupdate KService {| svc_ObjectMeta := svc_ObjectMeta existing;
                                svc_Ports := svc_Ports desired;
                                svc_Selector := svc_Selector desired;
                                svc_Rest := svc_Rest existing |}) s
  end.

Definition buildHTTPRoute (gw : GatewayRefSpec) : HTTPRoute :=
  {| hr_ObjectMeta := owned (newMeta pname pns);
     hr_Spec := {|
       hrs_ParentRefs := [(gwr_Name gw, if bool_decide (gwr_Namespace gw = "") then pns else gwr_Namespace gw)];
       hrs_Hostnames := if bool_decide (gwr_Hostname gw = "") then [] else [gwr_Hostname gw];
       hrs_Rules := [{| hrr_PathPrefixes := ["/"]; hrr_BackendRefs := [(pname, proxyPort)] |}];
       hrs_Rest := unset |} |}.

Definition reconcileHTTPRoute : Act unit := fun s =>
  let '(s, existing) := kget KRoute (inProxyNamespace pname) s in
  match pxs_GatewayRef (px_Spec proxy), existing with
  | None, Err NotFound | None, Err NoMatch => (s, Ok tt)
  | None, Err e => (s, Err (Fetching KRoute pname e))
  | None, Ok existing => attempt (Deleting KRoute pname) (kdelete KRoute existing) s
  | Some gw, Err NotFound => attempt (Creating KRoute pname) (kcreate KRoute (buildHTTPRoute gw)) s
  | Some gw, Err e => (s, Err (Fetching KRoute pname e))
  | Some gw, Ok existing =>
    if bool_decide (hr_Spec existing = hr_Spec (buildHTTPRoute gw)) then (s, Ok tt)
    else attempt (Updating KRoute pname)
           (kupdate KRoute {| hr_ObjectMeta := hr_ObjectMeta existing;
                              hr_Spec := hr_Spec (buildHTTPRoute gw) |}) s
  end.

(** ** Status *)
Definition condition (type status reason msg : string) : Condition := {|
  cnd_Type := type;
  cnd_Status := status;
  cnd_Reason := reason;
  cnd_Message := msg;
  cnd_ObservedGeneration := om_Generation (px_ObjectMeta proxy) |}.

Definition reconciledMsg (crd svc : nat) : string :=
  "proxy configured with " +:+ pretty (crd + svc)%nat +:+ " upstream(s) (" +:+ pretty crd +:+ " CRD, "
    +:+ pretty svc +:+ " annotated service)".

Definition conflictCondition (conflicts : list string) : Condition :=
  match conflicts with
  | [] => condition conditionTypePrefixConflict ConditionFalse "NoPrefixConflict" "no prefix conflicts"
  | _ => condition conditionTypePrefixConflict ConditionTrue "PrefixConflict"
           ("prefix conflicts: " +:+ Join conflicts "; ")
  end.

(** [current != nil && current.Status == ... && current.Message == ...] *)
Definition sameCondition (current : option Condition) (want : Condition) : bool :=
  match current with
  | Some c => bool_decide (cnd_Status c = cnd_Status want) && bool_decide (cnd_Message c = cnd_Message want)
  | None => false
  end.

Definition reconciledCondition (crd svc : nat) : Condition :=
  condition conditionTypeReconciled ConditionTrue "Reconciled" (reconciledMsg crd svc).

Definition statusUnchanged (crd svc : nat) (conflicts : list string) : bool :=
  let st := px_Status proxy in
  bool_decide (pst_UpstreamCount st = Z.of_nat crd)
  && bool_decide (pst_AnnotatedServiceCount st = Z.of_nat svc)
  && bool_decide (pst_ObservedGeneration st = om_Generation (px_ObjectMeta proxy))
  && sameCondition (FindStatusCondition (pst_Conditions st) conditionTypeReconciled) (reconciledCondition crd svc)
  && sameCondition (FindStatusCondition (pst_Conditions st) conditionTypePrefixConflict)
       (conflictCondition conflicts).

Definition withConditions (conds : list Condition) : MCPProxy :=
  let st := px_Status proxy in
  {| px_ObjectMeta := px_ObjectMeta proxy; px_Spec := px_Spec proxy;
     px_Status := {| pst_Conditions := conds; pst_UpstreamCount := pst_UpstreamCount st;
                     pst_AnnotatedServiceCount := pst_AnnotatedServiceCount st;
                     pst_ToolCount := pst_ToolCount st;
                     pst_ObservedGeneration := pst_ObservedGeneration st |} |}.

Definition newStatus (crd svc : nat) (conflicts : list string) : MCPProxyStatus :=
  {| pst_Conditions :=
       SetStatusCondition
         (SetStatusCondition (pst_Conditions (px_Status proxy)) (reconciledCondition crd svc))
         (conflictCondition conflicts);
     pst_UpstreamCount := Z.of_nat crd;
     pst_AnnotatedServiceCount := Z.of_nat svc;
     pst_ToolCount := pst_ToolCount (px_Status proxy);
     pst_ObservedGeneration := om_Generation (px_ObjectMeta proxy) |}.

Definition updateStatus (crd svc : nat) (conflicts : list string) : Act unit :=
  if statusUnchanged crd svc conflicts then aret tt
  else attempt UpdatingStatus
         (kstatus KProxy {| px_ObjectMeta := px_ObjectMeta proxy; px_Spec := px_Spec proxy;
                            px_Status := newStatus crd svc conflicts |}).

Definition setCondition (condType status reason msg : string) : Act unit :=
  attempt UpdatingStatus
    (kstatus KProxy (withConditions
       (SetStatusCondition (pst_Conditions (px_Status proxy)) (condition condType status reason msg)))).

(** ** One pass over a proxy that exists *)

(** The status condition of a generation that failed; its own failure is only logged. *)
Definition reportGenFailure (err : GenError) : Act unit := fun s =>
  let '(s, _) := setCondition conditionTypeReconciled ConditionFalse "ConfigGenFailed" (GenError_text err) s in
  (s, Err (GeneratingConfig err)).

Definition reconcileProxy : Act Z :=
  crdUpstreams <- listUpstreams proxy ;;
  svcUpstreams <- listAnnotatedServices proxy ;;
  let conflicts := detectPrefixConflicts crdUpstreams svcUpstreams in
  let allUpstreams := crdUpstreams ++ svcUpstreams in
  match ConfigGen.Generate yaml_Marshal proxy allUpstreams with
  | Err err => reportGenFailure err ;;; aret 0
  | Ok configData =>
    reconcileConfigMap configData ;;;
    reconcileUpstreamConfigMaps allUpstreams ;;;
    reconcileDeployment allUpstreams ;;;
    reconcileService ;;;
    reconcileHTTPRoute ;;;
    updateStatus (length crdUpstreams) (length svcUpstreams) conflicts ;;;
    aret periodicSyncInterval
  end.
End Objects.

(** The delay after which the request is to be served again; 0 for none. *)
Definition Reconcile (req : NamespacedName) : Act Z := fun s =>
  match kget KProxy req s with
  | (s, Err NotFound) => (s, Ok 0)
  | (s, Err e) => (s, Err (FetchingProxy e))
  | (s, Ok proxy) => reconcileProxy proxy s
  end.

(** ** Which proxies an event concerns *)
Definition request (proxy : MCPProxy) : NamespacedName := keyOf KProxy proxy.

(** A selector that does not parse selects nothing here. *)
Definition selectsUpstream (upstream : MCPUpstream) (proxy : MCPProxy) : bool :=
  match LabelSelectorAsSelector (pxs_UpstreamSelector (px_Spec proxy)) with
  | Some selector =>
    bool_decide (om_Namespace (mu_ObjectMeta upstream) ∈ upstreamNamespaces proxy)
    && selector (om_Labels (mu_ObjectMeta upstream))
  | None => false
  end.

Definition proxiesForUpstream (upstream : MCPUpstream) (s : K) : K * list NamespacedName :=
  match klist KProxy None allLabels s with
  | (s, Err _) => (s, [])
  | (s, Ok proxies) => (s, request <$> filter (selectsUpstream upstream) proxies)
  end.

Fixpoint discoveringProxies (svc : Service) (proxies : list MCPProxy) (s : K) : K * list NamespacedName :=
  match proxies with
  | [] => (s, [])
  | proxy :: rest =>
    if discoveryEnabled proxy then
      match serviceDiscoveryNamespaces proxy s with
      | (s, Err _) => discoveringProxies svc rest s
      | (s, Ok namespaces) =>
        let '(s', requests) := discoveringProxies svc rest s in
        (s', if bool_decide (om_Namespace (svc_ObjectMeta svc) ∈ namespaces) && serviceMatchesProxy proxy svc
             then request proxy :: requests else requests)
      end
    else discoveringProxies svc rest s
  end.

Definition proxiesForAnnotatedService (svc : Service) (s : K) : K * list NamespacedName :=
  match klist KProxy None allLabels s with
  | (s, Err _) => (s, [])
  | (s, Ok proxies) => discoveringProxies svc proxies s
  end.

(** [mapServiceToProxy] *)
Definition serviceRequests (svc : Service) (s : K) : K * list NamespacedName :=
  if bool_decide (ann svc AnnotationEnabled = "true") then proxiesForAnnotatedService svc s else (s, []).

(** An update event is passed on only when the generation changes
    ([predicate.GenerationChangedPredicate]); then both versions are mapped. *)
Definition upstreamUpdated (old new : MCPUpstream) (s : K) : K * list NamespacedName :=
  if bool_decide (om_Generation (mu_ObjectMeta old) = om_Generation (mu_ObjectMeta new)) then (s, [])
  else
    let '(s, r1) := proxiesForUpstream old s in
    let '(s, r2) := proxiesForUpstream new s in
    (s, r1 ++ r2).
End Operator.
