(* ===== verification/UpstreamController.v ===== *)
(** * The MCPUpstream reconciler (pkg/operator/controller/mcpupstream_controller.go)

    Records in an upstream's status the first proxy that selects it. *)
From S2P Require Export Operator.
Open Scope Z_scope.

Section UpstreamController.
Context `{KubeTypes, KubeDefaults, Conditions, Unicode} {K : Type} `{!KubeApi K}.

Local Open Scope act_scope.

Inductive UpstreamReconcileError :=
  | FetchingUpstream (e : ApiError)
  | ListingProxies (e : ApiError)
  | UpdatingUpstreamStatus (e : ApiError).

Abbreviation Act := (Act K UpstreamReconcileError).

(** The first proxy of the list that selects the upstream; "" for none. *)
Definition assignedProxy (upstream : MCPUpstream) (proxies : list MCPProxy) : string :=
  match list_find (fun proxy => selectsUpstream upstream proxy = true) proxies with
  | Some (_, proxy) => nn_String (request proxy)
  | None => ""
  end.

Definition findAssignedProxy (upstream : MCPUpstream) : Act string :=
  proxies <- wrapping ListingProxies (klist KProxy None allLabels) ;;
  aret (assignedProxy upstream proxies).

Definition assignedMsg (assigned : string) : string := "upstream assigned to proxy " +:+ Quote assigned.

Definition assignedCondition (upstream : MCPUpstream) (assigned : string) : Condition := {|
  cnd_Type := conditionTypeReconciled;
  cnd_Status := ConditionTrue;
  cnd_Reason := "Reconciled";
  cnd_Message := assignedMsg assigned;
  cnd_ObservedGeneration := om_Generation (mu_ObjectMeta upstream) |}.

Definition assignmentUnchanged (upstream : MCPUpstream) (assigned : string) : bool :=
  bool_decide (mst_AssignedProxy (mu_Status upstream) = assigned)
  && sameCondition (FindStatusCondition (mst_Conditions (mu_Status upstream)) conditionTypeReconciled)
       (assignedCondition upstream assigned).

Definition withAssignment (upstream : MCPUpstream) (assigned : string) : MCPUpstream := {|
  mu_ObjectMeta := mu_ObjectMeta upstream;
  mu_Spec := mu_Spec upstream;
  mu_Status := {|
    mst_Conditions := SetStatusCondition (mst_Conditions (mu_Status upstream))
                        (assignedCondition upstream assigned);
    mst_AssignedProxy := assigned;
    mst_ToolCount := mst_ToolCount (mu_Status upstream) |} |}.

Definition ReconcileUpstream (req : NamespacedName) : Act Z := fun s =>
  match kget KUpstream req s with
  | (s, Err NotFound) => (s, Ok 0)
  | (s, Err e) => (s, Err (FetchingUpstream e))
  | (s, Ok upstream) =>
    (assigned <- findAssignedProxy upstream ;;
     if assignmentUnchanged upstream assigned then aret periodicSyncInterval
     else
       attempt UpdatingUpstreamStatus (kstatus KUpstream (withAssignment upstream assigned)) ;;;
       aret periodicSyncInterval) s
  end.
End UpstreamController.
