(* ===== verification/OperatorFrame.v ===== *)
(** * Where a pass of the operator writes

    A program's footprint: the objects it may change, whether it succeeds or
    fails.  A pass over a proxy changes the proxy's own objects only. *)
From S2P Require Export UpstreamController.
Open Scope Z_scope.

Section Frame.
Context `{KubeTypes, KubeDefaults} {K : Type} `{!KubeApi K, !KubeLaws K}.

Lemma same_objects_refl (s : K) : same_objects s s.
Proof. done. Qed.
Lemma same_objects_trans (s1 s2 s3 : K) : same_objects s1 s2 -> same_objects s2 s3 -> same_objects s1 s3.
Proof. intros Ha Hb k n. by rewrite Hb. Qed.
Lemma same_objects_sym (s1 s2 : K) : same_objects s1 s2 -> same_objects s2 s1.
Proof. intros Ha k n. by rewrite Ha. Qed.

(** Where a program may write, whether it succeeds or fails. *)
Definition Footprint := GVK -> NamespacedName -> Prop.

Definition unchanged_outside (P : Footprint) (s s' : K) : Prop :=
  forall k n, ~ P k n -> view s' k n = view s k n.

Definition writes {E A} (P : Footprint) (m : Act K E A) : Prop :=
  forall s s' r, m s = (s', r) -> unchanged_outside P s s'.

Lemma unchanged_outside_trans P (s1 s2 s3 : K) :
  unchanged_outside P s1 s2 -> unchanged_outside P s2 s3 -> unchanged_outside P s1 s3.
Proof. intros Ha Hb k n Hn. by rewrite (Hb k n Hn), (Ha k n Hn). Qed.

Lemma unchanged_outside_weaken (P Q : Footprint) (s s' : K) :
  (forall k n, P k n -> Q k n) -> unchanged_outside P s s' -> unchanged_outside Q s s'.
Proof. intros Hpq Hs k n Hn. apply Hs. eauto. Qed.

Lemma same_unchanged P (s s' : K) : same_objects s s' -> unchanged_outside P s s'.
Proof. intros Hs k n _. apply Hs. Qed.

Lemma differs_unchanged (P : Footprint) k n o (s s' : K) :
  differs_at k n o s s' -> P k n -> unchanged_outside P s s'.
Proof. intros [_ Hd] Hp k' n' Hn. apply Hd. intros [= -> ->]. done. Qed.

Section Rules.
Context {E : Type} (P : Footprint).

Lemma writes_aret {A} (a : A) : writes P (aret a : Act K E A).
Proof. intros s s' r [= <- <-]. by apply same_unchanged. Qed.
Lemma writes_afail {A} (e : E) : writes P (afail e : Act K E A).
Proof. intros s s' r [= <- <-]. by apply same_unchanged. Qed.

Lemma writes_bind {A B} (m : Act K E A) (f : A -> Act K E B) :
  writes P m -> (forall a, writes P (f a)) -> writes P (abind m f).
Proof.
  intros Hm Hf s s' r. unfold abind. destruct (m s) as [s1 [a|e]] eqn:Hms.
  - intros Hfs. eapply unchanged_outside_trans; [by eapply Hm|by eapply Hf].
  - intros [= <- <-]. by eapply Hm.
Qed.

Lemma writes_wrapping {E' A} (w : E' -> E) (m : Act K E' A) : writes P m -> writes P (wrapping w m).
Proof.
  intros Hm s s' r. unfold wrapping.
  destruct (m s) as [s1 [a|e]] eqn:Hms; intros [= <- <-]; by eapply Hm.
Qed.

Lemma writes_get k n : writes P (kget k n : Act K ApiError _).
Proof. intros s s' r Hg. apply same_unchanged. by eapply kget_same. Qed.

Lemma writes_list k ns sel : writes P (klist k ns sel : Act K ApiError _).
Proof. intros s s' r Hg. apply same_unchanged. by eapply klist_same. Qed.

(** A read followed by what depends on its outcome. *)
Lemma writes_get_then {A} k n (f : result ApiError (obj k) -> Act K E A) :
  (forall r, (forall o, r = Ok o -> keyOf k o = n) -> writes P (f r)) ->
  writes P (fun s => let '(s1, r) := kget k n s in f r s1).
Proof.
  intros Hf s s' r. destruct (kget k n s) as [s1 q] eqn:Hg. intros Hfs.
  eapply unchanged_outside_trans; [by eapply writes_get|].
  eapply Hf; [|exact Hfs]. intros o ->. eapply view_key, kget_Ok, Hg.
Qed.

Lemma writes_attempt (w : ApiError -> E) (call : K -> K * option ApiError) :
  (forall s s' e, call s = (s', Some e) -> same_objects s s') ->
  (forall s s', call s = (s', None) -> unchanged_outside P s s') ->
  writes P (attempt w call).
Proof.
  intros Herr Hok s s' r. unfold attempt.
  destruct (call s) as [s1 [e|]] eqn:Hc; intros [= <- <-]; [apply same_unchanged; eauto|eauto].
Qed.

Lemma writes_create (w : ApiError -> E) k o : P k (keyOf k o) -> writes P (attempt w (kcreate k o)).
Proof.
  intros Hp. apply writes_attempt; [by eapply kcreate_Err|].
  intros s s' Hc%kcreate_Ok. by eapply differs_unchanged.
Qed.
Lemma writes_update (w : ApiError -> E) k o : P k (keyOf k o) -> writes P (attempt w (kupdate k o)).
Proof.
  intros Hp. apply writes_attempt; [by eapply kupdate_Err|].
  intros s s' Hc%kupdate_Ok. by eapply differs_unchanged.
Qed.
Lemma writes_status (w : ApiError -> E) k o : P k (keyOf k o) -> writes P (attempt w (kstatus k o)).
Proof.
  intros Hp. apply writes_attempt; [by eapply kstatus_Err|].
  intros s s' Hc%kstatus_Ok. by eapply differs_unchanged.
Qed.
Lemma writes_delete (w : ApiError -> E) k o : P k (keyOf k o) -> writes P (attempt w (kdelete k o)).
Proof.
  intros Hp. apply writes_attempt; [by eapply kdelete_Err|].
  intros s s' Hc%kdelete_Ok. by eapply differs_unchanged.
Qed.
End Rules.
End Frame.

Create HintDb writes.
#[export] Hint Resolve writes_aret writes_afail writes_bind writes_wrapping writes_get writes_list
  writes_create writes_update writes_status writes_delete : writes.

Section Footprints.
Context `{KubeTypes, KubeDefaults, Conditions, Unicode} {K : Type} `{!KubeApi K, !KubeLaws K}.
Context (yaml_Marshal : generatedProxyConfig -> result string string).
Context (ownerError : option string).

Definition nothing : Footprint := fun _ _ => False.

Lemma listUpstreamsIn_writes sel nss : writes nothing (listUpstreamsIn sel nss : Act K _ _).
Proof. induction nss as [|ns nss IH]; cbn [listUpstreamsIn]; auto 8 with writes. Qed.

Lemma listUpstreams_writes proxy : writes nothing (listUpstreams proxy : Act K _ _).
Proof. unfold listUpstreams. case_match; auto using listUpstreamsIn_writes with writes. Qed.

Lemma discoveryNamespaces_writes proxy : writes nothing (serviceDiscoveryNamespaces proxy : Act K _ _).
Proof. unfold serviceDiscoveryNamespaces. repeat case_match; auto 8 with writes. Qed.

Lemma listServicesIn_writes proxy nss : writes nothing (listServicesIn proxy nss : Act K _ _).
Proof. induction nss as [|ns nss IH]; cbn [listServicesIn]; auto 8 with writes. Qed.

Lemma listAnnotatedServices_writes proxy : writes nothing (listAnnotatedServices proxy : Act K _ _).
Proof.
  unfold listAnnotatedServices. case_match;
    auto using discoveryNamespaces_writes, listServicesIn_writes with writes.
Qed.
End Footprints.

Section ObjectFootprints.
Context `{KubeTypes, KubeDefaults, Conditions, Unicode} {K : Type} `{!KubeApi K, !KubeLaws K}.
Context (yaml_Marshal : generatedProxyConfig -> result string string).
Context (ownerError : option string).
Context (proxy : MCPProxy).
Implicit Types (s : K) (up : MCPUpstream).

(** What a pass over the proxy may write. *)
Definition ownObject : Footprint := fun k n =>
  nn_Namespace n = om_Namespace (px_ObjectMeta proxy) /\
  match k with
  | KConfigMap => nn_Name n ∈ [configName proxy; specsName proxy; overlaysName proxy]
  | KDeployment | KService | KRoute | KProxy => nn_Name n = om_Name (px_ObjectMeta proxy)
  | KUpstream | KNamespace => False
  end.

Definition at_name (k0 : GVK) (name : string) : Footprint := fun k n =>
  k = k0 /\ n = inProxyNamespace proxy name.

Lemma get_then {E A} (P : Footprint) k n s s1 s' q (m : Act K E A) r :
  kget k n s = (s1, q) -> m s1 = (s', r) -> writes P m -> unchanged_outside P s s'.
Proof.
  intros Hg Hm Hw. eapply unchanged_outside_trans; [by eapply writes_get|by eapply Hw].
Qed.

Lemma get_done (P : Footprint) k n s s1 q :
  kget k n s = (s1, q) -> unchanged_outside P s s1.
Proof. intros Hg. by eapply writes_get. Qed.
End ObjectFootprints.

(** A handler that reads one object and then acts on what it found. *)
Ltac read_first :=
  let s := fresh "s" in let s' := fresh "s'" in let r := fresh "r" in
  let s1 := fresh "s1" in let o := fresh "o" in let Hg := fresh "Hg" in let Hr := fresh "Hr" in
  intros s s' r;
  match goal with |- context [kget ?k ?n s] => destruct (kget k n s) as [s1 [o|[| |]]] eqn:Hg end;
  repeat case_match; intros Hr;
  first [injection Hr as <- <-; by eapply get_done
        |eapply get_then; [exact Hg|exact Hr|]];
  try (apply kget_Ok, view_key in Hg).

Section ObjectFootprints2.
Context `{KubeTypes, KubeDefaults, Conditions, Unicode} {K : Type} `{!KubeApi K, !KubeLaws K}.
Context (yaml_Marshal : generatedProxyConfig -> result string string).
Context (ownerError : option string).
Context (proxy : MCPProxy).
Implicit Types (s : K) (up : MCPUpstream).
Abbreviation owns := (ownObject proxy).
Abbreviation one := (at_name proxy).

Lemma owned_key name :
  keyOfMeta (owned ownerError proxy (newMeta name (om_Namespace (px_ObjectMeta proxy)))) =
    inProxyNamespace proxy name.
Proof. unfold owned. by destruct ownerError. Qed.

Lemma createConfigMap_writes name data :
  writes (one KConfigMap name) (createConfigMap ownerError proxy name data : Act K _ _).
Proof.
  unfold createConfigMap. destruct ownerError as [err|] eqn:Ho; [auto with writes|]. rewrite <-Ho.
  apply writes_create. split; [done|apply owned_key].
Qed.

Lemma reconcileConfigMap_writes data :
  writes (one KConfigMap (configName proxy)) (reconcileConfigMap ownerError proxy data : Act K _ _).
Proof.
  unfold reconcileConfigMap. read_first; [|by apply createConfigMap_writes].
  apply writes_update. by split.
Qed.

Lemma upsertConfigMap_writes name key value :
  writes (one KConfigMap name) (upsertConfigMap ownerError proxy name key value : Act K _ _).
Proof.
  unfold upsertConfigMap. read_first; [apply writes_update; by split..|by apply createConfigMap_writes].
Qed.

Lemma copySource_writes up ref name :
  writes (one KConfigMap name) (copySource ownerError proxy up ref name : Act K _ _).
Proof.
  unfold copySource. apply writes_bind; [auto with writes|]. intros src.
  case_match; auto using upsertConfigMap_writes with writes.
Qed.

Lemma reconcileDeployment_writes ups :
  writes (one KDeployment (om_Name (px_ObjectMeta proxy)))
    (reconcileDeployment ownerError proxy ups : Act K _ _).
Proof.
  unfold reconcileDeployment. read_first; [apply writes_update; by split|apply writes_create].
  split; [done|]. apply owned_key.
Qed.

Lemma reconcileService_writes :
  writes (one KService (om_Name (px_ObjectMeta proxy))) (reconcileService ownerError proxy : Act K _ _).
Proof.
  unfold reconcileService. read_first; [apply writes_update; by split|apply writes_create].
  split; [done|]. apply owned_key.
Qed.

Lemma reconcileHTTPRoute_writes :
  writes (one KRoute (om_Name (px_ObjectMeta proxy))) (reconcileHTTPRoute ownerError proxy : Act K _ _).
Proof.
  unfold reconcileHTTPRoute. read_first.
  - apply writes_update. by split.
  - apply writes_delete. by split.
  - apply writes_create. split; [done|]. apply owned_key.
Qed.

Lemma updateStatus_writes crd svc conflicts :
  writes (one KProxy (om_Name (px_ObjectMeta proxy))) (updateStatus proxy crd svc conflicts : Act K _ _).
Proof. unfold updateStatus. case_match; [auto with writes|]. by apply writes_status. Qed.

Lemma setCondition_writes t st r msg :
  writes (one KProxy (om_Name (px_ObjectMeta proxy))) (setCondition proxy t st r msg : Act K _ _).
Proof. by apply writes_status. Qed.

Lemma writes_weaken {E A} (P Q : Footprint) (m : Act K E A) :
  (forall k n, P k n -> Q k n) -> writes P m -> writes Q m.
Proof. intros Hpq Hm s s' r Hr. eapply unchanged_outside_weaken; [exact Hpq|by eapply Hm]. Qed.

Lemma reads_writes {E A} (P : Footprint) (m : Act K E A) : writes nothing m -> writes P m.
Proof. by apply writes_weaken. Qed.

Lemma one_owns k name :
  match k with
  | KConfigMap => name ∈ [configName proxy; specsName proxy; overlaysName proxy]
  | KUpstream | KNamespace => False
  | _ => name = om_Name (px_ObjectMeta proxy)
  end -> forall k' n, one k name k' n -> owns k' n.
Proof. intros Hk k' n [-> ->]. by destruct k. Qed.

Lemma reconcileUpstreamConfigMaps_writes ups :
  writes owns (reconcileUpstreamConfigMaps ownerError proxy ups : Act K _ _).
Proof.
  induction ups as [|up ups IH]; cbn [reconcileUpstreamConfigMaps]; [auto with writes|].
  case_match; [done|]. unfold reconcileUpstreamSpecCM, reconcileUpstreamOverlayCM.
  assert (Hcopy : forall ref name, name ∈ [specsName proxy; overlaysName proxy] ->
    writes owns (copySource ownerError proxy up ref name : Act K _ _)).
  { intros ref name Hn. eapply writes_weaken; [|apply copySource_writes].
    apply one_owns. set_solver. }
  apply writes_bind; [case_match; [apply Hcopy; set_solver|auto with writes]|intros _].
  apply writes_bind; [case_match; [apply Hcopy; set_solver|auto with writes]|done].
Qed.

Ltac own_step :=
  first [eapply writes_weaken; [|apply reconcileConfigMap_writes]
        |eapply writes_weaken; [|apply reconcileDeployment_writes]
        |eapply writes_weaken; [|apply reconcileService_writes]
        |eapply writes_weaken; [|apply reconcileHTTPRoute_writes]
        |eapply writes_weaken; [|apply updateStatus_writes]]; apply one_owns; set_solver.

Lemma reconcileProxy_writes : writes owns (reconcileProxy yaml_Marshal ownerError proxy : Act K _ _).
Proof.
  unfold reconcileProxy.
  apply writes_bind; [apply reads_writes, listUpstreams_writes|]. intros crd.
  apply writes_bind; [apply reads_writes, listAnnotatedServices_writes|]. intros svc.
  case_match.
  - repeat (apply writes_bind; [first [apply reconcileUpstreamConfigMaps_writes|own_step]|intros _]).
    auto with writes.
  - apply writes_bind; [|auto with writes]. intros s s' r. unfold reportGenFailure.
    destruct (setCondition _ _ _ _ _ s) as [s1 q] eqn:Hs. intros [= <- <-].
    eapply unchanged_outside_weaken; [|by eapply setCondition_writes]. by apply one_owns.
Qed.
End ObjectFootprints2.
