(* ===== verification/OperatorGoals.v ===== *)
(** * What a pass of the operator achieves

    Each step of a pass has a goal, a property of the stored objects; a step that
    succeeds reaches it whatever was stored before, and keeps the goals of the
    steps before it.  Then the whole pass. *)
From S2P Require Export OperatorFrame.
Open Scope Z_scope.

(** ** What each step achieves *)
Section Goals.
Context `{KubeTypes, KubeDefaults, Conditions, Unicode} {K : Type} `{!KubeApi K}.
Context (ownerError : option string) (proxy : MCPProxy).
Implicit Types (s : K) (up : MCPUpstream).
Let pname := om_Name (px_ObjectMeta proxy).

Definition configGoal (data : string) s : Prop := exists cm,
  view s KConfigMap (inProxyNamespace proxy (configName proxy)) = Some cm /\
  cm_Data cm = Some {["config.yaml" := data]}.

(** The ConfigMap [name] of the proxy reads [value] under [key]. *)
Definition fileGoal (name key value : string) s : Prop := exists cm data,
  view s KConfigMap (inProxyNamespace proxy name) = Some cm /\
  cm_Data cm = Some data /\ default "" (data !! key) = value.

Definition deploymentGoal (ups : list MCPUpstream) s : Prop := exists d,
  let desired := dep_Spec (buildDeployment ownerError proxy ups) in
  view s KDeployment (inProxyNamespace proxy pname) = Some d /\
  clearDeployment (dep_Spec d) = desired /\
  (dep_Spec d = desired \/
   stored KDeployment (Some d) {| dep_ObjectMeta := dep_ObjectMeta d; dep_Spec := desired |} = d).

Definition serviceGoal s : Prop := exists d,
  let desired := buildService ownerError proxy in
  view s KService (inProxyNamespace proxy pname) = Some d /\
  clearPort <$> svc_Ports d = svc_Ports desired /\ svc_Selector d = svc_Selector desired /\
  ((svc_Ports d = svc_Ports desired) \/
   stored KService (Some d) {| svc_ObjectMeta := svc_ObjectMeta d; svc_Ports := svc_Ports desired;
                               svc_Selector := svc_Selector desired; svc_Rest := svc_Rest d |} = d).

Definition routeGoal s : Prop :=
  match pxs_GatewayRef (px_Spec proxy) with
  | None => view s KRoute (inProxyNamespace proxy pname) = None
  | Some gw => exists d,
    let desired := hr_Spec (buildHTTPRoute ownerError proxy gw) in
    view s KRoute (inProxyNamespace proxy pname) = Some d /\
    clearRoute (hr_Spec d) = desired /\
    (hr_Spec d = desired \/
     stored KRoute (Some d) {| hr_ObjectMeta := hr_ObjectMeta d; hr_Spec := desired |} = d)
  end.

(** The same proxy, but for its status. *)
Definition sameProxy (p : MCPProxy) : Prop :=
  px_ObjectMeta p = px_ObjectMeta proxy /\ px_Spec p = px_Spec proxy.

Definition statusGoal (crd svc : nat) (conflicts : list string) s : Prop := exists p,
  view s KProxy (request proxy) = Some p /\ sameProxy p /\ statusUnchanged p crd svc conflicts = true.

(** What the referenced key of a source ConfigMap holds. *)
Definition sourceValue s up (ref : ConfigMapKeyRef) : option string :=
  cm ← view s KConfigMap {| nn_Namespace := om_Namespace (mu_ObjectMeta up); nn_Name := cmr_Name ref |};
  default ∅ (cm_Data cm) !! cmr_Key ref.

Definition specRef up : option ConfigMapKeyRef := moa_ConfigMapRef (mus_OpenAPI (mu_Spec up)).

(** Every file an upstream refers to is copied as it was in [s0]. *)
Definition filesGoal (s0 : K) (ups : list MCPUpstream) s : Prop :=
  forall up, up ∈ ups -> isCommand up = false ->
    (forall ref, specRef up = Some ref -> exists v, sourceValue s0 up ref = Some v /\
      fileGoal (specsName proxy) (fileKey up) v s) /\
    (forall ref, overlayRef up = Some ref -> exists v, sourceValue s0 up ref = Some v /\
      fileGoal (overlaysName proxy) (fileKey up) v s).

(** The sources are not objects of the proxy, and no two upstreams share a file. *)
Definition separate (ups : list MCPUpstream) : Prop :=
  (forall up ref, up ∈ ups -> specRef up = Some ref \/ overlayRef up = Some ref ->
    ~ ownObject proxy KConfigMap
        {| nn_Namespace := om_Namespace (mu_ObjectMeta up); nn_Name := cmr_Name ref |}) /\
  (forall up up', up ∈ ups -> up' ∈ ups -> fileKey up = fileKey up' -> up = up').

Definition converged (s0 : K) (ups : list MCPUpstream) (data : string) s : Prop :=
  configGoal data s /\ filesGoal s0 ups s /\ deploymentGoal ups s /\ serviceGoal s /\ routeGoal s.
End Goals.

Section Achieves.
Context `{KubeTypes, KubeDefaults, Conditions, Unicode} {K : Type} `{!KubeApi K, !KubeLaws K}.
Context `{!ServerDefaults K, !ConditionLaws}.
Context (ownerError : option string) (proxy : MCPProxy).
Implicit Types (s : K) (up : MCPUpstream).

Lemma attempt_Ok {E E'} (w : E' -> E) (call : K -> K * option E') s s' :
  attempt w call s = (s', Ok tt) -> call s = (s', None).
Proof. unfold attempt. destruct (call s) as [? [?|]]; congruence. Qed.

Lemma abind_Ok {E A B} (m : Act K E A) (f : A -> Act K E B) s s' b :
  abind m f s = (s', Ok b) -> exists s1 a, m s = (s1, Ok a) /\ f a s1 = (s', Ok b).
Proof. unfold abind. destruct (m s) as [s1 [a|]]; [eauto|congruence]. Qed.

Lemma wrapping_Ok {E E' A} (w : E' -> E) (m : Act K E' A) s s' a :
  wrapping w m s = (s', Ok a) -> m s = (s', Ok a).
Proof. unfold wrapping. destruct (m s) as [s1 [?|]]; congruence. Qed.

Lemma get_view k n s s1 o : kget k n s = (s1, Ok o) -> view s1 k n = Some o.
Proof. intros Hg. destruct (kget_same _ _ _ _ _ Hg) as [Hs _]. rewrite Hs. by eapply kget_Ok. Qed.

Lemma create_view k o s s' (w : ApiError -> ReconcileError) :
  attempt w (kcreate k o) s = (s', Ok tt) -> view s' k (keyOf k o) = Some (stored k None o).
Proof. intros Hc%attempt_Ok%kcreate_Ok. apply Hc. Qed.

Lemma update_view k o s s' (w : ApiError -> ReconcileError) :
  attempt w (kupdate k o) s = (s', Ok tt) ->
  view s' k (keyOf k o) = Some (stored k (view s k (keyOf k o)) o).
Proof. intros Hc%attempt_Ok%kupdate_Ok. apply Hc. Qed.

Lemma createConfigMap_Ok name data s s' :
  data <> ∅ -> createConfigMap ownerError proxy name data s = (s', Ok tt) ->
  exists cm, view s' KConfigMap (inProxyNamespace proxy name) = Some cm /\ cm_Data cm = Some data.
Proof.
  unfold createConfigMap. intros Hd. case_match; [discriminate|]. intros Hc%create_view.
  unfold keyOf in Hc. cbn [meta newConfigMap cm_ObjectMeta] in Hc.
  rewrite (owned_key None) in Hc. eexists. split; [exact Hc|]. by apply stored_data.
Qed.

Lemma setData_Ok cm name data s s' (w : ApiError -> ReconcileError) :
  data <> ∅ -> keyOf KConfigMap cm = inProxyNamespace proxy name ->
  attempt w (kupdate KConfigMap (setData cm data)) s = (s', Ok tt) ->
  exists cm', view s' KConfigMap (inProxyNamespace proxy name) = Some cm' /\ cm_Data cm' = Some data.
Proof.
  intros Hd Hk Hu%update_view. change (keyOf KConfigMap (setData cm data)) with (keyOf KConfigMap cm) in Hu.
  rewrite Hk in Hu. eexists. split; [exact Hu|]. by apply stored_data.
Qed.

(** Every file of the proxy's ConfigMap [name], as the pod reads it. *)
Definition fileIn s (name key : string) : option string :=
  cm ← view s KConfigMap (inProxyNamespace proxy name); data ← cm_Data cm; data !! key.

Lemma reconcileConfigMap_Ok data s s' :
  reconcileConfigMap ownerError proxy data s = (s', Ok tt) -> configGoal proxy data s'.
Proof.
  unfold reconcileConfigMap. destruct (kget _ _ s) as [s1 [cm|[| |]]] eqn:Hg; try discriminate.
  - case_bool_decide as Hd.
    + intros [= <-]. exists cm. split; [by eapply get_view|done].
    + intros Hu. eapply setData_Ok in Hu; [exact Hu|by apply insert_non_empty|].
      by eapply view_key, kget_Ok.
  - intros Hc. eapply createConfigMap_Ok in Hc; [exact Hc|by apply insert_non_empty].
Qed.

Lemma upsertConfigMap_Ok name key value s s' :
  upsertConfigMap ownerError proxy name key value s = (s', Ok tt) -> fileGoal proxy name key value s'.
Proof.
  unfold upsertConfigMap. destruct (kget _ _ s) as [s1 [cm|[| |]]] eqn:Hg; try discriminate.
  - destruct (match cm_Data cm with Some _ => _ | None => false end) eqn:Hd.
    + intros [= <-]. destruct (cm_Data cm) as [data|] eqn:Hcm; [|done].
      apply bool_decide_eq_true in Hd. exists cm, data. split_and!; [by eapply get_view|done..].
    + intros Hu. eapply setData_Ok in Hu as (cm' & Hv & Hcm');
        [|by apply insert_non_empty|by eapply view_key, kget_Ok].
      eexists _, _. split_and!; [exact Hv|exact Hcm'|]. by rewrite lookup_insert_eq.
  - intros Hc. eapply createConfigMap_Ok in Hc as (cm' & Hv & Hcm'); [|by apply insert_non_empty].
    eexists _, _. split_and!; [exact Hv|exact Hcm'|]. by rewrite lookup_singleton_eq.
Qed.

(** Writing one file keeps the others. *)
Lemma upsertConfigMap_keeps name key value key' value' s s' :
  key <> key' -> upsertConfigMap ownerError proxy name key value s = (s', Ok tt) ->
  fileGoal proxy name key' value' s -> fileGoal proxy name key' value' s'.
Proof.
  unfold upsertConfigMap. intros Hne Hr (cm0 & data & Hv & Hdata & Hval).
  destruct (kget _ _ s) as [s1 [cm|[| |]]] eqn:Hg; try discriminate.
  - pose proof (kget_Ok _ _ _ _ _ Hg) as Hcm. rewrite Hv in Hcm. injection Hcm as ->.
    rewrite Hdata in Hr. cbn [default] in Hr. case_bool_decide.
    + injection Hr as <-. exists cm, data. split_and!; [by eapply get_view|done..].
    + eapply setData_Ok in Hr as (cm' & Hv' & Hcm'); [|by apply insert_non_empty|by eapply view_key].
      eexists _, _. split_and!; [exact Hv'|exact Hcm'|]. by rewrite lookup_insert_ne.
  - apply kget_NotFound in Hg. congruence.
Qed.

Lemma clear_desired ups :
  clearDeployment (dep_Spec (buildDeployment ownerError proxy ups)) =
    dep_Spec (buildDeployment ownerError proxy ups).
Proof. done. Qed.

Lemma reconcileDeployment_Ok ups s s' :
  reconcileDeployment ownerError proxy ups s = (s', Ok tt) -> deploymentGoal ownerError proxy ups s'.
Proof.
  unfold reconcileDeployment, deploymentGoal.
  set (desired := buildDeployment ownerError proxy ups).
  assert (Hclear : clearDeployment (dep_Spec desired) = dep_Spec desired) by done.
  destruct (kget _ _ s) as [s1 [d|[| |]]] eqn:Hg; try discriminate.
  - case_bool_decide as Hd.
    + intros [= <-]. exists d. split_and!; [by eapply get_view|by rewrite Hd|by left].
    + intros Hu%update_view. pose proof (view_key _ _ _ _ (kget_Ok _ _ _ _ _ Hg)) as Hk.
      unfold keyOf in Hk, Hu. cbn [meta dep_ObjectMeta] in Hk, Hu. rewrite Hk in Hu.
      eexists. split_and!; [exact Hu|by rewrite stored_deployment|right].
      by apply (stored_deployment_again _
        {| dep_ObjectMeta := dep_ObjectMeta d; dep_Spec := dep_Spec desired |}).
  - intros Hc%create_view. unfold keyOf in Hc. cbn [meta] in Hc. unfold desired in Hc at 1.
    cbn [buildDeployment dep_ObjectMeta] in Hc. rewrite owned_key in Hc.
    eexists. split_and!; [exact Hc|by rewrite stored_deployment|right].
    apply stored_deployment_again.
Qed.

Lemma reconcileService_Ok s s' :
  reconcileService ownerError proxy s = (s', Ok tt) -> serviceGoal ownerError proxy s'.
Proof.
  unfold reconcileService, serviceGoal. set (desired := buildService ownerError proxy).
  assert (Hclear : clearPort <$> svc_Ports desired = svc_Ports desired) by done.
  destruct (kget _ _ s) as [s1 [d|[| |]]] eqn:Hg; try discriminate.
  - case_match eqn:Hd.
    + apply andb_true_iff in Hd as [Hp%bool_decide_eq_true Hsel%bool_decide_eq_true].
      intros [= <-]. exists d. split_and!; [by eapply get_view|by rewrite Hp|done|by left].
    + intros Hu%update_view. pose proof (view_key _ _ _ _ (kget_Ok _ _ _ _ _ Hg)) as Hk.
      unfold keyOf in Hk, Hu. cbn [meta svc_ObjectMeta] in Hk, Hu. rewrite Hk in Hu.
      set (o := Build_Service (svc_ObjectMeta d) (svc_Ports desired) (svc_Selector desired) (svc_Rest d)) in *.
      pose proof (stored_service (view s1 KService (inProxyNamespace proxy (om_Name (px_ObjectMeta proxy)))) o)
        as [Hp Hsel].
      eexists. split_and!; [exact Hu|by rewrite Hp|done|right]. apply (stored_service_again _ o).
  - intros Hc%create_view. unfold keyOf in Hc. cbn [meta] in Hc. unfold desired in Hc at 1.
    cbn [buildService svc_ObjectMeta] in Hc. rewrite owned_key in Hc.
    pose proof (stored_service None desired) as [Hp Hsel].
    eexists. split_and!; [exact Hc|by rewrite Hp|done|right]. apply stored_service_again.
Qed.

Lemma reconcileHTTPRoute_Ok s s' :
  reconcileHTTPRoute ownerError proxy s = (s', Ok tt) -> routeGoal ownerError proxy s'.
Proof.
  unfold reconcileHTTPRoute, routeGoal.
  destruct (kget _ _ s) as [s1 q] eqn:Hg. destruct (kget_same _ _ _ _ _ Hg) as [Hsame _].
  destruct (pxs_GatewayRef _) as [gw|].
  - set (desired := buildHTTPRoute ownerError proxy gw).
    assert (Hclear : clearRoute (hr_Spec desired) = hr_Spec desired) by done.
    destruct q as [d|[| |]]; try discriminate.
    + case_bool_decide as Hd.
      * intros [= <-]. exists d. split_and!; [by eapply get_view|by rewrite Hd|by left].
      * intros Hu%update_view. pose proof (view_key _ _ _ _ (kget_Ok _ _ _ _ _ Hg)) as Hk.
        unfold keyOf in Hk, Hu. cbn [meta hr_ObjectMeta] in Hk, Hu. rewrite Hk in Hu.
        eexists. split_and!; [exact Hu|by rewrite stored_route|right].
        by apply (stored_route_again _ {| hr_ObjectMeta := hr_ObjectMeta d; hr_Spec := hr_Spec desired |}).
    + intros Hc%create_view. unfold keyOf in Hc. cbn [meta] in Hc. unfold desired in Hc at 1.
      cbn [buildHTTPRoute hr_ObjectMeta] in Hc. rewrite owned_key in Hc.
      eexists. split_and!; [exact Hc|by rewrite stored_route|right]. apply stored_route_again.
  - destruct q as [d|[| |]]; try discriminate.
    + intros Hd%attempt_Ok%kdelete_Ok. destruct Hd as [Hd _].
      by rewrite (view_key _ _ _ _ (kget_Ok _ _ _ _ _ Hg)) in Hd.
    + intros [= <-]. rewrite Hsame. by eapply kget_NotFound.
    + intros [= <-]. rewrite Hsame. by eapply kget_NoMatch.
Qed.
End Achieves.

Section Converges.
Context `{KubeTypes, KubeDefaults, Conditions, Unicode} {K : Type} `{!KubeApi K, !KubeLaws K}.
Context `{!ServerDefaults K, !ConditionLaws}.
Context (yaml_Marshal : generatedProxyConfig -> result string string).
Context (ownerError : option string) (proxy : MCPProxy).
Implicit Types (s : K) (up : MCPUpstream).

Lemma sameCondition_refl c : sameCondition (Some c) c = true.
Proof. cbn. by rewrite !bool_decide_eq_true_2. Qed.

Lemma conflictCondition_type conflicts :
  cnd_Type (conflictCondition proxy conflicts) = conditionTypePrefixConflict.
Proof. by destruct conflicts. Qed.

Lemma newStatus_unchanged crd svc conflicts :
  statusUnchanged {| px_ObjectMeta := px_ObjectMeta proxy; px_Spec := px_Spec proxy;
                     px_Status := newStatus proxy crd svc conflicts |} crd svc conflicts = true.
Proof.
  unfold statusUnchanged. cbn [px_Status px_ObjectMeta newStatus pst_UpstreamCount
    pst_AnnotatedServiceCount pst_ObservedGeneration pst_Conditions].
  rewrite !bool_decide_eq_true_2 by done. cbn [andb].
  rewrite !find_set, conflictCondition_type.
  rewrite (bool_decide_eq_false_2 (conditionTypeReconciled = _)) by done.
  cbn [cnd_Type reconciledCondition condition]. rewrite !bool_decide_eq_true_2 by done.
  apply andb_true_iff. split; apply sameCondition_refl.
Qed.

Lemma updateStatus_Ok crd svc conflicts s s' :
  view s KProxy (request proxy) = Some proxy ->
  updateStatus proxy crd svc conflicts s = (s', Ok tt) -> statusGoal proxy crd svc conflicts s'.
Proof.
  unfold updateStatus. intros Hv. case_match eqn:Hu.
  - intros [= <-]. by exists proxy.
  - intros [Hs _]%attempt_Ok%kstatus_Ok. unfold keyOf in Hs. cbn [meta px_ObjectMeta] in Hs.
    change (keyOfMeta (px_ObjectMeta proxy)) with (request proxy) in Hs. rewrite Hv in Hs.
    cbn [fmap option_fmap option_map] in Hs. rewrite withStatus_proxy in Hs. cbn in Hs.
    eexists. split_and!; [exact Hs|done|apply newStatus_unchanged].
Qed.

Lemma fileGoal_local name key value s s' :
  view s' KConfigMap (inProxyNamespace proxy name) = view s KConfigMap (inProxyNamespace proxy name) ->
  fileGoal proxy name key value s -> fileGoal proxy name key value s'.
Proof. intros Hv (cm & d & Hcm & Hd). exists cm, d. by rewrite Hv. Qed.

(** Programs that write only elsewhere keep a file. *)
Lemma fileGoal_frame P name key value s s' :
  unchanged_outside P s s' -> ~ P KConfigMap (inProxyNamespace proxy name) ->
  fileGoal proxy name key value s -> fileGoal proxy name key value s'.
Proof. intros Hs Hn. apply fileGoal_local. by apply Hs. Qed.

Lemma names_distinct :
  configName proxy <> specsName proxy /\ configName proxy <> overlaysName proxy /\
  specsName proxy <> overlaysName proxy.
Proof. split_and!; intros Hn%string_app_inj_r; discriminate. Qed.

Lemma inProxyNamespace_inj a b : inProxyNamespace proxy a = inProxyNamespace proxy b -> a = b.
Proof. by intros [= ->]. Qed.

(** One kind of file: where an upstream refers to it, and where it is copied. *)
Section Files.
Context (refOf : MCPUpstream -> option ConfigMapKeyRef) (dest : string).

Definition copyFile up : Act K ReconcileError unit :=
  match refOf up with
  | None => aret tt
  | Some ref => copySource ownerError proxy up ref dest
  end.

Lemma copySource_Ok up ref s s' :
  copySource ownerError proxy up ref dest s = (s', Ok tt) ->
  exists v, sourceValue s up ref = Some v /\ fileGoal proxy dest (fileKey up) v s'.
Proof.
  unfold copySource, sourceValue. intros (s1 & src & Hg%wrapping_Ok & Hr)%abind_Ok.
  rewrite (kget_Ok _ _ _ _ _ Hg). cbn [mbind option_bind].
  destruct (default ∅ (cm_Data src) !! cmr_Key ref) as [v|]; [|discriminate].
  exists v. split; [done|]. by eapply upsertConfigMap_Ok.
Qed.

Lemma copySource_keeps up ref key value s s' :
  fileKey up <> key -> copySource ownerError proxy up ref dest s = (s', Ok tt) ->
  fileGoal proxy dest key value s -> fileGoal proxy dest key value s'.
Proof.
  unfold copySource. intros Hne (s1 & src & Hg%wrapping_Ok & Hr)%abind_Ok Hf.
  destruct (default ∅ (cm_Data src) !! cmr_Key ref) as [v|]; [|discriminate].
  eapply upsertConfigMap_keeps; [exact Hne|exact Hr|].
  eapply fileGoal_local; [|exact Hf]. by eapply kget_same.
Qed.

Context (s0 : K) (all : list MCPUpstream).
Context (Hapart : forall up ref, up ∈ all -> refOf up = Some ref ->
  ~ ownObject proxy KConfigMap
      {| nn_Namespace := om_Namespace (mu_ObjectMeta up); nn_Name := cmr_Name ref |}).
Context (Hkeys : forall up up', up ∈ all -> up' ∈ all -> fileKey up = fileKey up' -> up = up').

(** The copy of [up]'s source as it was in [s0]. *)
Definition copied up s : Prop := forall ref, refOf up = Some ref ->
  exists v, sourceValue s0 up ref = Some v /\ fileGoal proxy dest (fileKey up) v s.

Lemma source_unchanged s up ref :
  up ∈ all -> refOf up = Some ref -> unchanged_outside (ownObject proxy) s0 s ->
  sourceValue s up ref = sourceValue s0 up ref.
Proof. intros Hup Hr Hs. unfold sourceValue. by rewrite (Hs _ _ (Hapart _ _ Hup Hr)). Qed.

Lemma copyFile_Ok up s s' :
  up ∈ all -> unchanged_outside (ownObject proxy) s0 s -> copyFile up s = (s', Ok tt) -> copied up s'.
Proof.
  unfold copyFile. intros Hup Hs Hr ref Href. rewrite Href in Hr.
  apply copySource_Ok in Hr. by rewrite <-(source_unchanged s) by done.
Qed.

Lemma copyFile_persists up up' s s' :
  up ∈ all -> up' ∈ all -> unchanged_outside (ownObject proxy) s0 s -> copyFile up' s = (s', Ok tt) ->
  copied up s -> copied up s'.
Proof.
  intros Hup Hup' Hs Hr Hc. destruct (decide (fileKey up' = fileKey up)) as [Hk|Hk].
  - apply Hkeys in Hk as ->; [|done..]. by eapply copyFile_Ok.
  - intros ref Href. destruct (Hc ref Href) as (v & Hv & Hf). exists v. split; [done|].
    unfold copyFile in Hr. destruct (refOf up'); [|by injection Hr as <-].
    by eapply copySource_keeps.
Qed.

Lemma copied_frame P up s s' :
  unchanged_outside P s s' -> ~ P KConfigMap (inProxyNamespace proxy dest) -> copied up s -> copied up s'.
Proof.
  intros Hs Hn Hc ref Href. destruct (Hc ref Href) as (v & Hv & Hf). exists v. split; [done|].
  by eapply fileGoal_frame.
Qed.

Lemma copyFile_writes up : writes (at_name proxy KConfigMap dest) (copyFile up).
Proof. unfold copyFile. case_match; [apply copySource_writes|auto with writes]. Qed.
End Files.

Section Fold.
Context (s0 : K) (all : list MCPUpstream) (Hsep : separate proxy all).

Abbreviation specDone := (copied specRef (specsName proxy) s0).
Abbreviation overlayDone := (copied overlayRef (overlaysName proxy) s0).
Abbreviation untouched s := (unchanged_outside (ownObject proxy) s0 s).

Lemma at_name_own name s s' :
  name ∈ [configName proxy; specsName proxy; overlaysName proxy] -> untouched s ->
  unchanged_outside (at_name proxy KConfigMap name) s s' -> untouched s'.
Proof.
  intros Hn Hs Hs'. eapply unchanged_outside_trans; [exact Hs|].
  eapply unchanged_outside_weaken; [|exact Hs']. by apply one_owns.
Qed.

(** One upstream: its two files are copied, and those copied before stay. *)
Lemma copyFiles_Ok up s s1 s2 :
  up ∈ all -> untouched s ->
  copyFile specRef (specsName proxy) up s = (s1, Ok tt) ->
  copyFile overlayRef (overlaysName proxy) up s1 = (s2, Ok tt) ->
  untouched s2 /\ specDone up s2 /\ overlayDone up s2 /\
  forall up0, up0 ∈ all -> (specDone up0 s -> specDone up0 s2) /\ (overlayDone up0 s -> overlayDone up0 s2).
Proof.
  intros Hup Hs Hr1 Hr2. destruct Hsep as [Hapart Hkeys]. destruct names_distinct as (_ & _ & Hne).
  pose proof (fun up ref Hu Hr => Hapart up ref Hu (or_introl Hr)) as Hap1.
  pose proof (fun up ref Hu Hr => Hapart up ref Hu (or_intror Hr)) as Hap2.
  pose proof (copyFile_writes _ _ _ _ _ _ Hr1) as Hw1. pose proof (copyFile_writes _ _ _ _ _ _ Hr2) as Hw2.
  assert (Hs1 : untouched s1) by (eapply at_name_own; [|done..]; set_solver).
  assert (Hs2 : untouched s2) by (eapply at_name_own; [|done..]; set_solver).
  assert (Hn1 : ~ at_name proxy KConfigMap (specsName proxy) KConfigMap (inProxyNamespace proxy (overlaysName proxy)))
    by (intros [_ Hi%inProxyNamespace_inj]; congruence).
  assert (Hn2 : ~ at_name proxy KConfigMap (overlaysName proxy) KConfigMap (inProxyNamespace proxy (specsName proxy)))
    by (intros [_ Hi%inProxyNamespace_inj]; congruence).
  split; [done|]. split; [|split].
  - eapply copied_frame; [exact Hw2|done|]. eapply copyFile_Ok; [exact Hap1|exact Hup|exact Hs|exact Hr1].
  - eapply copyFile_Ok; [exact Hap2|exact Hup|exact Hs1|exact Hr2].
  - intros up0 Hup0. split; intros Hd.
    + eapply copied_frame; [exact Hw2|done|]. by eapply (copyFile_persists _ _ s0 all Hap1 Hkeys up0 up s).
    + eapply (copyFile_persists _ _ s0 all Hap2 Hkeys up0 up s1); [done..|]. eapply copied_frame; [exact Hw1|exact Hn1|exact Hd].
Qed.

Lemma reconcileUpstreamConfigMaps_Ok ups s s' :
  (forall up, up ∈ ups -> up ∈ all) -> untouched s ->
  reconcileUpstreamConfigMaps ownerError proxy ups s = (s', Ok tt) ->
  (forall up, up ∈ ups -> isCommand up = false -> specDone up s' /\ overlayDone up s') /\
  forall up0, up0 ∈ all -> (specDone up0 s -> specDone up0 s') /\ (overlayDone up0 s -> overlayDone up0 s').
Proof.
  revert s. induction ups as [|up ups IH]; cbn [reconcileUpstreamConfigMaps]; intros s Hin Hs.
  { intros [= <-]. split; [set_solver|auto]. }
  destruct (isCommand up) eqn:Hcmd.
  { intros Hr. apply IH in Hr as [Hd Hp]; [|set_solver|done]. split; [|done].
    intros up1 [->|]%elem_of_cons ?; [congruence|auto]. }
  intros (s1 & [] & Hr1 & (s2 & [] & Hr2 & Hr3)%abind_Ok)%abind_Ok.
  destruct (copyFiles_Ok up s s1 s2) as (Hs2 & Hsp & Hov & Hkeep); [set_solver|done..|].
  apply IH in Hr3 as [Hd Hp]; [|set_solver|done]. split.
  - intros up1 [->|]%elem_of_cons ?; [|auto]. destruct (Hp up) as [Hp1 Hp2]; [set_solver|auto].
  - intros up0 Hup0. destruct (Hkeep up0 Hup0), (Hp up0 Hup0). auto.
Qed.

Lemma files_done ups s s' :
  (forall up, up ∈ ups -> up ∈ all) -> untouched s ->
  reconcileUpstreamConfigMaps ownerError proxy ups s = (s', Ok tt) -> filesGoal proxy s0 ups s'.
Proof.
  intros Hin Hs Hr up Hup Hcmd.
  destruct (reconcileUpstreamConfigMaps_Ok ups s s' Hin Hs Hr) as [Hd _].
  destruct (Hd up Hup Hcmd) as [Hsp Hov]. by split.
Qed.
End Fold.
End Converges.

Section Pass.
Context `{KubeTypes, KubeDefaults, Conditions, Unicode} {K : Type} `{!KubeApi K, !KubeLaws K}.
Context `{!ServerDefaults K, !ConditionLaws}.
Context (yaml_Marshal : generatedProxyConfig -> result string string).
Context (ownerError : option string).
Implicit Types (s : K) (up : MCPUpstream) (proxy : MCPProxy).

(** What the proxy [req] selects in a pass that starts in [s]. *)
Definition selected (req : NamespacedName) s (proxy : MCPProxy) (crd svc : list MCPUpstream) : Prop :=
  exists s1 s2 s3, kget KProxy req s = (s1, Ok proxy) /\ listUpstreams proxy s1 = (s2, Ok crd) /\
    listAnnotatedServices proxy s2 = (s3, Ok svc).

Section Goals.
Context (proxy : MCPProxy).
Let pname := om_Name (px_ObjectMeta proxy).

Lemma configGoal_local data s s' :
  view s' KConfigMap (inProxyNamespace proxy (configName proxy)) =
    view s KConfigMap (inProxyNamespace proxy (configName proxy)) ->
  configGoal proxy data s -> configGoal proxy data s'.
Proof. unfold configGoal. by intros ->. Qed.
Lemma deploymentGoal_local ups s s' :
  view s' KDeployment (inProxyNamespace proxy pname) = view s KDeployment (inProxyNamespace proxy pname) ->
  deploymentGoal ownerError proxy ups s -> deploymentGoal ownerError proxy ups s'.
Proof. unfold deploymentGoal, pname. by intros ->. Qed.
Lemma serviceGoal_local s s' :
  view s' KService (inProxyNamespace proxy pname) = view s KService (inProxyNamespace proxy pname) ->
  serviceGoal ownerError proxy s -> serviceGoal ownerError proxy s'.
Proof. unfold serviceGoal, pname. by intros ->. Qed.
Lemma routeGoal_local s s' :
  view s' KRoute (inProxyNamespace proxy pname) = view s KRoute (inProxyNamespace proxy pname) ->
  routeGoal ownerError proxy s -> routeGoal ownerError proxy s'.
Proof. unfold routeGoal, pname. by intros ->. Qed.
Lemma filesGoal_local s0 ups s s' :
  (forall name, name ∈ [specsName proxy; overlaysName proxy] ->
    view s' KConfigMap (inProxyNamespace proxy name) = view s KConfigMap (inProxyNamespace proxy name)) ->
  filesGoal proxy s0 ups s -> filesGoal proxy s0 ups s'.
Proof.
  intros Hv Hf up Hup Hcmd. destruct (Hf up Hup Hcmd) as [Hsp Hov].
  split; intros ref Href; [destruct (Hsp ref Href) as (v & ? & Hg)|destruct (Hov ref Href) as (v & ? & Hg)];
    exists v; (split; [done|]); eapply fileGoal_local; try exact Hg; apply Hv; rewrite !elem_of_cons; auto.
Qed.

(** The steps of a pass and where each writes. *)
Lemma step_frame k0 name s s' k n :
  unchanged_outside (at_name proxy k0 name) s s' -> (k, n) <> (k0, inProxyNamespace proxy name) ->
  view s' k n = view s k n.
Proof. intros Hs Hne. apply Hs. intros [-> ->]. done. Qed.

(** The copies of the files write two ConfigMaps only. *)
Definition fileMaps : Footprint := fun k n =>
  k = KConfigMap /\ (n = inProxyNamespace proxy (specsName proxy) \/
                     n = inProxyNamespace proxy (overlaysName proxy)).

Lemma upstreamConfigMaps_writes ups :
  writes fileMaps (reconcileUpstreamConfigMaps ownerError proxy ups : Act K _ _).
Proof.
  induction ups as [|up ups IH]; cbn [reconcileUpstreamConfigMaps]; [auto with writes|].
  case_match; [done|].
  assert (Hw : forall refOf name, name ∈ [specsName proxy; overlaysName proxy] ->
    writes fileMaps (copyFile ownerError proxy refOf name up : Act K _ _)).
  { intros refOf name Hn. eapply writes_weaken; [|apply copyFile_writes].
    intros k n [-> ->]. split; [done|]. rewrite !elem_of_cons, elem_of_nil in Hn. intuition congruence. }
  apply writes_bind; [by apply (Hw specRef); rewrite !elem_of_cons; auto|intros _].
  apply writes_bind; [by apply (Hw overlayRef); rewrite !elem_of_cons; auto|done].
Qed.

Lemma reconcileProxy_Ok s s' d :
  view s KProxy (request proxy) = Some proxy ->
  reconcileProxy yaml_Marshal ownerError proxy s = (s', Ok d) ->
  exists crd svc s1 s2 data,
    listUpstreams proxy s = (s1, Ok crd) /\ listAnnotatedServices proxy s1 = (s2, Ok svc) /\
    ConfigGen.Generate yaml_Marshal proxy (crd ++ svc) = Ok data /\ d = periodicSyncInterval /\
    configGoal proxy data s' /\ (separate proxy (crd ++ svc) -> filesGoal proxy s (crd ++ svc) s') /\
    deploymentGoal ownerError proxy (crd ++ svc) s' /\ serviceGoal ownerError proxy s' /\
    routeGoal ownerError proxy s' /\
    statusGoal proxy (length crd) (length svc) (detectPrefixConflicts crd svc) s'.
Proof.
  intros Hproxy (s1 & crd & Hcrd & (s2 & svc & Hsvc & Hr)%abind_Ok)%abind_Ok.
  pose proof (listUpstreams_writes _ _ _ _ Hcrd) as Hw1.
  pose proof (listAnnotatedServices_writes _ _ _ _ Hsvc) as Hw2.
  assert (Hsame : forall k n, view s2 k n = view s k n)
    by (intros k n; by rewrite (Hw2 k n), (Hw1 k n) by auto).
  cbv zeta in Hr. destruct (ConfigGen.Generate yaml_Marshal proxy (crd ++ svc)) as [data|err] eqn:Hgen.
  2:{ apply abind_Ok in Hr as (s3 & [] & Hf & _). unfold reportGenFailure in Hf.
      by destruct (setCondition _ _ _ _ _ _). }
  apply abind_Ok in Hr as (s3 & [] & Hc & (s4 & [] & Hf & (s5 & [] & Hd & (s6 & [] & Hv & (s7 & [] & Hh &
    (s8 & [] & Hst & [= <- <-])%abind_Ok)%abind_Ok)%abind_Ok)%abind_Ok)%abind_Ok).
  pose proof (reconcileConfigMap_writes _ _ _ _ _ _ Hc) as Wc.
  pose proof (upstreamConfigMaps_writes _ _ _ _ Hf) as Wf.
  pose proof (reconcileDeployment_writes _ _ _ _ _ _ Hd) as Wd.
  pose proof (reconcileService_writes _ _ _ _ _ Hv) as Wv.
  pose proof (reconcileHTTPRoute_writes _ _ _ _ _ Hh) as Wh.
  pose proof (updateStatus_writes _ _ _ _ _ _ _ Hst) as Ws.
  destruct names_distinct with (proxy := proxy) as (Hn1 & Hn2 & _).
  assert (Hcm : forall n, view s8 KConfigMap n = view s4 KConfigMap n).
  { intros n. by rewrite (step_frame _ _ _ _ _ _ Ws), (step_frame _ _ _ _ _ _ Wh),
      (step_frame _ _ _ _ _ _ Wv), (step_frame _ _ _ _ _ _ Wd). }
  exists crd, svc, s1, s2, data. split_and!; try done.
  - eapply configGoal_local; [|by eapply reconcileConfigMap_Ok]. rewrite Hcm. apply Wf.
    intros [_ [Hi|Hi]]; apply inProxyNamespace_inj in Hi; congruence.
  - intros Hsep. eapply filesGoal_local; [intros name _; apply Hcm|].
    eapply files_done; [exact Hsep|auto| |exact Hf].
    eapply at_name_own; [| |exact Wc]; [set_solver|].
    apply same_unchanged. exact Hsame.
  - eapply deploymentGoal_local; [|by eapply reconcileDeployment_Ok].
    by rewrite (step_frame _ _ _ _ _ _ Ws), (step_frame _ _ _ _ _ _ Wh), (step_frame _ _ _ _ _ _ Wv).
  - eapply serviceGoal_local; [|by eapply reconcileService_Ok].
    by rewrite (step_frame _ _ _ _ _ _ Ws), (step_frame _ _ _ _ _ _ Wh).
  - eapply routeGoal_local; [|by eapply reconcileHTTPRoute_Ok].
    by rewrite (step_frame _ _ _ _ _ _ Ws).
  - eapply updateStatus_Ok; [|exact Hst].
    rewrite (step_frame _ _ _ _ _ _ Wh), (step_frame _ _ _ _ _ _ Wv), (step_frame _ _ _ _ _ _ Wd) by done.
    rewrite (Wf KProxy) by (by intros [? _]). by rewrite (step_frame _ _ _ _ _ _ Wc), Hsame.
Qed.

Lemma reconcileProxy_delay s s' d :
  reconcileProxy yaml_Marshal ownerError proxy s = (s', Ok d) -> d = periodicSyncInterval.
Proof.
  intros (s1 & crd & _ & (s2 & svc & _ & Hr)%abind_Ok)%abind_Ok. cbv zeta in Hr. case_match.
  - apply abind_Ok in Hr as (? & ? & _ & (? & ? & _ & (? & ? & _ & (? & ? & _ & (? & ? & _ &
      (? & ? & _ & [= _ <-])%abind_Ok)%abind_Ok)%abind_Ok)%abind_Ok)%abind_Ok). done.
  - apply abind_Ok in Hr as (s3 & [] & Hf & _). unfold reportGenFailure in Hf.
    by destruct (setCondition _ _ _ _ _ _).
Qed.

(** A failed generation is reported in the status of the proxy only. *)
Lemma reconcileProxy_failure s s' s1 s2 r crd svc err :
  listUpstreams proxy s = (s1, Ok crd) -> listAnnotatedServices proxy s1 = (s2, Ok svc) ->
  ConfigGen.Generate yaml_Marshal proxy (crd ++ svc) = Err err ->
  reconcileProxy yaml_Marshal ownerError proxy s = (s', r) ->
  r = Err (GeneratingConfig err) /\ unchanged_outside (at_name proxy KProxy pname) s s'.
Proof.
  intros Hcrd Hsvc Hgen. unfold reconcileProxy.
  unfold abind at 1. rewrite Hcrd. unfold abind at 1. rewrite Hsvc. cbv zeta. rewrite Hgen.
  unfold abind, reportGenFailure. destruct (setCondition _ _ _ _ _ s2) as [s3 q] eqn:Hs.
  intros [= <- <-]. split; [done|].
  eapply unchanged_outside_trans; [|by eapply setCondition_writes].
  eapply unchanged_outside_trans; eapply reads_writes;
    [apply listUpstreams_writes|exact Hcrd|apply listAnnotatedServices_writes|exact Hsvc].
Qed.
End Goals.
End Pass.
