(* ===== verification/OperatorStable.v ===== *)
(** * When a pass of the operator changes nothing, and when it succeeds

    A step whose goal holds already leaves every object as it is, and a step
    succeeds when no call of the client fails. *)
From S2P Require Export OperatorGoals.
Open Scope Z_scope.

(** ** A pass over objects that are as they should be *)
Section Quiet.
Context `{KubeTypes, KubeDefaults, Conditions, Unicode} {K : Type} `{!KubeApi K, !KubeLaws K}.
Context (yaml_Marshal : generatedProxyConfig -> result string string).
Context (ownerError : option string).
Implicit Types (s : K) (up : MCPUpstream).

Definition quiet_at {E A} (m : Act K E A) s : Prop := forall s' r, m s = (s', r) -> same_objects s s'.

Lemma quiet_reads {E A} (m : Act K E A) s : writes nothing m -> quiet_at m s.
Proof. intros Hm s' r Hr k n. apply (Hm _ _ _ Hr). by intros []. Qed.

Lemma quiet_bind {E A B} (m : Act K E A) (f : A -> Act K E B) s :
  quiet_at m s -> (forall s1 a, m s = (s1, Ok a) -> same_objects s s1 -> quiet_at (f a) s1) ->
  quiet_at (abind m f) s.
Proof.
  intros Hm Hf s' r. unfold abind. destruct (m s) as [s1 [a|e]] eqn:Hms.
  - intros Hfs. eapply same_objects_trans; [by eapply Hm|]. eapply Hf; [done|by eapply Hm|done].
  - intros [= <- <-]. by eapply Hm.
Qed.

Lemma differs_same k n o s s' : differs_at k n o s s' -> view s k n = o -> same_objects s s'.
Proof.
  intros [Hv Hd] Ho k' n'. destruct (decide (k' = k)) as [->|Hk]; [|apply Hd; congruence].
  destruct (decide (n' = n)) as [->|Hn]; [congruence|apply Hd; congruence].
Qed.

(** Writing what is there already. *)
Lemma quiet_update (w : ApiError -> ReconcileError) k o s d :
  view s k (keyOf k o) = Some d -> stored k (Some d) o = d ->
  quiet_at (attempt w (kupdate k o)) s.
Proof.
  intros Hv Hs s' r. unfold attempt. destruct (kupdate k o s) as [s1 [e|]] eqn:Hu; intros [= <- <-].
  - by apply kupdate_Err in Hu.
  - apply kupdate_Ok in Hu. rewrite Hv, Hs in Hu. by eapply differs_same.
Qed.

Section Steps.
Context (proxy : MCPProxy).

Lemma reconcileConfigMap_quiet data s :
  configGoal proxy data s -> quiet_at (reconcileConfigMap ownerError proxy data) s.
Proof.
  intros (cm & Hv & Hd) s' r. unfold reconcileConfigMap.
  destruct (kget _ _ s) as [s1 [cm'|[| |]]] eqn:Hg; destruct (kget_same _ _ _ _ _ Hg) as [Hsame _];
    try by intros [= <- <-].
  - apply kget_Ok in Hg. rewrite Hv in Hg. injection Hg as <-.
    rewrite bool_decide_eq_true_2 by done. by intros [= <- <-].
  - apply kget_NotFound in Hg. congruence.
Qed.

Lemma upsertConfigMap_quiet name key value s :
  fileGoal proxy name key value s -> quiet_at (upsertConfigMap ownerError proxy name key value) s.
Proof.
  intros (cm & data & Hv & Hd & Hval) s' r. unfold upsertConfigMap.
  destruct (kget _ _ s) as [s1 [cm'|[| |]]] eqn:Hg; destruct (kget_same _ _ _ _ _ Hg) as [Hsame _];
    try by intros [= <- <-].
  - apply kget_Ok in Hg. rewrite Hv in Hg. injection Hg as <-. rewrite Hd.
    rewrite bool_decide_eq_true_2 by done. by intros [= <- <-].
  - apply kget_NotFound in Hg. congruence.
Qed.

Lemma copySource_quiet up ref dest v s :
  sourceValue s up ref = Some v -> fileGoal proxy dest (fileKey up) v s ->
  quiet_at (copySource ownerError proxy up ref dest) s.
Proof.
  intros Hv Hf. unfold copySource. apply quiet_bind; [apply quiet_reads; auto with writes|].
  intros s1 src Hg%wrapping_Ok Hsame. unfold sourceValue in Hv.
  rewrite (kget_Ok _ _ _ _ _ Hg) in Hv. cbn [mbind option_bind] in Hv. rewrite Hv.
  apply upsertConfigMap_quiet. eapply fileGoal_local; [apply Hsame|done].
Qed.

Lemma reconcileDeployment_quiet ups s :
  deploymentGoal ownerError proxy ups s -> quiet_at (reconcileDeployment ownerError proxy ups) s.
Proof.
  intros (d & Hv & _ & Hd) s' r. unfold reconcileDeployment.
  destruct (kget _ _ s) as [s1 [d'|[| |]]] eqn:Hg; destruct (kget_same _ _ _ _ _ Hg) as [Hsame _];
    try by intros [= <- <-].
  - pose proof (kget_Ok _ _ _ _ _ Hg) as Hd'. rewrite Hv in Hd'. injection Hd' as <-.
    case_bool_decide as Hspec; [by intros [= <- <-]|]. destruct Hd as [?|Hd]; [done|].
    intros Hr. eapply same_objects_trans; [exact Hsame|]. eapply quiet_update; [|exact Hd|exact Hr].
    rewrite Hsame. change (keyOf KDeployment _) with (keyOf KDeployment d). by rewrite (view_key _ _ _ _ Hv).
  - apply kget_NotFound in Hg. congruence.
Qed.

Lemma reconcileService_quiet s :
  serviceGoal ownerError proxy s -> quiet_at (reconcileService ownerError proxy) s.
Proof.
  intros (d & Hv & _ & Hsel & Hd) s' r. unfold reconcileService.
  destruct (kget _ _ s) as [s1 [d'|[| |]]] eqn:Hg; destruct (kget_same _ _ _ _ _ Hg) as [Hsame _];
    try by intros [= <- <-].
  - pose proof (kget_Ok _ _ _ _ _ Hg) as Hd'. rewrite Hv in Hd'. injection Hd' as <-.
    rewrite Hsel, (bool_decide_eq_true_2 (svc_Selector _ = _)), andb_true_r by done.
    case_bool_decide as Hspec; [by intros [= <- <-]|]. destruct Hd as [?|Hd]; [done|].
    intros Hr. eapply same_objects_trans; [exact Hsame|]. eapply quiet_update; [|exact Hd|exact Hr].
    rewrite Hsame. change (keyOf KService _) with (keyOf KService d). by rewrite (view_key _ _ _ _ Hv).
  - apply kget_NotFound in Hg. congruence.
Qed.

Lemma reconcileHTTPRoute_quiet s :
  routeGoal ownerError proxy s -> quiet_at (reconcileHTTPRoute ownerError proxy) s.
Proof.
  unfold routeGoal. intros Hgoal s' r. unfold reconcileHTTPRoute.
  destruct (kget _ _ s) as [s1 q] eqn:Hg; destruct (kget_same _ _ _ _ _ Hg) as [Hsame _].
  destruct (pxs_GatewayRef _) as [gw|], q as [d'|[| |]]; try by intros [= <- <-].
  - destruct Hgoal as (d & Hv & _ & Hd).
    pose proof (kget_Ok _ _ _ _ _ Hg) as Hd'. rewrite Hv in Hd'. injection Hd' as <-.
    case_bool_decide as Hspec; [by intros [= <- <-]|]. destruct Hd as [?|Hd]; [done|].
    intros Hr. eapply same_objects_trans; [exact Hsame|]. eapply quiet_update; [|exact Hd|exact Hr].
    rewrite Hsame. change (keyOf KRoute _) with (keyOf KRoute d). by rewrite (view_key _ _ _ _ Hv).
  - destruct Hgoal as (d & Hv & _). apply kget_NotFound in Hg. congruence.
  - apply kget_Ok in Hg. congruence.
Qed.

Lemma updateStatus_quiet crd svc conflicts s :
  statusUnchanged proxy crd svc conflicts = true -> quiet_at (updateStatus proxy crd svc conflicts) s.
Proof. intros Hu s' r. unfold updateStatus. rewrite Hu. by intros [= <- <-]. Qed.

(** The copies, when the sources are as they were in [s0]. *)
Lemma copyFile_quiet refOf dest s0 (all : list MCPUpstream) up s :
  (forall up ref, up ∈ all -> refOf up = Some ref -> ~ ownObject proxy KConfigMap
     {| nn_Namespace := om_Namespace (mu_ObjectMeta up); nn_Name := cmr_Name ref |}) ->
  up ∈ all -> unchanged_outside (ownObject proxy) s0 s ->
  copied proxy refOf dest s0 up s -> quiet_at (copyFile ownerError proxy refOf dest up) s.
Proof.
  intros Hapart Hup Hs Hc. unfold copyFile. destruct (refOf up) as [ref|] eqn:Href.
  - destruct (Hc ref Href) as (v & Hv & Hf). eapply copySource_quiet; [|exact Hf].
    by rewrite (source_unchanged _ _ s0 all Hapart s) by done.
  - by intros s' r [= <- <-].
Qed.

Lemma copied_local refOf dest s0 up s s' :
  same_objects s s' -> copied proxy refOf dest s0 up s -> copied proxy refOf dest s0 up s'.
Proof.
  intros Hs Hc ref Href. destruct (Hc ref Href) as (v & Hv & Hf). exists v. split; [done|].
  eapply fileGoal_local; [apply Hs|done].
Qed.

Lemma reconcileUpstreamConfigMaps_quiet s0 (all ups : list MCPUpstream) s :
  separate proxy all -> (forall up, up ∈ ups -> up ∈ all) ->
  unchanged_outside (ownObject proxy) s0 s -> filesGoal proxy s0 all s ->
  quiet_at (reconcileUpstreamConfigMaps ownerError proxy ups) s.
Proof.
  intros [Hapart Hkeys]. revert s. induction ups as [|up ups IH]; cbn [reconcileUpstreamConfigMaps];
    intros s Hin Hs Hf; [by intros s' r [= <- <-]|].
  assert (Hup : up ∈ all) by set_solver.
  destruct (isCommand up) eqn:Hcmd; [apply IH; [set_solver|done..]|].
  assert (Htrans : forall s1, same_objects s s1 -> unchanged_outside (ownObject proxy) s0 s1)
    by (intros s1 Hs1 k n Hn; rewrite Hs1; by apply Hs).
  apply quiet_bind.
  { eapply (copyFile_quiet specRef _ s0 all); [|done..|]; [by eauto|]. exact (proj1 (Hf up Hup Hcmd)). }
  intros s1 [] _ Hs1. apply quiet_bind.
  { eapply (copyFile_quiet overlayRef _ s0 all); [by eauto|done|by apply Htrans|].
    eapply copied_local; [exact Hs1|]. exact (proj2 (Hf up Hup Hcmd)). }
  intros s2 [] _ Hs2. assert (Hs12 : same_objects s s2) by by eapply same_objects_trans.
  apply IH; [set_solver|by apply Htrans|]. eapply filesGoal_local; [|exact Hf]. intros name _. apply Hs12.
Qed.

(** Everything a pass over the selection of the proxy could change is as it should
    be, and the sources are as they were in [s0]. *)
Record settled (s0 : K) (crd svc : list MCPUpstream) (data : string) s : Prop := {
  settled_separate : separate proxy (crd ++ svc);
  settled_outside : unchanged_outside (ownObject proxy) s0 s;
  settled_config : configGoal proxy data s;
  settled_files : filesGoal proxy s0 (crd ++ svc) s;
  settled_deployment : deploymentGoal ownerError proxy (crd ++ svc) s;
  settled_service : serviceGoal ownerError proxy s;
  settled_route : routeGoal ownerError proxy s;
  settled_status :
    statusUnchanged proxy (length crd) (length svc) (detectPrefixConflicts crd svc) = true
}.

Lemma settled_local s0 crd svc data s s' :
  same_objects s s' -> settled s0 crd svc data s -> settled s0 crd svc data s'.
Proof.
  intros Hs [Hsep Hout Hc Hf Hd Hv Hr Hst]. split; try done.
  - intros k n Hn. rewrite Hs. by apply Hout.
  - eapply configGoal_local; [apply Hs|done].
  - eapply filesGoal_local; [intros name _; apply Hs|done].
  - eapply deploymentGoal_local; [apply Hs|done].
  - eapply serviceGoal_local; [apply Hs|done].
  - eapply routeGoal_local; [apply Hs|done].
Qed.

(** The steps after the generation. *)
Lemma steps_quiet s0 crd svc data s :
  settled s0 crd svc data s ->
  quiet_at (reconcileConfigMap ownerError proxy data ;;;
            reconcileUpstreamConfigMaps ownerError proxy (crd ++ svc) ;;;
            reconcileDeployment ownerError proxy (crd ++ svc) ;;;
            reconcileService ownerError proxy ;;;
            reconcileHTTPRoute ownerError proxy ;;;
            updateStatus proxy (length crd) (length svc) (detectPrefixConflicts crd svc) ;;;
            aret periodicSyncInterval)%act s.
Proof.
  intros Hs.
  assert (Hnext : forall t t', settled s0 crd svc data t -> same_objects t t' -> settled s0 crd svc data t')
    by (intros; by eapply settled_local).
  apply quiet_bind; [by eapply reconcileConfigMap_quiet, settled_config|].
  intros t1 [] _ Ht1. apply (Hnext s t1 Hs) in Ht1. apply quiet_bind.
  { destruct Ht1. by eapply (reconcileUpstreamConfigMaps_quiet s0 (crd ++ svc)). }
  intros t2 [] _ Ht2. apply (Hnext t1 t2 Ht1) in Ht2.
  apply quiet_bind; [by eapply reconcileDeployment_quiet, settled_deployment|].
  intros t3 [] _ Ht3. apply (Hnext t2 t3 Ht2) in Ht3.
  apply quiet_bind; [by eapply reconcileService_quiet, settled_service|].
  intros t4 [] _ Ht4. apply (Hnext t3 t4 Ht3) in Ht4.
  apply quiet_bind; [by eapply reconcileHTTPRoute_quiet, settled_route|].
  intros t5 [] _ _. apply quiet_bind; [by eapply updateStatus_quiet, settled_status|].
  by intros t6 [] _ _ t7 r' [= <- <-].
Qed.

Lemma reconcileProxy_quiet s0 crd svc s s1 s2 :
  listUpstreams proxy s = (s1, Ok crd) -> listAnnotatedServices proxy s1 = (s2, Ok svc) ->
  (exists data, ConfigGen.Generate yaml_Marshal proxy (crd ++ svc) = Ok data /\ settled s0 crd svc data s) ->
  quiet_at (reconcileProxy yaml_Marshal ownerError proxy) s.
Proof.
  intros Hcrd Hsvc (data & Hgen & Hs).
  pose proof (quiet_reads _ _ (listUpstreams_writes _) _ _ Hcrd) as Hs1.
  pose proof (quiet_reads _ _ (listAnnotatedServices_writes _) _ _ Hsvc) as Hs2.
  unfold reconcileProxy. apply quiet_bind; [apply quiet_reads, listUpstreams_writes|].
  intros ? ? [= <- <-]%(eq_trans (eq_sym Hcrd)) _.
  apply quiet_bind; [apply quiet_reads, listAnnotatedServices_writes|].
  intros ? ? [= <- <-]%(eq_trans (eq_sym Hsvc)) _. cbv zeta. rewrite Hgen.
  eapply steps_quiet, settled_local; [|exact Hs]. by eapply same_objects_trans.
Qed.
End Steps.
End Quiet.

(** ** A pass without failures succeeds *)
Section Total.
Context `{KubeTypes, KubeDefaults, Conditions, Unicode} {K : Type} `{!KubeApi K, !KubeLaws K}.
Context (yaml_Marshal : generatedProxyConfig -> result string string).
Implicit Types (s : K) (up : MCPUpstream).

Definition succeeds_at {E A} (m : Act K E A) s : Prop :=
  faultless s -> exists s' a, m s = (s', Ok a) /\ faultless s'.

Lemma succeeds_aret {E A} (a : A) s : succeeds_at (aret a : Act K E A) s.
Proof. intros Hs. by exists s, a. Qed.

Lemma succeeds_bind {E A B} (m : Act K E A) (f : A -> Act K E B) s :
  succeeds_at m s -> (forall s1 a, m s = (s1, Ok a) -> succeeds_at (f a) s1) -> succeeds_at (abind m f) s.
Proof.
  intros Hm Hf Hs. destruct (Hm Hs) as (s1 & a & Hms & Hs1).
  destruct (Hf s1 a Hms Hs1) as (s2 & b & Hfs & Hs2). exists s2, b. unfold abind. by rewrite Hms.
Qed.

Lemma succeeds_wrapping {E E' A} (w : E' -> E) (m : Act K E' A) s :
  succeeds_at m s -> succeeds_at (wrapping w m) s.
Proof.
  intros Hm Hs. destruct (Hm Hs) as (s1 & a & Hms & Hs1). exists s1, a. unfold wrapping. by rewrite Hms.
Qed.

Lemma get_total k n s : faultless s ->
  exists s1, kget k n s = (s1, match view s k n with Some o => Ok o | None => Err NotFound end) /\
    faultless s1 /\ same_objects s s1.
Proof.
  intros Hs. pose proof (kget_faultless k n s Hs) as Hr.
  destruct (kget k n s) as [s1 r] eqn:Hg. cbn in Hr. subst r. exists s1. split; [done|].
  destruct (kget_same _ _ _ _ _ Hg). auto.
Qed.

Lemma succeeds_list k ns sel s : succeeds_at (klist k ns sel : Act K ApiError _) s.
Proof.
  intros Hs. destruct (klist_faultless k ns sel s Hs) as [l Hl].
  destruct (klist k ns sel s) as [s1 r] eqn:Hg. cbn in Hl. subst r. exists s1, l.
  split; [done|]. by eapply klist_same.
Qed.

Lemma succeeds_get k n o s : view s k n = Some o -> succeeds_at (kget k n : Act K ApiError _) s.
Proof. intros Hv Hs. destruct (get_total k n s Hs) as (s1 & Hg & ? & _). rewrite Hv in Hg. eauto. Qed.

Lemma succeeds_call (w : ApiError -> ReconcileError) (call : K -> K * option ApiError) s :
  (faultless s -> faultless (call s).1 /\ (call s).2 = None) -> succeeds_at (attempt w call) s.
Proof.
  intros Hc Hs. destruct (Hc Hs) as [Hf Hn]. unfold attempt.
  destruct (call s) as [s1 e]. cbn in *. subst e. eauto.
Qed.

Lemma succeeds_update (w : ApiError -> ReconcileError) k o s :
  is_Some (view s k (keyOf k o)) -> succeeds_at (attempt w (kupdate k o)) s.
Proof. intros Hv. apply succeeds_call. intros Hs. destruct (kupdate_faultless k o s Hs). auto. Qed.
Lemma succeeds_create (w : ApiError -> ReconcileError) k o s :
  view s k (keyOf k o) = None -> succeeds_at (attempt w (kcreate k o)) s.
Proof. intros Hv. apply succeeds_call. intros Hs. destruct (kcreate_faultless k o s Hs). auto. Qed.
Lemma succeeds_status (w : ApiError -> ReconcileError) k o s :
  is_Some (view s k (keyOf k o)) -> succeeds_at (attempt w (kstatus k o)) s.
Proof. intros Hv. apply succeeds_call. intros Hs. destruct (kstatus_faultless k o s Hs). auto. Qed.
Lemma succeeds_delete (w : ApiError -> ReconcileError) k o s :
  is_Some (view s k (keyOf k o)) -> succeeds_at (attempt w (kdelete k o)) s.
Proof. intros Hv. apply succeeds_call. intros Hs. destruct (kdelete_faultless k o s Hs). auto. Qed.

Lemma listUpstreamsIn_succeeds sel nss s : succeeds_at (listUpstreamsIn sel nss : Act K _ _) s.
Proof.
  revert s. induction nss as [|ns nss IH]; intros s; cbn [listUpstreamsIn]; [apply succeeds_aret|].
  apply succeeds_bind; [apply succeeds_wrapping, succeeds_list|]. intros s1 items _.
  apply succeeds_bind; [apply IH|]. intros s2 others _. apply succeeds_aret.
Qed.

Lemma listServicesIn_succeeds proxy nss s : succeeds_at (listServicesIn proxy nss : Act K _ _) s.
Proof.
  revert s. induction nss as [|ns nss IH]; intros s; cbn [listServicesIn]; [apply succeeds_aret|].
  apply succeeds_bind; [apply succeeds_wrapping, succeeds_list|]. intros s1 items _.
  apply succeeds_bind; [apply IH|]. intros s2 others _. apply succeeds_aret.
Qed.

Lemma listUpstreams_succeeds proxy s :
  is_Some (LabelSelectorAsSelector (pxs_UpstreamSelector (px_Spec proxy))) ->
  succeeds_at (listUpstreams proxy : Act K _ _) s.
Proof. intros [sel Hsel]. unfold listUpstreams. rewrite Hsel. apply listUpstreamsIn_succeeds. Qed.

Lemma discoveryNamespaces_succeeds proxy s : succeeds_at (serviceDiscoveryNamespaces proxy : Act K _ _) s.
Proof.
  unfold serviceDiscoveryNamespaces. case_match; [|apply succeeds_aret].
  apply succeeds_bind; [|intros; apply succeeds_aret]. case_match; [apply succeeds_aret|].
  apply succeeds_bind; [apply succeeds_wrapping, succeeds_list|intros; apply succeeds_aret].
Qed.

Lemma listAnnotatedServices_succeeds proxy s : succeeds_at (listAnnotatedServices proxy : Act K _ _) s.
Proof.
  unfold listAnnotatedServices. case_match; [|apply succeeds_aret].
  apply succeeds_bind; [apply discoveryNamespaces_succeeds|]. intros. apply listServicesIn_succeeds.
Qed.

Section Steps.
Context (proxy : MCPProxy).

Lemma createConfigMap_succeeds name data s :
  view s KConfigMap (inProxyNamespace proxy name) = None ->
  succeeds_at (createConfigMap None proxy name data) s.
Proof. intros Hv. unfold createConfigMap. apply succeeds_create. exact Hv. Qed.

(** The outcome of reading an object of the proxy first. *)
Ltac get_first s :=
  let o := fresh "o" in
  let s1 := fresh "s1" in let Hg := fresh "Hg" in let Hs1 := fresh "Hs1" in let Hsame := fresh "Hsame" in
  let Hv := fresh "Hv" in
  match goal with |- context [kget ?k ?n s] =>
    destruct (get_total k n s ltac:(done)) as (s1 & Hg & Hs1 & Hsame); rewrite Hg;
    destruct (view s k n) as [o|] eqn:Hv end.

(** The object that was read is there. *)
Ltac present :=
  match goal with Hsame : same_objects _ _, Hv : view _ _ _ = Some _ |- _ =>
    rewrite Hsame; pose proof (view_key _ _ _ _ Hv) as Hk; unfold keyOf in *;
    cbn [meta setData cm_ObjectMeta dep_ObjectMeta svc_ObjectMeta hr_ObjectMeta] in *;
    rewrite Hk, Hv; eauto end.

Lemma reconcileConfigMap_succeeds data s : succeeds_at (reconcileConfigMap None proxy data) s.
Proof.
  intros Hs. unfold reconcileConfigMap. get_first s.
  - case_bool_decide; [by eexists _, _|]. apply succeeds_update; [|done].
    present.
  - apply createConfigMap_succeeds; [|done]. by rewrite Hsame.
Qed.

Lemma upsertConfigMap_succeeds name key value s : succeeds_at (upsertConfigMap None proxy name key value) s.
Proof.
  intros Hs. unfold upsertConfigMap. get_first s.
  - case_match; [by eexists _, _|]. apply succeeds_update; [|done].
    present.
  - apply createConfigMap_succeeds; [|done]. by rewrite Hsame.
Qed.

Lemma copySource_succeeds up ref dest s :
  is_Some (sourceValue s up ref) -> succeeds_at (copySource None proxy up ref dest) s.
Proof.
  unfold sourceValue, copySource. intros [v Hv].
  destruct (view s KConfigMap _) as [cm|] eqn:Hcm; [|done]. cbn [mbind option_bind] in Hv.
  apply succeeds_bind; [by eapply succeeds_wrapping, succeeds_get|].
  intros s1 src Hg%wrapping_Ok%kget_Ok. rewrite Hcm in Hg. injection Hg as <-. rewrite Hv.
  apply upsertConfigMap_succeeds.
Qed.

Lemma reconcileDeployment_succeeds ups s : succeeds_at (reconcileDeployment None proxy ups) s.
Proof.
  intros Hs. unfold reconcileDeployment. get_first s.
  - case_bool_decide; [by eexists _, _|]. apply succeeds_update; [|done].
    present.
  - apply succeeds_create; [|done]. by rewrite Hsame.
Qed.

Lemma reconcileService_succeeds s : succeeds_at (reconcileService None proxy) s.
Proof.
  intros Hs. unfold reconcileService. get_first s.
  - case_match; [by eexists _, _|]. apply succeeds_update; [|done].
    present.
  - apply succeeds_create; [|done]. by rewrite Hsame.
Qed.

Lemma reconcileHTTPRoute_succeeds s : succeeds_at (reconcileHTTPRoute None proxy) s.
Proof.
  intros Hs. unfold reconcileHTTPRoute. get_first s; case_match.
  - case_bool_decide; [by eexists _, _|]. apply succeeds_update; [|done].
    present.
  - apply succeeds_delete; [|done]. present.
  - apply succeeds_create; [|done]. by rewrite Hsame.
  - by eexists _, _.
Qed.

Lemma updateStatus_succeeds crd svc conflicts s :
  is_Some (view s KProxy (request proxy)) -> succeeds_at (updateStatus proxy crd svc conflicts) s.
Proof. intros Hv. unfold updateStatus. case_match; [apply succeeds_aret|by apply succeeds_status]. Qed.

(** What the copies need of the sources. *)
Definition sourcesPresent s (ups : list MCPUpstream) : Prop :=
  forall up ref, up ∈ ups -> isCommand up = false ->
    specRef up = Some ref \/ overlayRef up = Some ref -> is_Some (sourceValue s up ref).

Lemma reconcileUpstreamConfigMaps_succeeds s0 all ups s :
  separate proxy all -> (forall up, up ∈ ups -> up ∈ all) -> sourcesPresent s0 all ->
  unchanged_outside (ownObject proxy) s0 s ->
  succeeds_at (reconcileUpstreamConfigMaps None proxy ups) s.
Proof.
  intros [Hapart _] Hin Hsrc. revert s Hin.
  induction ups as [|up ups IH]; intros s Hin Hs; cbn [reconcileUpstreamConfigMaps]; [apply succeeds_aret|].
  assert (Hup : up ∈ all) by (apply Hin; by left).
  assert (Hrest : forall up, up ∈ ups -> up ∈ all) by (intros; apply Hin; by right).
  destruct (isCommand up) eqn:Hcmd; [by apply IH|].
  assert (Hcopy : forall (refOf : MCPUpstream -> option ConfigMapKeyRef) dest s1,
    (forall ref, refOf up = Some ref -> specRef up = Some ref \/ overlayRef up = Some ref) ->
    unchanged_outside (ownObject proxy) s0 s1 -> succeeds_at (copyFile None proxy refOf dest up) s1).
  { intros refOf dest s1 Hr Hs1. unfold copyFile. destruct (refOf up) as [ref|] eqn:Href; [|apply succeeds_aret].
    apply copySource_succeeds. unfold sourceValue. rewrite (Hs1 _ _ (Hapart _ _ Hup (Hr _ eq_refl))).
    by apply (Hsrc up ref Hup Hcmd), Hr. }
  assert (Hw : forall (refOf : MCPUpstream -> option ConfigMapKeyRef) dest s1 s2,
    dest ∈ [configName proxy; specsName proxy; overlaysName proxy] ->
    unchanged_outside (ownObject proxy) s0 s1 -> copyFile None proxy refOf dest up s1 = (s2, Ok tt) ->
    unchanged_outside (ownObject proxy) s0 s2).
  { intros refOf dest s1 s2 Hd Hs1 Hr. eapply at_name_own; [exact Hd|exact Hs1|].
    by eapply copyFile_writes. }
  apply succeeds_bind; [by apply (Hcopy specRef); auto|]. intros s1 [] Hr1.
  assert (Hs1 : unchanged_outside (ownObject proxy) s0 s1)
    by (eapply (Hw specRef); [|exact Hs|exact Hr1]; rewrite !elem_of_cons; auto).
  apply succeeds_bind; [by apply (Hcopy overlayRef); auto|]. intros s2 [] Hr2. apply IH; [done|].
  eapply (Hw overlayRef); [|exact Hs1|exact Hr2]. rewrite !elem_of_cons. auto.
Qed.

(** The objects the copies read, and the proxy, are still there after a pass's
    first steps. *)
Lemma reconcileProxy_succeeds s :
  is_Some (LabelSelectorAsSelector (pxs_UpstreamSelector (px_Spec proxy))) ->
  is_Some (view s KProxy (request proxy)) ->
  (forall crd svc s1 s2, listUpstreams proxy s = (s1, Ok crd) -> listAnnotatedServices proxy s1 = (s2, Ok svc) ->
    (exists data, ConfigGen.Generate yaml_Marshal proxy (crd ++ svc) = Ok data) /\
    separate proxy (crd ++ svc) /\ sourcesPresent s (crd ++ svc)) ->
  succeeds_at (reconcileProxy yaml_Marshal None proxy) s.
Proof.
  intros Hsel Hproxy Hin. unfold reconcileProxy.
  apply succeeds_bind; [by apply listUpstreams_succeeds|]. intros s1 crd Hcrd.
  apply succeeds_bind; [by apply listAnnotatedServices_succeeds|]. intros s2 svc Hsvc.
  destruct (Hin _ _ _ _ Hcrd Hsvc) as ([data Hgen] & Hsep & Hsrc). cbv zeta. rewrite Hgen.
  assert (Hs2 : same_objects s s2).
  { eapply same_objects_trans; [eapply quiet_reads; [apply listUpstreams_writes|exact Hcrd]|].
    eapply quiet_reads; [apply listAnnotatedServices_writes|exact Hsvc]. }
  apply succeeds_bind; [apply reconcileConfigMap_succeeds|]. intros s3 [] Wc%reconcileConfigMap_writes.
  assert (Hout : unchanged_outside (ownObject proxy) s s3).
  { eapply at_name_own; [|by apply same_unchanged|exact Wc]. rewrite !elem_of_cons. auto. }
  apply succeeds_bind; [by eapply reconcileUpstreamConfigMaps_succeeds|].
  intros s4 [] Wf%upstreamConfigMaps_writes.
  apply succeeds_bind; [apply reconcileDeployment_succeeds|]. intros s5 [] Wd%reconcileDeployment_writes.
  apply succeeds_bind; [apply reconcileService_succeeds|]. intros s6 [] Wv%reconcileService_writes.
  apply succeeds_bind; [apply reconcileHTTPRoute_succeeds|]. intros s7 [] Wh%reconcileHTTPRoute_writes.
  apply succeeds_bind; [|intros; apply succeeds_aret]. apply updateStatus_succeeds.
  rewrite (step_frame _ _ _ _ _ _ _ Wh), (step_frame _ _ _ _ _ _ _ Wv), (step_frame _ _ _ _ _ _ _ Wd) by done.
  rewrite (Wf KProxy) by (by intros [? _]). by rewrite (step_frame _ _ _ _ _ _ _ Wc), Hs2.
Qed.
End Steps.
End Total.
