(* ===== verification/OperatorTheorems.v ===== *)
(** * What the operator guarantees

    Convergence, idempotence and success of a pass, what it may write, what the
    proxy's pod reads afterwards, which events reach which proxies, and what
    admission, generation and discovery promise each other.  Some theorems state
    where the operator does not do what it means to. *)
From S2P Require Export OperatorStable KubeCluster.
Open Scope Z_scope.

Section Theorems.
Context `{KubeTypes, KubeDefaults, Conditions, Unicode} {K : Type} `{!KubeApi K, !KubeLaws K}.
Context (yaml_Marshal : generatedProxyConfig -> result string string).
Context (ownerError : option string).
Implicit Types (s : K) (up : MCPUpstream) (proxy : MCPProxy).

(** The objects of the proxy named [req]. *)
Definition ownedBy (req : NamespacedName) (k : GVK) (n : NamespacedName) : Prop :=
  nn_Namespace n = nn_Namespace req /\
  match k with
  | KConfigMap => nn_Name n ∈ (fun suffix => nn_Name req +:+ suffix) <$> ["-config"; "-specs"; "-overlays"]
  | KDeployment | KService | KRoute | KProxy => nn_Name n = nn_Name req
  | KUpstream | KNamespace => False
  end.

Lemma ownedBy_request proxy k n : ownObject proxy k n <-> ownedBy (request proxy) k n.
Proof. by destruct k. Qed.

(** What a successful pass leaves behind: the proxy's objects are those that its
    selection calls for. *)
Record passed (req : NamespacedName) s s' proxy (crd svc : list MCPUpstream) (data : string) : Prop := {
  passed_selected : selected req s proxy crd svc;
  passed_generated : ConfigGen.Generate yaml_Marshal proxy (crd ++ svc) = Ok data;
  passed_config : configGoal proxy data s';
  passed_files : separate proxy (crd ++ svc) -> filesGoal proxy s (crd ++ svc) s';
  passed_deployment : deploymentGoal ownerError proxy (crd ++ svc) s';
  passed_service : serviceGoal ownerError proxy s';
  passed_route : routeGoal ownerError proxy s';
  passed_status : statusGoal proxy (length crd) (length svc) (detectPrefixConflicts crd svc) s'
}.

Lemma selected_fun req s proxy crd svc proxy' crd' svc' :
  selected req s proxy crd svc -> selected req s proxy' crd' svc' ->
  proxy' = proxy /\ crd' = crd /\ svc' = svc.
Proof.
  intros (s1 & s2 & s3 & Ha & Hb & Hc) (t1 & t2 & t3 & Ha' & Hb' & Hc').
  rewrite Ha in Ha'. injection Ha' as <- <-. rewrite Hb in Hb'. injection Hb' as <- <-.
  rewrite Hc in Hc'. by injection Hc' as _ <-.
Qed.

Lemma Reconcile_found req s s' d proxy :
  view s KProxy req = Some proxy -> Reconcile yaml_Marshal ownerError req s = (s', Ok d) ->
  exists s1, kget KProxy req s = (s1, Ok proxy) /\ same_objects s s1 /\ request proxy = req /\
    reconcileProxy yaml_Marshal ownerError proxy s1 = (s', Ok d).
Proof.
  intros Hv. unfold Reconcile. destruct (kget _ _ s) as [s1 [p|[| |]]] eqn:Hg; try discriminate.
  - pose proof (kget_Ok _ _ _ _ _ Hg) as Hp. rewrite Hv in Hp. injection Hp as <-.
    exists s1. split_and!; [done|by eapply kget_same|by eapply view_key|done].
  - apply kget_NotFound in Hg. congruence.
Qed.

Lemma filesGoal_origin proxy s0 s1 ups s' :
  same_objects s0 s1 -> filesGoal proxy s1 ups s' -> filesGoal proxy s0 ups s'.
Proof.
  intros Hs Hf up Hup Hcmd. destruct (Hf up Hup Hcmd) as [Hsp Hov]. unfold sourceValue in *.
  split; intros ref Href; [specialize (Hsp ref Href)|specialize (Hov ref Href)]; by rewrite <-Hs.
Qed.

Lemma Reconcile_passed `{!ServerDefaults K, !ConditionLaws} req s s' d proxy :
  view s KProxy req = Some proxy ->
  Reconcile yaml_Marshal ownerError req s = (s', Ok d) ->
  d = periodicSyncInterval /\ exists crd svc data, passed req s s' proxy crd svc data.
Proof.
  intros Hv Hr. destruct (Reconcile_found _ _ _ _ _ Hv Hr) as (s1 & Hg & Hsame & Hreq & Hp).
  apply reconcileProxy_Ok in Hp as (crd & svc & s2 & s3 & data & Hcrd & Hsvc & Hgen & -> & Hc & Hf & Hd & Hs
    & Hh & Hst); [|by rewrite Hreq, Hsame].
  split; [done|]. exists crd, svc, data. split; try done.
  - by exists s1, s2, s3.
  - intros Hsep. eapply filesGoal_origin; [exact Hsame|by apply Hf].
Qed.


Lemma pass_untouched req s s' r proxy :
  view s KProxy req = Some proxy -> Reconcile yaml_Marshal ownerError req s = (s', r) ->
  unchanged_outside (ownObject proxy) s s'.
Proof.
  intros Hv. unfold Reconcile. destruct (kget _ _ s) as [s1 [p|[| |]]] eqn:Hg;
    try (intros [= <- <-]; apply same_unchanged; by eapply kget_same).
  pose proof (kget_Ok _ _ _ _ _ Hg) as Hp. rewrite Hv in Hp. injection Hp as <-.
  intros Hr. eapply get_then; [exact Hg|exact Hr|apply reconcileProxy_writes].
Qed.

(** C15: a second pass that finds the same upstreams leaves every object of the
    cluster as the first one left it, even when its own calls fail. *)
Theorem Reconcile_idempotent `{!ServerDefaults K, !ConditionLaws} req s s' s'' d r proxy proxy' crd svc :
  view s KProxy req = Some proxy ->
  Reconcile yaml_Marshal ownerError req s = (s', Ok d) ->
  selected req s proxy crd svc -> selected req s' proxy' crd svc -> separate proxy (crd ++ svc) ->
  Reconcile yaml_Marshal ownerError req s' = (s'', r) ->
  same_objects s' s''.
Proof.
  intros Hv Hr Hsel (s1 & s2 & s3 & Hg & Hcrd & Hsvc) Hsep Hr'.
  pose proof (pass_untouched _ _ _ _ _ Hv Hr) as Hout.
  destruct (Reconcile_passed _ _ _ _ _ Hv Hr) as (_ & crd' & svc' & data & Hp).
  destruct (selected_fun _ _ _ _ _ _ _ _ Hsel (passed_selected _ _ _ _ _ _ _ Hp)) as (_ & -> & ->).
  unfold Reconcile in Hr'. rewrite Hg in Hr'. destruct (kget_same _ _ _ _ _ Hg) as [Hsame _].
  destruct Hp as [_ Hgen Gc Gf Gd Gs Gh (p & Hvp & Hpp & Hst)].
  assert (Hreq : request proxy = req) by by eapply view_key.
  rewrite Hreq, (kget_Ok _ _ _ _ _ Hg) in Hvp. injection Hvp as ->.
  eapply same_objects_trans; [exact Hsame|].
  eapply (reconcileProxy_quiet _ _ p s); [exact Hcrd|exact Hsvc|..|exact Hr'].
  destruct Hpp as [Hm Hsp], proxy as [m sp st], p as [m' sp' st']. cbn in Hm, Hsp. subst m' sp'.
  specialize (Gf Hsep). exists data. split; [done|]. eapply settled_local; [exact Hsame|]. by split.
Qed.
End Theorems.

Section Theorems2.
Context `{KubeTypes, KubeDefaults, Conditions, Unicode} {K : Type} `{!KubeApi K, !KubeLaws K}.
Context (yaml_Marshal : generatedProxyConfig -> result string string).
Context (ownerError : option string).
Implicit Types (s : K) (up : MCPUpstream) (proxy : MCPProxy).


(** C17: a pass, however it ends, writes only the objects that carry the proxy's
    name. *)
Theorem Reconcile_footprint req s s' r k n :
  Reconcile yaml_Marshal ownerError req s = (s', r) -> ~ ownedBy req k n ->
  view s' k n = view s k n.
Proof.
  intros Hr Hn. destruct (view s KProxy req) as [proxy|] eqn:Hv.
  - assert (Hreq : request proxy = req) by by eapply view_key.
    apply (pass_untouched _ _ _ _ _ _ _ Hv Hr). by rewrite ownedBy_request, Hreq.
  - unfold Reconcile in Hr. destruct (kget _ _ s) as [s1 [p|[| |]]] eqn:Hg;
      try (injection Hr as <- <-; by eapply kget_same).
    apply kget_Ok in Hg. congruence.
Qed.

(** When the configuration cannot be generated, the pass fails with that error
    and leaves the running proxy alone: only its status may change. *)
Theorem generation_failure_keeps_objects req s s' r proxy crd svc err :
  selected req s proxy crd svc -> ConfigGen.Generate yaml_Marshal proxy (crd ++ svc) = Err err ->
  Reconcile yaml_Marshal ownerError req s = (s', r) ->
  r = Err (GeneratingConfig err) /\ forall k n, (k, n) <> (KProxy, req) -> view s' k n = view s k n.
Proof.
  intros (s1 & s2 & s3 & Hg & Hcrd & Hsvc) Hgen. unfold Reconcile. rewrite Hg. intros Hr.
  destruct (reconcileProxy_failure _ _ _ _ _ _ _ _ _ _ _ Hcrd Hsvc Hgen Hr) as [-> Hout].
  split; [done|]. intros k n Hne. destruct (kget_same _ _ _ _ _ Hg) as [Hsame _].
  rewrite <-(Hsame k n). apply Hout. intros [-> ->]. destruct Hne. f_equal.
  by rewrite <-(view_key _ _ _ _ (kget_Ok _ _ _ _ _ Hg)).
Qed.

(** The file [file] of the directory [dir] as the pod's container sees it: a
    mounted ConfigMap shows each of its keys as a file. *)
Definition podFile s (ns : string) (spec : DeploymentSpec) (dir file : string) : option string :=
  c ← head (ds_Containers spec);
  m ← list_find (fun m => vm_MountPath m = dir) (ctr_VolumeMounts c);
  v ← list_find (fun v => vol_Name v = vm_Name m.2) (ds_Volumes spec);
  cm ← view s KConfigMap {| nn_Namespace := ns; nn_Name := vol_ConfigMap v.2 |};
  data ← cm_Data cm; data !! file.

Lemma podFile_clear s ns spec dir file :
  podFile s ns (clearDeployment spec) dir file = podFile s ns spec dir file.
Proof. done. Qed.

Lemma podFile_desired s proxy ups dir file :
  podFile s (om_Namespace (px_ObjectMeta proxy)) (dep_Spec (buildDeployment ownerError proxy ups)) dir file =
    cm ← (if bool_decide (dir = "/etc/mcp-auto") then view s KConfigMap (inProxyNamespace proxy (configName proxy))
          else if bool_decide (dir = specsMountPath) && hasSpecs ups
          then view s KConfigMap (inProxyNamespace proxy (specsName proxy))
          else if bool_decide (dir = overlaysMountPath) && hasOverlays ups
          then view s KConfigMap (inProxyNamespace proxy (overlaysName proxy)) else None);
    data ← cm_Data cm; data !! file.
Proof.
  unfold podFile, buildDeployment, mounts. cbn [dep_Spec ds_Containers ds_Volumes head ctr_VolumeMounts].
  destruct (hasSpecs ups), (hasOverlays ups); cbn;
    repeat (case_bool_decide || case_decide); subst; cbn;
    repeat case_decide; try done; try congruence.
Qed.

Lemma hasSpecs_true ups up ref :
  up ∈ ups -> isCommand up = false -> specRef up = Some ref -> hasSpecs ups = true.
Proof.
  intros Hup Hc Hr. unfold hasSpecs. apply existsb_exists. exists up.
  split; [by apply list_elem_of_In|]. unfold specRef in Hr. by rewrite Hc, Hr.
Qed.
Lemma hasOverlays_true ups up ref :
  up ∈ ups -> isCommand up = false -> overlayRef up = Some ref -> hasOverlays ups = true.
Proof.
  intros Hup Hc Hr. unfold hasOverlays. apply existsb_exists. exists up.
  split; [by apply list_elem_of_In|]. by rewrite Hc, Hr.
Qed.

Lemma fileGoal_read proxy name key value s :
  fileGoal proxy name key value s -> value <> "" ->
  (cm ← view s KConfigMap (inProxyNamespace proxy name); data ← cm_Data cm; data !! key) = Some value.
Proof.
  intros (cm & data & Hv & Hd & Hval) Hne. rewrite Hv. cbn. rewrite Hd. cbn.
  destruct (data !! key); cbn in Hval; congruence.
Qed.


(** The generated configuration names a CA file and variables for the client
    credentials of an upstream, but the proxy's Deployment mounts no directory with
    that file and sets none of these variables. *)
Theorem generated_credentials_missing proxy ups up t tls o ref s :
  mtr_TLS t = Some tls -> o2s_SecretRef o = Some ref ->
  let key sep := om_Namespace (mu_ObjectMeta up) +:+ sep +:+ om_Name (mu_ObjectMeta up) in
  let dir := "/etc/mcp-auto/tls/" +:+ key "-" in
  let variable what := "UPSTREAM_" +:+ key "_" +:+ "_" +:+ what in
  let spec := dep_Spec (buildDeployment ownerError proxy ups) in
  gtl_RootCAPath <$> gtr_TLS (generatedTransport up t) = Some (dir +:+ "/ca.crt") /\
  podFile s (om_Namespace (px_ObjectMeta proxy)) spec dir "ca.crt" = None /\
  go2_ClientID (generatedOAuth2 up o) = "${" +:+ variable "OAUTH2_CLIENT_ID" +:+ "}" /\
  go2_ClientSecret (generatedOAuth2 up o) = "${" +:+ variable "OAUTH2_CLIENT_SECRET" +:+ "}" /\
  forall what c, c ∈ ds_Containers spec -> variable what ∉ (ctr_Env c).*1.
Proof.
  intros Htls Href. cbv zeta.
  unfold generatedTransport, generatedOAuth2, envRef. cbn [gtr_TLS go2_ClientID go2_ClientSecret].
  rewrite Htls, Href. split_and!; [|by rewrite podFile_desired|..].
  - cbn. by rewrite !string_app_assoc.
  - cbn. by rewrite !string_app_assoc.
  - cbn. by rewrite !string_app_assoc.
  - cbn [buildDeployment dep_Spec ds_Containers]. intros what c ->%list_elem_of_singleton.
    cbn. intros Hin%list_elem_of_singleton. discriminate.
Qed.
End Theorems2.
(** ** What is selected, and who is told *)
Section Watches.
Context `{KubeTypes, KubeDefaults, Conditions, Unicode} {K : Type} `{!KubeApi K, !KubeLaws K}.
Implicit Types (s : K) (up : MCPUpstream) (proxy : MCPProxy) (svc : Service).

Lemma listUpstreamsIn_spec sel nss s s' ups up :
  listUpstreamsIn sel nss s = (s', Ok ups) ->
  up ∈ ups <-> view s KUpstream (keyOf KUpstream up) = Some up /\
    om_Namespace (mu_ObjectMeta up) ∈ nss /\ sel (om_Labels (mu_ObjectMeta up)) = true.
Proof.
  revert s s' ups. induction nss as [|ns nss IH]; cbn [listUpstreamsIn]; intros s s' ups.
  { intros [= _ <-]. set_solver. }
  intros (s1 & items & Hl%wrapping_Ok & (s2 & others & Ho & [= _ <-])%abind_Ok)%abind_Ok.
  destruct (klist_same _ _ _ _ _ _ Hl) as [Hsame _].
  rewrite elem_of_app, (klist_Ok _ _ _ _ _ _ _ Hl), (IH _ _ _ Ho), elem_of_cons.
  unfold in_scope. cbn [meta]. rewrite andb_true_iff, bool_decide_eq_true, (Hsame KUpstream). tauto.
Qed.

Lemma listUpstreams_spec proxy s s' ups up :
  listUpstreams proxy s = (s', Ok ups) ->
  up ∈ ups <-> view s KUpstream (keyOf KUpstream up) = Some up /\ selectsUpstream up proxy = true.
Proof.
  unfold listUpstreams, selectsUpstream. case_match; [|discriminate].
  intros Hl. rewrite (listUpstreamsIn_spec _ _ _ _ _ _ Hl), andb_true_iff, bool_decide_eq_true. tauto.
Qed.

Lemma addNames_spec names nss ns : ns ∈ addNames nss names <-> ns ∈ nss \/ ns ∈ names.
Proof.
  unfold addNames. revert nss. induction names as [|n names IH]; intros nss; cbn; [set_solver|].
  rewrite IH. case_bool_decide; set_solver.
Qed.

(** A namespace that the selector [sel] names, by its name or by its labels. *)
Definition named s (sel : ServiceDiscoveryNamespaceSelector) (ns : string) : Prop :=
  ns ∈ sdn_MatchNames sel \/
  sdn_MatchLabels sel <> ∅ /\ exists o, view s KNamespace (keyOf KNamespace o) = Some o /\
    om_Name (nso_ObjectMeta o) = ns /\ sdn_MatchLabels sel ⊆ om_Labels (nso_ObjectMeta o).

(** The namespaces a proxy looks for Services in. *)
Definition discovers s proxy (ns : string) : Prop :=
  match pxs_ServiceDiscovery (px_Spec proxy) ≫= sds_NamespaceSelector with
  | None => ns ∈ upstreamNamespaces proxy
  | Some sel => named s sel ns \/ (forall ns', ~ named s sel ns') /\ ns = om_Namespace (px_ObjectMeta proxy)
  end.

Lemma discoveryNamespaces_spec proxy s s' nss ns :
  serviceDiscoveryNamespaces proxy s = (s', Ok nss) -> ns ∈ nss <-> discovers s proxy ns.
Proof.
  unfold serviceDiscoveryNamespaces, discovers.
  destruct (_ ≫= sds_NamespaceSelector) as [sel|]; [|by intros [= _ <-]].
  intros (s1 & names & Hn & [= _ <-])%abind_Ok.
  assert (Hspec : forall n, n ∈ names <-> named s sel n).
  { intros n. unfold named. case_bool_decide as Hl.
    - injection Hn as _ <-. rewrite addNames_spec. rewrite Hl. set_solver.
    - apply abind_Ok in Hn as (s2 & items & Hi%wrapping_Ok & [= _ <-]).
      rewrite !addNames_spec, list_elem_of_fmap. setoid_rewrite (klist_Ok _ _ _ _ _ _ _ Hi).
      unfold in_scope. setoid_rewrite bool_decide_eq_true. cbn [meta andb]. split.
      + intros [[?|?]|(o & -> & Hv & Hm)]; [set_solver|by left|right]. split; [done|]. by exists o.
      + intros [?|(_ & o & Hv & <- & Hm)]; [auto|right]. by exists o. }
  destruct names as [|n0 names].
  - rewrite list_elem_of_singleton. setoid_rewrite <-Hspec. set_solver.
  - rewrite Hspec. split; [auto|]. intros [?|[Hno _]]; [done|]. destruct (Hno n0). apply Hspec. set_solver.
Qed.

Lemma listServicesIn_spec proxy nss s s' ups up :
  listServicesIn proxy nss s = (s', Ok ups) ->
  up ∈ ups <-> exists svc, view s KService (keyOf KService svc) = Some svc /\
    om_Namespace (svc_ObjectMeta svc) ∈ nss /\ annotatedUpstream proxy svc = Some up.
Proof.
  revert s s' ups. induction nss as [|ns nss IH]; cbn [listServicesIn]; intros s s' ups.
  { intros [= _ <-]. set_solver. }
  intros (s1 & items & Hl%wrapping_Ok & (s2 & others & Ho & [= _ <-])%abind_Ok)%abind_Ok.
  destruct (klist_same _ _ _ _ _ _ Hl) as [Hsame _].
  rewrite elem_of_app, list_elem_of_omap, (IH _ _ _ Ho).
  setoid_rewrite (klist_Ok _ _ _ _ _ _ _ Hl). setoid_rewrite elem_of_cons.
  setoid_rewrite (Hsame KService). unfold in_scope, allLabels. cbn [meta].
  setoid_rewrite andb_true_r. setoid_rewrite bool_decide_eq_true. clear. split.
  - intros [(svc & [Hv Hn] & Ha)|(svc & Hv & Hn & Ha)]; exists svc; auto.
  - intros (svc & Hv & [Hn|Hn] & Ha); [left|right]; exists svc; auto.
Qed.

Lemma listAnnotatedServices_spec proxy s s' ups up :
  listAnnotatedServices proxy s = (s', Ok ups) ->
  up ∈ ups <-> discoveryEnabled proxy = true /\ exists svc,
    view s KService (keyOf KService svc) = Some svc /\
    discovers s proxy (om_Namespace (svc_ObjectMeta svc)) /\ annotatedUpstream proxy svc = Some up.
Proof.
  unfold listAnnotatedServices. destruct (discoveryEnabled proxy).
  - intros (s1 & nss & Hn & Hl)%abind_Ok. rewrite (listServicesIn_spec _ _ _ _ _ _ Hl).
    pose proof (quiet_reads _ _ (discoveryNamespaces_writes _) _ _ Hn) as Hsame.
    split.
    + intros (svc & Hv & Hns & Ha). split; [done|]. exists svc. rewrite <-(Hsame KService). split_and!; try done.
      by eapply discoveryNamespaces_spec.
    + intros (_ & svc & Hv & Hd & Ha). exists svc. rewrite (Hsame KService). split_and!; try done.
      by eapply discoveryNamespaces_spec.
  - intros [= _ <-]. set_solver.
Qed.

Lemma named_same s s' sel ns : same_objects s s' -> named s sel ns <-> named s' sel ns.
Proof.
  intros Hs. unfold named. split; (intros [?|(? & o & Hv & ?)]; [by left|right]; split; [done|]; exists o).
  - by rewrite (Hs KNamespace).
  - by rewrite <-(Hs KNamespace).
Qed.

Lemma discovers_same s s' proxy ns : same_objects s s' -> discovers s proxy ns <-> discovers s' proxy ns.
Proof.
  intros Hs. unfold discovers. case_match; [|done]. by setoid_rewrite (named_same s s' _ _ Hs).
Qed.

Lemma discoveringProxies_spec svc proxies s req :
  faultless s ->
  req ∈ (discoveringProxies svc proxies s).2 <->
    exists proxy, req = request proxy /\ proxy ∈ proxies /\ discoveryEnabled proxy = true /\
      discovers s proxy (om_Namespace (svc_ObjectMeta svc)) /\ serviceMatchesProxy proxy svc = true.
Proof.
  revert s. induction proxies as [|p proxies IH]; intros s Hf; cbn [discoveringProxies].
  { cbn. set_solver. }
  setoid_rewrite elem_of_cons. destruct (discoveryEnabled p) eqn:He.
  - destruct (discoveryNamespaces_succeeds p s Hf) as (s1 & nss & Hn & Hf1). rewrite Hn.
    pose proof (quiet_reads _ _ (discoveryNamespaces_writes _) _ _ Hn) as Hsame.
    specialize (IH s1 Hf1). destruct (discoveringProxies svc proxies s1) as [s2 reqs]. cbn [snd] in *.
    setoid_rewrite <-(discovers_same _ _ _ _ Hsame) in IH.
    pose proof (discoveryNamespaces_spec _ _ _ _ (om_Namespace (svc_ObjectMeta svc)) Hn) as Hd.
    case_match eqn:Hm.
    + apply andb_true_iff in Hm as [Hm1%bool_decide_eq_true Hm2]. rewrite elem_of_cons, IH. split.
      * intros [->|(q & ? & ? & ?)]; [exists p|exists q]; tauto.
      * intros (q & -> & [->|?] & ? & ? & ?); [by left|right; exists q; tauto].
    + rewrite IH. split; [intros (q & ? & ? & ?); exists q; tauto|].
      intros (q & -> & [->|?] & ? & ? & Hq); [|exists q; tauto].
      rewrite Hq, bool_decide_eq_true_2 in Hm by tauto. done.
  - rewrite (IH s Hf). split; [intros (q & ? & ? & ?); exists q; tauto|].
    intros (q & -> & [->|?] & ? & ?); [congruence|exists q; tauto].
Qed.


(** A change of an upstream's labels alone, which can add it to a proxy's
    selection or take it away, enqueues no proxy: the generation stays the same. *)
Lemma label_change_enqueues_nothing old new s :
  om_Generation (mu_ObjectMeta old) = om_Generation (mu_ObjectMeta new) ->
  upstreamUpdated old new s = (s, []).
Proof. intros Hg. unfold upstreamUpdated. by rewrite bool_decide_eq_true_2. Qed.
End Watches.

(** ** What the operator takes over *)
Section TakenOver.
Context `{KubeTypes, KubeDefaults, Conditions, Unicode} {K : Type} `{!KubeApi K, !KubeLaws K}.
Context `{!ServerDefaults K, !ConditionLaws}.
Context (yaml_Marshal : generatedProxyConfig -> result string string) (ownerError : option string).

(** The operator does not ask whose an object is.  After a pass over a proxy
    without a gateway there is no HTTPRoute of the proxy's name and namespace, and
    after every pass the Service of that name selects the proxy's pods, whoever
    made them and whatever they were for. *)
Theorem foreign_objects_taken_over req (s s' : K) d proxy :
  view s KProxy req = Some proxy -> Reconcile yaml_Marshal ownerError req s = (s', Ok d) ->
  (pxs_GatewayRef (px_Spec proxy) = None -> view s' KRoute req = None) /\
  (svc_Selector <$> view s' KService req) = Some (podLabels proxy).
Proof.
  intros Hv Hr. assert (Hreq : request proxy = req) by by eapply view_key.
  destruct (Reconcile_passed _ _ _ _ _ _ _ Hv Hr) as (_ & crd & svc' & data & Hp).
  destruct Hp as [_ _ _ _ _ (o & Ho & _ & Hsel & _) Hroute _]. split.
  - intros Hgw. unfold routeGoal in Hroute. rewrite Hgw in Hroute. by rewrite <-Hreq.
  - rewrite <-Hreq. change (request proxy) with (inProxyNamespace proxy (om_Name (px_ObjectMeta proxy))).
    rewrite Ho. cbn. by rewrite Hsel.
Qed.
End TakenOver.

(** ** Admission, generation and annotations *)
Section Admission.
Context `{KubeTypes, KubeDefaults}.

Lemma generatedBaseURL_ok up :
  isSome (mus_ServiceRef (mu_Spec up)) = true \/ mus_BaseURL (mu_Spec up) <> "" ->
  is_ok (generatedBaseURL up) = true.
Proof.
  unfold generatedBaseURL. destruct (mus_ServiceRef (mu_Spec up)); [done|].
  intros [|?]; [done|]. by rewrite bool_decide_eq_false_2.
Qed.

Lemma generatedSource_ok up b :
  openAPISources (mus_OpenAPI (mu_Spec up)) <> 0%nat -> is_ok (generatedSource up b) = true.
Proof.
  unfold openAPISources, generatedSource. destruct (moa_ConfigMapRef _); [done|].
  case_bool_decide; [|done]. by destruct (moa_AutoDiscover _).
Qed.

Lemma http_upstream_generates up :
  mus_Type (mu_Spec up) <> "command" ->
  isSome (mus_ServiceRef (mu_Spec up)) = true \/ mus_BaseURL (mu_Spec up) <> "" ->
  openAPISources (mus_OpenAPI (mu_Spec up)) <> 0%nat -> is_ok (buildUpstreamConfig up) = true.
Proof.
  intros Ht Hb Hs. unfold buildUpstreamConfig. rewrite bool_decide_eq_false_2 by (by case_bool_decide).
  unfold buildHTTPUpstreamConfig. apply generatedBaseURL_ok, is_ok_true in Hb as [b ->]. cbn.
  eapply generatedSource_ok, is_ok_true in Hs as [src ->]. done.
Qed.

Lemma hasAnn_true svc name : hasAnn svc name = true <-> ann svc name <> "".
Proof. unfold hasAnn. by case_bool_decide. Qed.

Lemma annotatedOpenAPI_one svc o : annotatedOpenAPI svc = Ok o -> openAPISources o = 1%nat.
Proof.
  unfold annotatedOpenAPI, openAPISources, hasAnn. intros Ho. case_bool_decide; [done|].
  repeat case_bool_decide; cbn [negb] in Ho; run_ok; cbn;
    rewrite ?bool_decide_eq_false_2 by done; try done.
Qed.

Lemma serviceBaseURL_nonempty svc port : serviceBaseURL svc port <> "".
Proof. by unfold serviceBaseURL. Qed.

(** What the webhook lets through and is not a command upstream can be
    generated, and so can everything an annotated Service becomes, which the
    webhook would have let through. *)
Theorem admitted_upstream_generates :
  (forall up, validateMCPUpstream up = Ok tt -> mus_Type (mu_Spec up) <> "command" ->
     is_ok (buildUpstreamConfig up) = true) /\
  (forall svc up, serviceToMCPUpstream svc = Ok up ->
     validateMCPUpstream up = Ok tt /\ is_ok (buildUpstreamConfig up) = true /\
     keyOf KUpstream up = keyOf KService svc).
Proof.
  assert (Hgen : forall up, validateMCPUpstream up = Ok tt -> mus_Type (mu_Spec up) <> "command" ->
    is_ok (buildUpstreamConfig up) = true).
  { intros up [Hb Hs]%validateMCPUpstream_Ok Ht. apply http_upstream_generates; [done| |by rewrite Hs].
    case_bool_decide; [left; done|by right]. }
  split; [done|]. intros svc up Hup. unfold serviceToMCPUpstream in Hup. run_ok.
  match goal with H : annotatedOpenAPI _ = Ok _ |- _ => apply annotatedOpenAPI_one in H end.
  assert (Hval : forall up, isSome (mus_ServiceRef (mu_Spec up)) = false -> mus_BaseURL (mu_Spec up) <> "" ->
    openAPISources (mus_OpenAPI (mu_Spec up)) = 1%nat -> validateMCPUpstream up = Ok tt).
  { intros u Hr Hb Hs. apply validateMCPUpstream_Ok. by rewrite Hr, bool_decide_eq_false_2. }
  split_and!; [by apply Hval|apply Hgen; [by apply Hval|done]|done].
Qed.

(** The webhook admits a command upstream only if it sets a base URL or a
    Service, and a specification source, which command upstreams must not set; a
    command upstream without them is rejected. *)
Theorem command_upstream_inadmissible up :
  mus_Type (mu_Spec up) = "command" ->
  (mus_ServiceRef (mu_Spec up) = None -> mus_BaseURL (mu_Spec up) = "" ->
   forall old, is_ok (admitUpstream (AdmitCreate up)) = false /\ is_ok (admitUpstream (AdmitUpdate old up)) = false) /\
  (validateMCPUpstream up = Ok tt ->
   (isSome (mus_ServiceRef (mu_Spec up)) = true \/ mus_BaseURL (mu_Spec up) <> "") /\
   mus_OpenAPI (mu_Spec up) <> zero_MCPUpstreamOpenAPISpec).
Proof.
  intros _. split.
  - intros Hr Hb old. cbn [admitUpstream]. unfold validateMCPUpstream. rewrite Hr, Hb. by split.
  - intros [Hb Hs]%validateMCPUpstream_Ok. split.
    + case_bool_decide; [by left|by right].
    + intros Hz. by rewrite Hz in Hs.
Qed.

(** One upstream that cannot be generated blocks the whole configuration. *)
Lemma buildUpstreamConfigs_Ok ups cfgs :
  buildUpstreamConfigs ups = Ok cfgs <-> Forall2 (fun up uc => buildUpstreamConfig up = Ok uc) ups cfgs.
Proof.
  revert cfgs. induction ups as [|up ups IH]; intros cfgs; cbn.
  - split; [intros [= <-]; constructor|]. by intros ->%Forall2_nil_inv_l.
  - destruct (buildUpstreamConfig up) as [uc|] eqn:Hu.
    + rewrite fmap_Ok. split.
      * intros (l & Hl & <-). constructor; [done|]. by apply IH.
      * intros (uc' & l & Hu' & Hl & ->)%Forall2_cons_inv_l. rewrite Hu in Hu'. injection Hu' as <-.
        exists l. split; [by apply IH|done].
    + split; [done|]. intros (uc' & l & Hu' & _)%Forall2_cons_inv_l. congruence.
Qed.

(** The generated file has one entry per upstream, in order, and exists
    unless an upstream is incomplete: a command upstream without commands, or
    another one without a base URL or a specification.  It listens where the
    Deployment's container, the Service and the route expect it. *)
Theorem generated_config_complete proxy ups :
  (forall cfg, generatedConfig proxy ups = Ok cfg ->
     Forall2 (fun up uc => buildUpstreamConfig up = Ok uc) ups (gpc_Upstreams cfg) /\
     gsv_Port (gpc_Server cfg) = proxyPort proxy) /\
  (is_ok (generatedConfig proxy ups) = true <->
   Forall (fun up => if isCommand up then mus_Commands (mu_Spec up) <> []
                     else (isSome (mus_ServiceRef (mu_Spec up)) = true \/ mus_BaseURL (mu_Spec up) <> "") /\
                          openAPISources (mus_OpenAPI (mu_Spec up)) <> 0%nat) ups).
Proof.
  unfold generatedConfig. split.
  - intros cfg Hc. run_ok. split; [by apply buildUpstreamConfigs_Ok|done].
  - transitivity (Forall (fun up => is_ok (buildUpstreamConfig up) = true) ups).
    + destruct (buildUpstreamConfigs ups) as [cfgs|e] eqn:Hb; cbn.
      * split; [|done]. intros _. apply buildUpstreamConfigs_Ok in Hb.
        induction Hb as [|up uc ups cfgs Hu _ IH]; constructor; [by rewrite Hu|done].
      * split; [done|]. intros Hall. exfalso. revert e Hb.
        induction Hall as [|up ups Hu _ IH]; intros e; cbn; [done|].
        apply is_ok_true in Hu as [uc ->]. destruct (buildUpstreamConfigs ups); [done|by eapply IH].
    + apply Forall_iff. intros up. unfold isCommand.
      case_bool_decide as Ht; [|split; [|intros [? ?]; by apply http_upstream_generates]].
      * unfold buildUpstreamConfig, buildCommandUpstreamConfig. rewrite Ht. cbn.
        by destruct (mus_Commands (mu_Spec up)).
      * unfold buildUpstreamConfig. rewrite bool_decide_eq_false_2 by (by case_bool_decide).
        intros Hok. apply is_ok_true in Hok as [uc Huc]. unfold buildHTTPUpstreamConfig in Huc. run_ok.
        unfold generatedBaseURL, generatedSource, openAPISources in *. split.
        -- destruct (mus_ServiceRef _); [by left|right]. intros Hb. rewrite Hb in *. discriminate.
        -- destruct (moa_ConfigMapRef _); [done|].
           destruct (bool_decide (moa_URL _ = "")); [|done]. by destruct (moa_AutoDiscover _).
Qed.
End Admission.

(** ** Prefix conflicts *)
Section PrefixConflicts.
Context `{KubeTypes, KubeDefaults, Unicode}.

Definition prefixOf (up : MCPUpstream) : string := mus_ToolPrefix (mu_Spec up).
Definition usedPrefixes (ups : list MCPUpstream) : list string :=
  filter (fun p => p <> "") (prefixOf <$> ups).

(** The upstreams with the source they come from. *)
Definition recordTagged st (x : string * MCPUpstream) := recordPrefix x.1 st x.2.

Lemma detect_tagged crd svc :
  detectPrefixConflicts crd svc =
    (foldl recordTagged (∅, []) ((pair "crd" <$> crd) ++ (pair "service" <$> svc))).2.
Proof.
  unfold detectPrefixConflicts. rewrite foldl_app. f_equal.
  assert (Hf : forall src ups st, foldl (recordPrefix src) st ups = foldl recordTagged st (pair src <$> ups)).
  { intros src ups. induction ups as [|up ups IH]; intros st; [done|]. cbn. apply IH. }
  by rewrite !Hf.
Qed.

(** After the upstreams of [l]: which prefixes were seen, by whom, and the
    conflicts between two of them. *)
Record scanned (l : list (string * MCPUpstream)) (st : gmap string sourceInfo * list string) : Prop := {
  scanned_seen p : is_Some (st.1 !! p) <-> p ∈ usedPrefixes l.*2;
  scanned_by p i : st.1 !! p = Some i -> exists x, x ∈ l /\ prefixOf x.2 = p /\
    i = {| si_id := nn_String (keyOf KUpstream x.2); si_source := x.1 |};
  scanned_none : st.2 = [] <-> NoDup (usedPrefixes l.*2);
  scanned_text c : c ∈ st.2 -> exists p x y, x ∈ l /\ y ∈ l /\ prefixOf x.2 = p /\ prefixOf y.2 = p /\
    c = conflictText p {| si_id := nn_String (keyOf KUpstream x.2); si_source := x.1 |}
                       {| si_id := nn_String (keyOf KUpstream y.2); si_source := y.1 |}
}.

Lemma usedPrefixes_snoc l up :
  usedPrefixes (l ++ [up]) = usedPrefixes l ++ (if bool_decide (prefixOf up = "") then [] else [prefixOf up]).
Proof.
  unfold usedPrefixes. rewrite fmap_app, filter_app. f_equal.
  change (prefixOf <$> [up]) with [prefixOf up]. rewrite filter_cons, filter_nil.
  case_bool_decide; case_decide; done || congruence.
Qed.

Lemma scan_ok l : scanned l (foldl recordTagged (∅, []) l).
Proof.
  induction l as [|x l IH] using rev_ind.
  { split; cbn; [|by intros ? ?|split; [constructor|done]|set_solver].
    intros p. rewrite lookup_empty. split; [by intros []|set_solver]. }
  rewrite foldl_app. cbn [foldl]. destruct (foldl recordTagged (∅, []) l) as [seen conflicts].
  destruct IH as [Hseen Hby Hnone Htext]. cbn [fst snd] in *. unfold recordTagged, recordPrefix.
  change (mus_ToolPrefix (mu_Spec x.2)) with (prefixOf x.2).
  destruct (bool_decide (prefixOf x.2 = "")) eqn:He.
  - split; rewrite ?fmap_app; cbn [fmap list_fmap]; rewrite ?usedPrefixes_snoc, ?He, ?app_nil_r; cbn [fst snd].
    + done.
    + intros p i Hi. destruct (Hby p i Hi) as (y & ? & ?). exists y. set_solver.
    + done.
    + intros c Hc. destruct (Htext c Hc) as (p & y & z & ? & ? & ?). exists p, y, z. set_solver.
  - destruct (seen !! prefixOf x.2) as [i|] eqn:Hi.
    + assert (Hin : prefixOf x.2 ∈ usedPrefixes l.*2) by (apply Hseen; eauto).
      split; rewrite ?fmap_app; cbn [fmap list_fmap]; rewrite ?usedPrefixes_snoc, ?He; cbn [fst snd].
      * intros p. rewrite Hseen. set_solver.
      * intros p j Hj. destruct (Hby p j Hj) as (y & ? & ?). exists y. set_solver.
      * split; [by intros []%app_nil|]. intros Hnd%NoDup_app. set_solver.
      * intros c [Hc| ->%list_elem_of_singleton]%elem_of_app.
        -- destruct (Htext c Hc) as (p & y & z & ? & ? & ?). exists p, y, z. set_solver.
        -- destruct (Hby _ _ Hi) as (y & Hy & Hp & ->). exists (prefixOf x.2), y, x. set_solver.
    + assert (Hni : prefixOf x.2 ∉ usedPrefixes l.*2).
      { intros Hin%Hseen. rewrite Hi in Hin. by destruct Hin. }
      split; rewrite ?fmap_app; cbn [fmap list_fmap]; rewrite ?usedPrefixes_snoc, ?He; cbn [fst snd].
      * intros p. destruct (decide (p = prefixOf x.2)) as [->|Hp].
        -- rewrite lookup_insert_eq. split; [set_solver|eauto].
        -- rewrite lookup_insert_ne, Hseen by done. set_solver.
      * intros p j. destruct (decide (p = prefixOf x.2)) as [->|Hp].
        -- rewrite lookup_insert_eq. intros [= <-]. exists x. set_solver.
        -- rewrite lookup_insert_ne by done. intros Hj. destruct (Hby p j Hj) as (y & ? & ?). exists y. set_solver.
      * rewrite Hnone, NoDup_app. split; [|tauto]. intros. split_and!; [done|set_solver|apply NoDup_singleton].
      * intros c Hc. destruct (Htext c Hc) as (p & y & z & ? & ? & ?). exists p, y, z. set_solver.
Qed.

(** The operator reports no prefix conflict exactly when no two selected
    upstreams, declared or discovered, have the same tool prefix (upstreams
    without one apart), and a report names two that do, with their sources. *)
Theorem conflicts_exact crd svc :
  (detectPrefixConflicts crd svc = [] <-> NoDup (usedPrefixes (crd ++ svc))) /\
  forall c, c ∈ detectPrefixConflicts crd svc -> exists x y source source',
    x ∈ crd ++ svc /\ y ∈ crd ++ svc /\ prefixOf x = prefixOf y /\
    c = conflictText (prefixOf x) {| si_id := nn_String (keyOf KUpstream x); si_source := source |}
                                  {| si_id := nn_String (keyOf KUpstream y); si_source := source' |}.
Proof.
  rewrite detect_tagged.
  assert (Hl : ((pair "crd" <$> crd) ++ (pair "service" <$> svc)).*2 = crd ++ svc).
  { rewrite fmap_app, <-!list_fmap_compose. f_equal; apply list_fmap_id. }
  destruct (scan_ok ((pair "crd" <$> crd) ++ (pair "service" <$> svc))) as [_ _ Hnone Htext].
  rewrite Hl in Hnone. split; [done|]. intros c Hc.
  destruct (Htext c Hc) as (p & x & y & Hx & Hy & Hpx & Hpy & ->).
  exists x.2, y.2, x.1, y.1. rewrite Hpx, Hpy, <-Hl. split_and!; [by apply list_elem_of_fmap_2..|done|done].
Qed.
End PrefixConflicts.

(** ** The upstream's side *)
Section Assignment.
Context `{KubeTypes, KubeDefaults, Conditions, Unicode} {K : Type} `{!KubeApi K, !KubeLaws K}.
Implicit Types (s : K) (up : MCPUpstream) (proxy : MCPProxy).

Lemma assignedProxy_spec up proxies a :
  assignedProxy up proxies = a ->
  (a = "" /\ forall proxy, proxy ∈ proxies -> selectsUpstream up proxy = false) \/
  exists proxy, proxy ∈ proxies /\ selectsUpstream up proxy = true /\ a = nn_String (request proxy).
Proof.
  unfold assignedProxy. destruct (list_find _ proxies) as [[i p]|] eqn:Hf; intros <-.
  - right. apply list_find_Some in Hf as (Hi & Hs & _). exists p. split; [by eapply list_elem_of_lookup_2|done].
  - left. split; [done|]. intros p Hp. apply list_find_None in Hf.
    rewrite Forall_forall in Hf. by apply not_true_is_false, Hf.
Qed.

(** After a successful pass over an upstream its status names a proxy that
    selects it, or none when no proxy does, and nothing but this status has
    changed. *)
Theorem assignment_recorded req s s' d up :
  view s KUpstream req = Some up -> ReconcileUpstream req s = (s', Ok d) ->
  (exists up', view s' KUpstream req = Some up' /\
     mu_ObjectMeta up' = mu_ObjectMeta up /\ mu_Spec up' = mu_Spec up /\
     ((mst_AssignedProxy (mu_Status up') = "" /\
       forall proxy, view s KProxy (request proxy) = Some proxy -> selectsUpstream up proxy = false) \/
      exists proxy, view s KProxy (request proxy) = Some proxy /\ selectsUpstream up proxy = true /\
        mst_AssignedProxy (mu_Status up') = nn_String (request proxy))) /\
  forall k n, (k, n) <> (KUpstream, req) -> view s' k n = view s k n.
Proof.
  intros Hv. assert (Hkey : keyOf KUpstream up = req) by by eapply view_key.
  unfold ReconcileUpstream. destruct (kget _ _ s) as [s1 [o|[| |]]] eqn:Hg; try discriminate;
    [|apply kget_NotFound in Hg; congruence].
  pose proof (kget_Ok _ _ _ _ _ Hg) as Ho. rewrite Hv in Ho. injection Ho as <-.
  destruct (kget_same _ _ _ _ _ Hg) as [Hs1 _].
  intros (s2 & a & (s3 & proxies & Hl%wrapping_Ok & [= <- Ha])%abind_Ok & Hr)%abind_Ok.
  destruct (klist_same _ _ _ _ _ _ Hl) as [Hs3 _].
  assert (Hsame : same_objects s s3) by by eapply same_objects_trans.
  assert (Hin : forall q, q ∈ proxies <-> view s KProxy (request q) = Some q).
  { intros q. rewrite (klist_Ok _ _ _ _ _ _ _ Hl), (Hs1 KProxy). unfold in_scope, allLabels. cbn. tauto. }
  apply assignedProxy_spec in Ha.
  assert (Hspec : (a = "" /\ forall proxy, view s KProxy (request proxy) = Some proxy ->
      selectsUpstream up proxy = false) \/
    exists proxy, view s KProxy (request proxy) = Some proxy /\ selectsUpstream up proxy = true /\
      a = nn_String (request proxy)).
  { destruct Ha as [[-> Hno]|(p & Hp%Hin & ?)]; [left|right; eauto]. split; [done|]. intros q Hq%Hin. auto. }
  clear Ha. destruct (assignmentUnchanged up a) eqn:Hu.
  - injection Hr as <- <-. apply andb_true_iff in Hu as [Ha%bool_decide_eq_true _].
    split; [|intros; apply Hsame]. exists up. rewrite Hsame, Ha. auto.
  - apply abind_Ok in Hr as (s4 & [] & Hst%attempt_Ok%kstatus_Ok & [= <- <-]).
    destruct Hst as [Hst Hother].
    change (keyOf KUpstream (withAssignment up a)) with (keyOf KUpstream up) in *. rewrite Hkey in *.
    rewrite Hsame, Hv in Hst. cbn in Hst. rewrite withStatus_upstream in Hst.
    split; [|intros k n Hne; rewrite Hother by done; apply Hsame].
    eexists. split; [exact Hst|]. auto.
Qed.
End Assignment.
