(* ===== verification/OperatorSample.v ===== *)
(** * A sample operator run

    A cluster with one proxy, a declared upstream whose specification is in a
    ConfigMap, an annotated Service, and objects of the proxy's name that someone
    else made.  The theorems of [OperatorTheorems] are applied to it. *)
From S2P Require Export OperatorTheorems.
Open Scope Z_scope.

Module SampleOperator.
#[export] Instance unicode : Unicode := {| IsPrint _ := true |}.

(** A stand-in for YAML: the names and the sources of the upstreams. *)
Definition marshal (cfg : generatedProxyConfig) : result string string :=
  Ok (Join ((fun u => guc_Name u +:+ "=" +:+ from_option goa_Source "" (guc_OpenAPI u)) <$> gpc_Upstreams cfg)
        newline).

Definition key (ns name : string) : NamespacedName := {| nn_Namespace := ns; nn_Name := name |}.
Definition req : NamespacedName := key "prod" "gw".

Definition labelled (name : string) (labels annotations : gmap string string) : ObjectMeta := {|
  om_Name := name; om_Namespace := "prod"; om_Generation := 1; om_Labels := labels;
  om_Annotations := annotations; om_Owner := None |}.

Definition proxy : MCPProxy := {|
  px_ObjectMeta := labelled "gw" ∅ ∅;
  px_Spec := {|
    pxs_UpstreamSelector := Some {["team" := "a"]};
    pxs_NamespaceSelector := {| nss_MatchNames := [] |};
    pxs_ServiceDiscovery := Some {| sds_Enabled := true; sds_NamespaceSelector := None |};
    pxs_Replicas := None; pxs_Image := ""; pxs_Resources := "";
    pxs_Server := {| psv_Port := 0; psv_Transport := []; psv_TLS := None |};
    pxs_Naming := {| pns_Separator := ""; pns_MaxLength := 0; pns_ConflictResolution := "";
                     pns_DescriptionMaxLength := 0; pns_DescriptionTruncationSuffix := "";
                     pns_DefaultSlugRules := {| psr_ReplaceSlashes := false; psr_ReplaceBraces := false;
                       psr_ExpandCamelCase := false; psr_Lowercase := false; psr_CollapseSeparators := false |} |};
    pxs_InboundAuth := None; pxs_Telemetry := None; pxs_GatewayRef := None; pxs_RateLimits := None |};
  px_Status := {| pst_Conditions := []; pst_UpstreamCount := 0; pst_AnnotatedServiceCount := 0;
                  pst_ToolCount := 0; pst_ObservedGeneration := 0 |} |}.

Definition orders : MCPUpstream := {|
  mu_ObjectMeta := labelled "orders" {["team" := "a"]} ∅;
  mu_Spec := {|
    mus_Type := "http"; mus_ToolPrefix := "orders"; mus_ServiceRef := None;
    mus_BaseURL := "https://orders.example";
    mus_OpenAPI := {| moa_ConfigMapRef := Some {| cmr_Name := "specs-src"; cmr_Key := "orders" |};
                      moa_URL := ""; moa_AutoDiscover := None |};
    mus_Overlay := None; mus_OutboundAuth := None; mus_Transport := None; mus_Validation := None;
    mus_Commands := []; mus_RateLimit := "" |};
  mu_Status := zero_MCPUpstreamStatus |}.

Definition port80 : ServicePort := {|
  sp_Name := "http"; sp_Port := 80; sp_TargetPort := "http"; sp_Protocol := "TCP"; sp_Rest := "" |}.

Definition users : Service := {|
  svc_ObjectMeta := labelled "users" ∅
    {[AnnotationEnabled := "true"; AnnotationToolPrefix := "users"; AnnotationOpenAPIPath := "/spec.json"]};
  svc_Ports := [port80]; svc_Selector := {["app" := "users"]}; svc_Rest := "clusterIP" |}.

(** Objects of the proxy's name that are not the proxy's. *)
Definition foreignService : Service := {|
  svc_ObjectMeta := labelled "gw" ∅ ∅; svc_Ports := [port80]; svc_Selector := {["app" := "other"]};
  svc_Rest := "clusterIP" |}.
Definition foreignRoute : HTTPRoute := {|
  hr_ObjectMeta := labelled "gw" ∅ ∅;
  hr_Spec := {| hrs_ParentRefs := []; hrs_Hostnames := []; hrs_Rules := []; hrs_Rest := "defaulted" |} |}.

Definition source : ConfigMap := {|
  cm_ObjectMeta := labelled "specs-src" ∅ ∅; cm_Data := Some {["orders" := "openapi: 3.0.0"]} |}.

Definition cluster : Cluster := {|
  cl_proxies := {[req := proxy]};
  cl_upstreams := {[key "prod" "orders" := orders]};
  cl_configMaps := {[key "prod" "specs-src" := source]};
  cl_deployments := ∅;
  cl_services := {[key "prod" "users" := users; req := foreignService]};
  cl_routes := {[req := foreignRoute]};
  cl_namespaces := ∅;
  cl_faults := [] |}.

Definition pass (s : Cluster) := Reconcile marshal None req s.
Definition after1 : Cluster := (pass cluster).1.
Definition discovered : list MCPUpstream := omap (annotatedUpstream proxy) [users].

Example pass_ok : (pass cluster).2 = Ok periodicSyncInterval.
Proof. vm_compute. reflexivity. Qed.

(** What the pod reads after the pass. *)
Example reads_config :
  (d ← view after1 KDeployment req; podFile after1 "prod" (dep_Spec d) "/etc/mcp-auto" "config.yaml") =
    Some ("prod-orders=/etc/mcp-auto/specs/prod_orders.yaml" +:+ newline +:+
          "prod-users=http://users.prod.svc.cluster.local:80/spec.json").
Proof. vm_compute. reflexivity. Qed.
Example reads_spec :
  (d ← view after1 KDeployment req; podFile after1 "prod" (dep_Spec d) specsDir "prod_orders.yaml") =
    Some "openapi: 3.0.0".
Proof. vm_compute. reflexivity. Qed.

Lemma found : view cluster KProxy req = Some proxy.
Proof. reflexivity. Qed.
Lemma first_pass : pass cluster = (after1, Ok periodicSyncInterval).
Proof. unfold after1. rewrite (surjective_pairing (pass cluster)) at 1. by rewrite pass_ok. Qed.

Definition ups : list MCPUpstream := [orders] ++ discovered.

Lemma selects (s : Cluster) p crd svc :
  cl_faults s = [] -> view s KProxy req = Some p -> (listUpstreams p s).2 = Ok crd ->
  (listAnnotatedServices p (listUpstreams p s).1).2 = Ok svc -> selected req s p crd svc.
Proof.
  intros Hf Hv Hc Hs. exists s, (listUpstreams p s).1, (listAnnotatedServices p (listUpstreams p s).1).1.
  split_and!.
  - cbn in Hv |- *. by rewrite (nextFault_faultless s Hf), Hv.
  - rewrite surjective_pairing at 1. by rewrite Hc.
  - rewrite surjective_pairing at 1. by rewrite Hs.
Qed.

Lemma cluster_selects : selected req cluster proxy [orders] discovered.
Proof. apply selects; [done|apply found|vm_compute; reflexivity..]. Qed.

(** The proxy as the first pass left it. *)
Definition proxy1 : MCPProxy := default proxy (view after1 KProxy req).
Lemma found1 : view after1 KProxy req = Some proxy1.
Proof.
  assert (Hs : isSome (view after1 KProxy req) = true) by (vm_compute; reflexivity).
  unfold proxy1. by destruct (view after1 KProxy req).
Qed.
Lemma after1_selects : selected req after1 proxy1 [orders] discovered.
Proof. apply selects; [vm_compute; reflexivity|apply found1|vm_compute; reflexivity..]. Qed.

Lemma ups_separate : separate proxy ups.
Proof.
  split.
  - intros up ref Hup Href [_ Hn].
    repeat (apply elem_of_cons in Hup as [->|Hup]); [| |by apply not_elem_of_nil in Hup];
      destruct Href as [Href|Href]; cbn in Href; try discriminate; injection Href as <-;
      cbn in Hn; by repeat (apply elem_of_cons in Hn as [Hn|Hn]; [discriminate|]); apply not_elem_of_nil in Hn.
  - intros up up' Hup Hup'.
    repeat (apply elem_of_cons in Hup as [->|Hup]); [| |by apply not_elem_of_nil in Hup];
      repeat (apply elem_of_cons in Hup' as [->|Hup']); try (by apply not_elem_of_nil in Hup');
      try done; vm_compute; discriminate.
Qed.
End SampleOperator.

Import SampleOperator.


Lemma Reconcile_idempotent_witness : same_objects after1 (pass after1).1.
Proof.
  exact (Reconcile_idempotent marshal None req cluster after1 (pass after1).1 periodicSyncInterval
    (pass after1).2 proxy proxy1 [orders] discovered found first_pass cluster_selects after1_selects
    ups_separate (surjective_pairing _)).
Defined.

Lemma sources_present : sourcesPresent cluster ups.
Proof.
  intros up ref Hup _ Href. repeat (apply elem_of_cons in Hup as [->|Hup]); [| |by apply not_elem_of_nil in Hup];
    destruct Href as [Href|Href]; cbn in Href; try discriminate; injection Href as <-.
  exists "openapi: 3.0.0". reflexivity.
Qed.


(** The Service that is discovered is not touched. *)
Lemma Reconcile_footprint_witness :
  view after1 KService (key "prod" "users") = view cluster KService (key "prod" "users").
Proof.
  apply (Reconcile_footprint marshal None req cluster after1 (Ok periodicSyncInterval)); [apply first_pass|].
  intros [_ Hn]. discriminate.
Defined.

Definition specOf (o : option Deployment) : option DeploymentSpec := dep_Spec <$> o.


(** The broken cluster: no ConfigMap is needed to fail the generation. *)
Definition badOrders : MCPUpstream := {|
  mu_ObjectMeta := mu_ObjectMeta orders;
  mu_Spec := zero_MCPUpstreamSpec;
  mu_Status := zero_MCPUpstreamStatus |}.
Definition badCluster : Cluster := {|
  cl_proxies := {[req := proxy]}; cl_upstreams := {[key "prod" "orders" := badOrders]};
  cl_configMaps := ∅; cl_deployments := ∅; cl_services := ∅; cl_routes := {[req := foreignRoute]};
  cl_namespaces := ∅; cl_faults := [] |}.

Lemma generation_failure_keeps_objects_witness :
  (pass badCluster).2 = Err (GeneratingConfig (BuildingUpstream "prod" "orders" (NoBaseURL "prod" "orders"))) /\
  view (pass badCluster).1 KRoute req = view badCluster KRoute req.
Proof.
  assert (Hsel : selected req badCluster proxy [badOrders] []).
  { apply selects; [done|reflexivity|vm_compute; reflexivity..]. }
  destruct (generation_failure_keeps_objects marshal None req badCluster (pass badCluster).1 (pass badCluster).2
    proxy [badOrders] [] (BuildingUpstream "prod" "orders" (NoBaseURL "prod" "orders")) Hsel) as [He Hk];
    [vm_compute; reflexivity|apply surjective_pairing|].
  split; [exact He|]. by apply Hk.
Defined.

Lemma no_faults : faultless cluster.
Proof. reflexivity. Qed.


(** Before the pass the Service selected other pods, and the route was there. *)
Lemma foreign_objects_taken_over_witness :
  (svc_Selector <$> view cluster KService req) = Some {["app" := "other"]} /\
  (svc_Selector <$> view after1 KService req) = Some (podLabels proxy) /\
  isSome (view cluster KRoute req) = true /\ view after1 KRoute req = None.
Proof.
  destruct (foreign_objects_taken_over marshal None req cluster after1 periodicSyncInterval proxy found first_pass)
    as [Hr Hs].
  split_and!; [reflexivity|exact Hs|reflexivity|by apply Hr].
Defined.

Definition ls : MCPUpstream := {|
  mu_ObjectMeta := labelled "ls" ∅ ∅;
  mu_Spec := {|
    mus_Type := "command"; mus_ToolPrefix := "sh"; mus_ServiceRef := None; mus_BaseURL := "";
    mus_OpenAPI := zero_MCPUpstreamOpenAPISpec; mus_Overlay := None; mus_OutboundAuth := None;
    mus_Transport := None; mus_Validation := None;
    mus_Commands := [{| mcs_ToolName := "ls"; mcs_Description := ""; mcs_Command := "ls";
      mcs_InputSchema := {| mci_Type := ""; mci_Properties := ∅; mci_Required := [] |};
      mcs_Timeout := ""; mcs_Env := ∅; mcs_WorkingDir := ""; mcs_Shell := false; mcs_MaxOutput := 0 |}];
    mus_RateLimit := "" |};
  mu_Status := zero_MCPUpstreamStatus |}.

(** A complete command upstream that the generator takes and the webhook refuses. *)
Lemma command_upstream_inadmissible_witness :
  is_ok (buildUpstreamConfig ls) = true /\ is_ok (admitUpstream (AdmitCreate ls)) = false.
Proof.
  split; [reflexivity|].
  exact (proj1 (proj1 (command_upstream_inadmissible ls eq_refl) eq_refl eq_refl ls)).
Defined.

Lemma admitted_upstream_generates_witness : is_ok (buildUpstreamConfig orders) = true.
Proof. by apply (proj1 admitted_upstream_generates). Defined.

Lemma assignment_recorded_witness : exists up' p,
  view (ReconcileUpstream (key "prod" "orders") cluster).1 KUpstream (key "prod" "orders") = Some up' /\
  view cluster KProxy (request p) = Some p /\ mst_AssignedProxy (mu_Status up') = nn_String (request p).
Proof.
  destruct (assignment_recorded (key "prod" "orders") cluster (ReconcileUpstream (key "prod" "orders") cluster).1
    periodicSyncInterval orders) as [(up' & Hv & _ & _ & Ha) _]; [reflexivity|rewrite surjective_pairing at 1;
    f_equal; vm_compute; reflexivity|].
  destruct Ha as [[_ Hno]|(p & Hp & _ & Ha)].
  - specialize (Hno proxy found). vm_compute in Hno. discriminate.
  - exists up', p. auto.
Defined.
